(* ===== verification/_CoqProject ===== *)
-Q . S2P
Prelude.v
Streams.v
AxiUtils.v
AxiText.v
WidthConv.v
ShiftOctet.v
EthPadding.v
Mergers.v
Tlb.v
PageBoundary.v
DmaBench.v
MemoryManager.v
MemoryThreads.v
Mmio.v
FpgaController.v
DmaController.v
DmaInf.v
ControlMutex.v
ControllerMapping.v
BenchmarkController.v
BenchmarkRole.v
XdmaIoctl.v
XdmaProbe.v
XdmaFile.v
XdmaModule.v
DdrController.v
MemInf.v
AxiLite.v
RegisterBus.v
Fpga.v
DmaPath.v
Traffic.v
Sessions.v
System.v
Throughput.v
Main.v
Debug.v
