(* ===== verification/Prelude.v ===== *)
(** * Verification of the FPGA DMA driver stack

    The repository contains an FPGA shell that gives hardware applications
    access to the memory of the host, and the host software that controls it:

    - C++ functions that are synthesised to hardware ([src/hls]): stream
      helpers, the TLB that translates the virtual addresses of the host, the
      block that splits write commands at page boundaries, the engine that
      measures the throughput of the DMA, and the padding of Ethernet frames;
    - SystemVerilog that connects them to vendor IP ([src/hdl]);
    - a host library and program ([src/sw]) that initialises the TLB, manages
      the DMA buffer and runs benchmarks through memory-mapped registers;
    - a kernel driver ([src/driver]).

    ** Files

    - [Prelude] (this file): machine integers, bit ranges, the bytes of a
      word, automation ([bitwise], [bool_cases], the hint databases [bits] and
      [hls]).
    - [Streams]: the execution model of the hardware blocks.  A block is a
      function of its static variables and input FIFOs, called once per clock
      cycle; [run] calls it along a schedule of arrivals and of the values of
      its uninitialised variables.  [consumes] and [computes] describe what a
      block does with a complete input, and the lemmas [run_computes] and
      [computes_compose] lift that to all schedules and to blocks connected by FIFOs.
    - [AxiUtils]: words of the AXI streams and the helpers of
      [src/hls/axi_utils.hpp] and [.cpp]; [carries ws bs] says that the words
      of a packet carry given bytes, and the data path theorems are stated
      with it.
    - [AxiText]: the text input and output of words in [src/hls/axi_utils.hpp],
      with the operations of the standard streams it uses.
    - [WidthConv], [ShiftOctet], [Mergers]: the converters, shifters and
      mergers of [src/hls/axi_utils.hpp].
    - [EthPadding]: [src/hls/ethernet_frame_padding].
    - [Tlb]: [src/hls/tlb].
    - [PageBoundary]: [src/hls/mem_write_cmd_page_boundary_check_512].
    - [DmaBench]: [src/hls/dma_bench].
    - [MemoryManager]: [src/sw/src/fpga/MemoryManager.cpp] and [.h].
    - [MemoryThreads]: the same class with several threads, as a step relation
      over the heap of chunk objects, the mutex and the program counter of
      each thread, and the destructor.
    - [Mmio]: the effects of the host software and the interfaces
      [MmioDevice], what the software needs of a device, [Routed], what a
      register block needs of the address decoding in front of it, and
      [Apart], that other accesses leave it alone.
    - [FpgaController]: [src/sw/src/fpga/FpgaController.cpp] and [.h], against
      the interface [MmioDevice].
    - [DmaController], [BenchmarkController]: the register blocks of
      [src/hdl/common/dma_controller.sv] and [benchmark_controller.sv], with
      the result registers of [benchmark_role.sv], and what the operations
      of [FpgaController] achieve on a board that contains them.
    - [ControlMutex]: [FpgaController] called by several threads: the public
      functions as programs whose register accesses interleave under
      [ctrl_mutex].
    - [ControllerMapping]: the constructor and destructor of [FpgaController], and
      when the offsets that the other files work with are right.
    - [BenchmarkRole]: [src/hdl/common/benchmark_role.sv] clock by clock, with the
      engines of [DmaBench] in it; it gives the engines that
      [BenchmarkController] takes as parameters their meaning.
    - [DdrController]: the statistics registers of
      [src/hdl/common/ddr_controller.sv].
    - [AxiLite], [RegisterBus]: the AXI-lite processes of the three register
      blocks clock by clock, and the blocks as instances of them.
    - [XdmaIoctl], [XdmaProbe], [XdmaFile], [XdmaModule]:
      [src/driver/xdma_driver.c], the operations that pin the huge pages of a
      process, those that bring the device up and down and find its
      register blocks, the device file with several open files, and the life of
      the module with several cards.
    - [Fpga]: [src/sw/src/fpga/Fpga.cpp], [Fpga.h] and [Configuration.h], on top
      of the driver, the registers and the allocator.
    - [DmaPath]: the way of write commands through [src/hdl/common/dma_inf.sv],
      and the statement about writes to the buffer.
    - [DmaInf], [Traffic]: the rest of [src/hdl/common/dma_inf.sv] - descriptor bypass and
      statistics clock by clock, and the reads - and what the host reads of the
      traffic.
    - [MemInf]: [src/hdl/common/mem_single_inf.sv], the commands for the data mover and the
      statistics of a memory channel, and what the host reads of them.
    - [Sessions]: what a program takes from the operating system and the driver
      and gives back, and several programs one after the other.
    - [System]: the way of a write benchmark, from the initialisation and the call of
      the host to the pinned pages.
    - [Main], [Debug]: the programs [src/sw/src/main.cpp] and [debug.cpp];
      [Throughput]: the floating-point computation at the end of [main].

    ** Correspondence of state and operations

    The [static] variables of an HLS function are the fields of a record
    ([tlb_state], [ps_vars], [cg_vars], ...), its body is one definition with
    the name of the function ([tlb], [pkg_split], [cmd_generator], ...), an
    [hls::stream] is a list with its head next to be read.  A local variable
    that the code reads before it assigns it is an argument of the
    definition, over which the theorems quantify.  [ap_uint<w>] is [Z] with
    [wrap w] where the code assigns.  A read outside an array and a function
    without [return] are [None] or [Undefined].

    Host functions are programs in the monad [M D] over a state [D]: they
    return, end the process, are undefined, or are still running when the fuel
    of their loop is used up.  Fuel occurs in [poll] ([ppoll]), where
    [host_write_benchmark] and [host_read_benchmark] give the number of rounds
    after which the loop ends, and in [destroy], where one round per chunk is
    enough ([destructor_deletes_all]); the other loops are structural, and
    [main_never_returns] holds for any fuel.  The functions of the kernel
    driver are in the same monad over [driver]; [probe] and [remove] give the
    list of the resources they acquire and release.  The kernel functions they
    call are fields of the records [kernel] and [pci_dev], about which
    [kernel_ok] and [pci_ok] say what the kernel documents.  Theorems about schedules quantify
    over all arrival times; those with a number of cycles hold for any number
    of further cycles.

    The register blocks exist at two levels.  [DmaController],
    [BenchmarkController] and [DdrController] take one complete read or write as a
    step; in [RegisterBus] they are the processes of the SystemVerilog, one
    definition per clock, over the records [read_regs] and [write_regs] of
    [AxiLite], which say what a block does in the states the three have in
    common.  The refinement theorems say that the accesses completed in any
    number of clocks are accesses of the first level in their order.

    Threads are programs with a program counter ([MemoryThreads]) or with the
    rest of their program ([ControlMutex]); a step of the system is a step of one
    of them, and the theorems hold in every state that steps reach.
    [execute] and [advance] choose the step of a given thread, for instances.

    ** What the theorems show

    - Data path: the page splitter sends exactly the commands and bytes that
      the specification [split_cmd], [split_bytes] says, for every schedule,
      as long as the distance to the page boundary is a multiple of 8; the
      converters and shifters preserve or shift the bytes and undo each
      other; short frames are padded to 60 bytes; the mergers lose no words;
      a word that is printed is read back, unless its keep signal has more
      than 32 bits.
    - TLB: programming it with the pages of a buffer makes it translate every
      address of the buffer to the right physical address, but keeps what was mapped behind them; well-formedness is
      invariant; which commands are undefined.
    - Benchmark engine: number, addresses and contents of the accesses, whatever the streams hold up, and
      the exact number of cycles that is reported ([accept_cycles], [take_cycles]).
    - Memory manager: the chunks cover the buffer at all times, allocations of any size
      are disjoint, zeroed and fail exactly when no free chunk is big enough; sizes that are rounded to zero give empty chunks.
      With threads, whose clients keep to the protocol of [tstep], the allocations stay disjoint and zeroed and the calls make
      progress, although [free] does not take the mutex; what remains is a
      data race on a link of the list ([concurrent_next_race]).
    - Registers: the sequences of register accesses of the host library have
      the meant effect on the register blocks.  Concurrent calls have the
      effect of calls made one after the other; calls on an object whose
      registers are not mapped are undefined.  The register blocks
      implement their transaction-level models, their registers stay in range,
      and every access completes.
    - Benchmarks: from the call of the host through the register block, the role
      and the engine to the memory and back, the host gets the cycles the
      engine has measured for exactly the accesses it asked for; the two
      channels of the memory benchmark do not influence each other.
    - Driver: the addresses a process gets are those of the pages that have been
      pinned for it; the invariant of the ioctl operations; what [probe]
      acquires is released by [remove], and what a failing [probe] leaves
      behind; which BARs and engines are used.  With one card, and
      if no failed [probe] has left anything, the module can be
      loaded, unloaded, plugged and unplugged in any order
      ([one_card_lifecycle]); a second card is where it fails.  Pages stay
      pinned when the files are closed, for a file that leads to an instance; one of
      the misc device does not ([pins_outlive_files]).
    - Whole stack: [initializeMemory_maps_buffer] composes the driver, the
      register accesses, the register block and the TLB: after the
      initialisation the TLB translates each address of the buffer to the
      physical address the kernel gave to it.
      [buffer_writes_reach_pinned_pages] adds the page splitter: the writes of
      the hardware to the buffer go to the physical bytes that were pinned for
      them.  [write_benchmark_reaches_buffer]
      composes all of it with the benchmark: what a benchmark on the buffer
      writes arrives at the pinned bytes.  [read_benchmark_reads_buffer] is the same for reads, which
      must not cross a page ([reads_not_split]).  [writes_are_counted]: what the hardware
      writes is what the host reads from the length counter.  [debug_reports] adds the print
      functions: the debug program prints the counters of the hardware under
      their names.  [sessions_accumulate_pins]: programs can follow one another, but
      their buffers stay pinned; [host_resources_balanced]: descriptors and mapped
      areas are given back.  [main_never_returns]: the benchmark program does not get
      past its call of [Fpga::allocate].
    - Defects: where the code does not do what it means to, a theorem states
      what it does instead (for example [fair_pkg_merger_deadlock],
      [allocate_overflow]).

    ** Not modelled

    - The constants and pragmas of the synthesis; FIFO depths, except for the
      command and data streams of the benchmark engine, which may be full.
    - The test benches; they only call the blocks with fixed inputs.
    - The steps of the threads are in the order of the program; what a weaker
      memory model allows after the data race is undefined anyway.
    - The memory management of the kernel (page tables, reference counts of
      pages other than those the driver takes), its locks and log messages:
      the calls on the device file are taken one at a time, which the driver,
      having no lock of its own, does not ensure.
    - In [XdmaFile] the address of the [cdev] that an inode points to is an
      argument: for one inside an instance the calls reach the instance, for
      that of a misc device ([pins_outlive_files]) they follow an invalid
      pointer.
    - The option parser and the text of [main.cpp] other than the register
      reports.
    - The remaining SystemVerilog and Verilog, which is wiring of vendor IP. *)
From Stdlib Require Export ZArith Lia.
From stdpp Require Export prelude.

Create Rewrite HintDb hls.
Create Rewrite HintDb bits.
Declare Scope hls_scope.
Delimit Scope hls_scope with hls.
#[export] Set Default Goal Selector "!".
#[global] Open Scope Z_scope.

(** ** Machine-width integers ([ap_uint<w>], [size_t], [uint32_t]) *)

(** Assigning [x] to a [w]-bit unsigned variable. *)
Definition wrap (w x : Z) : Z := x mod 2 ^ w.

(** Reading the bit range [x(hi, lo)]. *)
Definition range (x hi lo : Z) : Z := wrap (hi - lo + 1) (Z.shiftr x lo).

(** Assigning the bit range [x(hi, lo) = v]. *)
Definition set_range (x hi lo v : Z) : Z :=
  Z.lor (Z.ldiff x (Z.shiftl (Z.ones (hi - lo + 1)) lo))
        (Z.shiftl (wrap (hi - lo + 1) v) lo).

(** [k] low bits of [a] below [b]. *)
Definition join (k a b : Z) : Z := Z.lor (wrap k a) (Z.shiftl b k).

(** The [m] low bytes of [x], least significant first. *)
Fixpoint bytes (m : nat) (x : Z) : list Z :=
  match m with
  | O => []
  | S m => wrap 8 x :: bytes m (Z.shiftr x 8)
  end.

(** The inverse of [bytes]. *)
Fixpoint of_bytes (l : list Z) : Z :=
  match l with
  | [] => 0
  | b :: l => join 8 b (of_bytes l)
  end.

Notation "x '.[' hi ',' lo ']'" := (range x hi lo)
  (at level 1, left associativity, hi at level 200, lo at level 200) : hls_scope.

(** ** Tactics of the development *)

(** Split every boolean comparison of the goal into its arithmetic meaning. *)
Ltac bool_cases :=
  repeat match goal with
    | |- context [?a <? ?b] => destruct (Z.ltb_spec a b)
    | |- context [?a <=? ?b] => destruct (Z.leb_spec a b)
    | |- context [?a =? ?b] => destruct (Z.eqb_spec a b)
    | |- context [?a >? ?b] => rewrite (Z.gtb_ltb a b)
    end; cbn [andb orb negb]; try lia.

(** The same for the hypotheses. *)
Ltac bool_hyps :=
  repeat match goal with
    | H : (_ && _) = true |- _ => apply andb_true_iff in H as [? ?]
    | H : (_ || _) = false |- _ => apply orb_false_iff in H as [? ?]
    | H : (_ <? _) = true |- _ => apply Z.ltb_lt in H
    | H : (_ <? _) = false |- _ => apply Z.ltb_ge in H
    | H : (_ <=? _) = true |- _ => apply Z.leb_le in H
    | H : (_ <=? _) = false |- _ => apply Z.leb_gt in H
    | H : (_ =? _) = true |- _ => apply Z.eqb_eq in H
    | H : (_ =? _) = false |- _ => apply Z.eqb_neq in H
    | H : negb _ = true |- _ => apply negb_true_iff in H
    | H : negb _ = false |- _ => apply negb_false_iff in H
    end.

(** A decidable statement about every integer of a short range is proved by
    evaluating it everywhere. *)
Lemma forall_range (P : Z -> Prop) a n : Forall P (seqZ a n) -> forall x, a <= x < a + n -> P x.
Proof.
  intros H x Hx. rewrite Forall_forall in H. apply H, elem_of_seqZ. lia.
Qed.

Ltac check_range a n x :=
  revert x; apply (forall_range _ a n); repeat constructor.

(** ** [wrap] *)

Lemma wrap_bound w x : 0 <= w -> 0 <= wrap w x < 2 ^ w.
Proof. intros. apply Z.mod_pos_bound. lia. Qed.

Lemma wrap_small w x : 0 <= x < 2 ^ w -> wrap w x = x.
Proof. apply Z.mod_small. Qed.

Lemma wrap_wrap w v x : 0 <= w <= v -> wrap w (wrap v x) = wrap w x.
Proof.
  intros. unfold wrap. replace (2 ^ v) with (2 ^ w * 2 ^ (v - w)) by (rewrite <- Z.pow_add_r by lia; f_equal; lia).
  rewrite Z.rem_mul_r by lia. rewrite Z.mul_comm, Z_mod_plus_full.
  apply Z.mod_mod. lia.
Qed.

Lemma wrap_idemp w x : 0 <= w -> wrap w (wrap w x) = wrap w x.
Proof. intros. apply wrap_wrap. lia. Qed.

Lemma wrap_wrap_ge w v x : 0 <= v <= w -> wrap w (wrap v x) = wrap v x.
Proof.
  intros. apply wrap_small. pose proof (wrap_bound v x ltac:(lia)).
  pose proof (Z.pow_le_mono_r 2 v w). lia.
Qed.

Lemma wrap_add_l w x y : 0 <= w -> wrap w (wrap w x + y) = wrap w (x + y).
Proof. intros. apply Zplus_mod_idemp_l. Qed.

Lemma wrap_add_r w x y : 0 <= w -> wrap w (x + wrap w y) = wrap w (x + y).
Proof. intros. apply Zplus_mod_idemp_r. Qed.

Lemma wrap_sub_l w x y : 0 <= w -> wrap w (wrap w x - y) = wrap w (x - y).
Proof. intros. apply Zminus_mod_idemp_l. Qed.

Lemma wrap_sub_r w x y : 0 <= w -> wrap w (x - wrap w y) = wrap w (x - y).
Proof. intros. apply Zminus_mod_idemp_r. Qed.

Lemma wrap_0 w : 0 <= w -> wrap w 0 = 0.
Proof. intros. apply wrap_small. lia. Qed.

#[export] Hint Rewrite wrap_idemp wrap_0 using lia : hls.

(** ** Bits *)

Lemma testbit_wrap w x i : 0 <= w -> Z.testbit (wrap w x) i = (i <? w) && Z.testbit x i.
Proof.
  intros. unfold wrap. destruct (Z.ltb_spec i w).
  - destruct (Z.leb_spec 0 i).
    + by rewrite Z.mod_pow2_bits_low.
    + by rewrite !Z.testbit_neg_r by lia.
  - by rewrite Z.mod_pow2_bits_high by lia.
Qed.

Lemma testbit_ones w i : 0 <= w -> Z.testbit (Z.ones w) i = (0 <=? i) && (i <? w).
Proof.
  intros. destruct (Z.leb_spec 0 i).
  - destruct (Z.ltb_spec i w).
    + by rewrite Z.ones_spec_low by lia.
    + by rewrite Z.ones_spec_high by lia.
  - by rewrite Z.testbit_neg_r by lia.
Qed.

Lemma testbit_shiftl x k i : Z.testbit (Z.shiftl x k) i = (0 <=? i) && Z.testbit x (i - k).
Proof.
  destruct (Z.leb_spec 0 i).
  - by rewrite Z.shiftl_spec by lia.
  - by rewrite Z.testbit_neg_r by lia.
Qed.

Lemma testbit_shiftr x k i : Z.testbit (Z.shiftr x k) i = (0 <=? i) && Z.testbit x (i + k).
Proof.
  destruct (Z.leb_spec 0 i).
  - by rewrite Z.shiftr_spec by lia.
  - by rewrite Z.testbit_neg_r by lia.
Qed.

Lemma testbit_range x hi lo i : 0 <= lo <= hi + 1 ->
  Z.testbit (range x hi lo) i = (0 <=? i) && (i <=? hi - lo) && Z.testbit x (i + lo).
Proof.
  intros. unfold range. rewrite testbit_wrap, testbit_shiftr by lia.
  by bool_cases.
Qed.

Lemma testbit_set_range x hi lo v i : 0 <= lo <= hi + 1 ->
  Z.testbit (set_range x hi lo v) i =
  if (lo <=? i) && (i <=? hi) then Z.testbit v (i - lo) else Z.testbit x i.
Proof.
  intros. unfold set_range.
  rewrite Z.lor_spec, Z.ldiff_spec, !testbit_shiftl, testbit_ones, testbit_wrap by lia.
  destruct (Z.leb_spec 0 i); [|rewrite !(Z.testbit_neg_r _ i) by lia; by bool_cases].
  bool_cases; rewrite ?andb_true_r, ?andb_false_r, ?orb_false_r; try done.
  by rewrite (Z.testbit_neg_r v), orb_false_r by lia.
Qed.

Lemma testbit_join k a b i : 0 <= k ->
  Z.testbit (join k a b) i = if i <? k then Z.testbit a i else Z.testbit b (i - k).
Proof.
  intros. unfold join. rewrite Z.lor_spec, testbit_wrap, testbit_shiftl by lia.
  destruct (Z.ltb_spec i k); cbn.
  - rewrite (Z.testbit_neg_r b) by lia. by rewrite andb_false_r, orb_false_r.
  - bool_cases; done.
Qed.

#[export] Hint Rewrite testbit_wrap testbit_range testbit_set_range testbit_join
  testbit_ones testbit_shiftl testbit_shiftr Z.lor_spec Z.land_spec Z.ldiff_spec
  Z.testbit_0_l using lia : bits.

(** Equality of integers bit by bit. *)
Ltac bitwise :=
  apply Z.bits_inj'; intros ?i ?Hi; autorewrite with bits;
  bool_cases; rewrite ?andb_true_r, ?andb_false_r, ?orb_false_r; try done;
  try (f_equal; lia).

Lemma wrap_testbit_high w x i : 0 <= w <= i -> wrap w x = x -> Z.testbit x i = false.
Proof. intros ? <-. rewrite testbit_wrap by lia. by bool_cases. Qed.

(** Two assignments [x(k-1,0) = a; x(W-1,k) = b] overwrite the whole of a
    [W]-bit variable, whatever it held. *)
Lemma set_range_cover W k x a b : 0 <= k <= W -> wrap W x = x ->
  set_range (set_range x (k - 1) 0 a) (W - 1) k b = join k a (wrap (W - k) b).
Proof.
  intros Hk Hx. bitwise.
  apply (wrap_testbit_high W); [lia | done].
Qed.

(** The same with the ranges assigned from the top. *)
Lemma set_range_high W k x b : 0 <= k <= W -> wrap W x = x ->
  set_range x (W - 1) k b = join k x (wrap (W - k) b).
Proof.
  intros Hk Hx. bitwise.
  apply (wrap_testbit_high W); [lia | done].
Qed.

Lemma set_range_wrap W hi lo x v : 0 <= lo <= hi + 1 -> hi < W -> wrap W x = x ->
  wrap W (set_range x hi lo v) = set_range x hi lo v.
Proof.
  intros ? ? Hx. bitwise. symmetry. apply (wrap_testbit_high W); [lia | done].
Qed.

(** A variable assigned range by range stays within its width. *)
Ltac fits := repeat (apply set_range_wrap; [lia | lia |]); try done.

Lemma range_ones k hi lo : 0 <= lo <= hi + 1 -> 0 <= k ->
  range (Z.ones k) hi lo = Z.ones (Z.min (Z.max 0 (k - lo)) (hi - lo + 1)).
Proof. intros. bitwise. Qed.

Lemma join_ones k m : 0 <= k -> 0 <= m -> join k (Z.ones k) (Z.ones m) = Z.ones (k + m).
Proof. intros. bitwise. Qed.

Lemma join_ones_eq k k' m : 0 <= k -> k' = k -> 0 <= m -> join k (Z.ones k') (Z.ones m) = Z.ones (k + m).
Proof. intros ? -> ?. by apply join_ones. Qed.

Lemma join_0_r k a : 0 <= k -> join k a 0 = wrap k a.
Proof. intros. bitwise. Qed.

Lemma wrap_ones w k : 0 <= w -> 0 <= k -> wrap w (Z.ones k) = Z.ones (Z.min w k).
Proof. intros. bitwise. Qed.

Lemma ones_inj a b : 0 <= a -> 0 <= b -> Z.ones a = Z.ones b -> a = b.
Proof.
  intros ? ? E. rewrite !Z.ones_equiv in E.
  apply (Z.pow_inj_r 2); lia.
Qed.

(** ** Bytes *)

Lemma length_bytes m x : length (bytes m x) = m.
Proof. revert x. induction m; intros; simpl; [done | by rewrite IHm]. Qed.

Lemma bytes_ext m x y :
  (forall i, 0 <= i < 8 * Z.of_nat m -> Z.testbit x i = Z.testbit y i) -> bytes m x = bytes m y.
Proof.
  revert x y. induction m as [|m IH]; intros x y H; simpl; [done|]. f_equal.
  - bitwise. apply H. lia.
  - apply IH. intros i Hi. rewrite !testbit_shiftr. bool_cases. apply H. lia.
Qed.

Lemma bytes_wrap m w x : 8 * Z.of_nat m <= w -> bytes m (wrap w x) = bytes m x.
Proof. intros. apply bytes_ext. intros. rewrite testbit_wrap by lia. by bool_cases. Qed.

Lemma bytes_range m x hi lo : 0 <= lo -> 8 * Z.of_nat m <= hi - lo + 1 ->
  bytes m (range x hi lo) = bytes m (Z.shiftr x lo).
Proof. intros. unfold range. by rewrite bytes_wrap. Qed.

Lemma bytes_app a b x :
  bytes (a + b) x = bytes a x ++ bytes b (Z.shiftr x (8 * Z.of_nat a)).
Proof.
  revert x. induction a as [|a IH]; intros x; cbn [bytes Nat.add app]; [by rewrite Z.shiftr_0_r|].
  rewrite IH, Z.shiftr_shiftr by lia. do 4 f_equal. lia.
Qed.

Lemma bytes_join p q a b :
  bytes (p + q) (join (8 * Z.of_nat p) a b) = bytes p a ++ bytes q b.
Proof.
  rewrite bytes_app. f_equal; apply bytes_ext; intros.
  - rewrite testbit_join by lia. by bool_cases.
  - rewrite testbit_shiftr, testbit_join by lia. bool_cases. f_equal. lia.
Qed.

Lemma bytes_0 m : bytes m 0 = replicate m 0.
Proof. induction m as [|m IH]; simpl; [done|]. by rewrite wrap_0, Z.shiftr_0_l, IH. Qed.

Lemma take_bytes k m x : take k (bytes m x) = bytes (k `min` m) x.
Proof.
  revert k x. induction m as [|m IH]; intros [|k] x; simpl; try done. by rewrite IH.
Qed.

Lemma drop_bytes k m x : drop k (bytes m x) = bytes (m - k) (Z.shiftr x (8 * Z.of_nat k)).
Proof.
  revert k x. induction m as [|m IH]; intros [|k] x; cbn [bytes drop Nat.sub]; try done.
  rewrite IH, Z.shiftr_shiftr by lia. f_equal. f_equal. lia.
Qed.

Lemma of_bytes_bytes m x : of_bytes (bytes m x) = wrap (8 * Z.of_nat m) x.
Proof.
  revert x. induction m as [|m IH]; intros x; cbn [bytes of_bytes].
  - unfold wrap. by rewrite Z.mod_1_r.
  - rewrite IH. bitwise.
Qed.

Lemma bytes_of_bytes l : Forall (fun b => 0 <= b < 256) l -> bytes (length l) (of_bytes l) = l.
Proof.
  induction 1 as [|b l Hb _ IH]; cbn [bytes of_bytes length]; [done|].
  f_equal.
  - transitivity (wrap 8 b); [bitwise | by apply wrap_small].
  - etransitivity; [|exact IH]. apply bytes_ext. intros. autorewrite with bits. bool_cases. f_equal. lia.
Qed.

Lemma bytes_bounded m x : Forall (fun b => 0 <= b < 256) (bytes m x).
Proof.
  revert x. induction m as [|m IH]; intros x; simpl; constructor; [|done].
  by apply (wrap_bound 8).
Qed.

#[export] Hint Rewrite length_bytes : hls.

Lemma lookup_bytes m x i : (i < m)%nat ->
  bytes m x !! i = Some (wrap 8 (Z.shiftr x (8 * Z.of_nat i))).
Proof.
  intros Hi. revert x i Hi. induction m as [|m IH]; intros x [|i] Hi; cbn [bytes]; try lia.
  - by rewrite Z.mul_0_r, Z.shiftr_0_r.
  - cbn. rewrite IH by lia. rewrite Z.shiftr_shiftr by lia. do 3 f_equal. lia.
Qed.

Lemma lookup_rev {A} (l : list A) i : (i < length l)%nat -> rev l !! i = l !! (length l - S i)%nat.
Proof. intros. rewrite <- reverse_lookup by done. unfold reverse. by rewrite rev_alt. Qed.

Lemma bytes_inj_wrap n x y : bytes n x = bytes n y -> wrap (8 * Z.of_nat n) x = wrap (8 * Z.of_nat n) y.
Proof. intros H. by rewrite <- !of_bytes_bytes, H. Qed.

(** A range assignment in a loop over the bytes or bits of a word. *)
Lemma seqZ_snoc m : seqZ 0 (Z.of_nat (S m)) = seqZ 0 (Z.of_nat m) ++ [Z.of_nat m].
Proof. by rewrite Nat2Z.inj_succ, <- Z.add_1_r, seqZ_app by lia. Qed.

Lemma set_range_pair W h k x a b : 0 <= k <= W -> wrap W x = x -> h = k - 1 ->
  set_range (set_range x h 0 a) (W - 1) k b = join k a (wrap (W - k) b).
Proof. intros ? ? ->. by apply set_range_cover. Qed.

(** Reading ranges of a variable assigned range by range. *)
Lemma range_set_range_other x hi lo v h l : 0 <= lo <= hi + 1 -> 0 <= l <= h + 1 -> h < lo \/ hi < l ->
  range (set_range x hi lo v) h l = range x h l.
Proof. intros. bitwise. Qed.

Lemma range_set_range_pair x m hi lo a b : 0 <= lo <= m -> m <= hi + 1 ->
  range (set_range (set_range x (m - 1) lo a) hi m b) hi lo = join (m - lo) a (wrap (hi - m + 1) b).
Proof. intros. bitwise. Qed.

Lemma join_halves w v : 0 <= w -> join w (wrap w v) (wrap w (Z.shiftr v w)) = wrap (2 * w) v.
Proof. intros. bitwise. Qed.

Lemma testbit_set_range_other x hi lo v i : 0 <= lo <= hi + 1 -> i < lo \/ hi < i ->
  Z.testbit (set_range x hi lo v) i = Z.testbit x i.
Proof. intros. rewrite testbit_set_range by lia. by bool_cases. Qed.

Lemma join_parts w k v : 0 <= w -> 0 <= k -> join w (wrap w v) (wrap k (Z.shiftr v w)) = wrap (w + k) v.
Proof. intros. bitwise. Qed.

Lemma range_set_range_same x hi lo v : 0 <= lo <= hi + 1 -> range (set_range x hi lo v) hi lo = wrap (hi - lo + 1) v.
Proof. intros. bitwise. Qed.
