(* ===== verification/Streams.v ===== *)
(** The execution model of the HLS blocks.

    A block is a C++ function with static variables that is called once per
    clock cycle and that reads and writes [hls::stream] FIFOs.  It is modelled
    by a step function [J -> St -> In -> St * In * Out]: [St] holds the static
    variables, [In] the contents of the input FIFOs (oldest word first), [Out]
    the words written in this cycle and [J] the values that uninitialised
    local variables happen to hold.  [run] calls the block cycle after cycle
    while the environment appends words to the input FIFOs.

    [computes] says what a block produces from a given total input however
    that input is spread over the cycles and whatever the uninitialised
    variables hold; [settles] is the same statement about [run].  [computes]
    is closed under connecting two blocks by a FIFO ([computes_compose]),
    which is how dataflow regions are verified. *)
From S2P Require Import Prelude.

(** Contents of a group of FIFOs. *)
Class Fifos (I : Type) := {
  fnil : I;
  fapp : I -> I -> I;
  fapp_nil_l : forall x, fapp fnil x = x;
  fapp_nil_r : forall x, fapp x fnil = x;
  fapp_assoc : forall x y z, fapp x (fapp y z) = fapp (fapp x y) z;
  fapp_nil_inv : forall x y, fapp x y = fnil -> x = fnil /\ y = fnil;
}.

#[export] Hint Rewrite @fapp_nil_l @fapp_nil_r : hls.

#[export] Instance list_fifos A : Fifos (list A).
Proof.
  refine {| fnil := []; fapp := app |}.
  - done.
  - apply app_nil_r.
  - apply app_assoc.
  - intros x y H. by apply app_nil in H.
Defined.

#[export] Instance unit_fifos : Fifos unit.
Proof. refine {| fnil := tt; fapp := fun _ _ => tt |}; by repeat intros []. Defined.

#[export] Instance prod_fifos A B `{Fifos A} `{Fifos B} : Fifos (A * B).
Proof.
  refine {| fnil := (fnil, fnil); fapp := fun x y => (fapp x.1 y.1, fapp x.2 y.2) |}.
  - intros []. cbn. by rewrite !fapp_nil_l.
  - intros []. cbn. by rewrite !fapp_nil_r.
  - intros [] [] []. cbn. by rewrite !fapp_assoc.
  - intros [] [] [= E1 E2].
    by apply fapp_nil_inv in E1 as [-> ->]; apply fapp_nil_inv in E2 as [-> ->].
Defined.

Lemma fapp_list {A} (x y : list A) : fapp x y = x ++ y.
Proof. done. Qed.

Section block.
Context {J St In Out : Type} `{FI : Fifos In} `{FO : Fifos Out}.
Variable step : J -> St -> In -> St * In * Out.

(** One clock cycle: the environment appends [arr] to the inputs, then the
    block runs once.  The outputs are accumulated. *)
Definition cycle (cfg : St * In * Out) (ja : J * In) : St * In * Out :=
  let '(s, i, o) := cfg in
  let '(s', i', w) := step ja.1 s (fapp i ja.2) in
  (s', i', fapp o w).

Definition run (sched : list (J * In)) (cfg : St * In * Out) : St * In * Out :=
  foldl cycle cfg sched.

Definition arrivals (sched : list (J * In)) : In :=
  foldr (fun ja acc => fapp ja.2 acc) fnil sched.

(** [n] cycles without arrivals. *)
Definition idle (js : list J) : list (J * In) := (fun j => (j, fnil)) <$> js.

(** From state [s], given the total input [i], the block writes exactly [o]
    and ends in [sf], in at most [n] cycles that make progress: with a prefix
    of the input present it either waits, and then some input is still to
    come, or it does the same thing whatever the rest of the input is. *)
Fixpoint computes (n : nat) (s : St) (i : In) (o : Out) (sf : St) : Prop :=
  (i = fnil /\ o = fnil /\ sf = s /\ forall j, step j s fnil = (s, fnil, fnil)) \/
  match n with
  | 0%nat => False
  | S n => forall j p e, fapp p e = i ->
      (e <> fnil /\ step j s p = (s, p, fnil)) \/
      (exists s' p' w o', step j s p = (s', p', w) /\ o = fapp w o' /\
         computes n s' (fapp p' e) o' sf)
  end.

(** Every schedule that delivers the input [i] from state [s] produces
    outputs satisfying [P], at the latest [n] cycles after the last arrival. *)
Definition settles (s : St) (i : In) (n : nat) (P : St -> Out -> Prop) : Prop :=
  exists sf o, P sf o /\
    forall sched js, arrivals sched = i -> (n <= length js)%nat ->
      run (sched ++ idle js) (s, fnil, fnil) = (sf, fnil, o).

Lemma computes_done n s : (forall j, step j s fnil = (s, fnil, fnil)) -> computes n s fnil fnil s.
Proof. intros H. destruct n; left; auto. Qed.

Lemma computes_mono n m s i o sf : computes n s i o sf -> (n <= m)%nat -> computes m s i o sf.
Proof.
  revert m s i o. induction n as [|n IH]; intros m s i o H Hm.
  - destruct H as [H | []]. destruct m; by left.
  - destruct m as [|m]; [lia|]. destruct H as [H | H]; [by left | right].
    intros j p e E. destruct (H j p e E) as [? | (s' & p' & w & o' & ? & ? & ?)]; [by left | right].
    exists s', p', w, o'. split_and!; try done. apply IH; [done | lia].
Qed.

(** The two ways in which [computes] can hold. *)
Definition finished (s : St) (i : In) (o : Out) (sf : St) : Prop :=
  i = fnil /\ o = fnil /\ sf = s /\ forall j, step j s fnil = (s, fnil, fnil).

Definition progresses (n : nat) (s : St) (i : In) (o : Out) (sf : St) : Prop :=
  forall j p e, fapp p e = i ->
    (e <> fnil /\ step j s p = (s, p, fnil)) \/
    (exists s' p' w o', step j s p = (s', p', w) /\ o = fapp w o' /\
       computes n s' (fapp p' e) o' sf).

Lemma computes_cases n s i o sf : computes n s i o sf ->
  finished s i o sf \/ exists m, n = S m /\ progresses m s i o sf.
Proof. destruct n as [|n]; intros [H | H]; [by left | done | by left | right; by exists n]. Qed.

Lemma run_app a b cfg : run (a ++ b) cfg = run b (run a cfg).
Proof. apply foldl_app. Qed.

Lemma run_cons j a l s p acc s' p' w : step j s (fapp p a) = (s', p', w) ->
  run ((j, a) :: l) (s, p, acc) = run l (s', p', fapp acc w).
Proof. intros H. unfold run, cycle. cbn. by rewrite H. Qed.

(** One cycle of a block that computes. *)
Lemma computes_cycle n s p e o sf j : computes n s (fapp p e) o sf ->
  exists s' p' w o', step j s p = (s', p', w) /\ o = fapp w o' /\
    computes n s' (fapp p' e) o' sf /\
    (e = fnil -> computes (Nat.pred n) s' (fapp p' e) o' sf).
Proof.
  intros H.
  assert (Hdone : forall m, (fapp p e = fnil /\ o = fnil /\ sf = s /\
            forall j, step j s fnil = (s, fnil, fnil)) ->
          exists s' p' w o', step j s p = (s', p', w) /\ o = fapp w o' /\
            computes m s' (fapp p' e) o' sf /\
            (e = fnil -> computes (Nat.pred m) s' (fapp p' e) o' sf)).
  { intros m (E & -> & -> & Hst). apply fapp_nil_inv in E as [-> ->].
    exists s, fnil, fnil, fnil. rewrite !fapp_nil_l. split_and!; auto using computes_done. }
  destruct n as [|n]; destruct H as [H | H]; auto; [done|].
  destruct (H j p e eq_refl) as [[He Hw] | (s' & p' & w & o' & Hs & Ho & Hc)].
  - exists s, p, fnil, o. rewrite fapp_nil_l. split_and!; try done. by right.
  - exists s', p', w, o'. split_and!; try done. apply (computes_mono n); [done | lia].
Qed.

Lemma run_computes n sched js : forall s p o acc sf,
  computes n s (fapp p (arrivals sched)) o sf -> (n <= length js)%nat ->
  run (sched ++ idle js) (s, p, acc) = (sf, fnil, fapp acc o).
Proof.
  revert n. induction sched as [|[j a] sched IH]; intros n s p o acc sf H Hn; cbn [app arrivals foldr].
  - revert n s p o acc H Hn. induction js as [|j js IH]; intros n s p o acc H Hn.
    + destruct n as [|n]; [|cbn in Hn; lia]. destruct H as [(E & -> & -> & _) | []].
      apply fapp_nil_inv in E as [-> _]. cbn. by rewrite fapp_nil_r.
    + cbn in H. destruct (computes_cycle _ _ _ _ _ _ j H) as (s' & p' & w & o' & Hs & -> & _ & Hc).
      change (idle (j :: js)) with ((j, fnil : In) :: idle js).
      rewrite (run_cons _ _ _ _ _ _ s' p' w) by by rewrite fapp_nil_r.
      rewrite (IH (Nat.pred n) s' p' o' _ (Hc eq_refl)) by (cbn in Hn; lia).
      by rewrite fapp_assoc.
  - cbn in H. rewrite fapp_assoc in H.
    destruct (computes_cycle _ _ _ _ _ _ j H) as (s' & p' & w & o' & Hs & -> & Hc & _).
    rewrite (run_cons _ _ _ _ _ _ _ _ _ Hs), fapp_assoc. by apply (IH n).
Qed.

Lemma computes_settles n s i o sf (P : St -> Out -> Prop) :
  computes n s i o sf -> P sf o -> settles s i n P.
Proof.
  intros H HP. exists sf, o. split; [done|]. intros sched js <- Hn.
  rewrite (run_computes n sched js s fnil o fnil sf); rewrite ?fapp_nil_l; done.
Qed.

Lemma settles_weaken s i n m (P Q : St -> Out -> Prop) :
  settles s i n P -> (n <= m)%nat -> (forall sf o, P sf o -> Q sf o) -> settles s i m Q.
Proof.
  intros (sf & o & HP & Hr) Hm HQ. exists sf, o. split; [auto|]. intros. apply Hr; [done | lia].
Qed.
End block.

(** ** Blocks with one input FIFO *)
Section single.
Context {J St A Out : Type} `{FO : Fifos Out}.
Variable step : J -> St -> list A -> St * list A * Out.

(** A state in which the block waits for a word and reads exactly one. *)
Lemma computes_read n s a l o w s' sf :
  (forall j, step j s [] = (s, [], fnil)) ->
  (forall j r, step j s (a :: r) = (s', r, w)) ->
  computes step n s' l o sf -> computes step (S n) s (a :: l) (fapp w o) sf.
Proof.
  intros Hw Hr Hc. right. intros j [|b p] e E; cbn in E.
  - left. split; [by rewrite E | apply Hw].
  - right. injection E as -> E. exists s', p, w, o. rewrite Hr. cbn. by rewrite E.
Qed.

(** A state in which the block writes without reading. *)
Lemma computes_emit n s l o w s' sf :
  (forall j r, step j s r = (s', r, w)) ->
  computes step n s' l o sf -> computes step (S n) s l (fapp w o) sf.
Proof.
  intros Hr Hc. right. intros j p e E. right. exists s', p, w, o. rewrite Hr. by rewrite E.
Qed.
End single.

(** ** Reading a packet

    [consumes s l K Q]: from state [s] the block reads [l], whatever follows
    it in the FIFO, ends in a state [sf] having written [os] with [Q sf os],
    in [K] cycles that make progress. *)
Section consumes.
Context {J St In Out : Type} `{FI : Fifos In} `{FO : Fifos Out}.
Variable step : J -> St -> In -> St * In * Out.

Definition consumes (s : St) (l : In) (K : nat) (Q : St -> Out -> Prop) : Prop :=
  exists os sf, Q sf os /\ forall m r o s', computes step m sf r o s' ->
    computes step (K + m) s (fapp l r) (fapp os o) s'.

Lemma consumes_done s (Q : St -> Out -> Prop) : Q s fnil -> consumes s fnil 0 Q.
Proof. intros H. exists fnil, s. split; [done|]. intros. by rewrite !fapp_nil_l. Qed.

Lemma consumes_weaken s l K K' (Q Q' : St -> Out -> Prop) :
  consumes s l K Q -> (K <= K')%nat -> (forall sf os, Q sf os -> Q' sf os) -> consumes s l K' Q'.
Proof.
  intros (os & sf & HQ & Hc) HK Himp. exists os, sf. split; [auto|].
  intros. apply (computes_mono _ (K + m)); [auto | lia].
Qed.

Lemma consumes_le s l K K' (Q : St -> Out -> Prop) :
  consumes s l K Q -> (K <= K')%nat -> consumes s l K' Q.
Proof. intros. by apply (consumes_weaken s l K K' Q). Qed.

Lemma consumes_seq s l1 l2 K1 K2 (Q : St -> Out -> Prop) :
  consumes s l1 K1 (fun s1 o1 => consumes s1 l2 K2 (fun sf o2 => Q sf (fapp o1 o2))) ->
  consumes s (fapp l1 l2) (K1 + K2) Q.
Proof.
  intros (o1 & s1 & (o2 & sf & HQ & H2) & H1). exists (fapp o1 o2), sf. split; [done|].
  intros m r o s' Hc. rewrite <- Nat.add_assoc, <- !fapp_assoc. by apply H1, H2.
Qed.

Lemma consumes_computes s l K (Q : St -> Out -> Prop) :
  consumes s l K Q -> (forall sf os, Q sf os -> forall j, step j sf fnil = (sf, fnil, fnil)) ->
  exists sf os, Q sf os /\ computes step K s l os sf.
Proof.
  intros (os & sf & HQ & Hc) Hw. exists sf, os. split; [done|].
  rewrite <- (fapp_nil_r l), <- (fapp_nil_r os), (plus_n_O K).
  apply Hc, computes_done. by apply (Hw sf os).
Qed.

Lemma consumes_settles s l K (Q : St -> Out -> Prop) :
  consumes s l K Q -> (forall sf os, Q sf os -> forall j, step j sf fnil = (sf, fnil, fnil)) ->
  settles step s l K Q.
Proof.
  intros Hc Hw. destruct (consumes_computes s l K Q Hc Hw) as (sf & os & HQ & H).
  by apply (computes_settles step K s l os sf).
Qed.
End consumes.

Section consumes_single.
Context {J St A Out : Type} `{FO : Fifos Out}.
Variable step : J -> St -> list A -> St * list A * Out.

Lemma consumes_nil s (Q : St -> Out -> Prop) : Q s fnil -> consumes step s [] 0 Q.
Proof. intros H. exact (consumes_done step s Q H). Qed.

Lemma consumes_read s a l K w s' (Q : St -> Out -> Prop) :
  (forall j, step j s [] = (s, [], fnil)) ->
  (forall j r, step j s (a :: r) = (s', r, w)) ->
  consumes step s' l K (fun sf os => Q sf (fapp w os)) -> consumes step s (a :: l) (S K) Q.
Proof.
  intros Hw Hr (os & sf & HQ & Hc). exists (fapp w os), sf. split; [done|].
  intros m r o sf' H. rewrite <- fapp_assoc. eapply computes_read; [done | done |].
  by apply Hc.
Qed.

Lemma consumes_emit s l K w s' (Q : St -> Out -> Prop) :
  (forall j r, step j s r = (s', r, w)) ->
  consumes step s' l K (fun sf os => Q sf (fapp w os)) -> consumes step s l (S K) Q.
Proof.
  intros Hr (os & sf & HQ & Hc). exists (fapp w os), sf. split; [done|].
  intros m r o sf' H. rewrite <- fapp_assoc. eapply computes_emit; [done|]. by apply Hc.
Qed.
End consumes_single.

(** A state that writes without reading, for any group of input FIFOs. *)
Section consumes_write.
Context {J St In Out : Type} `{FI : Fifos In} `{FO : Fifos Out}.
Variable step : J -> St -> In -> St * In * Out.

Lemma consumes_write s l K w s' (Q : St -> Out -> Prop) :
  (forall j r, step j s r = (s', r, w)) ->
  consumes step s' l K (fun sf os => Q sf (fapp w os)) -> consumes step s l (S K) Q.
Proof.
  intros Hr (os & sf & HQ & Hc). exists (fapp w os), sf. split; [done|].
  intros m r o sf' H. rewrite <- fapp_assoc. right. intros j p e E. right.
  exists s', p, w, (fapp os o). rewrite Hr, E. auto.
Qed.
End consumes_write.

(** Blocks with two input FIFOs. *)
Section consumes_pair.
Context {J St A B Out : Type} `{FO : Fifos Out}.
Variable step : J -> St -> list A * list B -> St * (list A * list B) * Out.

Lemma consumes_pair_nil s (Q : St -> Out -> Prop) : Q s fnil -> consumes step s ([], []) 0 Q.
Proof. intros H. exact (consumes_done step s Q H). Qed.

Lemma consumes_read_both s a l b r K w s' (Q : St -> Out -> Prop) :
  (forall j y, step j s ([], y) = (s, ([], y), fnil)) ->
  (forall j x, step j s (x, []) = (s, (x, []), fnil)) ->
  (forall j x y, step j s (a :: x, b :: y) = (s', (x, y), w)) ->
  consumes step s' (l, r) K (fun sf os => Q sf (fapp w os)) -> consumes step s (a :: l, b :: r) (S K) Q.
Proof.
  intros H1 H2 Hr (os & sf & HQ & Hc). exists (fapp w os), sf. split; [done|].
  intros m rest o sf' H. rewrite <- fapp_assoc. right. intros j [p q] [e f] [= Ep Eq].
  destruct p as [|a' p]; [left; cbn in Ep; subst e; by rewrite H1|].
  destruct q as [|b' q]; [left; cbn in Eq; subst f; by rewrite H2|].
  cbn in Ep, Eq. injection Ep as -> Ep. injection Eq as -> Eq.
  right. exists s', (p, q), w, (fapp os o). rewrite Hr. split; [done|]. split; [done|].
  cbn. rewrite Ep, Eq. by apply Hc.
Qed.

Lemma consumes_read_second s l b r K w s' (Q : St -> Out -> Prop) :
  (forall j x, step j s (x, []) = (s, (x, []), fnil)) ->
  (forall j x y, step j s (x, b :: y) = (s', (x, y), w)) ->
  consumes step s' (l, r) K (fun sf os => Q sf (fapp w os)) -> consumes step s (l, b :: r) (S K) Q.
Proof.
  intros H2 Hr (os & sf & HQ & Hc). exists (fapp w os), sf. split; [done|].
  intros m rest o sf' H. rewrite <- fapp_assoc. right. intros j [p q] [e f] [= Ep Eq].
  destruct q as [|b' q]; [left; cbn in Eq; subst f; by rewrite H2|].
  cbn in Eq. injection Eq as -> Eq.
  right. exists s', (p, q), w, (fapp os o). rewrite Hr. split; [done|]. split; [done|].
  cbn. rewrite Ep, Eq. by apply Hc.
Qed.
End consumes_pair.

(** ** Two blocks connected by a FIFO *)
Section compose.
Context {J1 S1 I1 Y M J2 S2 X Z : Type}.
Context `{FI1 : Fifos I1} `{FY : Fifos Y} `{FM : Fifos M} `{FX : Fifos X} `{FZ : Fifos Z}.
Variable step1 : J1 -> S1 -> I1 -> S1 * I1 * (Y * M).
Variable step2 : J2 -> S2 -> M * X -> S2 * (M * X) * Z.

(** The first block writes [Y] outside and [M] into the internal FIFOs; the
    second, called after it in the same cycle, reads [M] and [X]. *)
Definition compose (j : J1 * J2) (s : S1 * S2 * M) (i : I1 * X) :
    (S1 * S2 * M) * (I1 * X) * (Y * Z) :=
  let '(s1, s2, f) := s in
  let '(s1', i1', (y, m)) := step1 j.1 s1 i.1 in
  let '(s2', (f', x'), z) := step2 j.2 s2 (fapp f m, i.2) in
  ((s1', s2', f'), (i1', x'), (y, z)).

Lemma computes_finished_both N s1 i1 y m sf1 s2 f x z sf2 :
  finished step1 s1 i1 (y, m) sf1 -> finished step2 s2 (fapp f m, x) z sf2 ->
  computes compose N (s1, s2, f) (i1, x) (y, z) (sf1, sf2, fnil).
Proof.
  intros (-> & [= -> ->] & -> & H1) ([= E ->] & -> & -> & H2).
  rewrite fapp_nil_r in E. subst f. refine (computes_done compose N (s1, s2, fnil) _).
  intros j. unfold compose. cbn. rewrite H1. cbn. rewrite fapp_nil_l, H2. done.
Qed.

Lemma computes_compose N n1 n2 s1 i1 y m sf1 s2 f x z sf2 :
  computes step1 n1 s1 i1 (y, m) sf1 -> computes step2 n2 s2 (fapp f m, x) z sf2 ->
  (n1 + n2 <= N)%nat ->
  computes compose N (s1, s2, f) (i1, x) (y, z) (sf1, sf2, fnil).
Proof.
  revert n1 n2 s1 i1 y m s2 f x z. induction N as [|N IH]; intros n1 n2 s1 i1 y m s2 f x z H1 H2 HN.
  { destruct n1, n2; try lia. destruct H1 as [H1 | []], H2 as [H2 | []].
    by apply computes_finished_both with m. }
  destruct (computes_cases _ _ _ _ _ _ H1) as [F1 | (m1 & -> & P1)].
  - destruct (computes_cases _ _ _ _ _ _ H2) as [F2 | (m2 & -> & P2)].
    { by apply computes_finished_both with m. }
    destruct F1 as (-> & [= -> ->] & -> & W1). right. intros [j1 j2] [p px] [e ex] [= E <-].
    apply fapp_nil_inv in E as [-> ->]. rewrite fapp_nil_r in P2.
    unfold compose. cbn. rewrite W1. cbn. rewrite fapp_nil_r.
    destruct (P2 j2 (f, px) (fnil, ex)) as [[He Hw] | (s2' & [f' px'] & wz & z' & Hs & -> & Hc)].
    + cbn. by rewrite fapp_nil_r.
    + left. rewrite Hw. split; [by intros [= ->]; apply He | done].
    + right. rewrite Hs. eexists _, _, _, (fnil, z'). split; [done|]. cbn. rewrite fapp_nil_l. split; [done|].
      cbn in Hc. rewrite fapp_nil_r in Hc.
      apply (IH O m2 _ _ _ fnil); [|by rewrite fapp_nil_r | lia].
      rewrite fapp_nil_l. exact (computes_done step1 O s1 W1).
  - right. intros [j1 j2] [p px] [e ex] [= <- <-].
    destruct (P1 j1 p e eq_refl) as [[He Hw] | (s1' & p' & [wy wm] & [y' m'] & Hs & [= -> ->] & Hc)].
    + unfold compose. cbn. rewrite Hw. cbn. rewrite fapp_nil_r.
      destruct (computes_cases _ _ _ _ _ _ H2) as [([= E E0] & -> & -> & W2) | (m2 & -> & P2)].
      * apply fapp_nil_inv in E as [-> ->]. apply fapp_nil_inv in E0 as [-> ->].
        left. rewrite W2. split; [by intros [= ->] | done].
      * destruct (P2 j2 (f, px) (m, ex) eq_refl) as [[_ Hw2] | (s2' & [f' px'] & wz & z' & Hs2 & -> & Hc2)].
        { left. rewrite Hw2. split; [by intros [= ->] | done]. }
        right. rewrite Hs2. eexists _, _, _, (y, z'). split; [done|]. cbn. rewrite fapp_nil_l. split; [done|].
        by apply (IH (S m1) m2 _ _ _ m); [right | | lia].
    + rewrite fapp_assoc in H2.
      destruct (computes_cycle step2 _ _ (fapp f wm, px) (m', ex) _ _ j2 H2)
        as (s2' & [f' px'] & wz & z' & Hs2 & -> & Hc2 & _).
      right. unfold compose. cbn. rewrite Hs, Hs2. eexists _, _, _, (y', z').
      split; [done|]. split; [done|]. by apply (IH m1 n2 _ _ _ m'); [| | lia].
Qed.
End compose.

(** ** Changing the presentation of the ports of a block *)
Section ports.
Context {J St In Out In' Out' : Type} `{Fifos In} `{Fifos Out} `{Fifos In'} `{Fifos Out'}.
Variable step : J -> St -> In -> St * In * Out.
Variable step' : J -> St -> In' -> St * In' * Out'.
Variables (fin : In -> In') (fout : Out -> Out').
Hypothesis fin_app : forall x y, fin (fapp x y) = fapp (fin x) (fin y).
Hypothesis fin_nil : fin fnil = fnil.
Hypothesis fin_inj : forall x y, fin x = fin y -> x = y.
Hypothesis fin_surj : forall y, exists x, y = fin x.
Hypothesis fout_app : forall x y, fout (fapp x y) = fapp (fout x) (fout y).
Hypothesis fout_nil : fout fnil = fnil.
Hypothesis step_ports : forall j s p, step' j s (fin p) =
  let '(s', p', w) := step j s p in (s', fin p', fout w).

Lemma computes_ports n s i o sf : computes step n s i o sf -> computes step' n s (fin i) (fout o) sf.
Proof.
  revert s i o. induction n as [|n IH]; intros s i o Hc;
    destruct (computes_cases _ _ _ _ _ _ Hc) as [(-> & -> & -> & Hw) | (m & [=] & Hp)]; subst.
  - left. split_and!; try done. intros j. by rewrite <- fin_nil, step_ports, Hw, fout_nil.
  - left. split_and!; try done. intros j. by rewrite <- fin_nil, step_ports, Hw, fout_nil.
  - right. intros j p' e' E. destruct (fin_surj p') as [p ->], (fin_surj e') as [e ->].
    rewrite <- fin_app in E. apply fin_inj in E.
    destruct (Hp j p e E) as [[He Hs] | (s' & p' & w & o' & Hs & -> & Hc')]; rewrite step_ports, Hs.
    + left. rewrite fout_nil. split; [|done]. intros Hn. apply He, fin_inj. by rewrite fin_nil.
    + right. eexists _, _, _, (fout o'). split; [done|]. rewrite <- fin_app, fout_app. auto.
Qed.
End ports.

(** ** A pipeline: two blocks with nothing but the FIFO between them *)
Section pipe.
Context {J1 S1 I1 M J2 S2 Z : Type} `{FI1 : Fifos I1} `{FM : Fifos M} `{FZ : Fifos Z}.
Variable step1 : J1 -> S1 -> I1 -> S1 * I1 * M.
Variable step2 : J2 -> S2 -> M -> S2 * M * Z.

Definition pipe (j : J1 * J2) (s : S1 * S2 * M) (i : I1) : (S1 * S2 * M) * I1 * Z :=
  let '(s1, s2, f) := s in
  let '(s1', i', m) := step1 j.1 s1 i in
  let '(s2', f', z) := step2 j.2 s2 (fapp f m) in
  ((s1', s2', f'), i', z).

Lemma computes_pipe n1 n2 s1 i m sf1 s2 z sf2 :
  computes step1 n1 s1 i m sf1 -> computes step2 n2 s2 m z sf2 ->
  computes pipe (n1 + n2) (s1, s2, fnil) i z (sf1, sf2, fnil).
Proof.
  intros H1 H2.
  set (st1 := fun j s i => let '(s', i', m) := step1 j s i in (s', i', (tt, m))).
  set (st2 := fun j s (i : M * unit) => let '(s', i', z) := step2 j s i.1 in (s', (i', tt), z)).
  assert (H1' : computes st1 n1 s1 i (tt, m) sf1).
  { apply (computes_ports step1 st1 (fun x => x) (fun x => (tt, x))); try done; by eauto. }
  assert (H2' : computes st2 n2 s2 (fapp fnil m, tt) z sf2).
  { rewrite fapp_nil_l. apply (computes_ports step2 st2 (fun x => (x, tt)) (fun x => x)); try done.
    - by intros ? ? [=].
    - intros [y []]. by exists y. }
  pose proof (computes_compose st1 st2 (n1 + n2) _ _ _ _ _ _ _ _ fnil tt _ _ H1' H2' ltac:(done)) as Hc.
  change (computes pipe (n1 + n2) (s1, s2, fnil) (i, tt).1 (tt, z).2 (sf1, sf2, fnil)).
  eapply (computes_ports (compose st1 st2) pipe fst snd); [.. | exact Hc]; try done.
  - intros [? []] [? []] E. cbn in E. by subst.
  - intros y. by exists (y, tt).
  - intros [j1 j2] [[t1 t2] f] [p []]. unfold pipe, compose, st1, st2. cbn.
    destruct (step1 _ _ _) as [[? ?] ?]. cbn. by destruct (step2 _ _ _) as [[? ?] ?].
Qed.
End pipe.
