(* ===== verification/AxiUtils.v ===== *)
(** [src/hls/axi_utils.hpp], [src/hls/axi_utils.cpp], [src/hls/mem_utils.hpp]:
    the AXI stream words shared by all blocks, the byte reversal helpers, the
    length/keep conversions and the InfiniBand opcode classes; and [carries],
    the relation between a packet of stream words and the bytes it carries,
    in which the theorems on the data path are stated. *)
From S2P Require Import Prelude Streams.

(** ** Stream words *)

(** [net_axis<D>]: [ap_uint<D> data], [ap_uint<D/8> keep], [ap_uint<1> last]. *)
Record net_axis := NetAxis { data : Z; keep : Z; last : bool }.

(** [routed_net_axis<D, R>] adds [ap_uint<R> dest]. *)
Record routed_net_axis := RoutedNetAxis {
  rdata : Z; rkeep : Z; rlast : bool; dest : Z }.

(** [routed_net_axis(net_axis<D> w, ap_uint<R> r)] *)
Definition routed_of (R : Z) (w : net_axis) (r : Z) : routed_net_axis :=
  RoutedNetAxis (data w) (keep w) (last w) (wrap R r).

(** [axiRoute], and [routed_net_axis(net_axis<D> w, axiRoute r)] *)
Inductive axiRoute := ROUTE_DMA | ROUTE_PARTITIONER.

Definition axiRoute_value (r : axiRoute) : Z :=
  match r with ROUTE_DMA => 0x0 | ROUTE_PARTITIONER => 0x1 end.

Definition routed_of_route (R : Z) (w : net_axis) (r : axiRoute) : routed_net_axis :=
  routed_of R w (axiRoute_value r).

#[export] Instance net_axis_eq_dec : EqDecision net_axis.
Proof. solve_decision. Defined.

#[export] Instance routed_net_axis_eq_dec : EqDecision routed_net_axis.
Proof. solve_decision. Defined.

(** [axiWord] and [routedAxiWord] are 64 bits wide, [routedAxiWord] with one
    bit of destination. *)
Definition AXI_WIDTH : Z := 64.

(** Constants of the network protocols. *)
Definition PMTU : Z := 1400.
Definition MAX_QPS : Z := 512.
Definition UDP_PROTOCOL : Z := 0x11.

(** The word types a template parameter [T] of [axi_utils.hpp] ranges over,
    with the overload set [assignDest]. *)
Class AxisWord (T : Type) := {
  as_axis : T -> net_axis;
  with_axis : T -> net_axis -> T;
  assignDest : T -> T -> T;
}.

(** The primary template [assignDest(T& d, T& s) {}]. *)
#[export] Instance axisword_axis : AxisWord net_axis := {|
  as_axis w := w; with_axis _ a := a; assignDest d s := d |}.

(** The specialisation for [routedAxiWord]. *)
Definition assignDest_routed (d s : routed_net_axis) : routed_net_axis :=
  RoutedNetAxis (rdata d) (rkeep d) (rlast d) (dest s).

#[export] Instance axisword_routed : AxisWord routed_net_axis := {|
  as_axis w := NetAxis (rdata w) (rkeep w) (rlast w);
  with_axis w a := RoutedNetAxis (data a) (keep a) (last a) (dest w);
  assignDest := assignDest_routed |}.

Class AxisWordLaws (T : Type) `{AxisWord T} := {
  as_with : forall (w : T) a, as_axis (with_axis w a) = a;
  as_assign : forall d s : T, as_axis (assignDest d s) = as_axis d;
  with_with : forall (w : T) a b, with_axis (with_axis w a) b = with_axis w b;
}.

#[export] Instance axisword_axis_laws : AxisWordLaws net_axis.
Proof. by split. Qed.

#[export] Instance axisword_routed_laws : AxisWordLaws routed_net_axis.
Proof. split; [by intros ? [] | done | done]. Qed.

#[export] Hint Rewrite @as_with @as_assign @with_with using typeclasses eauto : hls.

(** What an uninitialised [net_axis<W>] variable holds: an arbitrary value of
    the type. *)
Definition undef_axis (W : Z) (u : net_axis) : net_axis :=
  NetAxis (wrap W (data u)) (wrap (W / 8) (keep u)) (last u).

(** [struct memCmd] *)
Record memCmd := MemCmd { cmd_addr : Z; cmd_len : Z }.

#[export] Instance memCmd_eq_dec : EqDecision memCmd.
Proof. solve_decision. Defined.

(** ** Opcodes *)

Inductive ibOpCode :=
  | RC_RDMA_WRITE_FIRST | RC_RDMA_WRITE_MIDDLE | RC_RDMA_WRITE_LAST
  | RC_RDMA_WRITE_LAST_WITH_IMD | RC_RDMA_WRITE_ONLY | RC_RDMA_WRITE_ONLY_WIT_IMD
  | RC_RDMA_READ_REQUEST | RC_RDMA_READ_RESP_FIRST | RC_RDMA_READ_RESP_MIDDLE
  | RC_RDMA_READ_RESP_LAST | RC_RDMA_READ_RESP_ONLY | RC_ACK
  | RC_RDMA_PART_ONLY | RC_RDMA_PART_FIRST | RC_RDMA_PART_MIDDLE | RC_RDMA_PART_LAST.

#[export] Instance ibOpCode_eq_dec : EqDecision ibOpCode.
Proof. solve_decision. Defined.

Definition ibOpCode_value (code : ibOpCode) : Z :=
  match code with
  | RC_RDMA_WRITE_FIRST => 0x06
  | RC_RDMA_WRITE_MIDDLE => 0x07
  | RC_RDMA_WRITE_LAST => 0x08
  | RC_RDMA_WRITE_LAST_WITH_IMD => 0x09
  | RC_RDMA_WRITE_ONLY => 0x0A
  | RC_RDMA_WRITE_ONLY_WIT_IMD => 0x0B
  | RC_RDMA_READ_REQUEST => 0x0C
  | RC_RDMA_READ_RESP_FIRST => 0x0D
  | RC_RDMA_READ_RESP_MIDDLE => 0x0E
  | RC_RDMA_READ_RESP_LAST => 0x0F
  | RC_RDMA_READ_RESP_ONLY => 0x10
  | RC_ACK => 0x11
  | RC_RDMA_PART_ONLY => 0x18
  | RC_RDMA_PART_FIRST => 0x19
  | RC_RDMA_PART_MIDDLE => 0x1A
  | RC_RDMA_PART_LAST => 0x1B
  end.

Definition code_is (code c : ibOpCode) : bool := bool_decide (code = c).

Definition checkIfResponse (code : ibOpCode) : bool :=
  code_is code RC_RDMA_READ_RESP_FIRST || code_is code RC_RDMA_READ_RESP_MIDDLE ||
  code_is code RC_RDMA_READ_RESP_LAST || code_is code RC_RDMA_READ_RESP_ONLY ||
  code_is code RC_ACK.

Definition checkIfWriteOrPartReq (code : ibOpCode) : bool :=
  code_is code RC_RDMA_WRITE_FIRST || code_is code RC_RDMA_WRITE_MIDDLE ||
  code_is code RC_RDMA_WRITE_LAST || code_is code RC_RDMA_WRITE_ONLY ||
  code_is code RC_RDMA_PART_FIRST || code_is code RC_RDMA_PART_MIDDLE ||
  code_is code RC_RDMA_PART_LAST || code_is code RC_RDMA_PART_ONLY.

Definition checkIfAethHeader (code : ibOpCode) : bool :=
  code_is code RC_RDMA_READ_RESP_ONLY || code_is code RC_RDMA_READ_RESP_FIRST ||
  code_is code RC_RDMA_READ_RESP_LAST || code_is code RC_ACK.

Definition checkIfRethHeader (code : ibOpCode) : bool :=
  code_is code RC_RDMA_WRITE_ONLY || code_is code RC_RDMA_WRITE_FIRST ||
  code_is code RC_RDMA_PART_ONLY || code_is code RC_RDMA_PART_FIRST ||
  code_is code RC_RDMA_READ_REQUEST.

(** ** Length and keep *)

(** [lenToKeep]: [None] is the control path that reaches the end of the
    function without a [return]. *)
Definition lenToKeep (length : Z) : option Z :=
  match length with
  | 1 => Some 0x01 | 2 => Some 0x03 | 3 => Some 0x07 | 4 => Some 0x0F
  | 5 => Some 0x1F | 6 => Some 0x3F | 7 => Some 0x7F | 8 => Some 0xFF
  | 9 => Some 0x01FF | 10 => Some 0x03FF | 11 => Some 0x07FF | 12 => Some 0x0FFF
  | 13 => Some 0x1FFF | 14 => Some 0x3FFF | 15 => Some 0x7FFF | 16 => Some 0xFFFF
  | 17 => Some 0x01FFFF | 18 => Some 0x03FFFF | 19 => Some 0x07FFFF | 20 => Some 0x0FFFFF
  | 21 => Some 0x1FFFFF | 22 => Some 0x3FFFFF | 23 => Some 0x7FFFFF | 24 => Some 0xFFFFFF
  | 25 => Some 0x01FFFFFF | 26 => Some 0x03FFFFFF | 27 => Some 0x07FFFFFF
  | 28 => Some 0x0FFFFFFF | 29 => Some 0x1FFFFFFF | 30 => Some 0x3FFFFFFF
  | 31 => Some 0x7FFFFFFF | 32 => Some 0xFFFFFFFF
  | _ => None
  end.

Definition keepToLen (keepValue : Z) : option Z :=
  match keepValue with
  | 0x01 => Some 0x1
  | 0x3 => Some 0x2
  | 0x07 => Some 0x3
  | 0x0F => Some 0x4
  | 0x1F => Some 0x5
  | 0x3F => Some 0x6
  | 0x7F => Some 0x7
  | 0xFF => Some 0x8
  | _ => None
  end.

(** ** Reversal *)

(** [reverse<D>]: [u] is the uninitialised [temp]. *)
Definition reverse (D u w : Z) : Z :=
  foldl (fun temp i => set_range temp (i * 8 + 7) (i * 8) (range w (D - i * 8 - 1) (D - i * 8 - 8)))
    (wrap D u) (seqZ 0 (D / 8)).

Definition reverse_bits (D u w : Z) : Z :=
  foldl (fun temp i => set_range temp i i (range w (D - i - 1) (D - i - 1)))
    (wrap D u) (seqZ 0 D).

(** ** Packets *)

(** [carries n ws bs]: [ws] is a packet on a stream of [n]-byte words - every
    word but the last is full, the valid bytes of the last one are its low
    bytes, only the last one has [last] set - and [bs] are its valid bytes. *)
Inductive carries (n : nat) : list net_axis -> list Z -> Prop :=
  | carries_last w k : (k <= n)%nat -> keep w = Z.ones (Z.of_nat k) -> last w = true ->
      carries n [w] (bytes k (data w))
  | carries_more w ws bs : keep w = Z.ones (Z.of_nat n) -> last w = false ->
      carries n ws bs -> carries n (w :: ws) (bytes n (data w) ++ bs).

(** A sequence of packets. *)
Inductive carries_all (n : nat) : list net_axis -> list (list Z) -> Prop :=
  | carries_none : carries_all n [] []
  | carries_cons ws bs wss bss : carries n ws bs -> carries_all n wss bss ->
      carries_all n (ws ++ wss) (bs :: bss).

(** ** Lemmas on opcodes and lengths *)

(** A response carries neither a request header nor request data. *)
Lemma check_response_request code :
  checkIfResponse code = true -> checkIfWriteOrPartReq code = false /\ checkIfRethHeader code = false.
Proof. by destruct code. Qed.

Lemma lenToKeep_spec len : 1 <= len < 1 + 32 -> lenToKeep len = Some (Z.ones len).
Proof. check_range 1 32 len. Qed.

Lemma lenToKeep_undefined len : 33 <= len < 33 + 31 -> lenToKeep len = None.
Proof. check_range 33 31 len. Qed.

Lemma keepToLen_ones len : 1 <= len < 1 + 8 -> keepToLen (Z.ones len) = Some len.
Proof. check_range 1 8 len. Qed.

Lemma keepToLen_Some k len : keepToLen k = Some len -> 1 <= len <= 8 /\ k = Z.ones len.
Proof.
  unfold keepToLen. intros H.
  repeat (discriminate || (injection H as <-; split; [lia | reflexivity]) || case_match).
Qed.

(** ** Reversal of a word *)

Section reverse.
Context (n : nat).

Lemma testbit_reverse_loop (m : nat) x w i : (m <= n)%nat ->
  Z.testbit (foldl (fun temp i => set_range temp (i * 8 + 7) (i * 8)
      (range w (8 * Z.of_nat n - i * 8 - 1) (8 * Z.of_nat n - i * 8 - 8))) x (seqZ 0 (Z.of_nat m))) i =
  if (0 <=? i) && (i <? 8 * Z.of_nat m)
  then Z.testbit w (8 * Z.of_nat n - 8 * (i / 8) - 8 + i mod 8) else Z.testbit x i.
Proof.
  induction m as [|m IH]; intros Hm.
  - cbn. by bool_cases.
  - rewrite seqZ_snoc, foldl_snoc, testbit_set_range, IH by lia.
    destruct (Z.leb_spec (Z.of_nat m * 8) i); cbn.
    + destruct (Z.leb_spec i (Z.of_nat m * 8 + 7)); cbn; [|by bool_cases].
      rewrite testbit_range by lia.
      assert (Hd : i / 8 = Z.of_nat m) by (symmetry; apply (Z.div_unique _ _ _ (i - 8 * Z.of_nat m)); lia).
      assert (Hr : i mod 8 = i - 8 * Z.of_nat m) by (pose proof (Z.div_mod i 8); lia).
      rewrite Hd, Hr. bool_cases. f_equal. lia.
    + by bool_cases.
Qed.

Lemma reverse_bound u w : wrap (8 * Z.of_nat n) (reverse (8 * Z.of_nat n) u w) =
  reverse (8 * Z.of_nat n) u w.
Proof.
  unfold reverse. rewrite Z.mul_comm, Z.div_mul, (Z.mul_comm _ 8) by lia.
  apply Z.bits_inj'. intros i Hi. rewrite testbit_wrap, !testbit_reverse_loop, testbit_wrap by lia.
  by bool_cases.
Qed.

Lemma bytes_reverse u w : bytes n (reverse (8 * Z.of_nat n) u w) = rev (bytes n w).
Proof.
  apply (list_eq_same_length _ _ n); [by rewrite length_rev, length_bytes | by rewrite length_bytes |].
  intros i x y Hi. rewrite lookup_rev, !length_bytes, !lookup_bytes by (rewrite ?length_bytes; lia).
  intros [= <-] [= <-]. unfold reverse. rewrite Z.mul_comm, Z.div_mul, (Z.mul_comm _ 8) by lia.
  apply Z.bits_inj'. intros k Hk.
  rewrite !testbit_wrap, !testbit_shiftr, testbit_reverse_loop by lia.
  bool_cases. f_equal.
  assert ((k + 8 * Z.of_nat i) / 8 = Z.of_nat i) as -> by (symmetry; apply (Z.div_unique _ _ _ k); lia).
  rewrite <- (Z.mod_unique_pos (k + 8 * Z.of_nat i) 8 (Z.of_nat i) k) by lia. lia.
Qed.
End reverse.

(** ** Streams of packets

    A block that turns every packet carrying [bs] into one carrying some [bs']
    with [R bs bs'] does so for every sequence of packets. *)
Section packets.
Context {J St A B : Type} `{AxisWord A} `{AxisWord B}.
Variable step : J -> St -> list A -> St * list A * list B.
Variable ready : St -> Prop.
Variables (n m c : nat) (ok : list Z -> Prop) (R : list Z -> list Z -> Prop).
Hypothesis packet_ok : forall s ws bs, ready s -> carries n (as_axis <$> ws) bs -> ok bs ->
  consumes step s ws (c * length ws) (fun sf os =>
    ready sf /\ exists bs', carries m (as_axis <$> os) bs' /\ R bs bs').

Lemma consumes_packets s wss bss : ready s -> carries_all n (as_axis <$> wss) bss -> Forall ok bss ->
  consumes step s wss (c * length wss) (fun sf os =>
    ready sf /\ exists bss', carries_all m (as_axis <$> os) bss' /\ Forall2 R bss bss').
Proof.
  intros Hs Hc Hok. remember (as_axis <$> wss) as aws eqn:E. revert s wss E Hs Hok.
  induction Hc as [|ws bs aws bss Hw Hrest IH]; intros s wss E Hs Hok.
  - symmetry in E. apply fmap_nil_inv in E as ->. rewrite Nat.mul_0_r.
    refine (consumes_nil step s _ _). split; [done|]. exists []. split; constructor.
  - symmetry in E. apply fmap_app_inv in E as (ws1 & wss1 & -> & -> & ->). inversion_clear Hok.
    rewrite length_app, Nat.mul_add_distr_l. refine (consumes_seq step s ws1 wss1 _ _ _ _).
    eapply consumes_weaken; [by apply packet_ok | lia |].
    intros sf os (Hsf & bs' & Hos & HR). eapply consumes_weaken; [by apply IH | lia |].
    intros sf2 os2 (? & bss' & ? & ?). split; [done|]. exists (bs' :: bss'). cbn. rewrite fmap_app.
    split; by constructor.
Qed.
End packets.

Lemma as_axis_fmap (ws : list net_axis) : as_axis <$> ws = ws.
Proof. apply list_fmap_id. Qed.

(** The same for blocks on unrouted words. *)
Section axis_packets.
Context {J St : Type}.
Variable step : J -> St -> list net_axis -> St * list net_axis * list net_axis.
Variables (ready : St -> Prop) (n m c : nat) (ok : list Z -> Prop).

Lemma consumes_axis_packets_rel (R : list Z -> list Z -> Prop) :
  (forall s ws bs, ready s -> carries n ws bs -> ok bs ->
     consumes step s ws (c * length ws) (fun sf os => ready sf /\ exists bs', carries m os bs' /\ R bs bs')) ->
  forall s wss bss, ready s -> carries_all n wss bss -> Forall ok bss ->
  consumes step s wss (c * length wss)
    (fun sf os => ready sf /\ exists bss', carries_all m os bss' /\ Forall2 R bss bss').
Proof.
  intros Hp s wss bss Hs Hc Hok. rewrite <- (as_axis_fmap wss) in Hc.
  eapply consumes_weaken; [apply (consumes_packets step ready n m c ok R); [|done..] | done |].
  - intros s' ws bs Hs' Hw ?. rewrite as_axis_fmap in Hw.
    eapply consumes_weaken; [by apply (Hp s' ws bs) | done |].
    intros sf os. by rewrite as_axis_fmap.
  - cbn. intros sf os. by rewrite as_axis_fmap.
Qed.

Lemma consumes_axis_packets (f : list Z -> list Z) :
  (forall s ws bs, ready s -> carries n ws bs -> ok bs ->
     consumes step s ws (c * length ws) (fun sf os => ready sf /\ carries m os (f bs))) ->
  forall s wss bss, ready s -> carries_all n wss bss -> Forall ok bss ->
  consumes step s wss (c * length wss) (fun sf os => ready sf /\ carries_all m os (f <$> bss)).
Proof.
  intros Hp s wss bss Hs Hc Hok.
  eapply consumes_weaken; [apply (consumes_axis_packets_rel (fun bs bs' => bs' = f bs)); [|done..] | done |].
  - intros s' ws bs Hs' Hw ?. eapply consumes_weaken; [by apply (Hp s' ws bs) | done |].
    intros sf os [? ?]. eauto.
  - cbn. intros sf os (? & bss' & Hos & HR). split; [done|].
    replace (f <$> bss) with bss'; [done|]. clear -HR. induction HR; cbn; by f_equal.
Qed.
End axis_packets.

Lemma carries_length n ws bs : carries n ws bs ->
  (0 < length ws)%nat /\ (n * (length ws - 1) <= length bs <= n * length ws)%nat.
Proof.
  induction 1 as [w k | w ws bs ? ? ? IH]; cbn [length]; rewrite ?length_app, ?length_bytes; [lia|].
  destruct IH as [? ?]. split; [lia|].
  replace (n * (S (length ws) - 1))%nat with (n + n * (length ws - 1))%nat by nia. nia.
Qed.

Lemma carries_all_one n ws bs : carries n ws bs -> carries_all n ws [bs].
Proof. intros. rewrite <- (app_nil_r ws). repeat constructor. done. Qed.

Lemma carries_all_concat n wss bss : Forall2 (carries n) wss bss -> carries_all n (concat wss) bss.
Proof. induction 1; cbn; by constructor. Qed.

(** ** Deciding [carries] *)

Fixpoint packet_bytes (n : nat) (ws : list net_axis) : option (list Z) :=
  match ws with
  | [] => None
  | w :: ws =>
      if last w then
        let k := Z.to_nat (Z.log2 (keep w + 1)) in
        if bool_decide (ws = []) && (k <=? n)%nat && (keep w =? Z.ones (Z.of_nat k))
        then Some (bytes k (data w)) else None
      else if keep w =? Z.ones (Z.of_nat n) then
        (fun bs => bytes n (data w) ++ bs) <$> packet_bytes n ws
      else None
  end.

Lemma packet_bytes_carries n ws bs : packet_bytes n ws = Some bs -> carries n ws bs.
Proof.
  revert bs. induction ws as [|w ws IH]; intros bs H; cbn in H; [done|].
  destruct (last w) eqn:Hl; case_match eqn:E; try done.
  - injection H as <-. apply andb_true_iff in E as [E Hk]. apply andb_true_iff in E as [Hn Hkn].
    apply bool_decide_eq_true in Hn as ->. apply Nat.leb_le in Hkn. apply Z.eqb_eq in Hk.
    by constructor.
  - apply Z.eqb_eq in E. destruct (packet_bytes n ws) as [bs'|]; [|done].
    injection H as <-. by constructor; [| | apply IH].
Qed.

Lemma packet_bytes_carries_all n ws bs : packet_bytes n ws = Some bs -> carries_all n ws [bs].
Proof. intros. by apply carries_all_one, packet_bytes_carries. Qed.

Lemma carries_all_app n ws1 bss1 ws2 bss2 : carries_all n ws1 bss1 -> carries_all n ws2 bss2 ->
  carries_all n (ws1 ++ ws2) (bss1 ++ bss2).
Proof. intros H1 H2. induction H1; [done|]. rewrite <- app_assoc. by constructor. Qed.

(** ** Reversal of the bits of a word *)

Lemma testbit_reverse_bits_loop (m : nat) D x w i : Z.of_nat m <= D ->
  Z.testbit (foldl (fun temp i => set_range temp i i (range w (D - i - 1) (D - i - 1))) x (seqZ 0 (Z.of_nat m))) i =
  if (0 <=? i) && (i <? Z.of_nat m) then Z.testbit w (D - 1 - i) else Z.testbit x i.
Proof.
  induction m as [|m IH]; intros Hm.
  - cbn. by bool_cases.
  - rewrite seqZ_snoc, foldl_snoc, testbit_set_range, IH by lia.
    destruct (Z.leb_spec (Z.of_nat m) i); cbn [andb]; [|by bool_cases].
    destruct (Z.leb_spec i (Z.of_nat m)); cbn [andb]; [|by bool_cases].
    rewrite testbit_range by lia. bool_cases. f_equal. lia.
Qed.

Lemma testbit_reverse_bits D u w i : 0 <= D ->
  Z.testbit (reverse_bits D u w) i = (0 <=? i) && (i <? D) && Z.testbit w (D - 1 - i).
Proof.
  intros HD. unfold reverse_bits.
  pose proof (testbit_reverse_bits_loop (Z.to_nat D) D (wrap D u) w i) as H.
  rewrite Z2Nat.id in H by lia. rewrite H, testbit_wrap by lia.
  destruct (Z.leb_spec 0 i); [|by rewrite (Z.testbit_neg_r u), andb_false_r by lia]. by bool_cases.
Qed.

(** ** Properties *)

(** [lenToKeep] is defined for the lengths 1 to 32 only and gives a mask of
    that many ones; [keepToLen] is its inverse where it is defined, but it is
    defined for the masks of 1 to 8 bytes only: for the lengths 9 to 32 the
    round trip reaches the end of [keepToLen] without a [return]. *)
Theorem len_keep_roundtrip :
  (forall len, 0 <= len < 64 ->
     lenToKeep len = (if (1 <=? len) && (len <=? 32) then Some (Z.ones len) else None) /\
     (lenToKeep len ≫= keepToLen) = (if (1 <=? len) && (len <=? 8) then Some len else None)) /\
  (forall k len, keepToLen k = Some len -> lenToKeep len = Some k).
Proof.
  split.
  - apply (forall_range _ 0 64). repeat constructor.
  - intros k len H. apply keepToLen_Some in H as [H ->]. apply lenToKeep_spec. lia.
Qed.

(** [reverse] reverses the order of the bytes of a word whatever its
    uninitialised result variable held, and applied twice it gives the word
    back. *)
Theorem reverse_bytes_involutive n u v w :
  bytes n (reverse (8 * Z.of_nat n) u w) = rev (bytes n w) /\
  reverse (8 * Z.of_nat n) v (reverse (8 * Z.of_nat n) u w) = wrap (8 * Z.of_nat n) w.
Proof.
  split; [apply bytes_reverse|].
  rewrite <- reverse_bound. apply bytes_inj_wrap. by rewrite !bytes_reverse, rev_involutive.
Qed.

(** the same for [reverse_bits] and the bits of the word. *)
Theorem reverse_bits_involutive (D : nat) u v w :
  (forall i, Z.testbit (reverse_bits (Z.of_nat D) u w) i =
     (0 <=? i) && (i <? Z.of_nat D) && Z.testbit w (Z.of_nat D - 1 - i)) /\
  reverse_bits (Z.of_nat D) v (reverse_bits (Z.of_nat D) u w) = wrap (Z.of_nat D) w.
Proof.
  split; [intros i; apply testbit_reverse_bits; lia|].
  apply Z.bits_inj'. intros i Hi. rewrite !testbit_reverse_bits, testbit_wrap by lia.
  bool_cases; try done. f_equal. lia.
Qed.
