(* ===== verification/AxiText.v ===== *)
(** The text input and output of stream words in [src/hls/axi_utils.hpp]:
    [scan], [scanLE], [print] and [printLE], by which the test benches read
    and write words.  A C++ stream is its remaining text and its fail flag; its
    formatting flags are those of a new stream (decimal base until [std::hex],
    leading white space skipped, classic locale, right adjusted, lower case). *)
From S2P Require Import Prelude Streams AxiUtils.
From Stdlib Require Import Ascii.

(** ** Characters *)

Definition text := list ascii.

Open Scope char_scope.
Open Scope Z_scope.

(** [isspace] in the classic locale. *)
Definition is_space (c : ascii) : bool :=
  let n := Z.of_nat (nat_of_ascii c) in (n =? 32) || ((9 <=? n) && (n <=? 13)).

(** The value of a hexadecimal digit. *)
Definition hex_value (c : ascii) : option Z :=
  let n := Z.of_nat (nat_of_ascii c) in
  if (48 <=? n) && (n <=? 57) then Some (n - 48)
  else if (97 <=? n) && (n <=? 102) then Some (n - 87)
  else if (65 <=? n) && (n <=? 70) then Some (n - 55)
  else None.

Definition hex_char (d : Z) : ascii :=
  ascii_of_nat (Z.to_nat (if d <? 10 then d + 48 else d + 87)).

(** ** Formatted input *)

Record istream := IStream { rest : text; failed : bool }.

Fixpoint skip_space (l : text) : text :=
  match l with
  | c :: r => if is_space c then skip_space r else l
  | [] => []
  end.

Definition take_sign (l : text) : bool * text :=
  match l with
  | "-" :: r => (true, r)
  | "+" :: r => (false, r)
  | _ => (false, l)
  end.

(** A leading zero, which is a digit unless it starts the prefix [0x]. *)
Definition take_prefix (l : text) : bool * text :=
  match l with
  | "0" :: r =>
      match r with
      | "x" :: r' | "X" :: r' => (false, r')
      | _ => (true, r)
      end
  | _ => (false, l)
  end.

(** The digits: their value, and whether there has been one. *)
Fixpoint take_digits (l : text) (result : Z) (any : bool) : Z * bool * text :=
  match l with
  | c :: r =>
      match hex_value c with
      | Some d => take_digits r (16 * result + d) true
      | None => (result, any, l)
      end
  | [] => (result, any, [])
  end.

(** [std::num_get] for an unsigned type of [w] bits: the value stored,
    whether the conversion succeeded, and the text left. *)
Definition get_unsigned (w : Z) (l : text) : Z * bool * text :=
  let '(negative, l) := take_sign l in
  let '(zero, l) := take_prefix l in
  let '(result, any, l) := take_digits l 0 zero in
  if negb any then (0, false, l)
  else if 2 ^ w - 1 <? result then (2 ^ w - 1, false, l)
  else (if negative then wrap w (- result) else result, true, l).

(** [input >> std::hex >> v] for a variable [v] of [w] bits: nothing is
    extracted, and [v] not assigned, when the stream has failed before or
    has only white space left. *)
Definition extract (w : Z) (s : istream) (v : Z) : istream * Z :=
  if failed s then (s, v)
  else match skip_space (rest s) with
       | [] => (IStream [] true, v)
       | l => let '(x, ok, r) := get_unsigned w l in (IStream r (negb ok), x)
       end.

(** The loop of the [scan] functions over the byte positions [positions];
    [false] is the early [return false]. *)
Fixpoint scan_bytes (positions : list Z) (s : istream) (temp data : Z) : istream * Z * bool :=
  match positions with
  | [] => (s, data, true)
  | i :: positions =>
      let '(s, temp) := extract 16 s temp in
      if failed s then (s, data, false)
      else scan_bytes positions s temp (set_range data (i * 8 + 7) (i * 8) temp)
  end.

Definition up (D : Z) : list Z := seqZ 0 (D / 8).
Definition down (D : Z) : list Z := rev (up D).

(** [scan(std::istream&, ap_uint<D>&)]; [temp] is what the uninitialised
    local variable holds. *)
Definition scan (D temp : Z) (s : istream) (data : Z) : istream * Z * bool :=
  let '(s, data, ok) := scan_bytes (up D) s temp data in
  (s, data, ok && negb (failed s)).

Definition scanLE (D temp : Z) (s : istream) (data : Z) : istream * Z * bool :=
  let '(s, data, ok) := scan_bytes (down D) s temp data in
  (s, data, ok && negb (failed s)).

(** The uninitialised local variables of the overload for [net_axis<D>]. *)
Record scan_locals := ScanLocals { temp : Z; keepTemp : Z; lastTemp : Z }.

(** [scan(std::istream&, net_axis<D>&)] *)
Definition scan_axis (D : Z) (u : scan_locals) (s : istream) (word : net_axis) :
    istream * net_axis * bool :=
  let '(s, d, ok) := scan_bytes (up D) s (temp u) (data word) in
  if ok then
    let '(s, k) := extract 32 s (keepTemp u) in
    let '(s, l) := extract 16 s (lastTemp u) in
    (s, NetAxis d (wrap (D / 8) k) (Z.testbit l 0), negb (failed s))
  else (s, NetAxis d (keep word) (last word), false).

(** ** Formatted output *)

(** The digits of [v], the most significant first, in front of [acc]; [n]
    bounds their number. *)
Fixpoint hex_digits (n : nat) (v : Z) (acc : text) : text :=
  match n with
  | O => acc
  | S n =>
      let acc := hex_char (v mod 16) :: acc in
      if v / 16 =? 0 then acc else hex_digits n (v / 16) acc
  end.

(** [std::setfill('0') << std::setw(width) << t] *)
Definition pad (width : nat) (t : text) : text := replicate (width - length t) "0" ++ t.

(** [output << std::hex << std::setw(width) << v] for [v] of at most 64 bits. *)
Definition put_hex (width : nat) (v : Z) : text := pad width (hex_digits 16 v []).

Definition print_bytes (positions : list Z) (data : Z) : text :=
  i ← positions; put_hex 2 (range data (i * 8 + 7) (i * 8)) ++ [" "].

(** [print(std::ostream&, ap_uint<D>)] and [printLE(std::ostream&, ap_uint<D>&)] *)
Definition print (D data : Z) : text := print_bytes (up D) data.
Definition printLE (D data : Z) : text := print_bytes (down D) data.

(** The [keep] and [last] fields after the bytes. *)
Definition print_flags (D keep : Z) (last : bool) : text :=
  put_hex (Z.to_nat (D / 8 / 4)) keep ++ [" "] ++ put_hex 1 (Z.b2z last).

(** The overloads for [net_axis<D>]. *)
Definition print_axis (D : Z) (word : net_axis) : text :=
  print_bytes (up D) (data word) ++ print_flags D (keep word) (last word).

Definition printLE_axis (D : Z) (word : net_axis) : text :=
  print_bytes (down D) (data word) ++ print_flags D (keep word) (last word).

(** [printLE(std::ostream&, routed_net_axis<D, R>&)]: the width [R] applies to
    the string. *)
Definition printLE_routed (D R : Z) (word : routed_net_axis) : text :=
  print_bytes (down D) (rdata word) ++ print_flags D (rkeep word) (rlast word) ++
  pad (Z.to_nat R) [" "; "T"; "D"; "E"; "S"; "T"; ":"] ++ put_hex 0 (dest word).

(** ** Digits *)

Lemma hex_char_value d : 0 <= d < 0 + 16 -> hex_value (hex_char d) = Some d.
Proof. check_range 0 16 d. Qed.

Lemma hex_value_plain c d : hex_value c = Some d ->
  is_space c = false /\ c <> "-" /\ c <> "+" /\ c <> "x" /\ c <> "X".
Proof. intros H. destruct c as [[] [] [] [] [] [] [] []]; try discriminate H; by split_and!. Qed.

Lemma is_space_plain c : is_space c = true -> hex_value c = None /\ c <> "x" /\ c <> "X".
Proof. intros H. destruct c as [[] [] [] [] [] [] [] []]; try discriminate H; by split_and!. Qed.

(** Text after which a number ends. *)
Definition ends (r : text) : Prop :=
  match r with [] => True | c :: _ => is_space c = true end.

Lemma take_digits_end r v : ends r -> take_digits r v true = (v, true, r).
Proof.
  destruct r as [|c r]; cbn; [done|]. intros H. by destruct (is_space_plain c H) as [-> _].
Qed.

Lemma take_hex_digits n v acc r any : 0 <= v < 16 ^ Z.of_nat (S n) ->
  take_digits (hex_digits (S n) v acc ++ r) 0 any = take_digits (acc ++ r) v true.
Proof.
  revert v acc any. induction n as [|n IH]; intros v acc any Hv.
  - change (16 ^ Z.of_nat 1) with 16 in Hv. cbn [hex_digits].
    replace (v / 16 =? 0) with true by (symmetry; apply Z.eqb_eq, Z.div_small; lia).
    cbn [app take_digits]. rewrite Z.mod_small, hex_char_value by lia. f_equal; lia.
  - remember (S n) as m. cbn [hex_digits]. assert (0 <= v mod 16 < 16) by (apply Z.mod_pos_bound; lia).
    pose proof (Z.div_mod v 16 ltac:(lia)) as Hd.
    destruct (Z.eqb_spec (v / 16) 0) as [E | E].
    + cbn [app take_digits]. rewrite hex_char_value by lia. f_equal; lia.
    + rewrite IH by (rewrite Nat2Z.inj_succ, Z.pow_succ_r in Hv by lia; split;
        [apply Z.div_pos; lia | apply Z.div_lt_upper_bound; lia]).
      cbn [app take_digits]. rewrite hex_char_value by lia. f_equal; lia.
Qed.

Lemma take_zeros k l any : take_digits (replicate k "0" ++ l) 0 any =
  take_digits l 0 (any || (0 <? k)%nat).
Proof.
  revert any. induction k as [|k IH]; intros any; [by rewrite orb_false_r|].
  change (take_digits (replicate k "0" ++ l) 0 true = take_digits l 0 (any || true)).
  by rewrite IH, orb_true_r.
Qed.

(** ** Numbers *)

Lemma hex_digits_acc n v acc : hex_digits n v acc = hex_digits n v [] ++ acc.
Proof.
  revert v acc. induction n as [|n IH]; intros v acc; cbn; [done|].
  case_match; [done|]. rewrite IH, (IH _ [_]), <- app_assoc. done.
Qed.

Lemma hex_digits_nonempty n v : hex_digits (S n) v [] <> [].
Proof.
  cbn. case_match; [done|]. rewrite hex_digits_acc. by intros [_ ?]%app_nil.
Qed.

Lemma hex_digits_chars n v : 0 <= v -> Forall (fun c => is_Some (hex_value c)) (hex_digits n v []).
Proof.
  revert v. induction n as [|n IH]; intros v Hv; cbn; [done|].
  assert (0 <= v mod 16 < 16) by (apply Z.mod_pos_bound; lia).
  assert (Forall (fun c => is_Some (hex_value c)) [hex_char (v mod 16)])
    by (constructor; [rewrite hex_char_value by lia; eauto | done]).
  case_match; [done|]. rewrite hex_digits_acc. apply Forall_app. split; [|done].
  apply IH, Z.div_pos; lia.
Qed.

Lemma put_hex_chars width v : 0 <= v -> Forall (fun c => is_Some (hex_value c)) (put_hex width v).
Proof.
  intros. apply Forall_app. split; [|by apply hex_digits_chars].
  apply Forall_replicate. by exists 0.
Qed.

Lemma put_hex_cons width v : 0 <= v -> exists c l, put_hex width v = c :: l /\ is_Some (hex_value c).
Proof.
  intros Hv. pose proof (put_hex_chars width v Hv) as H.
  assert (Hl : put_hex width v <> []).
  { intros [_ E]%app_nil. by apply (hex_digits_nonempty 15 v). }
  destruct (put_hex width v) as [|c l]; [done|]. inversion_clear H. eauto.
Qed.

Lemma take_digits_put_hex width v r : 0 <= v < 2 ^ 64 -> ends r ->
  take_digits (put_hex width v ++ r) 0 false = (v, true, r).
Proof.
  intros Hv Hr. unfold put_hex, pad.
  rewrite <- app_assoc, take_zeros, (take_hex_digits 15) by done. by apply take_digits_end.
Qed.

(** A leading zero is a digit like the others. *)
Lemma take_prefix_plain c l r : is_Some (hex_value c) -> Forall (fun c => is_Some (hex_value c)) l -> ends r ->
  let '(zero, t) := take_prefix ((c :: l) ++ r) in take_digits t 0 zero = take_digits ((c :: l) ++ r) 0 false.
Proof.
  intros _ Hl Hr.
  assert (Hx : forall y, head (l ++ r) = Some y -> y <> "x" /\ y <> "X").
  { intros y Hy. destruct l as [|y' l].
    - destruct r as [|y' r]; [done|]. injection Hy as ->. by destruct (is_space_plain y Hr) as [_ ?].
    - injection Hy as ->. inversion_clear Hl as [|?? [d Hd]]. by destruct (hex_value_plain y d Hd) as (_ & _ & _ & ?). }
  cbn [app]. destruct (ascii_dec c "0") as [-> | Hc].
  - destruct (l ++ r) as [|y t] eqn:E; [done|]. destruct (Hx y eq_refl) as [H1 H2].
    assert (take_prefix ("0" :: y :: t) = (true, y :: t)) as -> by
      (destruct y as [[] [] [] [] [] [] [] []]; try done). done.
  - assert (take_prefix (c :: l ++ r) = (false, c :: l ++ r)) as -> by
      (destruct c as [[] [] [] [] [] [] [] []]; done). done.
Qed.

Lemma get_unsigned_put_hex w width v r : 0 <= v < 2 ^ 64 -> ends r ->
  get_unsigned w (put_hex width v ++ r) =
    (if 2 ^ w - 1 <? v then (2 ^ w - 1, false, r) else (v, true, r)).
Proof.
  intros Hv Hr. destruct (put_hex_cons width v) as (c & l & E & Hc); [lia|].
  pose proof (take_digits_put_hex width v r Hv Hr) as Ht.
  pose proof (put_hex_chars width v ltac:(lia)) as Hl.
  rewrite E in *. inversion_clear Hl. unfold get_unsigned.
  assert (take_sign ((c :: l) ++ r) = (false, (c :: l) ++ r)) as ->.
  { destruct Hc as [d Hd]. destruct (hex_value_plain c d Hd) as (_ & ? & ? & _).
    destruct c as [[] [] [] [] [] [] [] []]; done. }
  pose proof (take_prefix_plain c l r) as Hp. destruct (take_prefix _) as [zero t].
  by rewrite Hp, Ht by done.
Qed.

(** ** Words *)

Lemma skip_space_app pre l : Forall (fun c => is_space c = true) pre -> skip_space (pre ++ l) = skip_space l.
Proof. induction 1 as [|c pre Hc _ IH]; cbn; [done|]. by rewrite Hc. Qed.

Lemma extract_put_hex w width v pre r x : 0 <= v < 2 ^ 64 -> ends r ->
  Forall (fun c => is_space c = true) pre ->
  extract w (IStream (pre ++ put_hex width v ++ r) false) x =
    (if 2 ^ w - 1 <? v then (IStream r true, 2 ^ w - 1) else (IStream r false, v)).
Proof.
  intros Hv Hr Hpre. unfold extract. cbn [failed rest]. rewrite skip_space_app by done.
  pose proof (get_unsigned_put_hex w width v r Hv Hr) as Hg.
  destruct (put_hex_cons width v) as (c & l & E & d & Hd); [lia|]. rewrite E in *.
  cbn [app skip_space]. destruct (hex_value_plain c d Hd) as [-> _]. cbn [app] in Hg. rewrite Hg.
  by case_match.
Qed.

(** The bytes at [positions] of [data] overwritten by those of [w]. *)
Definition assign_bytes (positions : list Z) (data w : Z) : Z :=
  foldl (fun d i => set_range d (i * 8 + 7) (i * 8) (range w (i * 8 + 7) (i * 8))) data positions.

Lemma byte_bound w i : 0 <= range w (i * 8 + 7) (i * 8) < 256.
Proof.
  unfold range. replace (i * 8 + 7 - i * 8 + 1) with 8 by lia. apply (wrap_bound 8). lia.
Qed.

Lemma print_bytes_cons i ps w :
  print_bytes (i :: ps) w = put_hex 2 (range w (i * 8 + 7) (i * 8)) ++ [" "] ++ print_bytes ps w.
Proof. unfold print_bytes. by rewrite bind_cons, <- app_assoc. Qed.

Lemma scan_bytes_print i ps w pre r temp d : ends r -> Forall (fun c => is_space c = true) pre ->
  exists temp', scan_bytes (i :: ps) (IStream (pre ++ put_hex 2 (range w (i * 8 + 7) (i * 8)) ++ r) false) temp d =
    scan_bytes ps (IStream r false) temp' (set_range d (i * 8 + 7) (i * 8) (range w (i * 8 + 7) (i * 8))).
Proof.
  intros Hr Hpre. pose proof (byte_bound w i). eexists. cbn [scan_bytes].
  rewrite extract_put_hex by (done || lia).
  by replace (2 ^ 16 - 1 <? _) with false by (symmetry; apply Z.ltb_ge; lia).
Qed.

Lemma scan_print_bytes ps w pre r temp d : Forall (fun c => is_space c = true) pre -> ps <> [] ->
  scan_bytes ps (IStream (pre ++ print_bytes ps w ++ r) false) temp d =
    (IStream (" " :: r) false, assign_bytes ps d w, true).
Proof.
  intros Hpre Hne. revert pre temp d Hpre. destruct ps as [|i ps]; [done|]. clear Hne.
  revert i. induction ps as [|j ps IH]; intros i pre temp d Hpre; rewrite print_bytes_cons, <- !app_assoc.
  - change ([" "] ++ print_bytes [] w ++ r) with (" " :: r).
    destruct (scan_bytes_print i [] w pre (" " :: r) temp d) as [? ->]; done.
  - destruct (scan_bytes_print i (j :: ps) w pre ([" "] ++ print_bytes (j :: ps) w ++ r) temp d)
      as [temp' ->]; [done..|].
    rewrite (IH j [" "]); [done | by repeat constructor].
Qed.

Lemma testbit_assign_bytes ps d w i : Forall (fun p => 0 <= p) ps ->
  Z.testbit (assign_bytes ps d w) i =
    if bool_decide (i / 8 ∈ ps) then Z.testbit w i else Z.testbit d i.
Proof.
  intros Hps. revert d. induction Hps as [|p ps Hp _ IH]; intros d; [done|].
  unfold assign_bytes in *. cbn [foldl]. rewrite IH.
  case_bool_decide as H1; case_bool_decide as H2; rewrite elem_of_cons in H2; try tauto.
  - destruct H2 as [<- | ?]; [|done].
    pose proof (Z.div_mod i 8 ltac:(lia)). pose proof (Z.mod_pos_bound i 8 ltac:(lia)).
    rewrite testbit_set_range, testbit_range by lia. bool_cases; f_equal; lia.
  - rewrite testbit_set_range by lia. destruct ((p * 8 <=? i) && (i <=? p * 8 + 7)) eqn:E; [|done].
    exfalso. apply H2. left. symmetry. apply (Z.div_unique _ _ _ (i - 8 * p)); bool_hyps; lia.
Qed.

(** Every byte is assigned, in either direction. *)
Lemma assign_bytes_all (n : nat) ps d w : (forall p, p ∈ ps <-> 0 <= p < Z.of_nat n) ->
  wrap (8 * Z.of_nat n) d = d -> assign_bytes ps d w = wrap (8 * Z.of_nat n) w.
Proof.
  intros Hps Hd. apply Z.bits_inj'. intros i Hi.
  rewrite testbit_assign_bytes by (apply Forall_forall; intros p ?%Hps; lia).
  rewrite <- Hd, !testbit_wrap by lia.
  pose proof (Z.div_mod i 8 ltac:(lia)). pose proof (Z.mod_pos_bound i 8 ltac:(lia)).
  case_bool_decide as H1; rewrite Hps in H1; bool_cases; (done || lia).
Qed.

Lemma elem_of_up n p : p ∈ up (8 * Z.of_nat n) <-> 0 <= p < Z.of_nat n.
Proof.
  unfold up. rewrite Z.mul_comm, Z.div_mul, elem_of_seqZ by lia. lia.
Qed.

Lemma elem_of_down n p : p ∈ down (8 * Z.of_nat n) <-> 0 <= p < Z.of_nat n.
Proof. unfold down. rewrite <- elem_of_up, !list_elem_of_In. symmetry. apply in_rev. Qed.

Lemma positions_nonempty (ps : list Z) (n : nat) : (forall p, p ∈ ps <-> 0 <= p < Z.of_nat n) ->
  (0 < n)%nat -> ps <> [].
Proof. intros H Hn ->. assert (0 ∈ ([] : list Z)) as []%elem_of_nil by (apply H; lia). Qed.

(** Reading the printed bytes of a word of [n] bytes. *)
Lemma scan_print_word (n : nat) ps w pre r temp d : (0 < n)%nat ->
  (forall p, p ∈ ps <-> 0 <= p < Z.of_nat n) -> Forall (fun c => is_space c = true) pre ->
  wrap (8 * Z.of_nat n) d = d -> wrap (8 * Z.of_nat n) w = w ->
  scan_bytes ps (IStream (pre ++ print_bytes ps w ++ r) false) temp d = (IStream (" " :: r) false, w, true).
Proof.
  intros Hn Hps Hpre Hd Hw.
  rewrite scan_print_bytes by (done || by eapply positions_nonempty).
  by rewrite (assign_bytes_all n), Hw.
Qed.

(** A word written by [print_axis] read from text that begins with the
    separator of an earlier one. *)
Lemma scan_print_axis (n : nat) u w word pre r : (0 < n <= 64)%nat ->
  wrap (8 * Z.of_nat n) (data word) = data word ->
  wrap (8 * Z.of_nat n) (data w) = data w -> wrap (Z.of_nat n) (keep w) = keep w ->
  Forall (fun c => is_space c = true) pre -> ends r ->
  scan_axis (8 * Z.of_nat n) u (IStream (pre ++ print_axis (8 * Z.of_nat n) w ++ r) false) word =
    if 2 ^ 32 - 1 <? keep w
    then (IStream (" " :: put_hex 1 (Z.b2z (last w)) ++ r) true,
          NetAxis (data w) (2 ^ 32 - 1) (Z.testbit (lastTemp u) 0), false)
    else (IStream r false, w, true).
Proof.
  intros Hn Hd Hw Hk Hpre Hr. unfold scan_axis, print_axis, print_flags.
  assert (Hkb : 0 <= keep w < 2 ^ 64).
  { rewrite <- Hk. pose proof (wrap_bound (Z.of_nat n) (keep w) ltac:(lia)).
    pose proof (Z.pow_le_mono_r 2 (Z.of_nat n) 64 ltac:(lia) ltac:(lia)). lia. }
  rewrite <- !app_assoc, (scan_print_word n) by (lia || done || apply elem_of_up).
  change (" " :: ?t) with ([" "] ++ t).
  rewrite extract_put_hex by (done || by repeat constructor).
  rewrite (Z.mul_comm 8), Z.div_mul by lia.
  destruct (2 ^ 32 - 1 <? keep w) eqn:E.
  - cbn [app extract failed negb]. f_equal. f_equal. f_equal. apply wrap_small.
    apply Z.ltb_lt in E.
    destruct (Z.le_gt_cases 32 (Z.of_nat n)) as [H | H].
    + pose proof (Z.pow_le_mono_r 2 32 (Z.of_nat n) ltac:(lia) H). lia.
    + pose proof (wrap_bound (Z.of_nat n) (keep w) ltac:(lia)). rewrite Hk in *.
      pose proof (Z.pow_le_mono_r 2 (Z.of_nat n) 32 ltac:(lia) ltac:(lia)). lia.
  - rewrite extract_put_hex; [| by destruct (last w) | done | by repeat constructor].
    replace (2 ^ 16 - 1 <? _) with false by by destruct (last w).
    rewrite Hk. by destruct w as [? ? []].
Qed.

(** ** Properties *)

(** What [print] writes [scan] reads back, and what [printLE] writes
    [scanLE] reads back: the whole word, whatever the variable and the
    uninitialised local variable held before and whatever text follows; the
    functions report success and leave the stream behind the last byte. *)
Theorem scan_print_roundtrip (n : nat) temp d w r :
  (0 < n)%nat -> wrap (8 * Z.of_nat n) d = d -> wrap (8 * Z.of_nat n) w = w ->
  scan (8 * Z.of_nat n) temp (IStream (print (8 * Z.of_nat n) w ++ r) false) d =
    (IStream (" " :: r) false, w, true) /\
  scanLE (8 * Z.of_nat n) temp (IStream (printLE (8 * Z.of_nat n) w ++ r) false) d =
    (IStream (" " :: r) false, w, true).
Proof.
  intros Hn Hd Hw. unfold scan, scanLE, print, printLE.
  pose proof (fun ps H => scan_print_word n ps w [] r temp d Hn H (Forall_nil_2 _) Hd Hw) as Hs.
  cbn [app] in Hs. split; rewrite Hs; try done; [apply elem_of_up | apply elem_of_down].
Qed.

(** C35: [scan] for [net_axis] words reads back every field of what [print]
    wrote, for all words whose [keep] fits 32 bits, so for all words of at
    most 32 bytes; the text may begin with the separator after an earlier word,
    so that sequences of words are read back one after the other. *)
Theorem scan_axis_roundtrip (n : nat) u w word pre r : (0 < n <= 64)%nat ->
  wrap (8 * Z.of_nat n) (data word) = data word ->
  wrap (8 * Z.of_nat n) (data w) = data w -> wrap (Z.of_nat n) (keep w) = keep w ->
  keep w < 2 ^ 32 -> Forall (fun c => is_space c = true) pre -> ends r ->
  scan_axis (8 * Z.of_nat n) u (IStream (pre ++ print_axis (8 * Z.of_nat n) w ++ r) false) word =
    (IStream r false, w, true).
Proof.
  intros Hn Hd Hw Hk Hlt Hpre Hr. rewrite scan_print_axis by done.
  by replace (2 ^ 32 - 1 <? _) with false by (symmetry; apply Z.ltb_ge; lia).
Qed.

(** For words of more than 32 bytes - the 512-bit words of the shell - [scan]
    rejects what [print] wrote whenever a [keep] bit above the 32nd is set,
    because it reads [keep] into a [uint32_t]: it stores the mask
    [0xffffffff], which drops the upper bytes, takes [last] from an
    uninitialised variable, and leaves the stream failed. *)
Theorem scan_axis_keep_overflow (n : nat) u w word r : (32 < n <= 64)%nat ->
  wrap (8 * Z.of_nat n) (data word) = data word ->
  wrap (8 * Z.of_nat n) (data w) = data w -> wrap (Z.of_nat n) (keep w) = keep w ->
  2 ^ 32 <= keep w -> ends r ->
  exists s, failed s = true /\
  scan_axis (8 * Z.of_nat n) u (IStream (print_axis (8 * Z.of_nat n) w ++ r) false) word =
    (s, NetAxis (data w) 0xffffffff (Z.testbit (lastTemp u) 0), false).
Proof.
  intros Hn Hd Hw Hk Hge Hr.
  pose proof (scan_print_axis n u w word [] r) as H. cbn [app] in H. rewrite H by (done || lia).
  replace (2 ^ 32 - 1 <? _) with true by (symmetry; apply Z.ltb_lt; lia).
  eexists. split; [|reflexivity]. done.
Qed.

(** ** Witnesses *)

(** 0xbeef as text: [print] writes the low byte first, [printLE] the high one. *)
Example print_example : print 16 0xbeef = ["e"; "f"; " "; "b"; "e"; " "] /\
  printLE 16 0xbeef = ["b"; "e"; " "; "e"; "f"; " "].
Proof. done. Qed.

Lemma scan_print_roundtrip_witness :
  scan 32 7 (IStream (print 32 0x0a0b0c0d ++ ["!"]) false) 5 = (IStream [" "; "!"] false, 0x0a0b0c0d, true).
Proof. apply (scan_print_roundtrip 4 7 5 0x0a0b0c0d ["!"]); reflexivity || lia. Defined.

Lemma scan_axis_roundtrip_witness :
  scan_axis 64 (ScanLocals 1 2 3)
    (IStream ([" "] ++ print_axis 64 (NetAxis 0x1122334455667788 0x0f true) ++ [" "]) false) (NetAxis 0 0 false) =
  (IStream [" "] false, NetAxis 0x1122334455667788 0x0f true, true).
Proof.
  apply (scan_axis_roundtrip 8 (ScanLocals 1 2 3) (NetAxis 0x1122334455667788 0x0f true)
    (NetAxis 0 0 false) [" "] [" "]); try reflexivity; try lia.
  repeat constructor.
Defined.

Lemma scan_axis_keep_overflow_witness : exists s, failed s = true /\
  scan_axis 512 (ScanLocals 1 2 0) (IStream (print_axis 512 (NetAxis 0xabc (Z.ones 64) true) ++ []) false)
    (NetAxis 0 0 false) = (s, NetAxis 0xabc 0xffffffff false, false).
Proof.
  apply (scan_axis_keep_overflow 64 (ScanLocals 1 2 0) (NetAxis 0xabc (Z.ones 64) true) (NetAxis 0 0 false) []);
    reflexivity || lia || done || (vm_compute; discriminate).
Defined.
