(* ===== verification/WidthConv.v ===== *)
(** [convertStreamToDoubleWidth] and [convertStreamToHalfWidth] of
    [src/hls/axi_utils.hpp]: the stream width converters, that they carry the
    same bytes, and that halving undoes doubling. *)
From S2P Require Import Prelude Streams AxiUtils.

(** ** Definitions *)

Module Double.

(** The static variables [even] and [temp]. *)
Record state := State { even : bool; temp : net_axis }.

Definition init : state := State false (NetAxis 0 0 false).

(** [convertStreamToDoubleWidth<W>]; it has no uninitialised locals that it reads. *)
Definition step (W : Z) (_ : unit) (s : state) (input : list net_axis) :
    state * list net_axis * list net_axis :=
  match input with
  | [] => (s, [], [])
  | currWord :: input =>
      let t := temp s in
      if negb (even s) then
        let d := set_range (data t) (W - 1) 0 (data currWord) in
        let k := set_range (keep t) (W / 8 - 1) 0 (keep currWord) in
        let k := set_range k (W * 2 / 8 - 1) (W / 8) 0 in
        if last currWord then
          let t := NetAxis (set_range d (W * 2 - 1) W 0)
                           (set_range k (W * 2 / 8 - 1) (W / 8) 0) (last currWord) in
          (State false t, input, [t])
        else (State true (NetAxis d k (last currWord)), input, [])
      else
        let t := NetAxis (set_range (data t) (W * 2 - 1) W (data currWord))
                         (set_range (keep t) (W * 2 / 8 - 1) (W / 8) (keep currWord))
                         (last currWord) in
        (State false t, input, [t])
  end.

End Double.

Module Half.

Inductive fsmStateType := FIRST | SECOND.

Record state := State { fsmState : fsmStateType; currWord : net_axis }.

Definition init : state := State FIRST (NetAxis 0 0 false).

(** [convertStreamToHalfWidth<W, DUMMY>]; the static [even] is never used. *)
Definition step (W : Z) (_ : unit) (s : state) (input : list net_axis) :
    state * list net_axis * list net_axis :=
  match fsmState s with
  | FIRST =>
      match input with
      | [] => (s, [], [])
      | w :: input =>
          let t := NetAxis (range (data w) (W / 2 - 1) 0)
                           (range (keep w) (W / 2 / 8 - 1) 0)
                           (negb (Z.testbit (keep w) (W / 8 / 2))) in
          (State (if Z.testbit (keep w) (W / 8 / 2) then SECOND else FIRST) w, input, [t])
      end
  | SECOND =>
      let w := currWord s in
      let t := NetAxis (range (data w) (W - 1) (W / 2))
                       (range (keep w) (W / 8 - 1) (W / 8 / 2)) (last w) in
      (State FIRST w, input, [t])
  end.

End Half.

(** ** Doubling *)

Section double.
Variable n : nat.
Hypothesis n_pos : (0 < n)%nat.
Let W := 8 * Z.of_nat n.

Definition double_ready (s : Double.state) : Prop :=
  Double.even s = false /\
  wrap (W * 2) (data (Double.temp s)) = data (Double.temp s) /\
  wrap (Z.of_nat n * 2) (keep (Double.temp s)) = keep (Double.temp s).

(** A full word of bytes [d] is waiting for its second half. *)
Definition double_pending (s : Double.state) (d : Z) : Prop :=
  Double.even s = true /\
  wrap (W * 2) (data (Double.temp s)) = data (Double.temp s) /\
  bytes n (data (Double.temp s)) = bytes n d /\
  keep (Double.temp s) = Z.ones (Z.of_nat n).

Lemma W_pos : 0 < W.
Proof. unfold W. lia. Qed.

Lemma W_div8 : W / 8 = Z.of_nat n.
Proof. unfold W. rewrite Z.mul_comm. by apply Z.div_mul. Qed.

Lemma W2_div8 : W * 2 / 8 = Z.of_nat n * 2.
Proof. unfold W. replace (8 * Z.of_nat n * 2) with (Z.of_nat n * 2 * 8) by lia. by apply Z.div_mul. Qed.

(** The word completed by the second half. *)
Lemma double_complete s d w k : double_pending s d -> (k <= n)%nat ->
  keep w = Z.ones (Z.of_nat k) ->
  let t := NetAxis (set_range (data (Double.temp s)) (W * 2 - 1) W (data w))
    (set_range (keep (Double.temp s)) (Z.of_nat n * 2 - 1) (Z.of_nat n) (keep w)) (last w) in
  double_ready (Double.State false t) /\
  bytes (n + k) (data t) = bytes n d ++ bytes k (data w) /\
  keep t = Z.ones (Z.of_nat (n + k)).
Proof.
  intros (He & Hd & Hb & Hkp) Hk Hw t. pose proof W_pos as HW.
  assert (HWn : W = 8 * Z.of_nat n) by done. clearbody W. unfold double_ready. split_and!.
  - done.
  - cbn. fits.
  - cbn. fits. rewrite Hkp, wrap_ones by lia. f_equal. lia.
  - rewrite bytes_app, <- Hb. f_equal; apply bytes_ext; intros i Hi; cbn;
      autorewrite with bits; bool_cases; f_equal; lia.
  - cbn. rewrite Hkp, Hw. bitwise.
Qed.

Lemma double_begin s w : double_ready s -> keep w = Z.ones (Z.of_nat n) ->
  double_pending (Double.State true
    (NetAxis (set_range (data (Double.temp s)) (W - 1) 0 (data w))
       (set_range (set_range (keep (Double.temp s)) (Z.of_nat n - 1) 0 (keep w))
          (Z.of_nat n * 2 - 1) (Z.of_nat n) 0) (last w))) (data w).
Proof.
  intros (He & Hd & Hkp) Hw. pose proof W_pos as HW.
  assert (HWn : W = 8 * Z.of_nat n) by done. clearbody W. split_and!; cbn.
  - done.
  - fits.
  - apply bytes_ext. intros i Hi. rewrite testbit_set_range by lia. bool_cases. f_equal. lia.
  - rewrite Hw. bitwise. apply (wrap_testbit_high (Z.of_nat n * 2)); [lia | done].
Qed.

(** The converter preserves the bytes of a packet, from either state. *)
Lemma double_packet ws bs : carries n ws bs ->
  (forall s, double_ready s -> consumes (Double.step W) s ws (length ws)
     (fun sf os => double_ready sf /\ carries (n * 2) os bs)) /\
  (forall s d, double_pending s d -> consumes (Double.step W) s ws (length ws)
     (fun sf os => double_ready sf /\ carries (n * 2) os (bytes n d ++ bs))).
Proof.
  pose proof W_pos as HW. assert (HWn : W = 8 * Z.of_nat n) by done. clearbody W.
  induction 1 as [w k Hk Hkeep Hlast | w ws bs Hkeep Hlast Hc [IH0 IH1]]; split.
  - intros s (He & Hd & Hkp). cbn [length].
    eapply consumes_read; [done | |].
    { intros j r. cbn. rewrite He, Hlast. cbn. reflexivity. }
    apply consumes_nil. rewrite Hkeep, W_div8, W2_div8. split.
    + split_and!; cbn; fits.
    + cbn. match goal with |- carries _ [?t] _ => replace (bytes k (data w)) with (bytes k (data t)) end.
      * constructor; cbn; [lia | | done].
        bitwise. apply (wrap_testbit_high (Z.of_nat n * 2)); [lia | done].
      * apply bytes_ext. intros i Hi. cbn. rewrite !testbit_set_range by lia. by bool_cases; f_equal; lia.
  - intros s d Hp. destruct (double_complete s d w k Hp Hk Hkeep) as (Hr & Hb & Hkt). destruct Hp as [He _].
    cbn [length]. eapply consumes_read; [done | |].
    { intros j r. cbn. rewrite He, W_div8, W2_div8. cbn. reflexivity. }
    apply consumes_nil. split; [done|]. rewrite <- Hb. by constructor; [lia | |].
  - intros s Hs. pose proof (double_begin s w Hs Hkeep) as Hp. destruct Hs as [He _].
    cbn [length]. eapply consumes_read; [done | |].
    { intros j r. cbn. rewrite He, W_div8, W2_div8, Hlast. cbn. reflexivity. }
    rewrite Hlast in Hp. by apply IH1.
  - intros s d Hp. destruct (double_complete s d w n Hp ltac:(lia) Hkeep) as (Hr & Hb & Hkt). destruct Hp as [He _].
    cbn [length]. eapply consumes_read; [done | |].
    { intros j r. cbn. rewrite He, W_div8, W2_div8. cbn. reflexivity. }
    eapply consumes_weaken; [by apply IH0 | lia |]. intros sf os [? ?]. split; [done|].
    rewrite app_assoc, <- Hb. replace (n + n)%nat with (n * 2)%nat in * by lia. by constructor.
Qed.
End double.

(** ** Halving *)

Definition half_ready (s : Half.state) : Prop := Half.fsmState s = Half.FIRST.

Section half.
Variable n : nat.
Hypothesis n_pos : (0 < n)%nat.
Let W := 8 * Z.of_nat (n * 2).

Lemma half_widths : W / 2 = 8 * Z.of_nat n /\ W / 2 / 8 = Z.of_nat n /\
  W / 8 = Z.of_nat n * 2 /\ W / 8 / 2 = Z.of_nat n.
Proof.
  unfold W. rewrite Nat2Z.inj_mul. change (Z.of_nat 2) with 2.
  replace (8 * (Z.of_nat n * 2)) with (8 * Z.of_nat n * 2) by lia.
  rewrite (Z.div_mul (8 * Z.of_nat n) 2) by lia.
  replace (8 * Z.of_nat n * 2) with (Z.of_nat n * 2 * 8) by lia.
  rewrite (Z.div_mul (Z.of_nat n * 2) 8), (Z.div_mul (Z.of_nat n) 2) by lia.
  replace (8 * Z.of_nat n) with (Z.of_nat n * 8) by lia. by rewrite Z.div_mul by lia.
Qed.

(** The words written for the two halves of a word of [k] valid bytes. *)
Definition half_low (w : net_axis) (k : nat) : net_axis :=
  NetAxis (range (data w) (8 * Z.of_nat n - 1) 0)
    (Z.ones (Z.of_nat (k `min` n))) (negb (n <? k)%nat).

Definition half_high (w : net_axis) (k : nat) : net_axis :=
  NetAxis (range (data w) (W - 1) (8 * Z.of_nat n)) (Z.ones (Z.of_nat (k - n))) (last w).

Lemma half_low_step w k r s : half_ready s -> (k <= n * 2)%nat -> keep w = Z.ones (Z.of_nat k) ->
  Half.step W tt s (w :: r) =
    (Half.State (if (n <? k)%nat then Half.SECOND else Half.FIRST) w, r, [half_low w k]).
Proof.
  intros Hs Hk Hw. destruct half_widths as (E1 & E2 & E3 & E4). unfold Half.step. rewrite Hs, E2, E1, E4.
  rewrite Hw, testbit_ones, range_ones by lia. unfold half_low.
  replace ((0 <=? Z.of_nat n) && (Z.of_nat n <? Z.of_nat k)) with (n <? k)%nat
    by (destruct (Nat.ltb_spec n k); bool_cases).
  do 4 f_equal. f_equal. lia.
Qed.

Lemma half_high_step w k r : (n <= k <= n * 2)%nat -> keep w = Z.ones (Z.of_nat k) ->
  Half.step W tt (Half.State Half.SECOND w) r = (Half.State Half.FIRST w, r, [half_high w k]).
Proof.
  intros Hk Hw. destruct half_widths as (E1 & E2 & E3 & E4). unfold Half.step, half_high. cbn.
  rewrite E1, E4, E3, Hw, range_ones by lia. do 4 f_equal. f_equal. lia.
Qed.

Lemma half_bytes w k : (n <= k <= n * 2)%nat ->
  bytes k (data w) = bytes n (data (half_low w k)) ++ bytes (k - n) (data (half_high w k)).
Proof.
  intros Hk. replace k with (n + (k - n))%nat at 1 by lia. rewrite bytes_app. unfold half_low, half_high.
  cbn [data]. rewrite !bytes_range by (unfold W; lia). by rewrite Z.shiftr_0_r.
Qed.

Lemma half_packet ws bs : carries (n * 2) ws bs -> forall s, half_ready s ->
  consumes (Half.step W) s ws (2 * length ws) (fun sf os => half_ready sf /\ carries n os bs).
Proof.
  induction 1 as [w k Hk Hkeep Hlast | w ws bs Hkeep Hlast Hc IH]; intros s Hs.
  - apply (consumes_le _ _ _ (S (if (n <? k)%nat then 1 else 0))); [| by destruct (n <? k)%nat; cbn; lia].
    eapply consumes_read; [intros []; unfold Half.step; by rewrite Hs | |].
    { intros [] r. by rewrite (half_low_step w k). }
    destruct (Nat.ltb_spec n k).
    + eapply consumes_emit. { intros [] r. by rewrite (half_high_step w k) by lia. }
      apply consumes_nil. split; [done|]. rewrite half_bytes by lia.
      apply carries_more; unfold half_low; cbn [keep last]; [f_equal; lia | apply negb_false_iff, Nat.ltb_lt; lia |].
      by constructor; cbn; [lia | |].
    + apply consumes_nil. split; [done|].
      replace (bytes k (data w)) with (bytes k (data (half_low w k))).
      * constructor; unfold half_low; cbn [keep last]; [lia | f_equal; lia | apply negb_true_iff, Nat.ltb_ge; lia].
      * cbn. rewrite bytes_range by lia. by rewrite Z.shiftr_0_r.
  - replace (2 * length (w :: ws))%nat with (S (S (2 * length ws))) by (cbn; lia).
    eapply consumes_read; [intros []; unfold Half.step; by rewrite Hs | |].
    { intros [] r. by rewrite (half_low_step w (n * 2)). }
    destruct (Nat.ltb_spec n (n * 2)); [|lia].
    eapply consumes_emit. { intros [] r. by rewrite (half_high_step w (n * 2)) by lia. }
    eapply consumes_weaken; [by apply IH | lia |]. intros sf os [? ?]. split; [done|].
    rewrite half_bytes, <- app_assoc by lia.
    apply carries_more; unfold half_low; cbn [keep last]; [f_equal; lia | apply negb_false_iff, Nat.ltb_lt; lia |].
    replace (n * 2 - n)%nat with n by lia. apply carries_more; [cbn; do 2 f_equal; lia | done | done].
Qed.
End half.

(** ** The converters on streams of packets *)

Lemma double_stream n s wss bss : (0 < n)%nat -> double_ready n s -> carries_all n wss bss ->
  consumes (Double.step (8 * Z.of_nat n)) s wss (length wss)
    (fun sf os => double_ready n sf /\ carries_all (n * 2) os bss).
Proof.
  intros Hn Hs Hc. rewrite <- (list_fmap_id bss), <- (Nat.mul_1_l (length wss)).
  apply (consumes_axis_packets _ (double_ready n) n (n * 2) 1 (fun _ => True) (fun bs => bs));
    [| done | done | by apply Forall_true].
  intros s' ws bs Hs' Hw _. rewrite Nat.mul_1_l. by apply (double_packet n Hn).
Qed.

Lemma half_waits W s : half_ready s -> forall j, Half.step W j s [] = (s, [], []).
Proof. intros Hs j. unfold Half.step. by rewrite Hs. Qed.

Lemma half_stream n s wss bss : (0 < n)%nat -> half_ready s -> carries_all (n * 2) wss bss ->
  consumes (Half.step (8 * Z.of_nat (n * 2))) s wss (2 * length wss)
    (fun sf os => half_ready sf /\ carries_all n os bss).
Proof.
  intros Hn Hs Hc. rewrite <- (list_fmap_id bss).
  apply (consumes_axis_packets _ half_ready (n * 2) n 2 (fun _ => True) (fun bs => bs));
    [| done | done | by apply Forall_true].
  intros s' ws bs Hs' Hw _. by apply (half_packet n Hn).
Qed.

(** C38: convertStreamToDoubleWidth turns every sequence of packets on a
    [W]-bit stream into packets on a [2W]-bit stream that carry the same
    bytes, however the words arrive, writing the last word in the cycle that
    reads it, and is then ready for the next packet. *)
Theorem double_width_preserves_bytes n s wss bss : (0 < n)%nat -> double_ready n s ->
  carries_all n wss bss ->
  settles (Double.step (8 * Z.of_nat n)) s wss (length wss)
    (fun sf os => double_ready n sf /\ carries_all (n * 2) os bss).
Proof. intros. by apply consumes_settles; [apply double_stream|]. Qed.

(** convertStreamToHalfWidth turns every sequence of packets on a
    [W]-bit stream into packets on a [W/2]-bit stream that carry the same
    bytes: it drops the empty upper halves and marks the right word as last. *)
Theorem half_width_preserves_bytes n s wss bss : (0 < n)%nat -> half_ready s ->
  carries_all (n * 2) wss bss ->
  settles (Half.step (8 * Z.of_nat (n * 2))) s wss (2 * length wss)
    (fun sf os => half_ready sf /\ carries_all n os bss).
Proof.
  intros. apply consumes_settles; [by apply half_stream|].
  intros sf os [? _]. by apply half_waits.
Qed.

(** connected by a FIFO, the converter to half width undoes the
    converter to double width: the pipeline delivers the packets it was given,
    on a stream of the original width. *)
Theorem half_after_double n s1 s2 wss bss : (0 < n)%nat -> double_ready n s1 -> half_ready s2 ->
  carries_all n wss bss ->
  exists K, settles (pipe (Double.step (8 * Z.of_nat n)) (Half.step (8 * Z.of_nat (n * 2))))
    (s1, s2, []) wss K (fun _ os => carries_all n os bss).
Proof.
  intros Hn Hs1 Hs2 Hc.
  destruct (consumes_computes _ _ _ _ _ (double_stream n s1 wss bss Hn Hs1 Hc)) as (sf1 & mid & [_ Hm] & H1);
    [done|].
  destruct (consumes_computes _ _ _ _ _ (half_stream n s2 mid bss Hn Hs2 Hm)) as (sf2 & os & [_ Ho] & H2).
  { intros sf os [? _]. by apply half_waits. }
  eexists. eapply computes_settles; [by apply (computes_pipe _ _ _ _ _ _ _ _ _ _ _ H1 H2) | done].
Qed.

(** Two one-byte packets, the second one of two words. *)
Definition example_words : list net_axis :=
  [NetAxis 0xA1 1 true; NetAxis 0xB2 1 false; NetAxis 0xC3 1 true].

Lemma example_words_carry : carries_all 1 example_words [[0xA1]; [0xB2; 0xC3]].
Proof.
  apply (carries_all_concat 1 [[NetAxis 0xA1 1 true]; [NetAxis 0xB2 1 false; NetAxis 0xC3 1 true]]).
  repeat constructor; by apply packet_bytes_carries.
Qed.

Lemma double_width_witness : settles (Double.step 8) Double.init example_words 3
  (fun sf os => double_ready 1 sf /\ carries_all 2 os [[0xA1]; [0xB2; 0xC3]]).
Proof.
  apply (double_width_preserves_bytes 1 Double.init example_words); [lia | | apply example_words_carry].
  vm_compute; auto.
Defined.

Lemma half_width_witness : settles (Half.step 16) Half.init [NetAxis 0xB2A1 3 true] 2
  (fun sf os => half_ready sf /\ carries_all 1 os [[0xA1; 0xB2]]).
Proof.
  apply (half_width_preserves_bytes 1 Half.init [NetAxis 0xB2A1 3 true]); [lia | reflexivity |].
  by apply packet_bytes_carries_all.
Defined.

Lemma half_after_double_witness : exists K,
  settles (pipe (Double.step 8) (Half.step 16)) (Double.init, Half.init, []) example_words K
    (fun _ os => carries_all 1 os [[0xA1]; [0xB2; 0xC3]]).
Proof.
  apply (half_after_double 1 Double.init Half.init example_words);
    [lia | vm_compute; auto | reflexivity | apply example_words_carry].
Defined.
