(* ===== verification/ShiftOctet.v ===== *)
(** [rshiftWordByOctet] and [lshiftWordByOctet] of [src/hls/axi_utils.hpp]:
    the blocks that remove, respectively insert, [offset] bytes at the front
    of a packet. *)
From S2P Require Import Prelude Streams AxiUtils.

(** ** Definitions *)

Module Rshift.

Inductive fsmStateType := PKG | REMAINDER.

Record state (T : Type) := State {
  fsmState : fsmStateType; rs_firstWord : bool; prevWord : T }.
Arguments State {T}.
Arguments fsmState {T}.
Arguments rs_firstWord {T}.
Arguments prevWord {T}.

(** [rshiftWordByOctet<T, W, whatever>].  [j] holds the uninitialised local
    variables [currWord] and [sendWord]. *)
Definition step {T} `{AxisWord T} (W offset : Z) (j : T * T) (s : state T) (input : list T) :
    state T * list T * list T :=
  let undefWord := undef_axis W (as_axis j.2) in
  let sendWord := with_axis j.2 (NetAxis (data undefWord) (keep undefWord) false) in
  let pw := as_axis (prevWord s) in
  match fsmState s with
  | PKG =>
      match input with
      | [] => (s, [], [])
      | currWord :: input =>
          let cw := as_axis currWord in
          let sendWord :=
            if rs_firstWord s then sendWord
            else if offset =? 0 then currWord
            else
              let d := set_range (data undefWord) (W - 1 - 8 * offset) 0
                         (range (data pw) (W - 1) (8 * offset)) in
              let d := set_range d (W - 1) (W - 8 * offset) (range (data cw) (8 * offset - 1) 0) in
              let k := set_range (keep undefWord) (W / 8 - 1 - offset) 0
                         (range (keep pw) (W / 8 - 1) offset) in
              let k := set_range k (W / 8 - 1) (W / 8 - offset) (range (keep cw) (offset - 1) 0) in
              assignDest (with_axis sendWord
                (NetAxis d k (range (keep cw) (W / 8 - 1) offset =? 0))) currWord in
          (State (if last cw && negb (last (as_axis sendWord)) then REMAINDER else PKG)
                 (last cw) currWord,
           input, if rs_firstWord s then [] else [sendWord])
      end
  | REMAINDER =>
      let d := set_range (data undefWord) (W - 1 - 8 * offset) 0
                 (range (data pw) (W - 1) (8 * offset)) in
      let d := set_range d (W - 1) (W - 8 * offset) 0 in
      let k := set_range (keep undefWord) (W / 8 - 1 - offset) 0
                 (range (keep pw) (W / 8 - 1) offset) in
      let k := set_range k (W / 8 - 1) (W / 8 - offset) 0 in
      let sendWord := assignDest (with_axis sendWord (NetAxis d k true)) j.1 in
      (State PKG (rs_firstWord s) (prevWord s), input, [sendWord])
  end.

Definition init : state net_axis := State PKG true (NetAxis 0 0 false).

End Rshift.

Module Lshift.

Record state := State {
  ls_firstWord : bool; ls_writeRemainder : bool; prevWord : net_axis }.

Definition init : state := State true false (NetAxis 0 0 false).

(** [lshiftWordByOctet<W, whatever>] on [axiWord]s; [j] is the uninitialised
    [sendWord]. *)
Definition step (W offset : Z) (j : net_axis) (s : state) (input : list net_axis) :
    state * list net_axis * list net_axis :=
  let sendWord := undef_axis AXI_WIDTH j in
  let pw := prevWord s in
  if ls_writeRemainder s then
    let d := set_range (data sendWord) (8 * offset - 1) 0 (range (data pw) (W - 1) (W - 8 * offset)) in
    let d := set_range d (W - 1) (8 * offset) 0 in
    let k := set_range (keep sendWord) (offset - 1) 0 (range (keep pw) (W / 8 - 1) (W / 8 - offset)) in
    let k := set_range k (W / 8 - 1) offset 0 in
    (State (ls_firstWord s) false pw, input, [NetAxis d k true])
  else
    match input with
    | [] => (s, [], [])
    | currWord :: input =>
        if offset =? 0 then (s, input, [currWord])
        else
          let d := set_range (data sendWord) (8 * offset - 1) 0
                     (if ls_firstWord s then 0 else range (data pw) (W - 1) (W - 8 * offset)) in
          let d := set_range d (W - 1) (8 * offset) (range (data currWord) (W - 1 - 8 * offset) 0) in
          let k := set_range (keep sendWord) (offset - 1) 0
                     (if ls_firstWord s then 0xFFFFFFFF
                      else range (keep pw) (W / 8 - 1) (W / 8 - offset)) in
          let k := set_range k (W / 8 - 1) offset (range (keep currWord) (W / 8 - 1 - offset) 0) in
          let l := range (keep currWord) (W / 8 - 1) (W / 8 - offset) =? 0 in
          (State (last currWord) (if last currWord then negb l else ls_writeRemainder s) currWord,
           input, [NetAxis d k l])
    end.

End Lshift.

(** ** [rshiftWordByOctet] *)

Definition rshift_ready (s : Rshift.state net_axis) : Prop :=
  Rshift.fsmState s = Rshift.PKG /\ Rshift.rs_firstWord s = true.

Lemma range_ones_eq0 (n k a : nat) : (a < n)%nat -> (k <= n)%nat ->
  (range (Z.ones (Z.of_nat k)) (Z.of_nat n - 1) (Z.of_nat a) =? 0) = (k <=? a)%nat.
Proof.
  intros. rewrite range_ones by lia. destruct (Nat.leb_spec k a).
  - rewrite Z.max_l, Z.min_l by lia. done.
  - apply Z.eqb_neq. intros E. apply (ones_inj _ 0) in E; lia.
Qed.

Section rshift.
Context (n o : nat).
Hypothesis o_lt : (0 < o < n)%nat.
Let W := 8 * Z.of_nat n.
Let offset := Z.of_nat o.

Lemma shift_W_div8 : W / 8 = Z.of_nat n.
Proof. unfold W. rewrite Z.mul_comm. by apply Z.div_mul. Qed.

(** The word sent when [c] follows [p], and the one sent for the rest of [p];
    [k] counts the valid bytes of [c], respectively [p]. *)
Definition rs_word (p c : net_axis) (k : nat) : net_axis :=
  NetAxis (join (8 * Z.of_nat (n - o)) (range (data p) (W - 1) (8 * offset))
                (wrap (8 * offset) (range (data c) (8 * offset - 1) 0)))
    (Z.ones (Z.of_nat (n - o + k `min` o))) (k <=? o)%nat.

Definition rs_rest (p : net_axis) (k : nat) : net_axis :=
  NetAxis (join (8 * Z.of_nat (n - o)) (range (data p) (W - 1) (8 * offset)) 0)
    (Z.ones (Z.of_nat (k - o))) true.

Lemma rs_data u a b :
  set_range (set_range (data (undef_axis W u)) (W - 1 - 8 * offset) 0 a) (W - 1) (W - 8 * offset) b =
  join (8 * Z.of_nat (n - o)) a (wrap (8 * offset) b).
Proof.
  rewrite (set_range_pair W); unfold W, offset; [f_equal; [lia | f_equal; lia] | lia | | lia].
  apply wrap_idemp. lia.
Qed.

Lemma rs_keep u k : (k <= n)%nat ->
  set_range (set_range (keep (undef_axis W u)) (Z.of_nat n - 1 - offset) 0
    (range (Z.ones (Z.of_nat n)) (Z.of_nat n - 1) offset))
    (Z.of_nat n - 1) (Z.of_nat n - offset) (range (Z.ones (Z.of_nat k)) (offset - 1) 0) =
  Z.ones (Z.of_nat (n - o + k `min` o)).
Proof.
  intros. unfold undef_axis, offset. cbn [keep]. rewrite shift_W_div8.
  rewrite (set_range_pair (Z.of_nat n)) by (lia || apply wrap_idemp; lia).
  rewrite !range_ones, wrap_ones by lia. rewrite join_ones_eq by lia. f_equal. lia.
Qed.

Lemma rs_keep_rest u k : (k <= n)%nat ->
  set_range (set_range (keep (undef_axis W u)) (Z.of_nat n - 1 - offset) 0
    (range (Z.ones (Z.of_nat k)) (Z.of_nat n - 1) offset))
    (Z.of_nat n - 1) (Z.of_nat n - offset) 0 =
  Z.ones (Z.of_nat (k - o)).
Proof.
  intros. unfold undef_axis, offset. cbn [keep]. rewrite shift_W_div8.
  rewrite (set_range_pair (Z.of_nat n)) by (lia || apply wrap_idemp; lia).
  rewrite range_ones, wrap_0, join_0_r, wrap_ones by lia. f_equal. lia.
Qed.

Lemma rs_first_step p w j r : last w = false \/ last w = true ->
  Rshift.step W offset j (Rshift.State Rshift.PKG true p) (w :: r) =
    (Rshift.State (if last w then Rshift.REMAINDER else Rshift.PKG) (last w) w, r, []).
Proof. intros. unfold Rshift.step. cbn. by rewrite andb_true_r. Qed.

Lemma rs_word_step p w k j r : (k <= n)%nat -> keep p = Z.ones (Z.of_nat n) ->
  keep w = Z.ones (Z.of_nat k) ->
  Rshift.step W offset j (Rshift.State Rshift.PKG false p) (w :: r) =
    (Rshift.State (if last w && negb (k <=? o)%nat then Rshift.REMAINDER else Rshift.PKG) (last w) w,
     r, [rs_word p w k]).
Proof.
  intros Hk Hp Hw. unfold Rshift.step.
  cbn [as_axis axisword_axis Rshift.prevWord Rshift.fsmState Rshift.rs_firstWord with_axis assignDest last].
  destruct (Z.eqb_spec offset 0); [unfold offset in *; lia|].
  rewrite shift_W_div8, Hp, Hw, rs_data, rs_keep by done. unfold offset. by rewrite range_ones_eq0 by lia.
Qed.

Lemma rs_rest_step p b k j r : (k <= n)%nat -> keep p = Z.ones (Z.of_nat k) ->
  Rshift.step W offset j (Rshift.State Rshift.REMAINDER b p) r =
    (Rshift.State Rshift.PKG b p, r, [rs_rest p k]).
Proof.
  intros Hk Hp. unfold Rshift.step.
  cbn [as_axis axisword_axis Rshift.prevWord Rshift.fsmState Rshift.rs_firstWord with_axis assignDest last].
  rewrite shift_W_div8, Hp, rs_data, rs_keep_rest, wrap_0 by (done || (unfold offset; lia)). done.
Qed.

Lemma rs_word_bytes p w k : (k <= o)%nat ->
  bytes (n - o + k) (data (rs_word p w k)) = drop o (bytes n (data p)) ++ bytes k (data w).
Proof.
  intros. cbn. rewrite bytes_join, drop_bytes, !bytes_range, bytes_wrap, bytes_range by (unfold W, offset; lia).
  by rewrite Z.shiftr_0_r.
Qed.

Lemma rs_rest_bytes p k : (k <= n)%nat -> bytes (k - o) (data (rs_rest p k)) = drop o (bytes k (data p)).
Proof.
  intros. rewrite drop_bytes. cbn. apply bytes_ext. intros i Hi. unfold W, offset.
  autorewrite with bits; bool_cases; done.
Qed.

Lemma rs_more_bytes p w k : (o <= k)%nat ->
  bytes n (data (rs_word p w k)) = drop o (bytes n (data p)) ++ bytes o (data w).
Proof.
  intros. rewrite <- (rs_word_bytes p w o) by done. replace (n - o + o)%nat with n by lia. done.
Qed.

Lemma split_word_bytes k x : (o <= k)%nat -> bytes k x = bytes o x ++ drop o (bytes k x).
Proof. intros. rewrite <- (take_drop o (bytes k x)) at 1. by rewrite take_bytes, Nat.min_l by lia. Qed.

(** A block that sends [rs_word] for every word it reads and [rs_rest] at the
    end when something is left.  [store p w] is what it remembers of [w]. *)
Section splice.
Context {J St In : Type} `{Fifos In} (step : J -> St -> In -> St * In * list net_axis).
Variables (put : list net_axis -> In) (store : net_axis -> net_axis -> net_axis).
Variables (word_state rest_state : net_axis -> St) (final : St -> Prop) (done_state : net_axis -> St).
Hypothesis store_data : forall p w, data (store p w) = data w.
Hypothesis store_keep : forall p w, keep (store p w) = keep w.
Hypothesis done_final : forall p, final (done_state p).
Hypothesis put_nil : put [] = fnil.
Hypothesis read_word : forall p w k l K (Q : St -> list net_axis -> Prop),
  (k <= n)%nat -> (last w = false -> k = n) -> keep p = Z.ones (Z.of_nat n) -> keep w = Z.ones (Z.of_nat k) ->
  consumes step
    (if last w then if (k <=? o)%nat then done_state (store p w) else rest_state (store p w)
     else word_state (store p w))
    (put l) K (fun sf os => Q sf (rs_word p w k :: os)) ->
  consumes step (word_state p) (put (w :: l)) (S K) Q.
Hypothesis write_rest : forall p k, (k <= n)%nat -> keep p = Z.ones (Z.of_nat k) ->
  consumes step (rest_state p) fnil 1 (fun sf os => final sf /\ os = [rs_rest p k]).

Lemma splice_packet ws bs : carries n ws bs -> forall p, keep p = Z.ones (Z.of_nat n) ->
  consumes step (word_state p) (put ws) (S (length ws))
    (fun sf os => final sf /\ carries n os (drop o (bytes n (data p)) ++ bs)).
Proof.
  induction 1 as [w k Hk Hkeep Hlast | w ws bs Hkeep Hlast Hc IH]; intros p Hp; cbn [length].
  - apply (read_word p w k); [done | congruence | done..|]. rewrite Hlast, put_nil. destruct (Nat.leb_spec k o).
    + apply (consumes_le _ _ _ 0); [|lia]. apply consumes_done. split; [done|].
      rewrite <- (rs_word_bytes p w k) by done.
      constructor; unfold rs_word; cbn [keep last]; [lia | do 2 f_equal; lia | by apply Nat.leb_le].
    + eapply consumes_weaken; [by apply write_rest; [|rewrite store_keep] | done |].
      intros sf os [? ->]. split; [done|].
      rewrite (split_word_bytes k (data w)), app_assoc, <- (rs_more_bytes p w k) by lia.
      replace (drop o (bytes k (data w))) with (bytes (k - o) (data (rs_rest (store p w) k))).
      2: { by rewrite rs_rest_bytes, store_data. }
      apply carries_more; unfold rs_word; cbn [keep last]; [do 2 f_equal; lia | by apply Nat.leb_gt |].
      by constructor; cbn; [lia | |].
  - apply (read_word p w n); [done..|]. rewrite Hlast.
    eapply consumes_weaken; [by apply IH; rewrite store_keep | lia |]. intros sf os [? Ho]. split; [done|].
    rewrite store_data in Ho.
    rewrite (split_word_bytes n (data w)), <- app_assoc, app_assoc, <- (rs_more_bytes p w n) by lia.
    apply carries_more; unfold rs_word; cbn [keep last]; [do 2 f_equal; lia | apply Nat.leb_gt; lia | done].
Qed.
End splice.

(** The rest of a packet whose previous word is [p]. *)
Lemma rshift_middle ws bs p : carries n ws bs -> keep p = Z.ones (Z.of_nat n) ->
  consumes (Rshift.step W offset) (Rshift.State Rshift.PKG false p) ws (S (length ws))
    (fun sf os => rshift_ready sf /\ carries n os (drop o (bytes n (data p)) ++ bs)).
Proof.
  intros Hc. revert p. refine (splice_packet (Rshift.step W offset) (fun l => l) (fun _ w => w)
    (Rshift.State Rshift.PKG false) (Rshift.State Rshift.REMAINDER true) rshift_ready
    (Rshift.State Rshift.PKG true) _ _ _ _ _ _ ws bs Hc); try done.
  - intros p w k l K Q Hk Hn Hp Hw HQ. eapply consumes_read; [done | |].
    { intros j r. rewrite (rs_word_step p w k) by done. reflexivity. }
    destruct (last w), (Nat.leb_spec k o); try done.
  - intros p k Hk Hp. eapply consumes_emit. { intros j r. by rewrite (rs_rest_step p true k). }
    by apply consumes_nil.
Qed.

Lemma rshift_packet ws bs s : rshift_ready s -> carries n ws bs ->
  consumes (Rshift.step W offset) s ws (2 * length ws)
    (fun sf os => rshift_ready sf /\ carries n os (drop o bs)).
Proof.
  destruct s as [f b p]. intros [[= ->] [= ->]] Hc. inversion Hc as [w k Hk Hkeep Hlast | w ws' bs' Hkeep Hlast Hc']; subst.
  - eapply consumes_read; [done | |]. { intros j r. rewrite rs_first_step, Hlast; auto. }
    eapply consumes_emit. { intros j r. by rewrite (rs_rest_step w true k). }
    apply consumes_nil. split; [done|]. rewrite <- rs_rest_bytes by lia.
    by constructor; cbn; [lia | |].
  - apply (consumes_le _ _ _ (S (S (length ws')))); [|cbn; lia].
    eapply consumes_read; [done | |]. { intros j r. rewrite rs_first_step, Hlast; auto. }
    eapply consumes_weaken; [by apply rshift_middle | lia |]. intros sf os [? ?]. split; [done|].
    cbn. rewrite drop_app_le by (rewrite length_bytes; lia). done.
Qed.
End rshift.

(** ** [lshiftWordByOctet] *)

Definition lshift_ready (s : Lshift.state) : Prop :=
  Lshift.ls_firstWord s = true /\ Lshift.ls_writeRemainder s = false.

Section lshift.
Context (o : nat).
Hypothesis o_lt : (0 < o < 8)%nat.
Let offset := Z.of_nat o.

(** The word sent for [c] when the bytes held back from the words before it
    are the low [o] bytes of [q]; and the one sent for the rest of [p]. *)
Definition ls_word (q : Z) (c : net_axis) (k : nat) : net_axis :=
  NetAxis (join (8 * offset) q (range (data c) (64 - 1 - 8 * offset) 0))
    (Z.ones (Z.of_nat (o + k `min` (8 - o)))) (k <=? 8 - o)%nat.

Definition ls_rest (p : net_axis) (k : nat) : net_axis :=
  NetAxis (join (8 * offset) (range (data p) (64 - 1) (64 - 8 * offset)) 0)
    (Z.ones (Z.of_nat (k - (8 - o)))) true.

(** The bytes held back. *)
Definition held (first : bool) (p : net_axis) : Z :=
  if first then 0 else range (data p) (64 - 1) (64 - 8 * offset).

Lemma ls_data u a b :
  set_range (set_range (data (undef_axis 64 u)) (8 * offset - 1) 0 a) (64 - 1) (8 * offset) b =
  join (8 * offset) a (wrap (64 - 8 * offset) b).
Proof.
  apply set_range_cover; [unfold offset; lia|]. by apply (wrap_idemp 64).
Qed.

Lemma ls_keep u k a : (k <= 8)%nat -> wrap offset a = Z.ones offset ->
  set_range (set_range (keep (undef_axis 64 u)) (offset - 1) 0 a) (8 - 1) offset
    (range (Z.ones (Z.of_nat k)) (8 - 1 - offset) 0) =
  Z.ones (Z.of_nat (o + k `min` (8 - o))).
Proof.
  intros Hk Ha. rewrite set_range_cover by (apply (wrap_idemp 8) || unfold offset; lia).
  unfold join. rewrite Ha, range_ones by (unfold offset; lia).
  rewrite wrap_ones by (unfold offset; lia). unfold offset. bitwise.
Qed.

Lemma ls_keep_rest u k : (8 - o <= k <= 8)%nat ->
  set_range (set_range (keep (undef_axis 64 u)) (offset - 1) 0
    (range (Z.ones (Z.of_nat k)) (8 - 1) (8 - offset))) (8 - 1) offset 0 =
  Z.ones (Z.of_nat (k - (8 - o))).
Proof.
  intros Hk. unfold offset, undef_axis. cbn [keep]. change (64 / 8) with 8. bitwise.
Qed.

Lemma ls_word_step first p w k j r : (k <= 8)%nat ->
  (first = false -> keep p = Z.ones 8) -> keep w = Z.ones (Z.of_nat k) ->
  Lshift.step AXI_WIDTH offset j (Lshift.State first false p) (w :: r) =
    (Lshift.State (last w) (last w && negb (k <=? 8 - o)%nat) w, r, [ls_word (held first p) w k]).
Proof.
  intros Hk Hp Hw. unfold Lshift.step. cbn [Lshift.ls_writeRemainder Lshift.ls_firstWord Lshift.prevWord].
  destruct (Z.eqb_spec offset 0); [unfold offset in *; lia|].
  unfold AXI_WIDTH. change (64 / 8) with 8. rewrite ls_data, Hw.
  assert (Hl : (range (Z.ones (Z.of_nat k)) (8 - 1) (8 - offset) =? 0) = (k <=? 8 - o)%nat).
  { pose proof (range_ones_eq0 8 k (8 - o)%nat ltac:(lia) Hk) as H.
    unfold offset. by replace (Z.of_nat (8 - o)%nat) with (8 - Z.of_nat o) in H by lia. }
  rewrite ls_keep; [| done |].
  - rewrite Hl. unfold ls_word.
    assert (Hd : wrap (64 - 8 * offset) (range (data w) (64 - 1 - 8 * offset) 0) =
                 range (data w) (64 - 1 - 8 * offset) 0).
    { unfold range. rewrite wrap_wrap_ge; [done | unfold offset; lia]. }
    rewrite Hd. unfold held. by destruct (last w).
  - destruct first.
    + change 0xFFFFFFFF with (Z.ones 32). rewrite wrap_ones by (unfold offset; lia). f_equal. unfold offset; lia.
    + rewrite Hp by done. rewrite range_ones, wrap_ones by (unfold offset; lia). f_equal. unfold offset; lia.
Qed.

Lemma ls_rest_step p k j r : (8 - o <= k <= 8)%nat -> keep p = Z.ones (Z.of_nat k) ->
  Lshift.step AXI_WIDTH offset j (Lshift.State true true p) r =
    (Lshift.State true false p, r, [ls_rest p k]).
Proof.
  intros Hk Hp. unfold Lshift.step. cbn [Lshift.ls_writeRemainder Lshift.ls_firstWord Lshift.prevWord].
  unfold AXI_WIDTH. change (64 / 8) with 8. rewrite ls_data, Hp, ls_keep_rest, wrap_0 by (unfold offset; lia). done.
Qed.

Lemma ls_word_bytes q w k m : (m <= 8 - o)%nat ->
  bytes (o + m) (data (ls_word q w k)) = bytes o q ++ bytes m (data w).
Proof.
  intros. cbn [ls_word data]. unfold offset. rewrite bytes_join, bytes_range by lia. by rewrite Z.shiftr_0_r.
Qed.

Lemma ls_rest_bytes p k : (8 - o <= k <= 8)%nat ->
  bytes (k - (8 - o)) (data (ls_rest p k)) = drop (8 - o) (bytes k (data p)).
Proof.
  intros. rewrite drop_bytes. cbn [ls_rest data]. apply bytes_ext. intros i Hi. unfold offset.
  autorewrite with bits; bool_cases. f_equal. lia.
Qed.

Lemma held_bytes p : bytes o (held false p) = drop (8 - o) (bytes 8 (data p)).
Proof.
  rewrite drop_bytes. replace (8 - (8 - o))%nat with o by lia. unfold held, offset.
  rewrite bytes_range by lia. do 2 f_equal. lia.
Qed.

Lemma lshift_middle ws bs : carries 8 ws bs -> forall first p,
  (first = false -> keep p = Z.ones 8) ->
  consumes (Lshift.step AXI_WIDTH offset) (Lshift.State first false p) ws (S (length ws))
    (fun sf os => lshift_ready sf /\ carries 8 os (bytes o (held first p) ++ bs)).
Proof.
  induction 1 as [w k Hk Hkeep Hlast | w ws bs Hkeep Hlast Hc IH]; intros first p Hp; cbn [length].
  - apply (consumes_le _ _ _ (S (if (k <=? 8 - o)%nat then 0 else 1))); [|by case_match; lia].
    eapply consumes_read; [done | |].
    { intros j r. by rewrite (ls_word_step first p w k), Hlast. }
    destruct (Nat.leb_spec k (8 - o)); cbn [andb negb].
    + apply consumes_nil. split; [done|]. rewrite <- (ls_word_bytes _ w k k) by done.
      constructor; unfold ls_word; cbn [keep last]; [lia | do 2 f_equal; lia | by apply Nat.leb_le].
    + eapply consumes_emit. { intros j r. by rewrite (ls_rest_step w k) by (done || lia). }
      apply consumes_nil. split; [done|].
      rewrite <- (take_drop (8 - o) (bytes k (data w))), take_bytes, Nat.min_l by lia.
      rewrite app_assoc, <- (ls_word_bytes _ w k), <- ls_rest_bytes by lia.
      replace (o + (8 - o))%nat with 8%nat by lia.
      apply carries_more; unfold ls_word; cbn [keep last]; [do 2 f_equal; lia | by apply Nat.leb_gt |].
      by constructor; cbn; [lia | |].
  - apply (consumes_le _ _ _ (S (S (length ws)))); [|lia].
    eapply consumes_read; [done | |].
    { intros j r. by rewrite (ls_word_step first p w 8), Hlast. }
    eapply consumes_weaken; [by apply (IH false w) | lia |]. intros sf os [? Ho]. split; [done|].
    rewrite held_bytes in Ho.
    rewrite <- (take_drop (8 - o) (bytes 8 (data w))), take_bytes, Nat.min_l by lia.
    rewrite <- app_assoc, app_assoc, <- (ls_word_bytes _ w 8) by lia.
    replace (o + (8 - o))%nat with 8%nat by lia.
    apply carries_more; unfold ls_word; cbn [keep last]; [do 2 f_equal; lia | apply Nat.leb_gt; lia | done].
Qed.
End lshift.

(** ** Routed words: the payload is handled as for unrouted words *)

Section project.
Context {T : Type} `{AxisWordLaws T}.

Definition project (s : Rshift.state T) : Rshift.state net_axis :=
  Rshift.State (Rshift.fsmState s) (Rshift.rs_firstWord s) (as_axis (Rshift.prevWord s)).

Lemma project_step W offset (j : T * T) s (input : list T) :
  let '(s', i', o) := Rshift.step W offset j s input in
  Rshift.step W offset (as_axis j.1, as_axis j.2) (project s) (as_axis <$> input) =
    (project s', as_axis <$> i', as_axis <$> o).
Proof.
  destruct s as [[] b p], j as [j1 j2], input as [|w input]; unfold Rshift.step, project; cbn; try done.
  - destruct b; cbn; rewrite ?as_with; [done|].
    destruct (offset =? 0); cbn; by rewrite ?as_assign, ?as_with.
  - by rewrite as_assign, as_with.
  - by rewrite as_assign, as_with.
Qed.

Definition project_event (ja : (T * T) * list T) : (net_axis * net_axis) * list net_axis :=
  ((as_axis ja.1.1, as_axis ja.1.2), as_axis <$> ja.2).

Lemma project_run W offset sched : forall (s : Rshift.state T) (i o : list T) s' i' o',
  run (Rshift.step W offset) sched (s, i, o) = (s', i', o') ->
  run (Rshift.step W offset) (project_event <$> sched) (project s, as_axis <$> i, as_axis <$> o) =
    (project s', as_axis <$> i', as_axis <$> o').
Proof.
  induction sched as [|[j a] sched IH]; intros s i o s' i' o' Hrun; [by injection Hrun as <- <- <-|].
  pose proof (project_step W offset j s (i ++ a)) as Hp.
  destruct (Rshift.step W offset j s (i ++ a)) as [[s1 i1] w] eqn:E.
  rewrite (run_cons _ _ _ _ _ _ _ _ _ _ E) in Hrun. rewrite fmap_cons. unfold project_event at 1. cbn [fst snd].
  rewrite fmap_app in Hp. rewrite (run_cons _ _ _ _ _ _ _ _ _ _ Hp).
  cbn [fapp list_fifos]. rewrite <- fmap_app. by apply IH.
Qed.

Lemma project_arrivals (sched : list ((T * T) * list T)) :
  arrivals (project_event <$> sched) = as_axis <$> arrivals sched.
Proof.
  induction sched as [|ja sched IH]; [done|].
  change (arrivals (ja :: sched)) with (ja.2 ++ arrivals sched).
  change (arrivals (project_event <$> (ja :: sched)))
    with ((as_axis <$> ja.2) ++ arrivals (project_event <$> sched)).
  by rewrite IH, fmap_app.
Qed.

Lemma project_idle (js : list (T * T)) :
  project_event <$> idle js = idle ((fun j => (as_axis j.1, as_axis j.2)) <$> js).
Proof. unfold idle. by rewrite <- !list_fmap_compose. Qed.
End project.

(** ** Properties *)

Lemma rshift_waits W offset s : rshift_ready s -> forall j, Rshift.step W offset j s [] = (s, [], []).
Proof. destruct s as [[] b p]; [done|]. by intros [[=]]. Qed.

Lemma rshift_stream n o s wss bss : (0 < o < n)%nat -> rshift_ready s -> carries_all n wss bss ->
  consumes (Rshift.step (8 * Z.of_nat n) (Z.of_nat o)) s wss (2 * length wss)
    (fun sf os => rshift_ready sf /\ carries_all n os (drop o <$> bss)).
Proof.
  intros Ho Hs Hc.
  apply (consumes_axis_packets _ rshift_ready n n 2 (fun _ => True) (drop o)); [| done | done | by apply Forall_true].
  intros s' ws bs Hs' Hw _. by apply rshift_packet.
Qed.

Lemma lshift_waits W offset s : lshift_ready s -> forall j, Lshift.step W offset j s [] = (s, [], []).
Proof. destruct s as [[] [] p]; by intros [[=] [=]]. Qed.

Lemma lshift_stream o s wss bss : (0 < o < 8)%nat -> lshift_ready s -> carries_all 8 wss bss ->
  consumes (Lshift.step AXI_WIDTH (Z.of_nat o)) s wss (2 * length wss)
    (fun sf os => lshift_ready sf /\ carries_all 8 os (app (replicate o 0) <$> bss)).
Proof.
  intros Ho Hs Hc.
  apply (consumes_axis_packets _ lshift_ready 8 8 2 (fun _ => True) (app (replicate o 0)));
    [| done | done | by apply Forall_true].
  intros [b r p] ws bs [[= ->] [= ->]] Hw _. rewrite <- bytes_0.
  apply (consumes_le _ _ _ (S (length ws))); [|destruct Hw; cbn; lia].
  by apply (lshift_middle o Ho ws bs Hw true p).
Qed.

(** C37: rshiftWordByOctet with [0 < offset < W/8] removes the first [offset]
    bytes of every packet, for plain and for routed words, whatever the
    arrival times and the uninitialised variables are, and sends the remainder
    word before it accepts the next packet. *)
Theorem rshift_drops_offset {T} `{AxisWordLaws T} n o (s : Rshift.state T) wss bss sched js :
  (0 < o < n)%nat -> Rshift.fsmState s = Rshift.PKG -> Rshift.rs_firstWord s = true ->
  carries_all n (as_axis <$> wss) bss ->
  arrivals sched = wss -> (2 * length wss <= length js)%nat ->
  exists sf os, run (Rshift.step (8 * Z.of_nat n) (Z.of_nat o)) (sched ++ idle js) (s, [], []) = (sf, [], os) /\
    Rshift.fsmState sf = Rshift.PKG /\ Rshift.rs_firstWord sf = true /\
    carries_all n (as_axis <$> os) (drop o <$> bss).
Proof.
  intros Ho Hf Hr Hc <- Hjs.
  destruct (consumes_settles _ _ _ _ _ (rshift_stream n o (project s) _ bss Ho (conj Hf Hr) Hc))
    as (sf & os & [[Hsf1 Hsf2] Hos] & Hrun).
  { intros sf os [? _]. by apply rshift_waits. }
  destruct (run (Rshift.step (8 * Z.of_nat n) (Z.of_nat o)) (sched ++ idle js) (s, [], [])) as [[s' i'] o'] eqn:E.
  apply project_run in E. rewrite fmap_app, project_idle in E.
  rewrite (Hrun _ _ (project_arrivals sched)) in E by by rewrite !length_fmap.
  injection E as -> Hi ->. symmetry in Hi. apply fmap_nil_inv in Hi as ->. by exists s', o'.
Qed.

(** lshiftWordByOctet with [0 < offset < 8] puts [offset] zero bytes in
    front of every packet. *)
Theorem lshift_inserts_offset o s wss bss : (0 < o < 8)%nat -> lshift_ready s -> carries_all 8 wss bss ->
  settles (Lshift.step AXI_WIDTH (Z.of_nat o)) s wss (2 * length wss)
    (fun sf os => lshift_ready sf /\ carries_all 8 os (app (replicate o 0) <$> bss)).
Proof.
  intros. apply consumes_settles; [by apply lshift_stream|]. intros ? ? [? _]. by apply lshift_waits.
Qed.

(** a right shift behind a left shift by the same offset delivers the
    bytes of the original packets. *)
Theorem rshift_after_lshift o s1 s2 wss bss : (0 < o < 8)%nat -> lshift_ready s1 -> rshift_ready s2 ->
  carries_all 8 wss bss ->
  exists K, settles (pipe (Lshift.step AXI_WIDTH (Z.of_nat o)) (Rshift.step AXI_WIDTH (Z.of_nat o)))
    (s1, s2, []) wss K (fun _ os => carries_all 8 os bss).
Proof.
  intros Ho Hs1 Hs2 Hc.
  destruct (consumes_computes _ _ _ _ _ (lshift_stream o s1 wss bss Ho Hs1 Hc)) as (sf1 & mid & [_ Hm] & H1).
  { intros ? ? [? _]. by apply lshift_waits. }
  destruct (consumes_computes _ _ _ _ _ (rshift_stream 8 o s2 mid _ Ho Hs2 Hm)) as (sf2 & os & [_ Hos] & H2).
  { intros ? ? [? _]. by apply rshift_waits. }
  eexists. eapply computes_settles; [by apply (computes_pipe _ _ _ _ _ _ _ _ _ _ _ H1 H2)|]. cbn.
  rewrite <- list_fmap_compose in Hos. replace bss with (drop o ∘ app (replicate o 0) <$> bss); [done|].
  rewrite <- (list_fmap_id bss) at 2. apply list_fmap_ext. intros i bs _. cbn.
  by rewrite drop_app_length' by by rewrite length_replicate.
Qed.

(** with [offset = 0] rshiftWordByOctet is not the identity: it loses the
    first word of every packet of two or more words. *)
Theorem rshift_offset_zero_loses_first_word n s w ws bs : rshift_ready s ->
  last w = false -> carries n (w :: ws) bs ->
  settles (Rshift.step (8 * Z.of_nat n) 0) s (w :: ws) (length (w :: ws))
    (fun sf os => rshift_ready sf /\ os = ws).
Proof.
  intros Hs Hl Hc. destruct s as [f b p], Hs as [[= ->] [= ->]].
  inversion Hc as [? k _ _ Hl' | ? ? bs' _ _ Hc']; subst; [congruence|].
  apply consumes_settles; [|intros ? ? [? _]; by apply rshift_waits].
  assert (Hrest : forall p, consumes (Rshift.step (8 * Z.of_nat n) 0) (Rshift.State Rshift.PKG false p) ws
    (length ws) (fun sf os => rshift_ready sf /\ os = ws)).
  { clear -Hc'. induction Hc' as [w k _ _ Hl | w ws bs _ Hl _ IH]; intros p.
    - eapply consumes_read; [done | |]. { intros j r. cbn. rewrite Hl. reflexivity. }
      by apply consumes_nil.
    - eapply consumes_read; [done | |]. { intros j r. cbn. rewrite Hl. reflexivity. }
      eapply consumes_weaken; [apply IH | done |]. by intros sf os [? ->]. }
  eapply consumes_read; [done | |]. { intros j r. cbn. rewrite Hl. reflexivity. }
  apply Hrest.
Qed.

(** the remainder word that rshiftWordByOctet sends for a routed packet
    has whatever destination the uninitialised [currWord] holds, not the
    destination of the packet. *)
Theorem rshift_routed_remainder_dest W offset (s : Rshift.state routed_net_axis) w j1 j2 :
  Rshift.fsmState s = Rshift.PKG -> Rshift.rs_firstWord s = true -> rlast w = true ->
  exists sf out, run (Rshift.step W offset) [(j1, [w]); (j2, [])] (s, [], []) = (sf, [], [out]) /\
    rlast out = true /\ dest out = dest j2.1.
Proof.
  destruct s as [f b p]. intros [= ->] [= ->] Hl. eexists _, _. split.
  - unfold run, cycle. cbn. rewrite Hl. cbn. reflexivity.
  - done.
Qed.

(** ** Instances *)

Definition example_routed : list routed_net_axis :=
  [RoutedNetAxis 0xBBAA 3 false 1; RoutedNetAxis 0xCC 1 true 1].

Definition example_undef : routed_net_axis := RoutedNetAxis 0x1234 2 true 7.

Lemma rshift_drops_offset_witness : exists sf os,
  run (Rshift.step 16 1) ([((example_undef, example_undef), example_routed)] ++
      idle (replicate 4 (example_undef, example_undef)))
    (Rshift.State Rshift.PKG true example_undef, [], []) = (sf, [], os) /\
  Rshift.fsmState sf = Rshift.PKG /\ Rshift.rs_firstWord sf = true /\
  carries_all 2 (as_axis <$> os) [[0xBB; 0xCC]].
Proof.
  apply (rshift_drops_offset 2 1 (Rshift.State Rshift.PKG true example_undef) example_routed [[0xAA; 0xBB; 0xCC]]);
    [lia | reflexivity | reflexivity | by apply packet_bytes_carries_all | reflexivity | cbn; lia].
Defined.

Definition example_word8 : list net_axis := [NetAxis 0x8877665544332211 0xFF false; NetAxis 0xAA99 3 true].

Definition example_word8_bytes : list (list Z) :=
  [[0x11; 0x22; 0x33; 0x44; 0x55; 0x66; 0x77; 0x88; 0x99; 0xAA]].

Lemma lshift_inserts_offset_witness : settles (Lshift.step 64 3) Lshift.init example_word8 4
  (fun sf os => lshift_ready sf /\ carries_all 8 os (app [0; 0; 0] <$> example_word8_bytes)).
Proof.
  apply (lshift_inserts_offset 3 Lshift.init example_word8); [lia | done | by apply packet_bytes_carries_all].
Defined.

Lemma rshift_after_lshift_witness : exists K,
  settles (pipe (Lshift.step 64 3) (Rshift.step 64 3)) (Lshift.init, Rshift.init, []) example_word8 K
    (fun _ os => carries_all 8 os example_word8_bytes).
Proof.
  apply (rshift_after_lshift 3 Lshift.init Rshift.init example_word8);
    [lia | done | done | by apply packet_bytes_carries_all].
Defined.

Lemma rshift_offset_zero_witness : settles (Rshift.step 64 0) Rshift.init example_word8 2
  (fun sf os => rshift_ready sf /\ os = [NetAxis 0xAA99 3 true]).
Proof.
  apply (rshift_offset_zero_loses_first_word 8 Rshift.init (NetAxis 0x8877665544332211 0xFF false)
    [NetAxis 0xAA99 3 true] [0x11; 0x22; 0x33; 0x44; 0x55; 0x66; 0x77; 0x88; 0x99; 0xAA]);
    [done | reflexivity | by apply packet_bytes_carries].
Defined.

Lemma rshift_routed_remainder_witness : exists sf out,
  run (Rshift.step 64 1) [((example_undef, example_undef), [RoutedNetAxis 0xBBAA 3 true 1]);
      ((example_undef, example_undef), [])]
    (Rshift.State Rshift.PKG true example_undef, [], []) = (sf, [], [out]) /\
  rlast out = true /\ dest out = 7.
Proof.
  apply (rshift_routed_remainder_dest 64 1 (Rshift.State Rshift.PKG true example_undef)
    (RoutedNetAxis 0xBBAA 3 true 1) (example_undef, example_undef) (example_undef, example_undef));
    reflexivity.
Defined.
