(* ===== verification/EthPadding.v ===== *)
(** [src/hls/ethernet_frame_padding/ethernet_frame_padding.cpp]: padding of
    short Ethernet frames to 60 bytes. *)
From S2P Require Import Prelude Streams AxiUtils.

(** The static variables: [state : ap_uint<1>] is true in state 1,
    [wordCounter : ap_uint<8>]. *)
Record eth_state := EthState { padding : bool; wordCounter : Z }.

Definition eth_init : eth_state := EthState false 0.

Definition ethernet_frame_padding (_ : unit) (s : eth_state) (dataIn : list net_axis) :
    eth_state * list net_axis * list net_axis :=
  if negb (padding s) then
    match dataIn with
    | [] => (s, [], [])
    | currWord :: dataIn =>
        let wc := wrap 8 (wordCounter s + 1) in
        if last currWord then
          if wc <? 8 then
            (EthState true wc, dataIn, [NetAxis (data currWord) 0xFF false])
          else
            let k := if (wc =? 8) && (keep currWord <? 0xF) then 0x0F else keep currWord in
            (EthState false 0, dataIn, [NetAxis (data currWord) k true])
        else (EthState false wc, dataIn, [currWord])
    end
  else
    let wc := wrap 8 (wordCounter s + 1) in
    if wc =? 8 then (EthState false 0, dataIn, [NetAxis 0 0x0F true])
    else (EthState true wc, dataIn, [NetAxis 0 0xFF false]).

(** ** The padding state *)

Lemma eth_pad_step_last j r : ethernet_frame_padding j (EthState true 7) r =
  (EthState false 0, r, [NetAxis 0 0x0F true]).
Proof. reflexivity. Qed.

Lemma eth_pad_step c j r : 0 <= c < 7 -> ethernet_frame_padding j (EthState true c) r =
  (EthState true (c + 1), r, [NetAxis 0 0xFF false]).
Proof.
  intros. unfold ethernet_frame_padding. cbn. rewrite wrap_small by lia.
  by destruct (Z.eqb_spec (c + 1) 8); [lia|].
Qed.

Lemma eth_pad (m : nat) : (m < 8)%nat ->
  consumes ethernet_frame_padding (EthState true (7 - Z.of_nat m)) [] (S m)
    (fun sf os => sf = eth_init /\ carries 8 os (replicate (8 * m + 4) 0)).
Proof.
  induction m as [|m IH]; intros Hm.
  - eapply consumes_emit; [apply eth_pad_step_last|]. apply consumes_nil. split; [done|].
    apply (carries_last 8 (NetAxis 0 0x0F true) 4); [lia | done | done].
  - eapply consumes_emit; [intros; apply eth_pad_step; lia|].
    replace (7 - Z.of_nat (S m) + 1) with (7 - Z.of_nat m) by lia.
    eapply consumes_weaken; [apply IH; lia | lia |]. intros sf os [? ?]. split; [done|].
    replace (8 * S m + 4)%nat with (8 + (8 * m + 4))%nat by lia. rewrite replicate_add, <- bytes_0.
    by apply (carries_more 8 (NetAxis 0 0xFF false)).
Qed.

(** ** A frame *)

(** The length of the frame sent for a frame of [len] bytes in [words] words
    whose last word brings the counter to [wc]. *)
Definition eth_length (wc : Z) (words len : Z) : Z :=
  if wc <? 8 then 8 * words - 8 * wc + 60
  else if wc =? 8 then Z.max (8 * words - 4) len else len.

Definition eth_padded (total : Z) (bs bs' : list Z) : Prop :=
  (exists pad, bs' = bs ++ pad) /\ Z.of_nat (length bs') = total.

Lemma bytes_prefix k m x : (k <= m)%nat -> exists pad, bytes m x = bytes k x ++ pad.
Proof.
  intros. exists (drop k (bytes m x)). rewrite <- (take_drop k (bytes m x)) at 1.
  by rewrite take_bytes, Nat.min_l by lia.
Qed.

Lemma eth_last_step c w k : 0 <= c < 256 -> (k <= 8)%nat -> keep w = Z.ones (Z.of_nat k) -> last w = true ->
  consumes ethernet_frame_padding (EthState false c) [w] 9
    (fun sf os => sf = eth_init /\ exists bs', carries 8 os bs' /\
       eth_padded (eth_length (wrap 8 (c + 1)) 1 (Z.of_nat k)) (bytes k (data w)) bs').
Proof.
  intros Hc Hk Hw Hl. unfold eth_length. pose proof (wrap_bound 8 (c + 1) ltac:(lia)) as Hb.
  destruct (Z.ltb_spec (wrap 8 (c + 1)) 8) as [Hlt|Hge].
  - apply (consumes_le _ _ _ (S (S (Z.to_nat (7 - wrap 8 (c + 1)))))); [|lia].
    eapply consumes_read; [done | |].
    { intros j r. unfold ethernet_frame_padding. cbn. rewrite Hl.
      apply Z.ltb_lt in Hlt. rewrite Hlt. reflexivity. }
    replace (wrap 8 (c + 1)) with (7 - Z.of_nat (Z.to_nat (7 - wrap 8 (c + 1)))) at 1 by lia.
    eapply consumes_weaken; [apply eth_pad; lia | lia |]. intros sf os [-> Hos]. split; [done|].
    destruct (bytes_prefix k 8 (data w) Hk) as [pad Hpad].
    exists (bytes 8 (data w) ++ replicate (8 * Z.to_nat (7 - wrap 8 (c + 1)) + 4) 0). split.
    + by apply (carries_more 8 (NetAxis (data w) 0xFF false)).
    + split; [rewrite Hpad, <- app_assoc; eauto|]. rewrite length_app, length_bytes, length_replicate. lia.
  - apply (consumes_le _ _ _ 1); [|lia].
    eapply consumes_read; [done | |].
    { intros j r. unfold ethernet_frame_padding. cbn. rewrite Hl.
      apply Z.ltb_ge in Hge. rewrite Hge. reflexivity. }
    apply consumes_nil. split; [done|]. rewrite Hw.
    assert (Hk15 : (Z.ones (Z.of_nat k) <? 0xF) = (k <? 4)%nat).
    { do 9 (destruct k as [|k]; [reflexivity|]). lia. }
    rewrite Hk15. destruct (Z.eqb_spec (wrap 8 (c + 1)) 8); cbn [andb].
    + destruct (Nat.ltb_spec k 4).
      * destruct (bytes_prefix k 4 (data w) ltac:(lia)) as [pad Hpad].
        exists (bytes 4 (data w)). split; [by apply (carries_last 8 (NetAxis (data w) 0xF true) 4); [lia|..]|].
        split; [eauto|]. rewrite length_bytes. lia.
      * exists (bytes k (data w)). split; [by apply (carries_last 8 (NetAxis (data w) (Z.ones (Z.of_nat k)) true))|].
        split; [exists []; by rewrite app_nil_r|]. rewrite length_bytes. lia.
    + exists (bytes k (data w)). split; [by apply (carries_last 8 (NetAxis (data w) (Z.ones (Z.of_nat k)) true))|].
      split; [exists []; by rewrite app_nil_r|]. rewrite length_bytes. lia.
Qed.

Lemma eth_frame ws bs : carries 8 ws bs -> forall c, 0 <= c < 256 ->
  consumes ethernet_frame_padding (EthState false c) ws (length ws + 8)
    (fun sf os => sf = eth_init /\ exists bs', carries 8 os bs' /\
       eth_padded (eth_length (wrap 8 (c + Z.of_nat (length ws))) (Z.of_nat (length ws)) (Z.of_nat (length bs))) bs bs').
Proof.
  induction 1 as [w k Hk Hkeep Hlast | w ws bs Hkeep Hlast Hc IH]; intros c Hcb.
  - rewrite length_bytes. by apply eth_last_step.
  - cbn [length Nat.add]. eapply consumes_read; [done | |].
    { intros j r. unfold ethernet_frame_padding. cbn. rewrite Hlast. reflexivity. }
    eapply consumes_weaken; [apply IH; by apply (wrap_bound 8) | lia |].
    intros sf os (-> & bs' & Hos & (pad & ->) & Hlen). split; [done|].
    exists (bytes 8 (data w) ++ bs ++ pad). split; [by apply carries_more|].
    split; [exists pad; by rewrite app_assoc|].
    rewrite wrap_add_l in Hlen by lia.
    replace (c + 1 + Z.of_nat (length ws)) with (c + Z.of_nat (S (length ws))) in Hlen by lia.
    rewrite !length_app, !length_bytes in *. unfold eth_length in *.
    destruct (wrap 8 (c + Z.of_nat (S (length ws))) <? 8); [lia|].
    destruct (wrap 8 (c + Z.of_nat (S (length ws))) =? 8); lia.
Qed.

(** ** Properties *)

Lemma eth_frame_short ws bs : carries 8 ws bs -> (length bs < 2040)%nat ->
  consumes ethernet_frame_padding eth_init ws (9 * length ws)
    (fun sf os => sf = eth_init /\ exists bs', carries 8 os bs' /\
       eth_padded (Z.max 60 (Z.of_nat (length bs))) bs bs').
Proof.
  intros Hc Hlen. pose proof (carries_length 8 ws bs Hc) as [Hw Hl].
  eapply consumes_weaken; [by apply (eth_frame ws bs Hc 0) | lia |].
  intros sf os (-> & bs' & Hos & Hpre & Htot). split; [done|]. exists bs'. split; [done|]. split; [done|].
  rewrite Htot. unfold eth_length. rewrite Z.add_0_l, wrap_small by lia. bool_cases.
Qed.

(** C39: every frame shorter than 2040 bytes is sent with its bytes unchanged
    at the front, padded to exactly 60 bytes when it is shorter than that and
    not padded at all otherwise. *)
Theorem eth_pads_to_60 wss bss : carries_all 8 wss bss ->
  Forall (fun bs => (length bs < 2040)%nat) bss ->
  settles ethernet_frame_padding eth_init wss (9 * length wss)
    (fun sf os => sf = eth_init /\ exists bss', carries_all 8 os bss' /\
       Forall2 (fun bs bs' => eth_padded (Z.max 60 (Z.of_nat (length bs))) bs bs') bss bss').
Proof.
  intros Hc Hok. apply consumes_settles; [|by intros sf os [-> _]].
  apply (consumes_axis_packets_rel _ (fun s => s = eth_init) 8 8 9 (fun bs => (length bs < 2040)%nat)); [|done..].
  intros s ws bs -> Hw Hl. by apply eth_frame_short.
Qed.

(** the 8-bit word counter wraps on jumbo frames: a frame of 256 to 263
    words is padded although it is long enough, to 2108 bytes. *)
Theorem eth_pads_jumbo_frames ws bs : carries 8 ws bs -> (256 <= length ws < 264)%nat ->
  settles ethernet_frame_padding eth_init ws (length ws + 8)
    (fun sf os => sf = eth_init /\ exists bs', carries 8 os bs' /\ eth_padded 2108 bs bs').
Proof.
  intros Hc Hlen. apply consumes_settles; [|by intros sf os [-> _]].
  eapply consumes_weaken; [by apply (eth_frame ws bs Hc 0) | lia |].
  intros sf os (-> & bs' & Hos & Hpre & Htot). split; [done|]. exists bs'. split; [done|]. split; [done|].
  rewrite Htot. unfold eth_length.
  replace (wrap 8 (0 + Z.of_nat (length ws))) with (Z.of_nat (length ws) - 256).
  - bool_cases.
  - unfold wrap. apply (Z.mod_unique _ _ 1); lia.
Qed.

Definition eth_example : list net_axis := [NetAxis 0x0807060504030201 0xFF false; NetAxis 0x0A09 0x03 true].

Lemma eth_pads_to_60_witness : settles ethernet_frame_padding eth_init eth_example 18
  (fun sf os => sf = eth_init /\ exists bss', carries_all 8 os bss' /\
     Forall2 (fun bs bs' => eth_padded (Z.max 60 (Z.of_nat (length bs))) bs bs')
       [[1; 2; 3; 4; 5; 6; 7; 8; 9; 10]] bss').
Proof.
  apply (eth_pads_to_60 eth_example); [by apply packet_bytes_carries_all|].
  constructor; [cbn; lia | constructor].
Defined.

Definition eth_jumbo : list net_axis := replicate 256 (NetAxis 7 0xFF false) ++ [NetAxis 9 0xFF true].

Lemma eth_pads_jumbo_witness : exists bs, packet_bytes 8 eth_jumbo = Some bs /\ length bs = 2056%nat /\
  settles ethernet_frame_padding eth_init eth_jumbo 265
    (fun sf os => sf = eth_init /\ exists bs', carries 8 os bs' /\ eth_padded 2108 bs bs').
Proof.
  eexists. split; [vm_compute; reflexivity|]. split; [vm_compute; reflexivity|].
  apply (eth_pads_jumbo_frames eth_jumbo); [|vm_compute; lia].
  apply packet_bytes_carries. vm_compute. reflexivity.
Defined.
