(* ===== verification/Mergers.v ===== *)
(** [stream_merger], [fair_merger] and [fair_pkg_merger] of
    [src/hls/axi_utils.hpp]: blocks with two input FIFOs and one output.
    Their output depends on the arrival times, so they are specified by what
    any schedule can produce. *)
From S2P Require Import Prelude Streams AxiUtils.

(** ** Definitions *)

Section definitions.
Context {T : Type}.

Definition stream_merger (_ : unit) (s : unit) (ins : list T * list T) :
    unit * (list T * list T) * list T :=
  let '(in1, in2) := ins in
  match in1 with
  | w :: in1 => (s, (in1, in2), [w])
  | [] =>
      match in2 with
      | w :: in2 => (s, ([], in2), [w])
      | [] => (s, ([], []), [])
      end
  end.

(** The state is the static [merge_pref]. *)
Definition fair_merger (_ : unit) (merge_pref : bool) (ins : list T * list T) :
    bool * (list T * list T) * list T :=
  let '(in0, in1) := ins in
  if merge_pref then
    match in0 with
    | w :: in0 => (false, (in0, in1), [w])
    | [] =>
        match in1 with
        | w :: in1 => (merge_pref, ([], in1), [w])
        | [] => (merge_pref, ([], []), [])
        end
    end
  else
    match in1 with
    | w :: in1 => (true, (in0, in1), [w])
    | [] =>
        match in0 with
        | w :: in0 => (merge_pref, (in0, []), [w])
        | [] => (merge_pref, ([], []), [])
        end
    end.
End definitions.

Inductive fpmStateType := IDLE | FWD0 | FWD1.

Record fpm_state := FpmState { fpm : fpmStateType; fpm_pref : bool }.

Definition fpm_init : fpm_state := FpmState IDLE true.

Definition fair_pkg_merger (_ : unit) (s : fpm_state) (ins : list net_axis * list net_axis) :
    fpm_state * (list net_axis * list net_axis) * list net_axis :=
  let '(in0, in1) := ins in
  (* [state = next] after reading [w] in state IDLE, and IDLE again when [w] is a last word *)
  let begin w next := FpmState (if last w then IDLE else next) (fpm_pref s) in
  match fpm s with
  | IDLE =>
      if fpm_pref s then
        match in0 with
        | w :: in0 => (begin w FWD1, (in0, in1), [w])
        | [] =>
            match in1 with
            | w :: in1 => (begin w FWD1, ([], in1), [w])
            | [] => (s, ([], []), [])
            end
        end
      else
        match in1 with
        | w :: in1 => (begin w FWD1, (in0, in1), [w])
        | [] =>
            match in0 with
            | w :: in0 => (begin w FWD0, (in0, []), [w])
            | [] => (s, ([], []), [])
            end
        end
  | FWD0 =>
      match in0 with
      | w :: in0 => (if last w then FpmState IDLE false else s, (in0, in1), [w])
      | [] => (s, ([], in1), [])
      end
  | FWD1 =>
      match in1 with
      | w :: in1 => (if last w then FpmState IDLE true else s, (in0, in1), [w])
      | [] => (s, (in0, []), [])
      end
  end.

(** ** What a merger may do *)

(** [merges l0 l1 l]: [l] contains the words of [l0] and [l1], each in order. *)
Inductive merges {T} : list T -> list T -> list T -> Prop :=
  | merges_nil : merges [] [] []
  | merges_0 w l0 l1 l : merges l0 l1 l -> merges (l0 ++ [w]) l1 (l ++ [w])
  | merges_1 w l0 l1 l : merges l0 l1 l -> merges l0 (l1 ++ [w]) (l ++ [w]).

(** One cycle of a merger forwards the head of one input, or nothing when
    there is nothing it may forward. *)
Definition forwards {T S} (step : unit -> S -> list T * list T -> S * (list T * list T) * list T) : Prop :=
  forall j s i0 i1, exists s' i0' i1' o, step j s (i0, i1) = (s', (i0', i1'), o) /\
    ((i0' = i0 /\ i1' = i1 /\ o = []) \/
     (exists w, i0 = w :: i0' /\ i1' = i1 /\ o = [w]) \/
     (exists w, i0' = i0 /\ i1 = w :: i1' /\ o = [w])).

Lemma stream_merger_forwards T : forwards (@stream_merger T).
Proof. intros j s [|w i0] [|v i1]; cbn; eauto 15. Qed.

Lemma fair_merger_forwards T : forwards (@fair_merger T).
Proof. intros j [] [|w i0] [|v i1]; cbn; eauto 15. Qed.

Lemma fair_pkg_merger_forwards : forwards fair_pkg_merger.
Proof. intros j [[] []] [|w i0] [|v i1]; cbn; eauto 15. Qed.

Section conservation.
Context {T S : Type} (step : unit -> S -> list T * list T -> S * (list T * list T) * list T).
Hypothesis step_forwards : forwards step.

Lemma merger_conserves sched : forall s i0 i1 acc c0 c1, merges c0 c1 acc ->
  exists s' r0 r1 out d0 d1, run step sched (s, (i0, i1), acc) = (s', (r0, r1), out) /\
    merges d0 d1 out /\
    d0 ++ r0 = c0 ++ i0 ++ (arrivals sched).1 /\ d1 ++ r1 = c1 ++ i1 ++ (arrivals sched).2.
Proof.
  induction sched as [|[j [a0 a1]] sched IH]; intros s i0 i1 acc c0 c1 Hm.
  - cbn. rewrite !app_nil_r. eauto 10.
  - destruct (step_forwards j s (i0 ++ a0) (i1 ++ a1)) as (s' & i0' & i1' & o & Hs & Hcase).
    rewrite (run_cons step j (a0, a1) sched s (i0, i1) acc s' (i0', i1') o) by exact Hs.
    change (arrivals ((j, (a0, a1)) :: sched)) with
      (a0 ++ (arrivals sched).1, a1 ++ (arrivals sched).2). cbn [fst snd].
    change (fapp acc o) with (acc ++ o).
    destruct Hcase as [(-> & -> & ->) | [(w & E & -> & ->) | (w & -> & E & ->)]].
    + destruct (IH s' (i0 ++ a0) (i1 ++ a1) _ c0 c1 Hm) as (? & ? & ? & ? & ? & ? & Hr & ? & E0 & E1).
      rewrite app_nil_r. eexists _, _, _, _, _, _. split; [exact Hr|]. split; [done|].
      by rewrite E0, E1, <- !app_assoc.
    + destruct (IH s' i0' (i1 ++ a1) _ (c0 ++ [w]) c1 (merges_0 w _ _ _ Hm))
        as (? & ? & ? & ? & ? & ? & Hr & ? & E0 & E1).
      eexists _, _, _, _, _, _. split; [exact Hr|]. split; [done|].
      by rewrite E0, E1, (app_assoc i0), E, <- !app_assoc.
    + destruct (IH s' (i0 ++ a0) i1' _ c0 (c1 ++ [w]) (merges_1 w _ _ _ Hm))
        as (? & ? & ? & ? & ? & ? & Hr & ? & E0 & E1).
      eexists _, _, _, _, _, _. split; [exact Hr|]. split; [done|].
      by rewrite E0, E1, (app_assoc i1), E, <- !app_assoc.
Qed.
End conservation.

(** ** Properties *)

(** C40: the mergers neither lose, duplicate nor reorder words: after any
    schedule the output is an interleaving of the words taken from the two
    inputs, and what was taken followed by what is left in each FIFO is what
    arrived there. *)
Theorem mergers_conserve_words {T} sched_f sched_p sched_s pref s :
  let conserves {S A} (step : unit -> S -> list A * list A -> S * (list A * list A) * list A) s sched :=
    exists s' r0 r1 out d0 d1, run step sched (s, ([], []), []) = (s', (r0, r1), out) /\
      merges d0 d1 out /\ d0 ++ r0 = (arrivals sched).1 /\ d1 ++ r1 = (arrivals sched).2 in
  conserves (@stream_merger T) tt sched_s /\ conserves (@fair_merger T) pref sched_f /\
  conserves fair_pkg_merger s sched_p.
Proof.
  split_and!; refine (merger_conserves _ _ _ _ [] [] [] [] [] merges_nil).
  - apply stream_merger_forwards.
  - apply fair_merger_forwards.
  - apply fair_pkg_merger_forwards.
Qed.

(** stream_merger gives strict priority to its first input: with both
    inputs present it sends the first one completely before the second. *)
Theorem stream_merger_priority {T} (i0 i1 : list T) j :
  run stream_merger (idle (replicate (length i0 + length i1) j)) (tt, (i0, i1), []) =
    (tt, ([], []), i0 ++ i1).
Proof.
  enough (H : forall acc, run stream_merger (idle (replicate (length i0 + length i1) j)) (tt, (i0, i1), acc) =
    (tt, ([], []), acc ++ i0 ++ i1)) by by rewrite H.
  induction i0 as [|w i0 IH]; intros acc.
  - revert acc. induction i1 as [|w i1 IH]; intros acc; [by rewrite app_nil_r|].
    cbn [length Nat.add replicate]. change (idle (j :: ?l)) with ((j, ([], []) : list T * list T) :: idle l).
    erewrite run_cons; [|cbn; rewrite app_nil_r; reflexivity].
    cbn [length Nat.add] in IH. by rewrite fapp_list, IH, <- app_assoc.
  - cbn [length Nat.add replicate]. change (idle (j :: ?l)) with ((j, ([], []) : list T * list T) :: idle l).
    erewrite run_cons; [|cbn; rewrite !app_nil_r; reflexivity].
    by rewrite fapp_list, IH, <- app_assoc.
Qed.

(** fair_merger serves a waiting word within two cycles, whichever input
    it waits at and whatever arrives meanwhile. *)
Theorem fair_merger_no_starvation {T} pref (i0 i1 : list T) w e1 e2 :
  (exists s' r out, run fair_merger [(tt, e1); (tt, e2)] (pref, (w :: i0, i1), []) = (s', r, out) /\ w ∈ out) /\
  (exists s' r out, run fair_merger [(tt, e1); (tt, e2)] (pref, (i0, w :: i1), []) = (s', r, out) /\ w ∈ out).
Proof.
  destruct e1 as [a0 a1], e2 as [b0 b1]. unfold run, cycle. cbn.
  split; destruct pref; cbn;
    repeat (match goal with |- context [match ?x with [] => _ | _ :: _ => _ end] => destruct x end; cbn);
    (eexists _, _, _; split; [reflexivity | set_solver]).
Qed.

Fixpoint alternate {T} (l0 l1 : list T) : list T :=
  match l0, l1 with
  | w0 :: l0, w1 :: l1 => w0 :: w1 :: alternate l0 l1
  | _, _ => []
  end.

(** while both inputs of fair_merger hold words it takes from them in
    strict alternation, so each gets half of the output. *)
Theorem fair_merger_alternates {T} (i0 i1 r0 r1 : list T) j : length i0 = length i1 ->
  run fair_merger (idle (replicate (2 * length i0) j)) (true, (i0 ++ r0, i1 ++ r1), []) =
    (true, (r0, r1), alternate i0 i1).
Proof.
  intros Hl. enough (H : forall acc, run fair_merger (idle (replicate (2 * length i0) j))
    (true, (i0 ++ r0, i1 ++ r1), acc) = (true, (r0, r1), acc ++ alternate i0 i1)) by by rewrite H.
  revert i1 Hl. induction i0 as [|w i0 IH]; intros [|v i1] [=]; intros acc; [by rewrite app_nil_r|].
  replace (2 * length (w :: i0))%nat with (S (S (2 * length i0))) by (cbn; lia).
  cbn [replicate]. do 2 change (idle (j :: ?l)) with ((j, ([], []) : list T * list T) :: idle l).
  erewrite run_cons; [|cbn; rewrite !app_nil_r; reflexivity].
  erewrite run_cons; [|cbn; rewrite !app_nil_r; reflexivity].
  rewrite !fapp_list, IH by done. by rewrite <- !app_assoc.
Qed.

Lemma fpm_stuck sched r out : (arrivals sched).2 = [] ->
  exists r', run fair_pkg_merger sched (FpmState FWD1 true, (r, []), out) = (FpmState FWD1 true, (r', []), out).
Proof.
  revert r. induction sched as [|[j [a0 a1]] sched IH]; intros r E; [by exists r|].
  apply app_nil in E as [E1 E2]. cbn in E1. subst a1.
  erewrite run_cons; [|cbn; reflexivity]. rewrite !fapp_list, app_nil_r. by apply IH.
Qed.

(** fair_pkg_merger stops in the middle of a packet of its first input:
    having sent the first word of a longer packet it waits for the other input
    (the state is set to [FWD1] where [FWD0] is meant), and sends nothing more
    however long the rest of the packet has been there. *)
Theorem fair_pkg_merger_deadlock w ws j a sched : last w = false ->
  (arrivals ((j, (a, [])) :: sched)).2 = [] ->
  exists r, run fair_pkg_merger ((j, (a, [])) :: sched) (fpm_init, (w :: ws, []), []) =
    (FpmState FWD1 true, (r, []), [w]).
Proof.
  intros Hl E. erewrite run_cons; [|cbn; rewrite Hl; reflexivity]. by apply fpm_stuck.
Qed.

(** and when the second input has words too, fair_pkg_merger continues
    the packet of the first input with the words of the second. *)
Theorem fair_pkg_merger_mixes_packets w ws v vs j1 j2 : last w = false ->
  exists s, run fair_pkg_merger (idle [j1; j2]) (fpm_init, (w :: ws, v :: vs), []) = (s, (ws, vs), [w; v]).
Proof.
  intros Hl. eexists. unfold run, cycle. cbn. rewrite Hl. cbn. by rewrite !app_nil_r.
Qed.

(** ** Instances *)

Definition word_a : net_axis := NetAxis 1 0xFF false.
Definition word_b : net_axis := NetAxis 2 0xFF true.
Definition word_c : net_axis := NetAxis 3 0xFF true.

Lemma fair_merger_alternates_witness :
  run fair_merger (idle (replicate 4 tt)) (true, ([1; 2; 5], [3; 4]), []) = (true, ([5], []), [1; 3; 2; 4]).
Proof. apply (fair_merger_alternates [1; 2] [3; 4] [5] [] tt). reflexivity. Defined.

Lemma fair_pkg_merger_deadlock_witness : exists r,
  run fair_pkg_merger ((tt, ([], [])) :: idle (replicate 100 tt)) (fpm_init, ([word_a; word_b], []), []) =
    (FpmState FWD1 true, (r, []), [word_a]).
Proof. apply (fair_pkg_merger_deadlock word_a [word_b] tt []); reflexivity. Defined.

Lemma fair_pkg_merger_mixes_witness : exists s,
  run fair_pkg_merger (idle [tt; tt]) (fpm_init, ([word_a; word_b], [word_c]), []) =
    (s, ([word_b], []), [word_a; word_c]).
Proof. apply (fair_pkg_merger_mixes_packets word_a [word_b] word_c []). reflexivity. Defined.
