(* ===== verification/Tlb.v ===== *)
(** [src/hls/tlb/tlb.cpp], [src/hls/tlb/tlb.hpp]: the translation of virtual
    to physical addresses in 2 MiB pages. *)
From stdpp Require Import gmap.
From S2P Require Import Prelude Streams AxiUtils.

(** ** Data *)

Definition TLB_ENTRIES : Z := 16384.

(** [struct dmaCmd]: [ap_uint<64> addr], [ap_uint<28> len]. *)
Record dmaCmd := DmaCmd { dma_addr : Z; dma_len : Z }.

(** [dmaCmd(ap_int<64> addr, ap_uint<28> len)] *)
Definition mk_dmaCmd (addr len : Z) : dmaCmd := DmaCmd (wrap 64 addr) (wrap 28 len).

(** [struct tlbMapping] *)
Record tlbMapping := TlbMapping { vaddr : Z; paddr : Z; isBase : bool }.

(** The static variables and the two register outputs.  [tlb_table] holds the
    entries ([tlbEntry.paddr : ap_uint<48>]) written so far; the others are
    zero, as static storage is. *)
Record tlb_state := TlbState {
  tlb_table : gmap Z Z;
  base_vaddr : Z;
  top_page_base : Z;
  tlbMissCounter : Z;
  tlbPageCrossingCounter : Z;
  regTlbMissCount : Z;
  regPageCrossingCount : Z;
}.

Definition tlb_init : tlb_state := TlbState ∅ 0 0 0 0 0 0.

Definition tlb_entry (s : tlb_state) (page : Z) : Z := default 0 (tlb_table s !! page).

(** The address arithmetic shared by the branches. *)
Definition tlb_page (s : tlb_state) (a : Z) : Z := Z.shiftr (wrap 64 (a - base_vaddr s)) 21.
Definition tlb_offset (s : tlb_state) (a : Z) : Z := Z.land (wrap 64 (a - base_vaddr s)) 0x1FFFFF.

(** The body of the branches for write and read commands.  [None] is an access
    to [tlb_table] out of its bounds. *)
Definition tlb_command (s : tlb_state) (cmd : memCmd) : option (tlb_state * dmaCmd) :=
  let page_base := tlb_page s (cmd_addr cmd) in
  let page_offset := tlb_offset s (cmd_addr cmd) in
  if page_base <? TLB_ENTRIES then
    let pbase := tlb_entry s page_base in
    let out := mk_dmaCmd (pbase + page_offset) (cmd_len cmd) in
    let miss := page_base >? top_page_base s in
    let misses := if miss then wrap 32 (tlbMissCounter s + 1) else tlbMissCounter s in
    let crossing := page_offset + cmd_len cmd >? 2 * 1024 * 1024 in
    let crossings := if crossing then wrap 32 (tlbPageCrossingCounter s + 1) else tlbPageCrossingCounter s in
    Some (TlbState (tlb_table s) (base_vaddr s) (top_page_base s) misses crossings
            (if miss then misses else regTlbMissCount s)
            (if crossing then crossings else regPageCrossingCount s), out)
  else None.

(** The branch for a new mapping. *)
Definition tlb_insert (s : tlb_state) (newMapping : tlbMapping) : option tlb_state :=
  let base := if isBase newMapping then vaddr newMapping else base_vaddr s in
  let addr := wrap 64 (vaddr newMapping - base) in
  let page_base := Z.shiftr addr 21 in
  if page_base <? TLB_ENTRIES then
    Some (TlbState (<[page_base := wrap 48 (paddr newMapping)]> (tlb_table s)) base
            (if page_base >? top_page_base s then wrap 32 page_base else top_page_base s)
            (tlbMissCounter s) (tlbPageCrossingCounter s) (regTlbMissCount s) (regPageCrossingCount s))
  else None.

(** The input FIFOs. *)
Record tlb_inputs := TlbInputs {
  s_axis_mem_write_cmd : list memCmd;
  s_axis_mem_read_cmd : list memCmd;
  s_axis_tlb_interface : list tlbMapping;
}.

(** [tlb]: one call, with the commands written to [m_axis_dma_write_cmd] and
    [m_axis_dma_read_cmd]. *)
Definition tlb (s : tlb_state) (i : tlb_inputs) : option (tlb_state * tlb_inputs * (list dmaCmd * list dmaCmd)) :=
  match i with
  | TlbInputs (cmd :: w) r m =>
      '(s', out) ← tlb_command s cmd; Some (s', TlbInputs w r m, ([out], []))
  | TlbInputs [] (cmd :: r) m =>
      '(s', out) ← tlb_command s cmd; Some (s', TlbInputs [] r m, ([], [out]))
  | TlbInputs [] [] (newMapping :: m) =>
      s' ← tlb_insert s newMapping; Some (s', TlbInputs [] [] m, ([], []))
  | TlbInputs [] [] [] => Some (s, i, ([], []))
  end.

(** [n] calls. *)
Fixpoint tlb_cycles (n : nat) (s : tlb_state) (i : tlb_inputs) :
    option (tlb_state * tlb_inputs * (list dmaCmd * list dmaCmd)) :=
  match n with
  | O => Some (s, i, ([], []))
  | S n =>
      '(s1, i1, (ow, rd)) ← tlb s i;
      '(s2, i2, (ow', rd')) ← tlb_cycles n s1 i1;
      Some (s2, i2, (ow ++ ow', rd ++ rd'))
  end.

(** ** Specification *)

Definition PAGE : Z := 0x200000.

Lemma PAGE_pos : 0 < PAGE.
Proof. unfold PAGE. lia. Qed.

(** What the table is for: [pages] are the physical addresses of consecutive
    pages starting at virtual address [base]. *)
Definition maps_pages (s : tlb_state) (base : Z) (pages : list Z) : Prop :=
  base_vaddr s = base /\ Z.of_nat (length pages) <= top_page_base s + 1 /\
  forall i p, pages !! i = Some p -> tlb_entry s (Z.of_nat i) = p.

Definition virt_to_phys (base : Z) (pages : list Z) (a : Z) : option Z :=
  p ← pages !! Z.to_nat ((a - base) / PAGE); Some (p + (a - base) mod PAGE).

(** The mappings the host writes: the first one sets the base address. *)
Fixpoint page_mappings (v : Z) (first : bool) (pages : list Z) : list tlbMapping :=
  match pages with
  | [] => []
  | p :: pages => TlbMapping v p first :: page_mappings (v + PAGE) false pages
  end.

(** The registers and counters hold values of their types. *)
Definition tlb_wf (s : tlb_state) : Prop :=
  (forall i, 0 <= tlb_entry s i < 2 ^ 48) /\ 0 <= base_vaddr s < 2 ^ 64 /\
  0 <= top_page_base s < TLB_ENTRIES /\
  0 <= tlbMissCounter s < 2 ^ 32 /\ 0 <= tlbPageCrossingCounter s < 2 ^ 32.

(** ** Address arithmetic *)

Lemma land_page x : Z.land x 0x1FFFFF = x mod PAGE.
Proof. exact (Z.land_ones x 21 ltac:(lia)). Qed.

Lemma tlb_page_div s a : 0 <= a - base_vaddr s < 2 ^ 64 -> tlb_page s a = (a - base_vaddr s) / PAGE.
Proof. intros. unfold tlb_page. rewrite wrap_small by done. apply Z.shiftr_div_pow2. lia. Qed.

Lemma tlb_offset_mod s a : 0 <= a - base_vaddr s < 2 ^ 64 -> tlb_offset s a = (a - base_vaddr s) mod PAGE.
Proof. intros. unfold tlb_offset. rewrite wrap_small by done. apply land_page. Qed.

Lemma tlb_page_nonneg s a : 0 <= tlb_page s a.
Proof. apply Z.shiftr_nonneg. apply (wrap_bound 64). lia. Qed.

Lemma tlb_offset_bound s a : 0 <= tlb_offset s a < PAGE.
Proof. unfold tlb_offset. rewrite land_page. apply Z.mod_pos_bound, PAGE_pos. Qed.

Lemma entry_insert (t : gmap Z Z) page v i :
  default 0 (<[page := v]> t !! i) = if decide (i = page) then v else default 0 (t !! i).
Proof. case_decide; subst; [by rewrite lookup_insert_eq | by rewrite lookup_insert_ne]. Qed.

(** Projections of an updated state. *)
Ltac tlb_simpl := cbn [tlb_table base_vaddr top_page_base tlbMissCounter tlbPageCrossingCounter
  regTlbMissCount regPageCrossingCount].

(** ** The invariant *)

Lemma tlb_insert_wf s n s' : tlb_wf s -> 0 <= vaddr n < 2 ^ 64 -> tlb_insert s n = Some s' -> tlb_wf s'.
Proof.
  intros (He & Hb & Ht & Hm & Hp) Hv Hs. unfold tlb_insert in Hs.
  set (base := if isBase n then vaddr n else base_vaddr s) in *.
  set (pg := Z.shiftr (wrap 64 (vaddr n - base)) 21) in *.
  assert (0 <= pg) by (apply Z.shiftr_nonneg, (wrap_bound 64); lia).
  destruct (Z.ltb_spec pg TLB_ENTRIES); [|done]. apply (inj Some) in Hs as <-. unfold tlb_wf, tlb_entry. tlb_simpl.
  split_and!; try lia.
  - intros i. rewrite entry_insert. case_decide; [apply (wrap_bound 48); lia | apply He].
  - unfold base. destruct (isBase n); lia.
  - unfold base. destruct (isBase n); lia.
  - case_match; [by apply wrap_bound | lia].
  - case_match; [|lia]. rewrite wrap_small; [done|]. unfold TLB_ENTRIES in *. lia.
Qed.

Lemma tlb_command_wf s c s' o : tlb_wf s -> tlb_command s c = Some (s', o) -> tlb_wf s'.
Proof.
  intros (He & Hb & Ht & Hm & Hp) Hs. unfold tlb_command in Hs. case_match; [|done].
  apply (inj Some), pair_equal_spec in Hs as [<- _]. unfold tlb_wf, tlb_entry. tlb_simpl.
  split_and!; try lia; try done; case_match; try lia; by apply wrap_bound.
Qed.

Lemma tlb_step_wf s i s' i' o : tlb_wf s ->
  Forall (fun n => 0 <= vaddr n < 2 ^ 64) (s_axis_tlb_interface i) ->
  tlb s i = Some (s', i', o) -> tlb_wf s'.
Proof.
  intros Hwf Hn Hs. destruct i as [[|c w] [|c' r] [|n m]]; cbn in Hs;
    [by injection Hs as <- _ _| | | | | | | ];
    match type of Hs with
    | (tlb_insert ?s ?n ≫= _) = _ => destruct (tlb_insert s n) as [s1|] eqn:E; cbn in Hs; [|done]
    | (tlb_command ?s ?c ≫= _) = _ => destruct (tlb_command s c) as [[s1 o1]|] eqn:E; cbn in Hs; [|done]
    end; injection Hs as <- _ _; try by eapply tlb_command_wf.
  inversion_clear Hn. by eapply tlb_insert_wf.
Qed.

Lemma tlb_inputs_suffix s i s' i' o : tlb s i = Some (s', i', o) ->
  Forall (fun n => 0 <= vaddr n < 2 ^ 64) (s_axis_tlb_interface i) ->
  Forall (fun n => 0 <= vaddr n < 2 ^ 64) (s_axis_tlb_interface i').
Proof.
  intros H Hn. destruct i as [[|c w] [|c' r] [|n m]]; cbn in H, Hn;
    [by injection H as _ <- _| | | | | | | ];
    match type of H with
    | (tlb_insert ?s ?n ≫= _) = _ => destruct (tlb_insert s n) as [s1|]; cbn in H; [|done]
    | (tlb_command ?s ?c ≫= _) = _ => destruct (tlb_command s c) as [[s1 o1]|]; cbn in H; [|done]
    end; injection H as _ <- _; try done. by inversion_clear Hn.
Qed.

Lemma tlb_cycles_wf n : forall s i s' i' o, tlb_wf s ->
  Forall (fun n => 0 <= vaddr n < 2 ^ 64) (s_axis_tlb_interface i) ->
  tlb_cycles n s i = Some (s', i', o) -> tlb_wf s'.
Proof.
  induction n as [|n IH]; intros s i s' i' o Hwf Hn H; cbn in H; [by injection H as <- _ _|].
  destruct (tlb s i) as [[[s1 i1] [ow rd]]|] eqn:E1; cbn in H; [|done].
  destruct (tlb_cycles n s1 i1) as [[[s2 i2] [ow' rd']]|] eqn:E2; cbn in H; [|done].
  injection H as <- _ _. eapply IH; [| |exact E2].
  - by eapply tlb_step_wf.
  - by eapply tlb_inputs_suffix.
Qed.

(** from reset on, any number of calls of [tlb] on any commands and
    mappings keeps the variables within their widths and the highest mapped
    page below the table size. *)
Theorem tlb_preserves_wf n i s' i' o :
  Forall (fun n => 0 <= vaddr n < 2 ^ 64) (s_axis_tlb_interface i) ->
  tlb_cycles n tlb_init i = Some (s', i', o) -> tlb_wf s'.
Proof.
  apply tlb_cycles_wf. split_and!; try done.
Qed.

(** a call of [tlb] is undefined - it indexes [tlb_table] out of bounds -
    exactly when the command or mapping it takes lies [TLB_ENTRIES] pages or
    more above the base address, or below it. *)
Theorem tlb_undefined_iff s c w r m n :
  (tlb s (TlbInputs (c :: w) r m) = None <-> TLB_ENTRIES * PAGE <= wrap 64 (cmd_addr c - base_vaddr s)) /\
  (tlb s (TlbInputs [] (c :: r) m) = None <-> TLB_ENTRIES * PAGE <= wrap 64 (cmd_addr c - base_vaddr s)) /\
  (tlb s (TlbInputs [] [] (n :: m)) = None <->
     isBase n = false /\ TLB_ENTRIES * PAGE <= wrap 64 (vaddr n - base_vaddr s)).
Proof.
  assert (Hsh : forall x, (Z.shiftr x 21 <? TLB_ENTRIES) = false <-> TLB_ENTRIES * PAGE <= x).
  { intros x. rewrite Z.ltb_ge, Z.shiftr_div_pow2 by lia. change (2 ^ 21) with PAGE. split; intros H.
    - pose proof (Z.mul_div_le x PAGE PAGE_pos). unfold PAGE, TLB_ENTRIES in *. lia.
    - apply Z.div_le_lower_bound; [apply PAGE_pos|]. unfold PAGE, TLB_ENTRIES in *. lia. }
  cbn [tlb]. unfold tlb_command, tlb_insert, tlb_page. split_and!; rewrite <- Hsh; clear Hsh.
  - by destruct (_ <? TLB_ENTRIES).
  - by destruct (_ <? TLB_ENTRIES).
  - destruct (isBase n).
    + rewrite Z.sub_diag. split; [discriminate | by intros [? _]].
    + destruct (_ <? TLB_ENTRIES); [split; [discriminate | by intros [_ ?]] | done].
Qed.

(** ** Programming the table *)

Lemma tlb_cycles_S n s i s1 i1 (ow rd : list dmaCmd) s2 i2 ow' rd' :
  tlb s i = Some (s1, i1, (ow, rd)) -> tlb_cycles n s1 i1 = Some (s2, i2, (ow', rd')) ->
  tlb_cycles (S n) s i = Some (s2, i2, (ow ++ ow', rd ++ rd')).
Proof. intros H1 H2. cbn. rewrite H1. cbn. by rewrite H2. Qed.

(** Mapping the page [i] above the base address. *)
Lemma tlb_insert_page s base (i : nat) p (first : bool) :
  (if first then i = O else base_vaddr s = base) -> 0 <= top_page_base s ->
  Z.of_nat i < TLB_ENTRIES ->
  tlb_insert s (TlbMapping (base + Z.of_nat i * PAGE) p first) =
    Some (TlbState (<[Z.of_nat i := wrap 48 p]> (tlb_table s)) base (Z.max (top_page_base s) (Z.of_nat i))
      (tlbMissCounter s) (tlbPageCrossingCounter s) (regTlbMissCount s) (regPageCrossingCount s)).
Proof.
  intros Hf Ht Hi. unfold tlb_insert. cbn [isBase vaddr paddr].
  replace (if first then base + Z.of_nat i * PAGE else base_vaddr s) with base.
  2: { destruct first; subst; lia. }
  replace (base + Z.of_nat i * PAGE - base) with (Z.of_nat i * PAGE) by lia.
  assert (Hw : Z.shiftr (wrap 64 (Z.of_nat i * PAGE)) 21 = Z.of_nat i).
  { rewrite wrap_small by (unfold TLB_ENTRIES, PAGE in *; lia).
    rewrite Z.shiftr_div_pow2 by lia. change (2 ^ 21) with PAGE. apply Z.div_mul. unfold PAGE. lia. }
  rewrite Hw. destruct (Z.ltb_spec (Z.of_nat i) TLB_ENTRIES); [|lia]. do 2 f_equal.
  rewrite Z.gtb_ltb. destruct (Z.ltb_spec (top_page_base s) (Z.of_nat i)); [|lia].
  rewrite wrap_small; unfold TLB_ENTRIES in *; lia.
Qed.

(** The counters and the registers that show them. *)
Definition tlb_counts (s : tlb_state) : Z * Z * Z * Z :=
  (tlbMissCounter s, tlbPageCrossingCounter s, regTlbMissCount s, regPageCrossingCount s).

Lemma tlb_program pages : forall s base (i : nat) (first : bool),
  (if first then i = O else base_vaddr s = base) -> 0 <= top_page_base s -> pages <> [] ->
  Z.of_nat (i + length pages) <= TLB_ENTRIES ->
  exists s', tlb_cycles (length pages) s (TlbInputs [] [] (page_mappings (base + Z.of_nat i * PAGE) first pages)) =
      Some (s', TlbInputs [] [] [], ([], [])) /\
    base_vaddr s' = base /\ top_page_base s' = Z.max (top_page_base s) (Z.of_nat (i + length pages) - 1) /\
    tlb_counts s' = tlb_counts s /\
    (forall k, (k < i \/ i + length pages <= k)%nat -> tlb_entry s' (Z.of_nat k) = tlb_entry s (Z.of_nat k)) /\
    (forall k p, pages !! k = Some p -> tlb_entry s' (Z.of_nat (i + k)) = wrap 48 p).
Proof.
  induction pages as [|p pages IH]; intros s base i first Hf Ht Hne Hlen; [done|].
  cbn [length page_mappings] in *.
  pose proof (tlb_insert_page s base i p first Hf Ht ltac:(lia)) as Hins.
  set (s1 := TlbState _ _ _ _ _ _ _) in Hins.
  assert (H1 : tlb s (TlbInputs [] [] (TlbMapping (base + Z.of_nat i * PAGE) p first ::
      page_mappings (base + Z.of_nat i * PAGE + PAGE) false pages)) =
    Some (s1, TlbInputs [] [] (page_mappings (base + Z.of_nat i * PAGE + PAGE) false pages), ([], []))).
  { cbn. by rewrite Hins. }
  assert (He1 : forall k, tlb_entry s1 (Z.of_nat k) = if decide (k = i) then wrap 48 p else tlb_entry s (Z.of_nat k)).
  { intros k. unfold tlb_entry, s1. tlb_simpl. rewrite entry_insert. repeat case_decide; lia || done. }
  destruct (decide (pages = [])) as [-> | Hne'].
  - exists s1. split; [by apply (tlb_cycles_S 0 _ _ _ _ [] [] _ _ [] [] H1)|]. split; [done|].
    split; [unfold s1; tlb_simpl; cbn [length]; lia|]. split; [done|]. split.
    + cbn [length]. intros k Hk. rewrite He1. case_decide; lia || done.
    + intros [|k] q [= ->]. rewrite He1, decide_True by lia. done.
  - replace (base + Z.of_nat i * PAGE + PAGE) with (base + Z.of_nat (S i) * PAGE) in * by lia.
    destruct (IH s1 base (S i) false) as (s' & Hrun & Hb & Htop & Hc & Hold & Hnew); [done | unfold s1; tlb_simpl; lia | done | lia |].
    exists s'. split; [by apply (tlb_cycles_S _ _ _ _ _ [] [] _ _ [] [] H1)|]. split; [done|].
    split; [rewrite Htop; unfold s1; tlb_simpl; lia|]. split; [done|]. split.
    + intros k Hk. rewrite Hold, He1 by lia. case_decide; lia || done.
    + intros [|k] q Hq; cbn in Hq.
      * injection Hq as ->. rewrite Nat.add_0_r, Hold, He1, decide_True by lia. done.
      * replace (i + S k)%nat with (S i + k)%nat by lia. by apply Hnew.
Qed.

Lemma page_mappings_bound pages : forall v first, 0 <= v -> v + Z.of_nat (length pages) * PAGE <= 2 ^ 64 ->
  Forall (fun n => 0 <= vaddr n < 2 ^ 64) (page_mappings v first pages).
Proof.
  induction pages as [|p pages IH]; intros v first Hv Hl; cbn [page_mappings]; constructor;
    cbn [length vaddr] in *; pose proof PAGE_pos; [nia|]. apply IH; lia.
Qed.

Lemma length_page_mappings v first pages : length (page_mappings v first pages) = length pages.
Proof. revert v first. induction pages as [|p pages IH]; intros v first; cbn [page_mappings length]; [done | by rewrite IH]. Qed.

(** The table after programming, page by page above the new base. *)
Definition programmed (s s' : tlb_state) (base : Z) (pages : list Z) : Prop :=
  base_vaddr s' = base /\ tlb_counts s' = tlb_counts s /\
  top_page_base s' = Z.max (top_page_base s) (Z.of_nat (length pages) - 1) /\
  forall k : nat, tlb_entry s' (Z.of_nat k) = default (tlb_entry s (Z.of_nat k)) (pages !! k).

Lemma tlb_program_all s base pages : tlb_wf s -> pages <> [] -> 0 <= base ->
  base + Z.of_nat (length pages) * PAGE <= 2 ^ 64 ->
  Z.of_nat (length pages) <= TLB_ENTRIES -> Forall (fun p => 0 <= p < 2 ^ 48) pages ->
  exists s', tlb_cycles (length pages) s (TlbInputs [] [] (page_mappings base true pages)) =
      Some (s', TlbInputs [] [] [], ([], [])) /\ tlb_wf s' /\ programmed s s' base pages.
Proof.
  intros Hwf Hne Hb0 Hbl Hlen Hp. pose proof Hwf as (_ & _ & [Ht _] & _).
  destruct (tlb_program pages s base 0 true) as (s' & Hrun & Hb & Htop & Hc & Hold & Hnew); [done..|].
  rewrite Z.add_0_r in Hrun. exists s'. split; [done|]. split.
  { eapply tlb_cycles_wf; [exact Hwf | | exact Hrun]. by apply page_mappings_bound. }
  split_and!; try done. intros k. destruct (pages !! k) as [p|] eqn:E; cbn [default].
  - specialize (Hnew k p E). cbn [Nat.add] in Hnew. rewrite Hnew. apply wrap_small. by eapply Forall_lookup_1 in Hp.
  - apply Hold. apply lookup_ge_None_1 in E. lia.
Qed.

Lemma programmed_maps s s' base pages : programmed s s' base pages -> maps_pages s' base pages.
Proof.
  intros (Hb & _ & Ht & He). split; [done|]. split; [lia|]. intros i p Hi. by rewrite He, Hi.
Qed.

Lemma tlb_program_correct s base pages : tlb_wf s -> pages <> [] -> 0 <= base ->
  base + Z.of_nat (length pages) * PAGE <= 2 ^ 64 ->
  Z.of_nat (length pages) <= TLB_ENTRIES -> Forall (fun p => 0 <= p < 2 ^ 48) pages ->
  exists s', tlb_cycles (length pages) s (TlbInputs [] [] (page_mappings base true pages)) =
      Some (s', TlbInputs [] [] [], ([], [])) /\ tlb_wf s' /\ maps_pages s' base pages.
Proof.
  intros Hwf Hne Hb0 Hbl Hlen Hp. destruct (tlb_program_all s base pages) as (s' & H1 & H2 & H3); [done..|].
  exists s'. split; [done|]. split; [done | by eapply programmed_maps].
Qed.

(** C3: writing the mappings of up to 16384 consecutive pages, the first one
    marked as base, takes one call each and changes the table exactly so: the base
    address is the new one, the entries of these pages hold their physical
    addresses, so that the table maps them; but all other entries and the counters keep their values and the
    highest valid page never sinks: pages of an earlier, larger buffer are
    still translated, without a miss, at the same distance from the new base. *)
Theorem tlb_program_maps s base pages : tlb_wf s -> pages <> [] -> 0 <= base ->
  base + Z.of_nat (length pages) * PAGE <= 2 ^ 64 ->
  Z.of_nat (length pages) <= TLB_ENTRIES -> Forall (fun p => 0 <= p < 2 ^ 48) pages ->
  exists s', tlb_cycles (length pages) s (TlbInputs [] [] (page_mappings base true pages)) =
      Some (s', TlbInputs [] [] [], ([], [])) /\ tlb_wf s' /\ programmed s s' base pages /\ maps_pages s' base pages /\
    forall base0 pages0, maps_pages s base0 pages0 -> maps_pages s' base (pages ++ drop (length pages) pages0).
Proof.
  intros Hwf Hne Hb0 Hbl Hlen Hp. destruct (tlb_program_all s base pages) as (s' & H1 & H2 & H3); [done..|].
  exists s'. split; [done|]. split; [done|]. split; [done|]. split; [by eapply programmed_maps|].
  intros base0 pages0 (_ & Htop & Hent). destruct H3 as (Hb & _ & Ht & He). split; [done|]. split.
  - rewrite length_app, length_drop. lia.
  - intros i p Hi. rewrite He. apply lookup_app_Some in Hi as [-> | [Hge Hi]]; [done|].
    rewrite lookup_drop in Hi. rewrite (lookup_ge_None_2 pages) by done. cbn [default]. apply Hent.
    rewrite <- Hi. f_equal. lia.
Qed.

(** ** Translation *)

Lemma tlb_command_mapped s base pages a len : tlb_wf s -> maps_pages s base pages ->
  base <= a < base + Z.of_nat (length pages) * PAGE ->
  exists phys s', virt_to_phys base pages a = Some phys /\
    tlb_command s (MemCmd a len) = Some (s', DmaCmd phys (wrap 28 len)) /\
    tlb_table s' = tlb_table s /\ base_vaddr s' = base /\ top_page_base s' = top_page_base s /\
    tlbMissCounter s' = tlbMissCounter s /\
    tlbPageCrossingCounter s' =
      wrap 32 (tlbPageCrossingCounter s + if decide ((a - base) mod PAGE + len > PAGE) then 1 else 0).
Proof.
  intros (He & Hb & Ht & Hm & Hc) (<- & Htop & Hmap) Ha.
  pose proof PAGE_pos as HP. unfold TLB_ENTRIES in Ht.
  assert (Hd : 0 <= (a - base_vaddr s) / PAGE < Z.of_nat (length pages)).
  { split; [apply Z.div_pos; lia | apply Z.div_lt_upper_bound; lia]. }
  assert (Hrng : 0 <= a - base_vaddr s < 2 ^ 64) by (unfold PAGE in *; lia).
  destruct (lookup_lt_is_Some_2 pages (Z.to_nat ((a - base_vaddr s) / PAGE))) as [p Hp]; [lia|].
  unfold virt_to_phys, tlb_command. cbn [cmd_addr cmd_len].
  rewrite tlb_page_div, tlb_offset_mod by done. rewrite Hp. cbn [mbind option_bind].
  pose proof (Hmap _ _ Hp) as Hent. rewrite Z2Nat.id in Hent by lia. rewrite Hent.
  destruct (Z.ltb_spec ((a - base_vaddr s) / PAGE) TLB_ENTRIES); [|unfold TLB_ENTRIES in *; lia].
  rewrite !Z.gtb_ltb. destruct (Z.ltb_spec (top_page_base s) ((a - base_vaddr s) / PAGE)); [lia|].
  eexists _, _. split; [done|]. split.
  { unfold mk_dmaCmd. rewrite (wrap_small 64).
    - reflexivity.
    - pose proof (He ((a - base_vaddr s) / PAGE)) as Hbp. rewrite Hent in Hbp.
      pose proof (Z.mod_pos_bound (a - base_vaddr s) PAGE HP). unfold PAGE in *. lia. }
  tlb_simpl. split_and!; try done. change (2 * 1024 * 1024) with PAGE.
  destruct (Z.ltb_spec PAGE ((a - base_vaddr s) mod PAGE + len)); case_decide; try lia.
  by rewrite Z.add_0_r, wrap_small.
Qed.

(** C2: a write or read command whose address lies in a mapped page is
    answered in the same call with one DMA command, on the port of the same
    direction, for the physical address of that byte; the length is cut to 28
    bits; no miss is counted, and a page crossing exactly when the access
    leaves its page. *)
Theorem tlb_translates s base pages a len w r m : tlb_wf s -> maps_pages s base pages ->
  base <= a < base + Z.of_nat (length pages) * PAGE ->
  exists phys s', virt_to_phys base pages a = Some phys /\
    tlb s (TlbInputs (MemCmd a len :: w) r m) = Some (s', TlbInputs w r m, ([DmaCmd phys (wrap 28 len)], [])) /\
    tlb s (TlbInputs [] (MemCmd a len :: r) m) = Some (s', TlbInputs [] r m, ([], [DmaCmd phys (wrap 28 len)])) /\
    maps_pages s' base pages /\ tlbMissCounter s' = tlbMissCounter s /\
    tlbPageCrossingCounter s' =
      wrap 32 (tlbPageCrossingCounter s + if decide ((a - base) mod PAGE + len > PAGE) then 1 else 0).
Proof.
  intros Hwf Hmap Ha.
  destruct (tlb_command_mapped s base pages a len Hwf Hmap Ha)
    as (phys & s' & Hv & Hc & Htab & Hb & Ht & Hm & Hcr).
  exists phys, s'. cbn [tlb]. rewrite Hc. split_and!; try done.
  destruct Hmap as (_ & Htop & Hent). split; [done|]. split; [by rewrite Ht|].
  unfold tlb_entry. rewrite Htab. exact Hent.
Qed.

(** an access above the highest mapped page is counted as a miss, and yet
    a DMA command is sent for it, with the table entry - zero when it was
    never written - as the physical page. *)
Theorem tlb_miss_still_sends s a len w r m : top_page_base s < tlb_page s a < TLB_ENTRIES ->
  exists s', tlb s (TlbInputs (MemCmd a len :: w) r m) =
      Some (s', TlbInputs w r m, ([mk_dmaCmd (tlb_entry s (tlb_page s a) + tlb_offset s a) len], [])) /\
    tlbMissCounter s' = wrap 32 (tlbMissCounter s + 1) /\ regTlbMissCount s' = tlbMissCounter s'.
Proof.
  intros H. cbn [tlb]. unfold tlb_command. cbn [cmd_addr cmd_len].
  destruct (Z.ltb_spec (tlb_page s a) TLB_ENTRIES); [|lia].
  rewrite !Z.gtb_ltb. destruct (Z.ltb_spec (top_page_base s) (tlb_page s a)); [|lia].
  eexists. split; [reflexivity|]. done.
Qed.

(** a new base mapping does not invalidate the table: the entries of all
    other pages of the old buffer stay valid at the corresponding offsets of
    the new one. *)
Theorem tlb_rebase_keeps_entries s base p pages base' p' : tlb_wf s ->
  maps_pages s base (p :: pages) -> 0 <= base' < 2 ^ 64 -> 0 <= p' < 2 ^ 48 ->
  exists s', tlb s (TlbInputs [] [] [TlbMapping base' p' true]) = Some (s', TlbInputs [] [] [], ([], [])) /\
    maps_pages s' base' (p' :: pages).
Proof.
  intros (He & Hb & Ht & _) (Hbase & Htop & Hmap) Hb' Hp'.
  pose proof (tlb_insert_page s base' 0 p' true eq_refl ltac:(lia) ltac:(done)) as Hins.
  rewrite Z.add_0_r in Hins. eexists. split; [cbn [tlb]; rewrite Hins; reflexivity|].
  split; [done|]. tlb_simpl. split; [cbn [length] in *; lia|].
  intros i q Hq. unfold tlb_entry. tlb_simpl. rewrite entry_insert.
  destruct i as [|i]; cbn in Hq.
  - injection Hq as <-. rewrite decide_True by done. by apply wrap_small.
  - rewrite decide_False by lia. exact (Hmap (S i) q Hq).
Qed.

(** ** Instances *)

Definition demo_tlb : tlb_state := TlbState {[0 := 0x40000000; 1 := 0x80000000]} 0x7F0000000000 1 0 0 0 0.

Lemma demo_tlb_wf : tlb_wf demo_tlb.
Proof.
  split_and!; try done. intros i. unfold tlb_entry, demo_tlb. cbn [tlb_table].
  change ({[0 := 0x40000000; 1 := 0x80000000]} : gmap Z Z) with (<[0 := 0x40000000]> (<[1 := 0x80000000]> (∅ : gmap Z Z))).
  rewrite entry_insert. case_decide; [lia|]. rewrite entry_insert. case_decide; [lia|]. by rewrite lookup_empty.
Qed.

Lemma demo_tlb_maps : maps_pages demo_tlb 0x7F0000000000 [0x40000000; 0x80000000].
Proof. split; [done|]. split; [done|]. intros [|[|i]] p [= <-]; reflexivity. Qed.

Lemma tlb_preserves_wf_witness : exists s' i' o,
  tlb_cycles 3 tlb_init (TlbInputs [MemCmd 0x200010 64] [] (page_mappings 0x7F0000000000 true [0x40000000; 0x80000000])) =
    Some (s', i', o) /\ tlb_wf s'.
Proof.
  eexists _, _, _. split; [vm_compute; reflexivity|].
  eapply (tlb_preserves_wf 3 (TlbInputs [MemCmd 0x200010 64] [] (page_mappings 0x7F0000000000 true [0x40000000; 0x80000000]))).
  - by apply page_mappings_bound.
  - vm_compute. reflexivity.
Defined.

(** A buffer of one page after one of two pages: the second page stays mapped. *)
Lemma tlb_program_maps_witness : exists s',
  tlb_cycles 1 demo_tlb (TlbInputs [] [] (page_mappings 0x7E0000000000 true [0x200000])) =
    Some (s', TlbInputs [] [] [], ([], [])) /\ tlb_wf s' /\ programmed demo_tlb s' 0x7E0000000000 [0x200000] /\
  maps_pages s' 0x7E0000000000 [0x200000; 0x80000000].
Proof.
  destruct (tlb_program_maps demo_tlb 0x7E0000000000 [0x200000]) as (s' & H1 & H2 & H3 & _ & H4); try done;
    [apply demo_tlb_wf | repeat constructor; done |].
  exists s'. split; [exact H1|]. split; [exact H2|]. split; [exact H3|].
  apply (H4 0x7F0000000000 [0x40000000; 0x80000000] demo_tlb_maps).
Defined.

Lemma tlb_translates_witness : exists phys s',
  virt_to_phys 0x7F0000000000 [0x40000000; 0x80000000] 0x7F0000200010 = Some phys /\
  tlb demo_tlb (TlbInputs [MemCmd 0x7F0000200010 64] [] []) = Some (s', TlbInputs [] [] [], ([DmaCmd phys 64], [])).
Proof.
  destruct (tlb_translates demo_tlb 0x7F0000000000 [0x40000000; 0x80000000] 0x7F0000200010 64 [] [] []
    demo_tlb_wf demo_tlb_maps ltac:(done)) as (phys & s' & H1 & H2 & _). by exists phys, s'.
Defined.

Lemma tlb_miss_witness : exists s',
  tlb demo_tlb (TlbInputs [MemCmd 0x7F0000600010 64] [] []) = Some (s', TlbInputs [] [] [], ([DmaCmd 16 64], [])) /\
  tlbMissCounter s' = 1.
Proof.
  destruct (tlb_miss_still_sends demo_tlb 0x7F0000600010 64 [] [] [] ltac:(done)) as (s' & H1 & H2 & _). by exists s'.
Defined.

Lemma tlb_rebase_witness : exists s',
  tlb demo_tlb (TlbInputs [] [] [TlbMapping 0x600000000000 0x200000 true]) = Some (s', TlbInputs [] [] [], ([], [])) /\
  maps_pages s' 0x600000000000 [0x200000; 0x80000000].
Proof.
  apply (tlb_rebase_keeps_entries demo_tlb 0x7F0000000000 0x40000000 [0x80000000] 0x600000000000 0x200000);
    [apply demo_tlb_wf | apply demo_tlb_maps | done | done].
Defined.
