(* ===== verification/PageBoundary.v ===== *)
(** [src/hls/mem_write_cmd_page_boundary_check_512]: write commands that cross
    the boundary of a 2 MiB page are split in two, and their data with them. *)
From S2P Require Import Prelude Streams AxiUtils ShiftOctet.

(** ** Data *)

Definition PAGE_SIZE : Z := 2 * 1024 * 1024.

Record internalCmd := InternalCmd { ic_addr : Z; ic_len : Z; page_offset : Z }.

Record boundCheckMeta := BoundCheckMeta { meta_length : Z; isSplit : bool }.

(** ** The three processes of the dataflow region *)

Definition calculate_page_offset (regBaseVaddr : Z) (_ : unit) (s : unit) (cmdIn : list memCmd) :
    unit * list memCmd * list internalCmd :=
  match cmdIn with
  | [] => (s, [], [])
  | cmd :: cmdIn =>
      let addr := wrap 48 (cmd_addr cmd - regBaseVaddr) in
      (s, cmdIn, [InternalCmd (cmd_addr cmd) (cmd_len cmd) (Z.land addr 0x1FFFFF)])
  end.

Inductive bcStateType := CMD | CMD_SPLIT.

Record bc_vars := BcVars { bc_state : bcStateType; bc_cmd : internalCmd; newLength : Z }.

Definition bc_init : bc_vars := BcVars CMD (InternalCmd 0 0 0) 0.

Definition boundary_check (_ : unit) (s : bc_vars) (cmdIn : list internalCmd) :
    bc_vars * list internalCmd * (list memCmd * list boundCheckMeta) :=
  match bc_state s with
  | CMD =>
      match cmdIn with
      | [] => (s, [], ([], []))
      | cmd :: cmdIn =>
          if page_offset cmd + ic_len cmd >? PAGE_SIZE then
            let newLength := wrap 32 (PAGE_SIZE - page_offset cmd) in
            (BcVars CMD_SPLIT
               (InternalCmd (wrap 64 (ic_addr cmd + newLength)) (wrap 32 (ic_len cmd - newLength))
                  (page_offset cmd)) newLength,
             cmdIn, ([MemCmd (ic_addr cmd) newLength], [BoundCheckMeta newLength true]))
          else
            (BcVars CMD cmd (newLength s), cmdIn,
             ([MemCmd (ic_addr cmd) (ic_len cmd)], [BoundCheckMeta (ic_len cmd) false]))
      end
  | CMD_SPLIT =>
      (BcVars CMD (bc_cmd s) (newLength s), cmdIn,
       ([MemCmd (ic_addr (bc_cmd s)) (ic_len (bc_cmd s))], []))
  end.

Inductive pbcStateType := PKG_FIRST | PKG_SECOND | LAST.

Record ps_vars := PsVars {
  pbc_state : pbcStateType; meta : boundCheckMeta; metaLoaded : bool; prevWord : net_axis }.

Definition ps_init : ps_vars := PsVars PKG_FIRST (BoundCheckMeta 0 false) false (NetAxis 0 0 false).

(** The inner [switch] of state PKG_FIRST. *)
Definition first_keep (length keep : Z) : Z :=
  match length with
  | 56 => 0xFFFFFFFFFFFFFF
  | 48 => 0xFFFFFFFFFFFF
  | 40 => 0xFFFFFFFFFF
  | 32 => 0xFFFFFFFF
  | 24 => 0xFFFFFF
  | 16 => 0xFFFF
  | 8 => 0xFF
  | _ => keep
  end.

(** One case of the [switch] of state PKG_SECOND:
    [data(dh, 0) = prevWord.data(511, pl); data(511, dl) = currWord.data(ch, 0);
     keep(kh, 0) = prevWord.keep(63, ql); keep(63, kl) = currWord.keep(eh, 0);
     last = (currWord.keep[b] == 0)]. *)
Definition splice_word (sendWord prevWord currWord : net_axis) (dh pl dl ch kh ql kl eh b : Z) : net_axis :=
  NetAxis
    (set_range (set_range (data sendWord) dh 0 (range (data prevWord) 511 pl)) 511 dl
       (range (data currWord) ch 0))
    (set_range (set_range (keep sendWord) kh 0 (range (keep prevWord) 63 ql)) 63 kl
       (range (keep currWord) eh 0))
    (negb (Z.testbit (keep currWord) b)).

Definition second_word (length : Z) (sendWord prevWord currWord : net_axis) : net_axis :=
  let splice := splice_word sendWord prevWord currWord in
  match length with
  | 56 => splice 63 448 64 447 7 56 8 55 56
  | 48 => splice 127 384 128 383 15 48 16 47 48
  | 40 => splice 191 320 192 319 23 40 24 39 40
  | 32 => splice 255 256 256 255 31 32 32 31 32
  | 24 => splice 319 192 320 191 39 24 40 23 24
  | 16 => splice 383 128 384 127 47 16 48 15 16
  | 8 => splice 447 64 448 63 55 8 56 7 8
  | _ => currWord
  end.

(** One case of the [switch] of state LAST. *)
Definition rest_word (sendWord prevWord : net_axis) (dh pl dl kh ql kl : Z) : net_axis :=
  NetAxis
    (set_range (set_range (data sendWord) dh 0 (range (data prevWord) 511 pl)) 511 dl 0)
    (set_range (set_range (keep sendWord) kh 0 (range (keep prevWord) 63 ql)) 63 kl 0)
    true.

Definition last_word (length : Z) (sendWord prevWord : net_axis) : net_axis :=
  let rest := rest_word sendWord prevWord in
  match length with
  | 56 => rest 63 448 64 7 56 8
  | 48 => rest 127 384 128 15 48 16
  | 40 => rest 191 320 192 23 40 24
  | 32 => rest 255 256 256 31 32 32
  | 24 => rest 319 192 320 39 24 40
  | 16 => rest 383 128 384 47 16 48
  | 8 => rest 447 64 448 55 8 56
  | _ => NetAxis (data sendWord) (keep sendWord) true
  end.

(** The body of state PKG_FIRST once [meta] and [currWord] are read. *)
Definition pkg_first (meta : boundCheckMeta) (prevWord currWord : net_axis) : ps_vars * net_axis :=
  let short := meta_length meta <=? 64 in
  let sendWord := NetAxis (data currWord)
    (if short then first_keep (meta_length meta) (keep currWord) else keep currWord) short in
  let prevWord := NetAxis (data currWord) (keep currWord) (last prevWord) in
  (if short then
     if isSplit meta then
       PsVars (if last currWord then LAST else PKG_SECOND) meta true prevWord
     else PsVars PKG_FIRST meta false prevWord
   else PsVars PKG_FIRST (BoundCheckMeta (meta_length meta - 64) (isSplit meta)) true prevWord,
   sendWord).

(** [j] is the uninitialised local [sendWord]. *)
Definition pkg_split (j : net_axis) (s : ps_vars) (ins : list boundCheckMeta * list net_axis) :
    ps_vars * (list boundCheckMeta * list net_axis) * list net_axis :=
  let '(metaIn, dataIn) := ins in
  let sendWord := undef_axis 512 j in
  match pbc_state s with
  | PKG_FIRST =>
      match dataIn, metaLoaded s, metaIn with
      | currWord :: dataIn, true, _ =>
          let '(s', sendWord) := pkg_first (meta s) (prevWord s) currWord in
          (s', (metaIn, dataIn), [sendWord])
      | currWord :: dataIn, false, m :: metaIn =>
          let '(s', sendWord) := pkg_first m (prevWord s) currWord in
          (s', (metaIn, dataIn), [sendWord])
      | _, _, _ => (s, ins, [])
      end
  | PKG_SECOND =>
      match dataIn with
      | [] => (s, ins, [])
      | currWord :: dataIn =>
          let sendWord := second_word (meta_length (meta s)) sendWord (prevWord s) currWord in
          let prevWord := NetAxis (data currWord) (keep currWord) (last (prevWord s)) in
          (if last sendWord then PsVars PKG_FIRST (meta s) false prevWord
           else PsVars (if last currWord then LAST else PKG_SECOND) (meta s) (metaLoaded s) prevWord,
           (metaIn, dataIn), [sendWord])
      end
  | LAST =>
      (PsVars PKG_FIRST (meta s) false (prevWord s), ins,
       [last_word (meta_length (meta s)) sendWord (prevWord s)])
  end.

(** The commands pass through [pageOffsetFifo]; [metaFifo] connects the command
    path with the data path. *)
Definition split_commands (regBaseVaddr : Z) := pipe (calculate_page_offset regBaseVaddr) boundary_check.

Definition mem_write_cmd_page_boundary_check_512 (regBaseVaddr : Z) :=
  compose (split_commands regBaseVaddr) pkg_split.

Definition page_boundary_init : unit * bc_vars * list internalCmd * ps_vars * list boundCheckMeta :=
  ((tt, bc_init, []), ps_init, []).

(** ** Specification *)

(** The number of bytes from address [a] to the end of its page. *)
Definition to_page_end (base a : Z) : Z := PAGE_SIZE - (a - base) mod PAGE_SIZE.

Definition crosses (base : Z) (c : memCmd) : bool := to_page_end base (cmd_addr c) <? cmd_len c.

Definition split_cmd (base : Z) (c : memCmd) : list memCmd :=
  let first := to_page_end base (cmd_addr c) in
  if crosses base c
  then [MemCmd (cmd_addr c) first; MemCmd (cmd_addr c + first) (cmd_len c - first)]
  else [c].

Definition split_bytes (base : Z) (c : memCmd) (bs : list Z) : list (list Z) :=
  if crosses base c then
    let first := Z.to_nat (to_page_end base (cmd_addr c)) in [take first bs; drop first bs]
  else [bs].

(** Commands over consecutive address ranges. *)
Inductive tiles : Z -> Z -> list memCmd -> Prop :=
  | tiles_nil a : tiles a 0 []
  | tiles_cons a l len cs : tiles (a + l) (len - l) cs -> tiles a len (MemCmd a l :: cs).

Definition in_page (base : Z) (c : memCmd) : Prop := cmd_len c <= to_page_end base (cmd_addr c).

Definition memCmd_wf (c : memCmd) : Prop :=
  0 <= cmd_addr c /\ 0 <= cmd_len c < 2 ^ 32 /\ cmd_addr c + cmd_len c <= 2 ^ 64.

(** ** The command path *)

Definition internal (base : Z) (c : memCmd) : internalCmd :=
  InternalCmd (cmd_addr c) (cmd_len c) ((cmd_addr c - base) mod PAGE_SIZE).

Definition meta_of (base : Z) (c : memCmd) : boundCheckMeta :=
  if crosses base c then BoundCheckMeta (to_page_end base (cmd_addr c)) true
  else BoundCheckMeta (cmd_len c) false.

Lemma to_page_end_bound base a : 0 < to_page_end base a <= PAGE_SIZE.
Proof. unfold to_page_end. pose proof (Z.mod_pos_bound (a - base) PAGE_SIZE). unfold PAGE_SIZE in *. lia. Qed.

Lemma page_offset_mod base a : Z.land (wrap 48 (a - base)) 0x1FFFFF = (a - base) mod PAGE_SIZE.
Proof.
  change 0x1FFFFF with (Z.ones 21). rewrite Z.land_ones by lia. exact (wrap_wrap 21 48 (a - base) ltac:(lia)).
Qed.

Lemma calculate_page_offset_computes base cmds :
  computes (calculate_page_offset base) (length cmds) tt cmds (internal base <$> cmds) tt.
Proof.
  induction cmds as [|c cmds IH]; cbn [length].
  - by exact (computes_done (calculate_page_offset base) 0 tt (fun _ => eq_refl)).
  - change (internal base <$> c :: cmds) with (fapp [internal base c] (internal base <$> cmds)).
    eapply computes_read; [done | | exact IH]. intros j r. cbn. by rewrite page_offset_mod.
Qed.

Lemma boundary_check_split base c s j r : memCmd_wf c -> bc_state s = CMD -> crosses base c = true ->
  let first := to_page_end base (cmd_addr c) in
  boundary_check j s (internal base c :: r) =
    (BcVars CMD_SPLIT (InternalCmd (cmd_addr c + first) (cmd_len c - first)
        ((cmd_addr c - base) mod PAGE_SIZE)) first, r,
     ([MemCmd (cmd_addr c) first], [BoundCheckMeta first true])).
Proof.
  intros (Ha & Hl & Hal) Hs Hc first. unfold boundary_check. rewrite Hs. cbn [internal ic_addr ic_len page_offset].
  pose proof (to_page_end_bound base (cmd_addr c)) as Hb. unfold crosses in Hc. apply Z.ltb_lt in Hc.
  rewrite Z.gtb_ltb. fold first in Hb, Hc.
  assert (PAGE_SIZE - (cmd_addr c - base) mod PAGE_SIZE = first) as -> by done.
  destruct (Z.ltb_spec PAGE_SIZE ((cmd_addr c - base) mod PAGE_SIZE + cmd_len c)).
  - rewrite (wrap_small 32 first), !wrap_small by (unfold PAGE_SIZE in *; lia). done.
  - unfold first, to_page_end in *. lia.
Qed.

Lemma boundary_check_whole base c s j r : bc_state s = CMD -> crosses base c = false ->
  boundary_check j s (internal base c :: r) =
    (BcVars CMD (internal base c) (newLength s), r, ([c], [BoundCheckMeta (cmd_len c) false])).
Proof.
  intros Hs Hc. unfold boundary_check. rewrite Hs. cbn [internal ic_addr ic_len page_offset].
  unfold crosses, to_page_end in Hc. apply Z.ltb_ge in Hc. rewrite Z.gtb_ltb.
  destruct (Z.ltb_spec PAGE_SIZE ((cmd_addr c - base) mod PAGE_SIZE + cmd_len c)); [lia|]. by destruct c.
Qed.

Lemma split_cmd_crosses base c : crosses base c = true ->
  (split_cmd base c, [meta_of base c]) =
  let first := to_page_end base (cmd_addr c) in
  fapp ([MemCmd (cmd_addr c) first], [BoundCheckMeta first true])
    ([MemCmd (cmd_addr c + first) (cmd_len c - first)], []).
Proof. intros H. unfold split_cmd, meta_of. by rewrite H. Qed.

Lemma split_cmd_whole base c : crosses base c = false ->
  (split_cmd base c, [meta_of base c]) = ([c], [BoundCheckMeta (cmd_len c) false]).
Proof. intros H. unfold split_cmd, meta_of. by rewrite H. Qed.

Lemma boundary_check_computes base cmds : forall s, Forall memCmd_wf cmds -> bc_state s = CMD ->
  exists sf, bc_state sf = CMD /\ computes boundary_check (2 * length cmds) s (internal base <$> cmds)
    (concat (split_cmd base <$> cmds), meta_of base <$> cmds) sf.
Proof.
  induction cmds as [|c cmds IH]; intros s Hwf Hs.
  - exists s. split; [done|]. refine (computes_done boundary_check 0 s _).
    intros j. unfold boundary_check. by rewrite Hs.
  - apply Forall_cons_1 in Hwf as [Hc Hwf].
    change (internal base <$> c :: cmds) with (internal base c :: (internal base <$> cmds)).
    set (rest := (concat (split_cmd base <$> cmds), meta_of base <$> cmds)) in *.
    change (concat (split_cmd base <$> c :: cmds), meta_of base <$> c :: cmds) with
      (fapp (split_cmd base c, [meta_of base c]) rest).
    replace (2 * length (c :: cmds))%nat with (S (S (2 * length cmds))) by (cbn; lia).
    assert (Hidle : forall j, boundary_check j s [] = (s, [], fnil)).
    { intros j. unfold boundary_check. by rewrite Hs. }
    destruct (crosses base c) eqn:Hx.
    + destruct (IH (BcVars CMD (InternalCmd (cmd_addr c + to_page_end base (cmd_addr c))
        (cmd_len c - to_page_end base (cmd_addr c)) ((cmd_addr c - base) mod PAGE_SIZE))
        (to_page_end base (cmd_addr c))) Hwf eq_refl) as (sf & Hsf & Hrest).
      exists sf. split; [done|]. rewrite split_cmd_crosses, <- fapp_assoc by done.
      eapply computes_read; [exact Hidle | by intros; apply boundary_check_split |].
      eapply computes_emit; [|exact Hrest]. done.
    + destruct (IH (BcVars CMD (internal base c) (newLength s)) Hwf eq_refl) as (sf & Hsf & Hrest).
      exists sf. split; [done|]. apply (computes_mono _ (S (2 * length cmds))); [|lia].
      rewrite split_cmd_whole by done.
      eapply computes_read; [exact Hidle | by intros; apply boundary_check_whole | exact Hrest].
Qed.

Lemma split_commands_computes base cmds : Forall memCmd_wf cmds ->
  exists sf, bc_state sf = CMD /\
    computes (split_commands base) (3 * length cmds) (tt, bc_init, []) cmds
      (concat (split_cmd base <$> cmds), meta_of base <$> cmds) (tt, sf, []).
Proof.
  intros Hwf. destruct (boundary_check_computes base cmds bc_init Hwf eq_refl) as (sf & Hsf & Hc).
  exists sf. split; [done|].
  replace (3 * length cmds)%nat with (length cmds + 2 * length cmds)%nat by lia.
  exact (computes_pipe _ _ _ _ _ _ _ _ _ _ _ (calculate_page_offset_computes base cmds) Hc).
Qed.

(** *** The commands of one command *)

Lemma split_cmd_tiles base c : tiles (cmd_addr c) (cmd_len c) (split_cmd base c).
Proof.
  unfold split_cmd. destruct (crosses base c).
  - constructor. constructor. rewrite Z.sub_diag. constructor.
  - destruct c. constructor. cbn. rewrite Z.sub_diag. constructor.
Qed.

Lemma to_page_end_next base a : to_page_end base (a + to_page_end base a) = PAGE_SIZE.
Proof.
  unfold to_page_end. replace (_ - base) with ((a - base) - (a - base) mod PAGE_SIZE + 1 * PAGE_SIZE) by lia.
  rewrite Z_mod_plus_full. rewrite <- Zminus_mod_idemp_l, Z.sub_diag. unfold PAGE_SIZE. done.
Qed.

Lemma split_cmd_in_page base c :
  Forall (in_page base) (split_cmd base c) <-> cmd_len c <= to_page_end base (cmd_addr c) + PAGE_SIZE.
Proof.
  unfold split_cmd, crosses. pose proof (to_page_end_bound base (cmd_addr c)).
  destruct (Z.ltb_spec (to_page_end base (cmd_addr c)) (cmd_len c)); rewrite ?Forall_cons, ?Forall_nil;
    unfold in_page; cbn [cmd_addr cmd_len]; rewrite ?to_page_end_next; lia.
Qed.

(** ** The data path *)

Definition pkg_ready (s : ps_vars) : Prop := pbc_state s = PKG_FIRST /\ metaLoaded s = false.

Definition stored (p w : net_axis) : net_axis := NetAxis (data w) (keep w) (last p).

(** The offsets for which the [switch] statements have a case. *)
Definition byte_splits : list nat := [8; 16; 24; 32; 40; 48; 56]%nat.

Lemma byte_splits_bound o : o ∈ byte_splits -> (0 < o < 64)%nat.
Proof. intros H. unfold byte_splits in H. set_unfold. lia. Qed.

Lemma byte_splits_elem o : (0 < o < 64)%nat -> (o mod 8 = 0)%nat -> o ∈ byte_splits.
Proof.
  intros Ho Hm. pose proof (Nat.div_mod o 8 ltac:(done)).
  assert (o / 8 = 1 \/ o / 8 = 2 \/ o / 8 = 3 \/ o / 8 = 4 \/ o / 8 = 5 \/ o / 8 = 6 \/ o / 8 = 7)%nat by lia.
  unfold byte_splits. set_unfold. lia.
Qed.

(** In every case the constants of the code are those of a splice after [o]
    bytes. *)
Lemma second_word_splice o u p w : o ∈ byte_splits ->
  second_word (Z.of_nat o) u p w =
  NetAxis
    (set_range (set_range (data u) (512 - 1 - 8 * Z.of_nat o) 0 (range (data p) (512 - 1) (8 * Z.of_nat o)))
       (512 - 1) (512 - 8 * Z.of_nat o) (range (data w) (8 * Z.of_nat o - 1) 0))
    (set_range (set_range (keep u) (64 - 1 - Z.of_nat o) 0 (range (keep p) (64 - 1) (Z.of_nat o)))
       (64 - 1) (64 - Z.of_nat o) (range (keep w) (Z.of_nat o - 1) 0))
    (negb (Z.testbit (keep w) (Z.of_nat o))).
Proof. unfold byte_splits. intros H. set_unfold. by destruct_or! H; subst o. Qed.

Lemma last_word_splice o u p : o ∈ byte_splits ->
  last_word (Z.of_nat o) u p =
  NetAxis
    (set_range (set_range (data u) (512 - 1 - 8 * Z.of_nat o) 0 (range (data p) (512 - 1) (8 * Z.of_nat o)))
       (512 - 1) (512 - 8 * Z.of_nat o) 0)
    (set_range (set_range (keep u) (64 - 1 - Z.of_nat o) 0 (range (keep p) (64 - 1) (Z.of_nat o)))
       (64 - 1) (64 - Z.of_nat o) 0)
    true.
Proof. unfold byte_splits. intros H. set_unfold. by destruct_or! H; subst o. Qed.

Lemma first_keep_ones o k : o ∈ byte_splits -> first_keep (Z.of_nat o) k = Z.ones (Z.of_nat o).
Proof. unfold byte_splits. intros H. set_unfold. by destruct_or! H; subst o. Qed.

Lemma first_keep_same n k : (n <= 64)%nat -> k = Z.ones (Z.of_nat n) -> first_keep (Z.of_nat n) k = k.
Proof.
  intros Hn ->. unfold first_keep.
  repeat (case_match; try done); by (f_equal; lia) || (match goal with H : Z.of_nat n = _ |- _ => rewrite H end).
Qed.

Lemma second_word_rs o u p w k : o ∈ byte_splits -> (k <= 64)%nat ->
  keep p = Z.ones 64 -> keep w = Z.ones (Z.of_nat k) ->
  second_word (Z.of_nat o) (undef_axis 512 u) p w = rs_word 64 o p w k.
Proof.
  intros Ho Hk Hp Hw. pose proof (byte_splits_bound o Ho) as Hb.
  rewrite second_word_splice by done. unfold rs_word. f_equal.
  - exact (rs_data 64 o Hb u _ _).
  - rewrite Hp, Hw. exact (rs_keep 64 o Hb u k Hk).
  - rewrite Hw, testbit_ones by lia. destruct (Nat.leb_spec k o); bool_cases; done.
Qed.

Lemma last_word_rs o u p k : o ∈ byte_splits -> (k <= 64)%nat -> keep p = Z.ones (Z.of_nat k) ->
  last_word (Z.of_nat o) (undef_axis 512 u) p = rs_rest 64 o p k.
Proof.
  intros Ho Hk Hp. pose proof (byte_splits_bound o Ho) as Hb.
  rewrite last_word_splice by done. unfold rs_rest. f_equal.
  - rewrite <- (wrap_0 (8 * Z.of_nat o)) at 2 by lia. exact (rs_data 64 o Hb u _ 0).
  - rewrite Hp. exact (rs_keep_rest 64 o Hb u k Hk).
Qed.

(** The second part of a packet split after [o] bytes of the word [p]. *)
Lemma pkg_second o p ws bs : o ∈ byte_splits -> carries 64 ws bs -> keep p = Z.ones 64 ->
  consumes pkg_split (PsVars PKG_SECOND (BoundCheckMeta (Z.of_nat o) true) true p) ([], ws) (S (length ws))
    (fun sf os => pkg_ready sf /\ carries 64 os (drop o (bytes 64 (data p)) ++ bs)).
Proof.
  intros Ho Hc. revert p. pose proof (byte_splits_bound o Ho) as Hb.
  set (m := BoundCheckMeta (Z.of_nat o) true).
  refine (splice_packet 64 o Hb pkg_split (fun l => ([], l)) stored
    (PsVars PKG_SECOND m true) (PsVars LAST m true) pkg_ready (PsVars PKG_FIRST m false) _ _ _ _ _ _ ws bs Hc); try done.
  - intros p w k l K Q Hk Hn Hp Hw HQ. eapply consumes_read_second; [done | |].
    { intros j x y. cbn [pkg_split pbc_state meta meta_length m]. unfold pkg_split. cbn.
      rewrite (second_word_rs o j p w k) by done. reflexivity. }
    cbn. fold m. destruct (last w) eqn:Hl, (Nat.leb_spec k o); try done.
    rewrite (Hn eq_refl) in *. lia.
  - intros p k Hk Hp. eapply consumes_write.
    { intros j x. unfold pkg_split. cbn. destruct x. rewrite (last_word_rs o j p k) by done. reflexivity. }
    by apply consumes_pair_nil.
Qed.

(** Reading a word in state PKG_FIRST, with or without reading its [meta]. *)
Lemma pkg_read_first m m0 loaded p w ws K (Q : ps_vars -> list net_axis -> Prop) :
  (loaded = true -> m0 = m) ->
  consumes pkg_split (pkg_first m p w).1 ([], ws) K (fun sf os => Q sf ((pkg_first m p w).2 :: os)) ->
  consumes pkg_split (PsVars PKG_FIRST m0 loaded p) (if loaded then [] else [m], w :: ws) (S K) Q.
Proof.
  intros Hm HQ. destruct loaded.
  - rewrite (Hm eq_refl) in *. eapply (consumes_read_second _ _ _ _ _ _ [_]); [done | | exact HQ].
    intros j x y. unfold pkg_split. cbn. by destruct (pkg_first m p w).
  - eapply (consumes_read_both _ _ _ _ _ _ _ [_]); [by intros j [|] | done | | exact HQ].
    intros j x y. unfold pkg_split. cbn. by destruct (pkg_first m p w).
Qed.

(** The last word of a packet carries data. *)
Definition tight (ws : list net_axis) (bs : list Z) : Prop :=
  length ws = 1%nat \/ (64 * (length ws - 1) < length bs)%nat.

Lemma tight_more w ws bs : tight (w :: ws) (bytes 64 (data w) ++ bs) -> carries 64 ws bs ->
  tight ws bs /\ (0 < length bs)%nat.
Proof.
  intros H Hc. apply carries_length in Hc as [? ?]. unfold tight in *. cbn [length] in H.
  rewrite length_app, length_bytes in H. lia.
Qed.

Lemma carries_word n d kp k : (k <= n)%nat -> kp = Z.ones (Z.of_nat k) -> carries n [NetAxis d kp true] (bytes k d).
Proof. intros. by apply (carries_last n (NetAxis d kp true)). Qed.

Lemma pkg_whole ws bs : carries 64 ws bs -> tight ws bs -> forall m0 loaded p,
  let m := BoundCheckMeta (Z.of_nat (length bs)) false in
  (loaded = true -> m0 = m) ->
  consumes pkg_split (PsVars PKG_FIRST m0 loaded p) (if loaded then [] else [m], ws) (length ws)
    (fun sf os => pkg_ready sf /\ carries 64 os bs).
Proof.
  induction 1 as [w k Hk Hkeep Hlast | w ws bs Hkeep Hlast Hc IH]; intros Ht m0 loaded p m Hm; cbn [length].
  - apply pkg_read_first; [done|]. unfold pkg_first, m. cbn [meta_length isSplit]. rewrite length_bytes.
    destruct (Z.leb_spec (Z.of_nat k) 64); [|lia]. rewrite (first_keep_same k) by done.
    cbn [fst snd]. apply consumes_pair_nil. split; [done|]. by apply carries_word.
  - apply tight_more in Ht as [Ht Hpos]; [|done].
    apply pkg_read_first; [done|]. unfold pkg_first, m. cbn [meta_length isSplit].
    rewrite length_app, length_bytes, Nat2Z.inj_add.
    destruct (Z.leb_spec (Z.of_nat 64 + Z.of_nat (length bs)) 64); [lia|]. cbn [fst snd].
    eapply consumes_weaken; [apply (IH Ht _ true) | done |].
    + intros _. f_equal. lia.
    + intros sf os [? ?]. split; [done|]. by apply (carries_more 64 (NetAxis _ _ _)).
Qed.

Lemma second_word_default o u p w : o ∉ byte_splits -> (o <= 64)%nat -> second_word (Z.of_nat o) u p w = w.
Proof.
  intros Ho Hle. unfold second_word.
  repeat (case_match; try done); exfalso; apply Ho; unfold byte_splits; set_unfold; lia.
Qed.

Lemma first_keep_default o k : o ∉ byte_splits -> (o <= 64)%nat -> first_keep (Z.of_nat o) k = k.
Proof.
  intros Ho Hle. unfold first_keep.
  repeat (case_match; try done); exfalso; apply Ho; unfold byte_splits; set_unfold; lia.
Qed.

(** The second part of a packet split at a word boundary, and of one split
    at an offset without a case. *)
Lemma pkg_second_default o p ws bs : o ∉ byte_splits -> (o <= 64)%nat -> carries 64 ws bs ->
  consumes pkg_split (PsVars PKG_SECOND (BoundCheckMeta (Z.of_nat o) true) true p) ([], ws) (length ws)
    (fun sf os => pkg_ready sf /\ carries 64 os bs).
Proof.
  intros Ho Hle Hc. revert p.
  induction Hc as [w k Hk Hkeep Hlast | w ws bs Hkeep Hlast Hc IH]; intros p; cbn [length];
    (eapply consumes_read_second; [done | |]);
    [ intros j x y; unfold pkg_split; cbn; rewrite second_word_default, Hlast by done; reflexivity |
    | intros j x y; unfold pkg_split; cbn; rewrite second_word_default, Hlast by done; reflexivity |].
  - apply consumes_pair_nil. split; [done|]. by constructor.
  - eapply consumes_weaken; [apply IH | done |]. intros sf os [? ?]. split; [done|]. by apply carries_more.
Qed.

(** The word with which the first part of a split packet ends. *)
Lemma pkg_split_word o ws w bs m0 loaded p : o ∈ byte_splits -> carries 64 (w :: ws) bs -> (o < length bs)%nat ->
  let m := BoundCheckMeta (Z.of_nat o) true in
  (loaded = true -> m0 = m) ->
  consumes pkg_split (PsVars PKG_FIRST m0 loaded p) (if loaded then [] else [m], w :: ws) (2 + length ws)
    (fun sf os => pkg_ready sf /\ exists w' os', os = w' :: os' /\ carries 64 [w'] (take o bs) /\ carries 64 os' (drop o bs)).
Proof.
  intros Ho Hc Hlen m Hm. pose proof (byte_splits_bound o Ho). apply pkg_read_first; [done|].
  unfold pkg_first, m. cbn [meta_length isSplit]. destruct (Z.leb_spec (Z.of_nat o) 64); [|lia].
  rewrite first_keep_ones by done. cbn [fst snd].
  assert (Hfirst : carries 64 [NetAxis (data w) (Z.ones (Z.of_nat o)) true] (bytes o (data w))).
  { apply carries_word; [lia | done]. }
  inversion Hc as [? k Hk Hkeep Hlast | ? ? bs' Hkeep Hlast Hc']; subst; rewrite Hlast.
  - rewrite length_bytes in Hlen. eapply consumes_write.
    { intros j x. unfold pkg_split. cbn. destruct x. rewrite (last_word_rs o j _ k) by done. reflexivity. }
    apply consumes_pair_nil. split; [done|]. eexists _, _. split; [reflexivity|].
    rewrite take_bytes, Nat.min_l by lia. split; [done|].
    change (data w) with (data (NetAxis (data w) (keep w) (last p))) at 2.
    rewrite <- (rs_rest_bytes 64 o) by lia. constructor; cbn; [lia | done | done].
  - rewrite length_app, length_bytes in Hlen.
    eapply consumes_weaken; [by apply (pkg_second o) | lia |]. cbn [data].
    intros sf os [? Hos]. split; [done|]. eexists _, _. split; [reflexivity|].
    rewrite take_app_le, drop_app_le, take_bytes, Nat.min_l by (rewrite ?length_bytes; lia). done.
Qed.

(** Where a packet whose first part has [m] bytes is actually split. *)
Definition split_point (m : nat) : nat := if (m mod 8 =? 0)%nat then m else (64 * (m / 64 + 1))%nat.

Lemma split_point_small m : (0 < m <= 64)%nat -> m ∉ byte_splits -> split_point m = 64%nat.
Proof.
  intros Hm Hn. unfold split_point. destruct (Nat.eqb_spec (m mod 8) 0).
  - destruct (decide (m < 64)%nat); [|lia]. exfalso. apply Hn, byte_splits_elem; lia.
  - assert (m <> 64%nat) by (intros ->; done). rewrite Nat.div_small by lia. done.
Qed.

Lemma split_point_step m : (64 < m)%nat -> split_point m = (64 + split_point (m - 64))%nat.
Proof.
  intros Hm. unfold split_point. replace m with (m - 64 + 8 * 8)%nat at 1 by lia.
  rewrite Nat.Div0.mod_add. destruct (_ =? 0)%nat; [lia|].
  replace m with (m - 64 + 1 * 64)%nat at 1 by lia. rewrite Nat.div_add by lia. lia.
Qed.

Lemma split_point_aligned m : (m mod 8 = 0)%nat -> split_point m = m.
Proof. intros H. unfold split_point. by rewrite H. Qed.

Lemma pkg_split_packet ws bs : carries 64 ws bs -> forall m m0 loaded p,
  (0 < m)%nat -> (split_point m < length bs)%nat ->
  let meta := BoundCheckMeta (Z.of_nat m) true in
  (loaded = true -> m0 = meta) ->
  consumes pkg_split (PsVars PKG_FIRST m0 loaded p) (if loaded then [] else [meta], ws) (S (length ws))
    (fun sf os => pkg_ready sf /\ exists os1 os2, os = os1 ++ os2 /\
       carries 64 os1 (take (split_point m) bs) /\ carries 64 os2 (drop (split_point m) bs)).
Proof.
  induction 1 as [w k Hk Hkeep Hlast | w ws bs Hkeep Hlast Hc IH]; intros m m0 loaded p Hm Hlen meta Hmeta.
  - rewrite length_bytes in Hlen. destruct (decide (m ∈ byte_splits)) as [Ho | Ho].
    + pose proof (byte_splits_bound m Ho). assert (split_point m = m) as Hs.
      { apply split_point_aligned. clear -Ho. unfold byte_splits in Ho. set_unfold. by destruct_or! Ho; subst m. }
      rewrite Hs in *. eapply consumes_weaken; [apply (pkg_split_word m [] w); [done | | by rewrite length_bytes | done] | done |].
      { by constructor. }
      intros sf os [? (w' & os' & -> & ? & ?)]. split; [done|]. by exists [w'], os'.
    + destruct (decide (m <= 64)%nat); [rewrite split_point_small in Hlen by (done || lia); lia|].
      rewrite split_point_step in Hlen by lia. lia.
  - rewrite length_app, length_bytes in Hlen. destruct (decide (m ∈ byte_splits)) as [Ho | Ho].
    + pose proof (byte_splits_bound m Ho). assert (split_point m = m) as Hs.
      { apply split_point_aligned. clear -Ho. unfold byte_splits in Ho. set_unfold. by destruct_or! Ho; subst m. }
      rewrite Hs in *. eapply consumes_weaken;
        [apply (pkg_split_word m ws w); [done | by apply carries_more | rewrite length_app, length_bytes; lia | done] | done |].
      intros sf os [? (w' & os' & -> & ? & ?)]. split; [done|]. by exists [w'], os'.
    + apply pkg_read_first; [done|]. unfold pkg_first, meta. cbn [meta_length isSplit].
      destruct (Z.leb_spec (Z.of_nat m) 64).
      * rewrite split_point_small in * by (done || lia). rewrite first_keep_default, Hlast by (done || lia).
        eapply consumes_weaken; [apply (pkg_second_default m); [done | lia | exact Hc] | cbn; lia |].
        cbn [fst snd]. intros sf os [? ?]. split; [done|]. eexists [_], os. split; [reflexivity|].
        rewrite take_app_length', drop_app_length' by (symmetry; apply length_bytes). split; [|done]. by apply carries_word.
      * pose proof (split_point_step m ltac:(lia)) as Hs. rewrite Hs in *. replace (Z.of_nat m - 64) with (Z.of_nat (m - 64)) by lia.
        eapply consumes_weaken; [apply (IH (m - 64)%nat _ true); [lia | lia | done] | done |].
        cbn [fst snd]. intros sf os [? (os1 & os2 & -> & H1 & H2)]. split; [done|].
        eexists (_ :: os1), os2. split; [reflexivity|].
        rewrite take_app_add', drop_app_add' by (symmetry; apply length_bytes).
        split; [|done]. by apply (carries_more 64 (NetAxis _ _ _)).
Qed.

(** ** Commands and data together *)

(** A write command [c] and the packet [ws] that carries its data [bs]. *)
Definition write_ok (base : Z) (c : memCmd) (ws : list net_axis) (bs : list Z) : Prop :=
  memCmd_wf c /\ carries 64 ws bs /\ tight ws bs /\ cmd_len c = Z.of_nat (length bs).

(** The split of a command falls on a boundary the data path has a case for. *)
Definition split_aligned (base : Z) (c : memCmd) : Prop :=
  crosses base c = true -> to_page_end base (cmd_addr c) mod 8 = 0.

Lemma to_nat_mod8 x : 0 <= x -> (Z.to_nat x mod 8 = 0)%nat <-> x mod 8 = 0.
Proof. intros H. rewrite <- (Z2Nat.id x) at 2 by done. rewrite <- (Nat2Z.inj_mod _ 8). lia. Qed.

Lemma pkg_packet_split base c ws bs s : write_ok base c ws bs -> crosses base c = true -> pkg_ready s ->
  let m := split_point (Z.to_nat (to_page_end base (cmd_addr c))) in
  (m < length bs)%nat ->
  consumes pkg_split s ([meta_of base c], ws) (S (length ws))
    (fun sf os => pkg_ready sf /\ carries_all 64 os [take m bs; drop m bs]).
Proof.
  intros (Hwf & Hc & Ht & Hlen) Hx [Hs Hl] m Hm. destruct s as [st m0 loaded p]. cbn in Hs, Hl. subst st loaded.
  pose proof (to_page_end_bound base (cmd_addr c)) as Hb. unfold meta_of. rewrite Hx.
  pose proof (pkg_split_packet ws bs Hc (Z.to_nat (to_page_end base (cmd_addr c))) m0 false p ltac:(lia) Hm) as Hsp.
  cbn [andb] in Hsp. rewrite Z2Nat.id in Hsp by lia.
  eapply consumes_weaken; [by apply Hsp | done |].
  intros sf os [? (os1 & os2 & -> & ? & ?)]. split; [done|]. rewrite <- (app_nil_r os2). by repeat constructor.
Qed.

Lemma pkg_packet base c ws bs s : write_ok base c ws bs -> split_aligned base c -> pkg_ready s ->
  consumes pkg_split s ([meta_of base c], ws) (S (length ws))
    (fun sf os => pkg_ready sf /\ carries_all 64 os (split_bytes base c bs)).
Proof.
  intros Hok Hal Hs. pose proof Hok as (Hwf & Hc & Ht & Hlen). unfold split_bytes.
  pose proof (to_page_end_bound base (cmd_addr c)) as Hb. destruct (crosses base c) eqn:Hx.
  - assert (Hsp : split_point (Z.to_nat (to_page_end base (cmd_addr c))) = Z.to_nat (to_page_end base (cmd_addr c))).
    { apply split_point_aligned, to_nat_mod8; [lia | by apply Hal]. }
    cbv zeta. rewrite <- Hsp. apply pkg_packet_split; try done.
    rewrite Hsp. unfold crosses in Hx. apply Z.ltb_lt in Hx. lia.
  - destruct s as [st m0 loaded p], Hs as [Hst Hl]. cbn in Hst, Hl. subst st loaded.
    unfold meta_of. rewrite Hx, Hlen. eapply consumes_weaken; [by apply (pkg_whole ws bs Hc Ht m0 false) | lia |].
    intros sf os [? ?]. split; [done|]. by apply carries_all_one.
Qed.

Lemma pkg_packets base cmds wss bss : Forall3 (fun c ws bs => write_ok base c ws bs /\ split_aligned base c) cmds wss bss ->
  forall s, pkg_ready s ->
  consumes pkg_split s (meta_of base <$> cmds, concat wss) (length cmds + length (concat wss))
    (fun sf os => pkg_ready sf /\ carries_all 64 os (concat (zip_with (split_bytes base) cmds bss))).
Proof.
  induction 1 as [|c ws bs cmds wss bss [Hok Hal] _ IH]; intros s Hs.
  - apply consumes_pair_nil. split; [done|]. constructor.
  - apply (consumes_le _ _ _ (S (length ws) + (length cmds + length (concat wss)))).
    2: { cbn [length concat]. rewrite length_app. lia. }
    change (meta_of base <$> c :: cmds, concat (ws :: wss)) with
      (fapp ([meta_of base c], ws) (meta_of base <$> cmds, concat wss)).
    apply consumes_seq.
    eapply consumes_weaken; [by apply (pkg_packet base c ws bs) | done |]. intros s1 o1 [Hs1 Ho1].
    eapply consumes_weaken; [by apply IH | done |]. intros sf o2 [Hsf Ho2]. split; [done|].
    cbn [zip_with concat]. by apply carries_all_app.
Qed.

Lemma page_boundary_settles base cmds wss K (R : list net_axis -> Prop) : Forall memCmd_wf cmds ->
  (forall s, pkg_ready s -> consumes pkg_split s (meta_of base <$> cmds, concat wss) K
     (fun sf os => pkg_ready sf /\ R os)) ->
  settles (mem_write_cmd_page_boundary_check_512 base) page_boundary_init (cmds, concat wss)
    (3 * length cmds + K) (fun _ o => o.1 = concat (split_cmd base <$> cmds) /\ R o.2).
Proof.
  intros Hwf Hp. destruct (split_commands_computes base cmds Hwf) as (sf1 & _ & H1).
  destruct (consumes_computes pkg_split ps_init _ K _ (Hp ps_init (conj eq_refl eq_refl))) as (sf2 & os & [Hsf HR] & H2).
  { intros [st m l p] os [[Hst Hl] _]. cbn in Hst, Hl. by subst st l. }
  eapply computes_settles.
  - refine (computes_compose (split_commands base) pkg_split _ _ _ _ _ _ _ _ _ [] (concat wss) os _ H1 _ (le_n _)).
    exact H2.
  - done.
Qed.

(** ** Properties *)

(** C1: for write commands followed by the packets with their data, in any
    arrival pattern and for any contents of uninitialised variables, the block
    sends every command that stays within its page unchanged and splits the
    others at the first page boundary, and it splits the data packet of each
    split command after exactly the bytes of the first command - provided the
    boundary is a multiple of 8 bytes away from the address. *)
Theorem page_boundary_check_splits base cmds wss bss :
  Forall3 (fun c ws bs => write_ok base c ws bs /\ split_aligned base c) cmds wss bss ->
  settles (mem_write_cmd_page_boundary_check_512 base) page_boundary_init (cmds, concat wss)
    (4 * length cmds + length (concat wss))
    (fun _ o => o.1 = concat (split_cmd base <$> cmds) /\
       carries_all 64 o.2 (concat (zip_with (split_bytes base) cmds bss))).
Proof.
  intros H. eapply settles_weaken; [apply (page_boundary_settles base cmds wss (length cmds + length (concat wss))
    (fun o => carries_all 64 o (concat (zip_with (split_bytes base) cmds bss)))) | lia | done].
  - clear -H. induction H as [|c ws bs cmds wss bss [[? _] _] _ IH]; by constructor.
  - intros s Hs. by apply pkg_packets.
Qed.

(** the commands sent for a command cover the same bytes in the same
    order; there are at most two of them, and all of them stay within one
    page exactly when the command does not reach a third page. *)
Theorem page_boundary_commands base cmds : Forall memCmd_wf cmds ->
  settles (split_commands base) (tt, bc_init, []) cmds (3 * length cmds) (fun _ o =>
    exists css, o.1 = concat css /\ length o.2 = length cmds /\ Forall2 (fun c cs =>
      tiles (cmd_addr c) (cmd_len c) cs /\ (length cs <= 2)%nat /\
      (Forall (in_page base) cs <-> cmd_len c <= to_page_end base (cmd_addr c) + PAGE_SIZE)) cmds css).
Proof.
  intros Hwf. destruct (split_commands_computes base cmds Hwf) as (sf & _ & H).
  eapply computes_settles; [exact H|]. exists (split_cmd base <$> cmds). split; [done|].
  split; [apply length_fmap|]. apply Forall2_fmap_r, Forall_Forall2_diag, Forall_true. intros c.
  split; [apply split_cmd_tiles|]. split; [unfold split_cmd; case_match; cbn; lia | apply split_cmd_in_page].
Qed.

(** when the boundary is not a multiple of 8 bytes away, the commands are
    split at the boundary but the data only at the end of the 64-byte word
    that contains it: the first packet is longer than the first command and
    the second shorter than the second command. *)
Theorem page_boundary_unaligned_split base c ws bs : write_ok base c ws bs -> crosses base c = true ->
  let first := to_page_end base (cmd_addr c) in
  let m := (64 * (Z.to_nat first / 64 + 1))%nat in
  first mod 8 <> 0 -> (m < length bs)%nat ->
  first < Z.of_nat m /\
  settles (mem_write_cmd_page_boundary_check_512 base) page_boundary_init ([c], ws) (4 + length ws)
    (fun _ o => o.1 = [MemCmd (cmd_addr c) first; MemCmd (cmd_addr c + first) (cmd_len c - first)] /\
       carries_all 64 o.2 [take m bs; drop m bs]).
Proof.
  intros Hok Hx first m Hmod Hm. pose proof (to_page_end_bound base (cmd_addr c)) as Hb.
  fold first in Hb. split.
  { unfold m. pose proof (Nat.mul_succ_div_gt (Z.to_nat first) 64 ltac:(done)). lia. }
  assert (Hsp : split_point (Z.to_nat first) = m).
  { unfold split_point. destruct (Nat.eqb_spec (Z.to_nat first mod 8) 0) as [E|]; [|done].
    exfalso. apply Hmod, to_nat_mod8; [lia | done]. }
  pose proof (page_boundary_settles base [c] [ws] (S (length ws)) (fun o => carries_all 64 o [take m bs; drop m bs])) as H.
  cbn [concat] in H. rewrite app_nil_r in H. eapply settles_weaken; [apply H | cbn; lia |].
  - destruct Hok as [? _]. by constructor.
  - intros s Hs. rewrite <- Hsp. apply pkg_packet_split; [done..|]. fold first. by rewrite Hsp.
  - cbn. unfold split_cmd. rewrite Hx. by fold first.
Qed.

(** ** Instances *)

Definition demo_words : list net_axis :=
  [NetAxis (2 ^ 400 + 7) (Z.ones 64) false; NetAxis (3 ^ 200) (Z.ones 64) false;
   NetAxis (2 ^ 511 + 5) (Z.ones 64) false; NetAxis 0x1122334455667788 (Z.ones 8) true].

Definition demo_bytes : list Z := default [] (packet_bytes 64 demo_words).

Definition demo_cmd : memCmd := MemCmd 0x5FFFB8 200.
Definition demo_cmd_unaligned : memCmd := MemCmd 0x5FFFBA 200.

Lemma demo_write_ok a : 0 <= a <= 2 ^ 63 -> write_ok 0x400000 (MemCmd a 200) demo_words demo_bytes.
Proof.
  intros Ha. split_and!.
  - unfold memCmd_wf. cbn [cmd_addr cmd_len]. lia.
  - apply packet_bytes_carries. reflexivity.
  - right. vm_compute. lia.
  - reflexivity.
Qed.

Lemma page_boundary_splits_witness :
  settles (mem_write_cmd_page_boundary_check_512 0x400000) page_boundary_init
    ([MemCmd 0x400000 200; demo_cmd], concat [demo_words; demo_words]) 16
    (fun _ o => o.1 = [MemCmd 0x400000 200; MemCmd 0x5FFFB8 72; MemCmd 0x600000 128] /\
       carries_all 64 o.2 [demo_bytes; take 72 demo_bytes; drop 72 demo_bytes]).
Proof.
  apply (page_boundary_check_splits 0x400000 [MemCmd 0x400000 200; demo_cmd] [demo_words; demo_words]
    [demo_bytes; demo_bytes]).
  repeat constructor; try (apply demo_write_ok; lia); intros H; done.
Defined.

Lemma page_boundary_commands_witness :
  settles (split_commands 0x400000) (tt, bc_init, []) [demo_cmd] 3 (fun _ o =>
    exists css, o.1 = concat css /\ length o.2 = 1%nat /\ Forall2 (fun c cs =>
      tiles (cmd_addr c) (cmd_len c) cs /\ (length cs <= 2)%nat /\
      (Forall (in_page 0x400000) cs <-> cmd_len c <= to_page_end 0x400000 (cmd_addr c) + PAGE_SIZE)) [demo_cmd] css).
Proof. apply (page_boundary_commands 0x400000 [demo_cmd]). repeat constructor; cbn; lia. Defined.

Lemma page_boundary_unaligned_witness : 70 < 128 /\
  settles (mem_write_cmd_page_boundary_check_512 0x400000) page_boundary_init ([demo_cmd_unaligned], demo_words) 8
    (fun _ o => o.1 = [MemCmd 0x5FFFBA 70; MemCmd 0x600000 130] /\
       carries_all 64 o.2 [take 128 demo_bytes; drop 128 demo_bytes]).
Proof.
  apply (page_boundary_unaligned_split 0x400000 demo_cmd_unaligned demo_words demo_bytes).
  - apply demo_write_ok. lia.
  - reflexivity.
  - done.
  - vm_compute. lia.
Defined.
