(* ===== verification/DmaBench.v ===== *)
(** [src/hls/dma_bench/dma_bench.cpp]: the benchmark engine.  It issues a
    series of read or write commands over a memory region, produces the data
    of the writes or counts the packets that answer the reads, and measures
    the cycles from the start to the last data word. *)
From S2P Require Import Prelude Streams AxiUtils.

(** ** Definitions *)

(** The configuration registers. *)
Record config := Config {
  regBaseAddr : Z; memorySize : Z; numberOfAccesses : Z;
  chunkLength : Z; strideLength : Z; isWrite : bool }.

Inductive cmdStateType := IDLE | WRITE_CMD | READ_CMD.

Record cg_vars := CgVars {
  cg_state : cmdStateType; isRandom : bool; currentAddress : Z; cg_count : Z }.

Definition cg_init : cg_vars := CgVars IDLE false 0 0.

(** The update common to the states WRITE_CMD and READ_CMD. *)
Definition cg_advance (cfg : config) (s : cg_vars) : cg_vars :=
  let a := if negb (isRandom s) then wrap 64 (currentAddress s + chunkLength cfg)
           else wrap 64 (currentAddress s + strideLength cfg) in
  let a := if a + chunkLength cfg >? regBaseAddr cfg + memorySize cfg then regBaseAddr cfg else a in
  let count := wrap 32 (cg_count s + 1) in
  CgVars (if count =? numberOfAccesses cfg then IDLE else cg_state s) (isRandom s) a count.

(** [full_read] and [full_write] are what [full()] returns for the command
    streams; [startSignal] is a FIFO of depth 2. *)
Definition cmd_generator (cfg : config) (start full_read full_write : bool) (s : cg_vars)
    (startSignal : list bool) : cg_vars * list bool * (list memCmd * list memCmd) :=
  match cg_state s with
  | IDLE =>
      if start && negb (2 <=? length startSignal)%nat then
        (CgVars (if isWrite cfg then WRITE_CMD else READ_CMD) (negb (strideLength cfg =? 0))
           (regBaseAddr cfg) 0,
         startSignal ++ [true], ([], []))
      else (s, startSignal, ([], []))
  | WRITE_CMD =>
      if full_write then (s, startSignal, ([], []))
      else (cg_advance cfg s, startSignal, ([], [MemCmd (currentAddress s) (chunkLength cfg)]))
  | READ_CMD =>
      if full_read then (s, startSignal, ([], []))
      else (cg_advance cfg s, startSignal, ([MemCmd (currentAddress s) (chunkLength cfg)], []))
  end.

Record dg_vars := DgVars { dg_state : Z; remainingLength : Z; dg_count : Z }.

Definition dg_init : dg_vars := DgVars 0 0 0.

(** The loop over the bytes of [sendWord]. *)
Definition dg_fill (count remainingLength : Z) (sendWord : net_axis) : net_axis :=
  foldl (fun w i =>
    NetAxis (set_range (data w) (i * 8 + 7) (i * 8) (count + i))
      (if remainingLength >? i then set_range (keep w) i i 1 else keep w) (last w))
    sendWord (seqZ 0 64).

(** [u] is the uninitialised [sendWord].  [write] blocks: in a cycle in which
    [m_axis_write_data] does not accept a word ([full]) the process makes no
    step in its state 1. *)
Definition data_generator (numberOfAccesses chunkLength : Z) (isWrite start full : bool) (u : net_axis)
    (s : dg_vars) : dg_vars * list bool * list net_axis :=
  if dg_state s =? 0 then
    if start && isWrite then (DgVars 1 chunkLength 0, [], []) else (s, [], [])
  else if full then (s, [], [])
  else
    let sendWord := dg_fill (dg_count s) (remainingLength s) (undef_axis 512 u) in
    let lst := remainingLength s <=? 64 in
    let count := if lst then wrap 32 (dg_count s + 1) else dg_count s in
    let remaining := if lst then chunkLength else wrap 32 (remainingLength s - 64) in
    let done := count =? numberOfAccesses in
    (DgVars (if done then 0 else dg_state s) remaining count, if done then [true] else [],
     [NetAxis (data sendWord) (keep sendWord) lst]).

Record dc_vars := DcVars { dc_state : Z; dc_count : Z }.

Definition dc_init : dc_vars := DcVars 0 0.

Definition data_consumer (numberOfAccesses : Z) (start isWrite : bool) (s : dc_vars)
    (s_axis_read_data : list net_axis) : dc_vars * list net_axis * list bool :=
  if dc_state s =? 0 then
    (if start && negb isWrite then DcVars 1 0 else s, s_axis_read_data, [])
  else
    match s_axis_read_data with
    | [] => (s, [], [])
    | currWord :: rest =>
        let count := if last currWord then wrap 32 (dc_count s + 1) else dc_count s in
        if count =? numberOfAccesses then (DcVars 0 count, rest, [true])
        else (DcVars (dc_state s) count, rest, [])
    end.

(** [reg] is [regExecutionCycles]; [None] until it is first written. *)
Record clk_vars := ClkVars { cycle_counter : Z; running : bool; reg : option Z }.

Definition clk_init : clk_vars := ClkVars 0 false None.

Definition clock_start (s : clk_vars) (f : list bool) : clk_vars * list bool :=
  match f with [] => (s, []) | _ :: f => (ClkVars 0 true (reg s), f) end.

Definition clock_done (s : clk_vars) (f : list bool) : clk_vars * list bool :=
  match f with [] => (s, []) | _ :: f => (ClkVars (cycle_counter s) false (Some (cycle_counter s)), f) end.

Definition clock (s : clk_vars) (startSignal readDoneSignal writeDoneSignal : list bool) :
    clk_vars * (list bool * list bool * list bool) :=
  let s := if running s then ClkVars (wrap 64 (cycle_counter s + 1)) true (reg s) else s in
  let '(s, f1) := clock_start s startSignal in
  let '(s, f2) := clock_done s readDoneSignal in
  let '(s, f3) := clock_done s writeDoneSignal in
  (s, (f1, f2, f3)).

Record bench_vars := BenchVars {
  cg : cg_vars; dg : dg_vars; dc : dc_vars; clk : clk_vars;
  startSignal : list bool; readDoneStream : list bool; writeDoneStream : list bool }.

Definition bench_init : bench_vars := BenchVars cg_init dg_init dc_init clk_init [] [] [].

(** What the environment does in one cycle; the streams for commands and data
    that accept no word are full. *)
Record bench_event := BenchEvent {
  ev_start : bool; ev_full_read : bool; ev_full_write : bool; ev_full_data : bool; ev_junk : net_axis;
  ev_read_data : list net_axis }.

(** Words written to [m_axis_read_cmd], [m_axis_write_cmd], [m_axis_write_data]. *)
Definition bench_out : Type := list memCmd * list memCmd * list net_axis.

Definition dma_bench (cfg : config) (e : bench_event) (s : bench_vars) (s_axis_read_data : list net_axis) :
    bench_vars * list net_axis * bench_out :=
  let '(cg', ss, (rc, wc)) := cmd_generator cfg (ev_start e) (ev_full_read e) (ev_full_write e) (cg s) (startSignal s) in
  (* the parameters of [data_generator] are declared in the order [isWrite, start] *)
  let '(dg', wd, words) := data_generator (numberOfAccesses cfg) (chunkLength cfg) (ev_start e) (isWrite cfg)
    (ev_full_data e) (ev_junk e) (dg s) in
  let '(dc', rest, rd) := data_consumer (numberOfAccesses cfg) (ev_start e) (isWrite cfg) (dc s) s_axis_read_data in
  let '(clk', (f1, f2, f3)) := clock (clk s) ss (readDoneStream s ++ rd) (writeDoneStream s ++ wd) in
  (BenchVars cg' dg' dc' clk' f1 f2 f3, rest, (rc, wc, words)).

(** Cycle after cycle, with the accumulated outputs. *)
Definition bench_cycle (cfg : config) (c : bench_vars * list net_axis * bench_out) (e : bench_event) :
    bench_vars * list net_axis * bench_out :=
  let '(s, f, o) := c in
  let '(s', f', w) := dma_bench cfg e s (f ++ ev_read_data e) in (s', f', fapp o w).

Definition bench_run (cfg : config) (es : list bench_event) (c : bench_vars * list net_axis * bench_out) :=
  foldl (bench_cycle cfg) c es.

(** ** Specification *)

Record config_wf (cfg : config) : Prop := ConfigWf {
  wf_base : 0 <= regBaseAddr cfg;
  wf_memory : regBaseAddr cfg + memorySize cfg + 2 ^ 32 <= 2 ^ 64;
  wf_accesses : 1 <= numberOfAccesses cfg < 2 ^ 32;
  wf_chunk : 1 <= chunkLength cfg < 2 ^ 32;
  wf_stride : 0 <= strideLength cfg < 2 ^ 32;
  wf_fits : chunkLength cfg <= memorySize cfg }.

Section spec.
Variable cfg : config.

(** The distance between consecutive accesses, and how many of them fit. *)
Definition distance : Z := if strideLength cfg =? 0 then chunkLength cfg else strideLength cfg.
Definition positions : Z := (memorySize cfg - chunkLength cfg) / distance + 1.

(** Access [i]. *)
Definition access (i : Z) : memCmd :=
  MemCmd (regBaseAddr cfg + (i mod positions) * distance) (chunkLength cfg).

Definition accesses (n : nat) : list memCmd := access <$> seqZ 0 (Z.of_nat n).

(** The words of the packet of one access. *)
Definition chunkWords : Z := (chunkLength cfg + 63) / 64.

(** The 64 bytes of every word of access [c]. *)
Definition pattern (c : Z) : list Z := (fun i => wrap 8 (c + i)) <$> seqZ 0 64.

(** Word [p] of the data of all accesses. *)
Definition write_word (p : Z) (w : net_axis) : Prop :=
  let rest := chunkLength cfg - 64 * (p mod chunkWords) in
  bytes 64 (data w) = pattern (p / chunkWords) /\
  wrap 64 (keep w) = keep w /\ (forall i, 0 <= i < 64 -> i < rest -> Z.testbit (keep w) i = true) /\
  last w = (rest <=? 64).
End spec.

Definition number (f : bench_event -> bool) (es : list bench_event) : nat := length (filter (fun e => f e = false) es).

(** The cycles until the data stream has accepted [n] words. *)
Fixpoint accept_cycles (n : nat) (es : list bench_event) : nat :=
  match n, es with
  | O, _ | _, [] => O
  | S m, e :: es => S (accept_cycles (if ev_full_data e then n else m) es)
  end.

(** The cycles until [n] words are taken, one in a cycle, when [q] wait and more
    arrive. *)
Fixpoint take_cycles (n q : nat) (es : list bench_event) : nat :=
  match n, es with
  | O, _ | _, [] => O
  | S m, e :: es =>
      S (match (q + length (ev_read_data e))%nat with O => take_cycles n O es | S q => take_cycles m q es end)
  end.

(** The words that still wait after some cycles. *)
Definition still_waiting (q : nat) (es : list bench_event) : nat :=
  foldl (fun q e => q + length (ev_read_data e) - 1)%nat q es.

Lemma still_waiting_app q es1 es2 : still_waiting q (es1 ++ es2) = still_waiting (still_waiting q es1) es2.
Proof. apply foldl_app. Qed.

Lemma still_waiting_bound es : forall q, (still_waiting q es <= q + length (concat (ev_read_data <$> es)))%nat.
Proof.
  induction es as [|e es IH]; intros q; cbn [fmap list_fmap concat]; rewrite ?length_app; [cbn; lia|].
  unfold still_waiting in *. cbn [foldl]. specialize (IH (q + length (ev_read_data e) - 1)%nat). lia.
Qed.

Lemma still_waiting_none es : concat (ev_read_data <$> es) = [] -> forall q, still_waiting q es = (q - length es)%nat.
Proof.
  induction es as [|e es IH]; intros E q; cbn [length]; [cbn; lia|]. cbn [fmap list_fmap concat] in E.
  apply app_nil in E as [E1 E2]. unfold still_waiting in *. cbn [foldl]. rewrite IH, E1 by done. cbn. lia.
Qed.

Lemma number_cons f e es : number f (e :: es) = ((if f e then 0 else 1) + number f es)%nat.
Proof. unfold number. rewrite filter_cons. by destruct (f e). Qed.

Lemma number_bound f es : (number f es <= length es)%nat.
Proof. apply length_filter. Qed.

Lemma accept_cycles_0 es : accept_cycles 0 es = O.
Proof. by destruct es. Qed.

Lemma accept_cycles_bounds es : forall n, (n <= number ev_full_data es)%nat -> (n <= accept_cycles n es <= length es)%nat.
Proof.
  induction es as [|e es IH]; intros [|n]; rewrite ?number_cons; cbn [accept_cycles length]; try (cbn; lia).
  destruct (ev_full_data e); [specialize (IH (S n)) | specialize (IH n)]; lia.
Qed.

(** Without back-pressure a word is accepted in every cycle. *)
Lemma accept_cycles_ready es : Forall (fun e => ev_full_data e = false) es -> forall n, (n <= length es)%nat ->
  accept_cycles n es = n.
Proof.
  induction 1 as [|e es He _ IH]; intros [|n] Hn; cbn in *; try lia. rewrite He, IH; lia.
Qed.

Lemma take_cycles_bounds es : forall n q, (n <= q + length (concat (ev_read_data <$> es)))%nat ->
  (take_cycles n q es <= length es)%nat /\ (n `min` length es <= take_cycles n q es)%nat.
Proof.
  induction es as [|e es IH]; intros [|n] q; cbn [take_cycles length]; try lia.
  cbn [fmap list_fmap concat]. rewrite length_app.
  destruct (q + length (ev_read_data e))%nat as [|q'] eqn:E; [specialize (IH (S n) O) | specialize (IH n q')]; lia.
Qed.

Lemma take_cycles_all es1 es2 all : concat (ev_read_data <$> es1) = all -> concat (ev_read_data <$> es2) = [] ->
  (length all <= length es2)%nat -> (length all <= take_cycles (length all) 0 (es1 ++ es2) <= length (es1 ++ es2))%nat.
Proof.
  intros E1 E2 Hl. destruct (take_cycles_bounds (es1 ++ es2) (length all) 0) as [H1 H2].
  - rewrite fmap_app, concat_app, E1, E2, app_nil_r. lia.
  - split; [|done]. etransitivity; [|exact H2]. rewrite length_app. lia.
Qed.

(** ** The command generator *)

Section commands.
Variable cfg : config.
Hypothesis Hwf : config_wf cfg.

Lemma distance_pos : 1 <= distance cfg < 2 ^ 32.
Proof. pose proof (wf_chunk _ Hwf). pose proof (wf_stride _ Hwf). unfold distance. bool_cases. Qed.

Lemma positions_pos : 0 < positions cfg.
Proof.
  pose proof (wf_fits _ Hwf). pose proof distance_pos. unfold positions.
  pose proof (Z.div_pos (memorySize cfg - chunkLength cfg) (distance cfg)). lia.
Qed.

Lemma access_bounds i : regBaseAddr cfg <= cmd_addr (access cfg i) /\
  cmd_addr (access cfg i) + chunkLength cfg <= regBaseAddr cfg + memorySize cfg.
Proof.
  cbn. pose proof positions_pos. pose proof distance_pos as Hd. pose proof (Z.mod_pos_bound i (positions cfg)).
  split; [nia|]. enough ((i mod positions cfg) * distance cfg <= memorySize cfg - chunkLength cfg) by lia.
  transitivity ((memorySize cfg - chunkLength cfg) / distance cfg * distance cfg).
  - apply Z.mul_le_mono_nonneg_r; [lia|]. unfold positions in *. lia.
  - rewrite Z.mul_comm. apply Z.mul_div_le. lia.
Qed.

Lemma access_next i : 0 <= i ->
  let a := wrap 64 (cmd_addr (access cfg i) + distance cfg) in
  (if a + chunkLength cfg >? regBaseAddr cfg + memorySize cfg then regBaseAddr cfg else a) =
  cmd_addr (access cfg (i + 1)).
Proof.
  intros Hi. pose proof positions_pos as Hp. pose proof distance_pos as Hd.
  pose proof (access_bounds i) as [Hlo Hhi]. pose proof (wf_base _ Hwf). pose proof (wf_memory _ Hwf).
  pose proof (wf_chunk _ Hwf). pose proof (wf_fits _ Hwf) as Hfit.
  cbv zeta. rewrite wrap_small by lia. cbn [access cmd_addr] in *.
  pose proof (Z.mod_pos_bound i (positions cfg) Hp) as Hr.
  pose proof (Z.add_mod_idemp_l i 1 (positions cfg) ltac:(lia)) as <-.
  set (r := i mod positions cfg) in *.
  assert (Hq : positions cfg - 1 = (memorySize cfg - chunkLength cfg) / distance cfg) by (unfold positions; lia).
  pose proof (Z.mul_div_le (memorySize cfg - chunkLength cfg) (distance cfg) ltac:(lia)) as Hle.
  pose proof (Z.mul_succ_div_gt (memorySize cfg - chunkLength cfg) (distance cfg) ltac:(lia)) as Hgt.
  rewrite <- Hq in Hle, Hgt. rewrite Z.gtb_ltb.
  destruct (Z.eq_dec (r + 1) (positions cfg)) as [E | E].
  - rewrite E, Z.mod_same by lia. destruct (Z.ltb_spec (regBaseAddr cfg + memorySize cfg)
      (regBaseAddr cfg + r * distance cfg + distance cfg + chunkLength cfg)); [lia | nia].
  - rewrite (Z.mod_small (r + 1)) by lia. destruct (Z.ltb_spec (regBaseAddr cfg + memorySize cfg)
      (regBaseAddr cfg + r * distance cfg + distance cfg + chunkLength cfg)); [nia | lia].
Qed.

(** The state after [k] commands. *)
Definition cg_at (k : nat) (s : cg_vars) : Prop :=
  Z.of_nat k <= numberOfAccesses cfg /\
  if Z.of_nat k =? numberOfAccesses cfg then cg_state s = IDLE
  else cg_state s = (if isWrite cfg then WRITE_CMD else READ_CMD) /\
    isRandom s = negb (strideLength cfg =? 0) /\ cg_count s = Z.of_nat k /\
    currentAddress s = cmd_addr (access cfg (Z.of_nat k)).

Lemma cg_advance_at k s : cg_at k s -> Z.of_nat k <> numberOfAccesses cfg -> cg_at (S k) (cg_advance cfg s).
Proof.
  intros [Hk Hs] Hne. rewrite (proj2 (Z.eqb_neq _ _) Hne) in Hs. destruct Hs as (Hst & Hr & Hc & Ha).
  pose proof (wf_accesses _ Hwf). split; [lia|]. unfold cg_advance. cbn [cg_state isRandom cg_count currentAddress].
  rewrite Hc, wrap_small by lia. replace (Z.of_nat (S k)) with (Z.of_nat k + 1) by lia.
  destruct (Z.eqb_spec (Z.of_nat k + 1) (numberOfAccesses cfg)); [done|]. split_and!; try done.
  rewrite <- access_next by lia. rewrite Ha, Hr. unfold distance. by destruct (strideLength cfg =? 0).
Qed.

Lemma cg_start s fr fw : cg_state s = IDLE ->
  exists s', cmd_generator cfg true fr fw s [] = (s', [true], ([], [])) /\ cg_at 0 s'.
Proof.
  intros Hs. eexists. unfold cmd_generator. rewrite Hs. cbn. split; [reflexivity|].
  pose proof (wf_accesses _ Hwf). split; [lia|]. destruct (Z.eqb_spec (Z.of_nat 0) (numberOfAccesses cfg)); [lia|].
  cbn. split_and!; try done. rewrite Zmod_0_l. lia.
Qed.
End commands.

Lemma accesses_snoc cfg k : accesses cfg (S k) = accesses cfg k ++ [access cfg (Z.of_nat k)].
Proof. unfold accesses. by rewrite seqZ_snoc, fmap_app. Qed.

(** One cycle after the start, [k] cycles that could send a command before. *)
Lemma cg_step cfg (fr fw : bool) k s : config_wf cfg ->
  let N := Z.to_nat (numberOfAccesses cfg) in
  let full := if isWrite cfg then fw else fr in
  let k' := if full then k else S k in
  cg_at cfg (k `min` N) s ->
  exists s' out, cmd_generator cfg false fr fw s [] =
      (s', [], if isWrite cfg then ([], out) else (out, [])) /\
    cg_at cfg (k' `min` N) s' /\ accesses cfg (k `min` N) ++ out = accesses cfg (k' `min` N).
Proof.
  intros Hwf N full k' Hat. pose proof (wf_accesses _ Hwf). unfold cmd_generator.
  destruct (Nat.le_gt_cases N k) as [Hk | Hk].
  - assert (Hm : (k `min` N)%nat = N) by lia. assert (Hm' : (k' `min` N)%nat = N) by (subst k'; destruct full; lia).
    rewrite Hm, Hm' in *. pose proof Hat as [_ Hs].
    rewrite (proj2 (Z.eqb_eq _ _)) in Hs by (subst N; lia). rewrite Hs. cbn.
    exists s, []. rewrite app_nil_r. by destruct (isWrite cfg).
  - assert (Hm : (k `min` N)%nat = k) by lia. rewrite Hm in *. pose proof Hat as [_ Hs].
    rewrite (proj2 (Z.eqb_neq _ _)) in Hs by (subst N; lia). destruct Hs as (Hst & _ & _ & Ha).
    subst k'. destruct full eqn:Hfull.
    + exists s, []. rewrite app_nil_r, Hm. split; [|done]. rewrite Hst. subst full.
      destruct (isWrite cfg); by rewrite Hfull.
    + replace (S k `min` N)%nat with (S k) by lia.
      exists (cg_advance cfg s), [MemCmd (currentAddress s) (chunkLength cfg)]. split.
      { rewrite Hst. subst full. destruct (isWrite cfg); by rewrite Hfull. }
      rewrite accesses_snoc. split; [apply cg_advance_at; [done | done | subst N; lia] | by rewrite Ha].
Qed.

(** ** The data generator *)

Lemma testbit_dg_keep (m : nat) count r u i : (m <= 64)%nat ->
  Z.testbit (keep (foldl (fun w i => NetAxis (set_range (data w) (i * 8 + 7) (i * 8) (count + i))
      (if r >? i then set_range (keep w) i i 1 else keep w) (last w)) u (seqZ 0 (Z.of_nat m)))) i =
  ((0 <=? i) && (i <? Z.of_nat m) && (i <? r)) || Z.testbit (keep u) i.
Proof.
  induction m as [|m IH]; intros Hm; [cbn; by bool_cases|].
  rewrite seqZ_snoc, foldl_snoc. cbn [keep]. rewrite Z.gtb_ltb.
  destruct (Z.ltb_spec (Z.of_nat m) r).
  - rewrite testbit_set_range, IH by lia.
    destruct (Z.eqb_spec i (Z.of_nat m)) as [-> | Hne].
    + rewrite !Z.leb_refl. cbn. rewrite Z.sub_diag. by bool_cases.
    + replace ((Z.of_nat m <=? i) && (i <=? Z.of_nat m)) with false by (symmetry; bool_cases).
      f_equal. by bool_cases.
  - rewrite IH by lia. f_equal. by bool_cases.
Qed.

Lemma testbit_dg_data (m : nat) count r u i : (m <= 64)%nat -> 0 <= i < 8 * Z.of_nat m ->
  Z.testbit (data (foldl (fun w i => NetAxis (set_range (data w) (i * 8 + 7) (i * 8) (count + i))
      (if r >? i then set_range (keep w) i i 1 else keep w) (last w)) u (seqZ 0 (Z.of_nat m)))) i =
  Z.testbit (count + i / 8) (i mod 8).
Proof.
  induction m as [|m IH]; intros Hm Hi; [lia|].
  rewrite seqZ_snoc, foldl_snoc. cbn [data]. rewrite testbit_set_range by lia.
  destruct (Z.leb_spec (Z.of_nat m * 8) i); cbn [andb].
  - destruct (Z.leb_spec i (Z.of_nat m * 8 + 7)); [|lia].
    pose proof (Z.div_unique_pos i 8 (Z.of_nat m) (i - Z.of_nat m * 8) ltac:(lia) ltac:(lia)) as <-.
    f_equal. pose proof (Z.mod_unique_pos i 8 (Z.of_nat m) (i - Z.of_nat m * 8) ltac:(lia) ltac:(lia)). lia.
  - apply IH; lia.
Qed.

Lemma dg_fill_bytes count r u : bytes 64 (data (dg_fill count r u)) = pattern count.
Proof.
  unfold pattern. apply (list_eq_same_length _ _ 64).
  - rewrite length_fmap, length_seqZ. done.
  - apply length_bytes.
  - intros i x y Hi. rewrite lookup_bytes, list_lookup_fmap, lookup_seqZ_lt by lia. intros Hx Hy. apply (inj Some) in Hx as <-. apply (inj Some) in Hy as <-.
    apply Z.bits_inj'. intros k Hk. rewrite !testbit_wrap by lia. destruct (Z.ltb_spec k 8); [|done]. cbn [andb].
    rewrite Z.shiftr_spec by lia. unfold dg_fill. rewrite (testbit_dg_data 64) by lia.
    rewrite <- (Z.div_unique_pos (k + 8 * Z.of_nat i) 8 (Z.of_nat i) k), <- (Z.mod_unique_pos (k + 8 * Z.of_nat i) 8 (Z.of_nat i) k) by lia.
    done.
Qed.

Lemma dg_fill_keep count r u : wrap 64 (keep u) = keep u ->
  keep (dg_fill count r u) = Z.lor (Z.ones (Z.max 0 (Z.min 64 r))) (keep u).
Proof.
  intros Hu. apply Z.bits_inj'. intros i Hi. unfold dg_fill.
  rewrite (testbit_dg_keep 64), Z.lor_spec, testbit_ones by lia. f_equal. by bool_cases.
Qed.

Section generator.
Variable cfg : config.
Hypothesis Hwf : config_wf cfg.

Lemma chunkWords_bounds : 1 <= chunkWords cfg < 2 ^ 32 /\
  64 * (chunkWords cfg - 1) < chunkLength cfg <= 64 * chunkWords cfg.
Proof.
  pose proof (wf_chunk _ Hwf). unfold chunkWords.
  pose proof (Z.div_mod (chunkLength cfg + 63) 64 ltac:(lia)).
  pose proof (Z.mod_pos_bound (chunkLength cfg + 63) 64 ltac:(lia)). lia.
Qed.

Definition totalWords : Z := numberOfAccesses cfg * chunkWords cfg.

Lemma totalWords_bounds : 1 <= totalWords < 2 ^ 64.
Proof. pose proof (wf_accesses _ Hwf). pose proof chunkWords_bounds. unfold totalWords. nia. Qed.

(** The state after [p] words. *)
Definition dg_at (p : nat) (s : dg_vars) : Prop :=
  Z.of_nat p <= totalWords /\
  if Z.of_nat p =? totalWords then dg_state s = 0
  else dg_state s = 1 /\ dg_count s = Z.of_nat p / chunkWords cfg /\
    remainingLength s = chunkLength cfg - 64 * (Z.of_nat p mod chunkWords cfg).

Lemma div_mod_next p w : 0 <= p -> 1 <= w ->
  (p + 1) / w = p / w + (if p mod w =? w - 1 then 1 else 0) /\
  (p + 1) mod w = (if p mod w =? w - 1 then 0 else p mod w + 1).
Proof.
  intros Hp Hw. pose proof (Z.div_mod p w ltac:(lia)) as E. pose proof (Z.mod_pos_bound p w ltac:(lia)).
  destruct (Z.eqb_spec (p mod w) (w - 1)).
  - split; symmetry; [apply (Z.div_unique_pos _ w _ 0) | apply (Z.mod_unique_pos _ w (p / w + 1))]; lia.
  - split; symmetry; [apply (Z.div_unique_pos _ w _ (p mod w + 1)) | apply (Z.mod_unique_pos _ w (p / w))]; lia.
Qed.

Lemma undef_keep_bound u : wrap 64 (keep (undef_axis 512 u)) = keep (undef_axis 512 u).
Proof. unfold undef_axis. cbn [keep]. change (512 / 8) with 64. by apply wrap_idemp. Qed.

Lemma ones_or_bound k x : 0 <= k <= 64 -> wrap 64 x = x -> wrap 64 (Z.lor (Z.ones k) x) = Z.lor (Z.ones k) x.
Proof.
  intros Hk Hx. apply Z.bits_inj'. intros i Hi. rewrite testbit_wrap, Z.lor_spec, testbit_ones by lia.
  destruct (Z.ltb_spec i 64); [done|]. rewrite (wrap_testbit_high 64) by (done || lia). by bool_cases.
Qed.

Lemma write_word_intro p d k l :
  let rest := chunkLength cfg - 64 * (p mod chunkWords cfg) in
  bytes 64 d = pattern (p / chunkWords cfg) -> wrap 64 k = k ->
  (forall i, 0 <= i < 64 -> i < rest -> Z.testbit k i = true) -> l = (rest <=? 64) ->
  write_word cfg p (NetAxis d k l).
Proof. done. Qed.

Lemma write_word_fill p u :
  let rest := chunkLength cfg - 64 * (p mod chunkWords cfg) in
  write_word cfg p (NetAxis (data (dg_fill (p / chunkWords cfg) rest (undef_axis 512 u)))
    (keep (dg_fill (p / chunkWords cfg) rest (undef_axis 512 u))) (rest <=? 64)).
Proof.
  intros rest. apply write_word_intro; [by rewrite dg_fill_bytes | | | done];
    rewrite dg_fill_keep by apply undef_keep_bound.
  - apply ones_or_bound; [lia | apply undef_keep_bound].
  - intros i Hi Hir. rewrite Z.lor_spec, testbit_ones by lia. by bool_cases.
Qed.

(** One word after another: the counters after word [p]. *)
Lemma dg_counters p : 0 <= p < totalWords ->
  let q := p / chunkWords cfg in let rest := chunkLength cfg - 64 * (p mod chunkWords cfg) in
  (if rest <=? 64 then wrap 32 (q + 1) else q) = (p + 1) / chunkWords cfg /\
  (if rest <=? 64 then chunkLength cfg else wrap 32 (rest - 64)) =
    chunkLength cfg - 64 * ((p + 1) mod chunkWords cfg) /\
  ((p + 1) / chunkWords cfg =? numberOfAccesses cfg) = (p + 1 =? totalWords).
Proof.
  intros Hp q rest.
  pose proof (wf_accesses _ Hwf) as HN. pose proof (wf_chunk _ Hwf) as HL. pose proof chunkWords_bounds as [HW HWL].
  destruct (div_mod_next p (chunkWords cfg) ltac:(lia) ltac:(lia)) as [Hdiv Hmod].
  pose proof (Z.mod_pos_bound p (chunkWords cfg) ltac:(lia)) as Hmb.
  assert (Hq : 0 <= q < numberOfAccesses cfg).
  { split; [apply Z.div_pos; lia | apply Z.div_lt_upper_bound; unfold totalWords in *; lia]. }
  assert (Hlast : (rest <=? 64) = (p mod chunkWords cfg =? chunkWords cfg - 1)).
  { unfold rest. destruct (Z.eqb_spec (p mod chunkWords cfg) (chunkWords cfg - 1)); bool_cases. }
  rewrite Hlast. split_and!.
  - rewrite Hdiv. fold q. destruct (_ =? _ - 1); [apply wrap_small; lia | lia].
  - rewrite Hmod. unfold rest. destruct (_ =? _ - 1); [lia | rewrite wrap_small; lia].
  - unfold totalWords in *. destruct (Z.eqb_spec (p + 1) (numberOfAccesses cfg * chunkWords cfg)) as [-> | Hn].
    + rewrite Z.div_mul by lia. apply Z.eqb_refl.
    + apply Z.eqb_neq. enough ((p + 1) / chunkWords cfg < numberOfAccesses cfg) by lia.
      apply Z.div_lt_upper_bound; lia.
Qed.

Lemma data_generator_step p s u : dg_at p s -> Z.of_nat p <> totalWords ->
  exists s' w, data_generator (numberOfAccesses cfg) (chunkLength cfg) true false false u s =
      (s', if Z.of_nat (S p) =? totalWords then [true] else [], [w]) /\
    write_word cfg (Z.of_nat p) w /\ dg_at (S p) s'.
Proof.
  intros [Hp Hs] Hne. rewrite (proj2 (Z.eqb_neq _ _) Hne) in Hs. destruct Hs as (Hst & Hc & Hr).
  destruct (dg_counters (Z.of_nat p) ltac:(lia)) as (Hcount & Hrest & Hdone).
  pose proof (write_word_fill (Z.of_nat p) u) as Hw.
  eexists _, _. unfold data_generator. rewrite Hst, Hc, Hr. cbn [Z.eqb]. rewrite Hcount, Hrest, Hdone.
  replace (Z.of_nat (S p)) with (Z.of_nat p + 1) by lia.
  split; [reflexivity|]. split; [exact Hw|]. split; [lia|].
  replace (Z.of_nat (S p)) with (Z.of_nat p + 1) by lia. cbn [dg_state dg_count remainingLength].
  by destruct (Z.of_nat p + 1 =? totalWords).
Qed.
End generator.

(** ** The write benchmark *)

Definition bench_idle (s : bench_vars) : Prop :=
  startSignal s = [] /\ readDoneStream s = [] /\ writeDoneStream s = [] /\
  cg_state (cg s) = IDLE /\ dg_state (dg s) = 0 /\ dc_state (dc s) = 0.

Section writing.
Variable cfg : config.
Hypothesis Hwf : config_wf cfg.
Hypothesis Hdir : isWrite cfg = true.
Let N := Z.to_nat (numberOfAccesses cfg).
Let total := Z.to_nat (totalWords cfg).

(** [n] cycles after the start, [k] of which could send a command and [p] a word;
    [T] is what the clock has reported if all words are sent. *)
Definition write_inv (n k p : nat) (T : Z) (s : bench_vars) (o : bench_out) : Prop :=
  (startSignal s = [] /\ readDoneStream s = [] /\ writeDoneStream s = [] /\ dc_state (dc s) = 0) /\
  (cg_at cfg (k `min` N) (cg s) /\ o.1 = ([], accesses cfg (k `min` N))) /\
  (dg_at cfg (p `min` total) (dg s) /\ Forall2 (write_word cfg) (seqZ 0 (Z.of_nat (p `min` total))) o.2) /\
  (if (total <=? p)%nat then reg (clk s) = Some T /\ running (clk s) = false
   else running (clk s) = true /\ cycle_counter (clk s) = wrap 64 (Z.of_nat n)).

Lemma dg_write_step (full : bool) p u s (p' := if full then p else S p) : dg_at cfg (p `min` total) s ->
  exists s' words, data_generator (numberOfAccesses cfg) (chunkLength cfg) false true full u s =
      (s', if decide (p < total <= p')%nat then [true] else [], words) /\
    dg_at cfg (p' `min` total) s' /\ forall ws,
    Forall2 (write_word cfg) (seqZ 0 (Z.of_nat (p `min` total))) ws ->
    Forall2 (write_word cfg) (seqZ 0 (Z.of_nat (p' `min` total))) (ws ++ words).
Proof.
  intros Hat. pose proof (totalWords_bounds cfg Hwf). pose proof Hat as [_ Hst].
  destruct (Nat.le_gt_cases total p) as [Hn | Hn].
  - assert (total <= p')%nat by (subst p'; destruct full; lia).
    rewrite !Nat.min_r in * by lia. rewrite decide_False by lia.
    rewrite (proj2 (Z.eqb_eq _ _)) in Hst by (subst total; lia).
    exists s, []. unfold data_generator. rewrite Hst. cbn. split; [done|]. split; [done|].
    intros ws. by rewrite app_nil_r.
  - rewrite (Nat.min_l p) in * by lia. rewrite (proj2 (Z.eqb_neq _ _)) in Hst by (subst total; lia). subst p'. destruct full.
    + rewrite !Nat.min_l in * by lia. rewrite decide_False by lia.
      exists s, []. unfold data_generator. rewrite (proj1 Hst). cbn. split; [done|]. split; [done|].
      intros ws. by rewrite app_nil_r.
    + rewrite (Nat.min_l (S p)) by lia.
      destruct (data_generator_step cfg Hwf p s u Hat ltac:(subst total; lia)) as (s' & w & Hs & Hw & Hat').
      exists s', [w]. split.
      { unfold data_generator in *. rewrite (proj1 Hst) in *. cbn [Z.eqb] in *. rewrite Hs.
        destruct (Z.eqb_spec (Z.of_nat (S p)) (totalWords cfg)); case_decide; try done; subst total; lia. }
      split; [done|]. intros ws Hws. rewrite seqZ_snoc. apply Forall2_app; [done | by apply Forall2_cons_2, Forall2_nil_2].
Qed.

Lemma clock_write_step n p p' T c (d := decide (p < total <= p')%nat) : (p <= p')%nat ->
  ((p < total <= p')%nat -> T = wrap 64 (Z.of_nat (S n))) ->
  (if (total <=? p)%nat then reg c = Some T /\ running c = false
   else running c = true /\ cycle_counter c = wrap 64 (Z.of_nat n)) ->
  exists c', clock c [] [] (if d then [true] else []) = (c', ([], [], [])) /\
    if (total <=? p')%nat then reg c' = Some T /\ running c' = false
    else running c' = true /\ cycle_counter c' = wrap 64 (Z.of_nat (S n)).
Proof.
  intros Hp HT Hc. unfold clock. replace (Z.of_nat (S n)) with (Z.of_nat n + 1) in * by lia.
  destruct (Nat.leb_spec total p).
  - destruct Hc as [Hr Hrun]. rewrite Hrun. subst d. rewrite decide_False by lia. cbn. eexists. split; [done|].
    rewrite (proj2 (Nat.leb_le _ _)) by lia. done.
  - destruct Hc as [-> ->]. subst d. rewrite wrap_add_l by done. case_decide as E; cbn; (eexists; split; [done|]).
    + rewrite (proj2 (Nat.leb_le _ _)) by lia. cbn. by rewrite HT.
    + rewrite (proj2 (Nat.leb_gt _ _)) by lia. done.
Qed.

Lemma write_step e n k p T s f o (p' := if ev_full_data e then p else S p) : write_inv n k p T s o -> ev_start e = false ->
  ((p < total <= p')%nat -> T = wrap 64 (Z.of_nat (S n))) ->
  exists s' w, dma_bench cfg e s f = (s', f, w) /\
    write_inv (S n) (if ev_full_write e then k else S k) p' T s' (fapp o w).
Proof.
  intros ((Hf1 & Hf2 & Hf3 & Hdc) & (Hcg & Ho1) & (Hdg & Ho2) & Hclk) He HT.
  destruct (cg_step cfg (ev_full_read e) (ev_full_write e) k (cg s) Hwf Hcg) as (cg' & wc & Hs1 & Hcg' & Ho1').
  rewrite Hdir in Hs1, Hcg', Ho1'.
  destruct (dg_write_step (ev_full_data e) p (ev_junk e) (dg s) Hdg) as (dg' & words & Hs2 & Hdg' & Ho2').
  fold p' in Hs2, Hdg', Ho2'.
  destruct (clock_write_step n p p' T (clk s)) as (clk' & Hs3 & Hclk'); [subst p'; destruct (ev_full_data e); lia | done | done |].
  eexists _, _. unfold dma_bench. rewrite Hf1, Hf2, Hf3, He, Hdir, Hs1, Hs2.
  unfold data_consumer. rewrite Hdc. cbn [Z.eqb andb negb app]. rewrite Hs3. split; [reflexivity|].
  split; [done|]. destruct o as [[rc wc0] ws]. cbn [fst snd] in *. injection Ho1 as -> ->.
  change (fapp ([], accesses cfg (k `min` N), ws) ([], wc, words)) with
    (([], accesses cfg (k `min` N) ++ wc, ws ++ words) : bench_out).
  fold N in Ho1'. rewrite Ho1'. split; [done|]. split; [|done]. split; [done|]. by apply Ho2'.
Qed.

Lemma write_cycles es : forall n k p T s f o, write_inv n k p T s o -> Forall (fun e => ev_start e = false) es ->
  ((p < total <= p + number ev_full_data es)%nat -> T = wrap 64 (Z.of_nat (n + accept_cycles (total - p) es))) ->
  exists s' f' o', bench_run cfg es (s, f, o) = (s', f', o') /\
    write_inv (n + length es) (k + number ev_full_write es) (p + number ev_full_data es) T s' o'.
Proof.
  induction es as [|e es IH]; intros n k p T s f o Hinv Hst HT.
  - exists s, f, o. cbn. by rewrite !Nat.add_0_r.
  - apply Forall_cons_1 in Hst as [He Hst]. set (full := ev_full_data e). set (p' := if full then p else S p).
    assert (HT' : (p < total <= p' + number ev_full_data es)%nat ->
      T = wrap 64 (Z.of_nat (S (n + accept_cycles (total - p') es)))).
    { intros Hp. rewrite HT by (rewrite number_cons; fold full; subst p'; destruct full; lia). do 2 f_equal.
      destruct (total - p)%nat as [|m] eqn:E; [lia|]. cbn [accept_cycles]. fold full.
      rewrite Nat.add_succ_r. do 2 f_equal. subst p'. destruct full; f_equal; lia. }
    destruct (write_step e n k p T s (f ++ ev_read_data e) o Hinv He) as (s1 & w & Hs & Hinv1).
    { fold full p'. intros Hp. rewrite HT' by (subst p'; destruct full; lia). replace (total - p')%nat with O by (subst p'; destruct full; lia).
      rewrite accept_cycles_0. do 3 f_equal. lia. }
    fold full p' in Hinv1.
    destruct (IH (S n) (if ev_full_write e then k else S k) p' T s1 (f ++ ev_read_data e) (fapp o w) Hinv1 Hst)
      as (s' & f' & o' & Hr & Hinv').
    { intros Hp. apply HT'. subst p'. destruct full; lia. }
    exists s', f', o'. split.
    + unfold bench_run. cbn [foldl]. unfold bench_cycle at 2. rewrite Hs. exact Hr.
    + cbn [length]. rewrite !number_cons. fold full. replace (n + S (length es))%nat with (S n + length es)%nat by lia.
      replace (k + ((if ev_full_write e then 0 else 1) + number ev_full_write es))%nat with
        ((if ev_full_write e then k else S k) + number ev_full_write es)%nat by (destruct (ev_full_write e); lia).
      by replace (p + ((if full then 0 else 1) + number ev_full_data es))%nat with
        (p' + number ev_full_data es)%nat by (subst p'; destruct full; lia).
Qed.

Lemma write_start e s f : bench_idle s -> ev_start e = true ->
  exists s' f', bench_cycle cfg (s, f, fnil) e = (s', f', fnil) /\ forall T, write_inv 0 0 0 T s' fnil.
Proof.
  intros (Hf1 & Hf2 & Hf3 & Hcg & Hdg & Hdc) He.
  pose proof (totalWords_bounds cfg Hwf). pose proof (wf_accesses _ Hwf).
  destruct (cg_start cfg Hwf (cg s) (ev_full_read e) (ev_full_write e) Hcg) as (cg' & Hs1 & Hcg').
  eexists _, _. unfold bench_cycle, dma_bench. rewrite Hf1, Hf2, Hf3, He, Hs1.
  unfold data_generator, data_consumer. rewrite Hdg, Hdc, Hdir. cbn. split; [reflexivity|]. intros T.
  split; [by destruct (running (clk s))|]. split; [done|]. cbn [dg clk].
  rewrite (proj2 (Nat.leb_gt _ _)) by (subst total; lia). split.
  - split; [|constructor]. split; [lia|]. rewrite (proj2 (Z.eqb_neq _ _)) by lia. cbn.
    rewrite Zdiv_0_l, Zmod_0_l. split_and!; try done. lia.
  - by destruct (running (clk s)).
Qed.
End writing.

(** The data of the writes when the packets are made of full words. *)
Section payload.
Variable cfg : config.
Hypothesis Hwf : config_wf cfg.
Hypothesis Hfull : chunkLength cfg mod 64 = 0.

Definition payload (c : Z) : list Z := concat (replicate (Z.to_nat (chunkWords cfg)) (pattern c)).

Lemma chunkLength_words : chunkLength cfg = 64 * chunkWords cfg.
Proof.
  pose proof (chunkWords_bounds cfg Hwf) as [_ ?].
  pose proof (Z.div_mod (chunkLength cfg) 64 ltac:(lia)). lia.
Qed.

Lemma write_word_position c b w : 0 <= b < chunkWords cfg -> write_word cfg (c * chunkWords cfg + b) w ->
  bytes 64 (data w) = pattern c /\ keep w = Z.ones 64 /\ last w = (b =? chunkWords cfg - 1).
Proof.
  intros Hb (Hd & Hk & Hones & Hl).
  rewrite <- (Z.mod_unique_pos (c * chunkWords cfg + b) (chunkWords cfg) c b) in Hones, Hl by lia.
  rewrite <- (Z.div_unique_pos (c * chunkWords cfg + b) (chunkWords cfg) c b) in Hd by lia.
  rewrite chunkLength_words in Hones, Hl. split; [done|]. split.
  - rewrite <- Hk. apply Z.bits_inj'. intros i Hi. rewrite testbit_wrap, testbit_ones by lia.
    destruct (Z.ltb_spec i 64); cbn [andb]; [|by bool_cases]. rewrite Hones by lia. by bool_cases.
  - rewrite Hl. destruct (Z.eqb_spec b (chunkWords cfg - 1)); bool_cases.
Qed.

Lemma payload_packet c m : forall ws, (0 < m)%nat -> Z.of_nat m <= chunkWords cfg ->
  Forall2 (write_word cfg) (seqZ (c * chunkWords cfg + (chunkWords cfg - Z.of_nat m)) (Z.of_nat m)) ws ->
  carries 64 ws (concat (replicate m (pattern c))).
Proof.
  induction m as [|m IH]; intros ws Hm Hle H; [lia|].
  rewrite seqZ_cons in H by lia. apply Forall2_cons_inv_l in H as (w & ws' & Hw & H & ->).
  apply write_word_position in Hw as (Hd & Hk & Hl); [|lia].
  destruct m as [|m].
  - replace (Z.pred (Z.of_nat 1)) with 0 in H by lia. apply Forall2_nil_inv_l in H as ->.
    cbn [replicate concat]. rewrite app_nil_r, <- Hd. constructor; [lia | done |].
    rewrite Hl. apply Z.eqb_eq. lia.
  - cbn [replicate concat]. rewrite <- Hd at 1. apply carries_more; [done | rewrite Hl; apply Z.eqb_neq; lia |].
    apply IH; [lia | lia |].
    replace (c * chunkWords cfg + (chunkWords cfg - Z.of_nat (S m))) with
      (Z.succ (c * chunkWords cfg + (chunkWords cfg - Z.of_nat (S (S m))))) by lia.
    by replace (Z.of_nat (S m)) with (Z.pred (Z.of_nat (S (S m)))) by lia.
Qed.

Lemma payload_packets n : forall c ws,
  Forall2 (write_word cfg) (seqZ (c * chunkWords cfg) (Z.of_nat n * chunkWords cfg)) ws ->
  carries_all 64 ws (payload <$> seqZ c (Z.of_nat n)).
Proof.
  pose proof (chunkWords_bounds cfg Hwf) as [HW _].
  induction n as [|n IH]; intros c ws H.
  - apply Forall2_nil_inv_l in H as ->. constructor.
  - replace (Z.of_nat (S n) * chunkWords cfg) with (chunkWords cfg + Z.of_nat n * chunkWords cfg) in H by lia.
    rewrite seqZ_app in H by lia. apply Forall2_app_inv_l in H as (ws1 & ws2 & H1 & H2 & ->).
    rewrite seqZ_cons by lia. rewrite fmap_cons. constructor.
    + apply payload_packet; [lia | lia |]. rewrite Z2Nat.id, Z.sub_diag, Z.add_0_r by lia. done.
    + replace (Z.pred (Z.of_nat (S n))) with (Z.of_nat n) by lia. apply IH.
      by replace (Z.succ c * chunkWords cfg) with (c * chunkWords cfg + chunkWords cfg) by lia.
Qed.
End payload.

(** ** The read benchmark *)

(** Packets completed by the words [ws]. *)
Definition lasts (ws : list net_axis) : nat := length (filter (fun w => last w = true) ws).

Lemma lasts_snoc ws w : lasts (ws ++ [w]) = (lasts ws + if last w then 1 else 0)%nat.
Proof.
  unfold lasts. rewrite filter_app, length_app, filter_cons, filter_nil. destruct (last w); case_decide; done.
Qed.

Lemma lasts_app ws vs : lasts (ws ++ vs) = (lasts ws + lasts vs)%nat.
Proof. unfold lasts. by rewrite filter_app, length_app. Qed.

Section reading.
Variable cfg : config.
Hypothesis Hwf : config_wf cfg.
Hypothesis Hdir : isWrite cfg = false.
Variable all : list net_axis.
Hypothesis all_packets : Z.of_nat (lasts all) = numberOfAccesses cfg.
Hypothesis all_last : exists ws w, all = ws ++ [w] /\ last w = true.
Let N := Z.to_nat (numberOfAccesses cfg).

(** [n] cycles after the start, [k] of which could send a command; [c] are
    the words consumed; [T] is what the clock has reported if these are all. *)
Definition read_inv (n k : nat) (c : list net_axis) (T : Z) (s : bench_vars) (o : bench_out) : Prop :=
  (startSignal s = [] /\ readDoneStream s = [] /\ writeDoneStream s = [] /\ dg_state (dg s) = 0) /\
  (cg_at cfg (k `min` N) (cg s) /\ o = (accesses cfg (k `min` N), [], [])) /\
  Z.of_nat n < 2 ^ 64 /\
  if decide (c = all) then dc_state (dc s) = 0 /\ running (clk s) = false /\
      reg (clk s) = Some T
  else dc_state (dc s) = 1 /\ dc_count (dc s) = Z.of_nat (lasts c) /\
      running (clk s) = true /\ cycle_counter (clk s) = Z.of_nat n.

(** Only the last word completes the last packet. *)
Lemma lasts_prefix c w r : c ++ w :: r = all ->
  (if last w then wrap 32 (Z.of_nat (lasts c) + 1) else Z.of_nat (lasts c)) = Z.of_nat (lasts (c ++ [w])) /\
  (Z.of_nat (lasts (c ++ [w])) = numberOfAccesses cfg <-> c ++ [w] = all).
Proof.
  intros E. pose proof (wf_accesses _ Hwf) as HN. assert (Hle : (lasts (c ++ [w]) <= lasts all)%nat).
  { rewrite <- E. replace (c ++ w :: r) with ((c ++ [w]) ++ r) by by rewrite <- app_assoc. rewrite (lasts_app (c ++ [w])). lia. }
  split.
  - revert Hle. rewrite lasts_snoc. destruct (last w); intros; [rewrite wrap_small|]; lia.
  - split; [|intros ->; done]. intros El. destruct (decide (r = [])) as [-> | Hr]; [done|].
    destruct all_last as (ws & v & Ea & Hv). apply exists_last in Hr as (r' & v' & ->).
    assert (v' = v) as ->.
    { rewrite Ea, app_comm_cons, app_assoc in E. by apply app_inj_tail in E as [_ ->]. }
    assert (Hall : lasts all = S (lasts (c ++ [w]) + lasts r')).
    { rewrite <- E. replace (c ++ w :: r' ++ [v]) with (((c ++ [w]) ++ r') ++ [v]) by by rewrite <- !app_assoc.
      rewrite (lasts_snoc ((c ++ [w]) ++ r')), Hv, (lasts_app (c ++ [w])). lia. }
    lia.
Qed.

(** What the consumer does in one cycle. *)
Lemma dc_read_step c f r s : c ++ f ++ r = all -> (if decide (c = all) then dc_state s = 0
    else dc_state s = 1 /\ dc_count s = Z.of_nat (lasts c)) ->
  exists s' t, data_consumer (numberOfAccesses cfg) false false s f =
      (s', drop 1 f, if decide (c <> all /\ c ++ take 1 f = all) then [true] else []) /\
    t = c ++ take 1 f /\
    (if decide (t = all) then dc_state s' = 0 else dc_state s' = 1 /\ dc_count s' = Z.of_nat (lasts t)).
Proof.
  intros E Hs. unfold data_consumer. destruct (decide (c = all)) as [Ec | Hc].
  - assert (f = []) as ->.
    { apply (f_equal length) in E. rewrite Ec, !length_app in E. destruct f; [done | cbn in E; lia]. }
    rewrite Hs. cbn. exists s, c. rewrite app_nil_r, !decide_False, decide_True by (done || tauto). by destruct s.
  - destruct Hs as [Hst Hcnt]. rewrite Hst. cbn [Z.eqb]. destruct f as [|w f].
    + exists s, c. cbn. rewrite app_nil_r, !decide_False by tauto. done.
    + destruct (lasts_prefix c w (f ++ r) E) as [Hw Hdone]. cbn [take drop]. rewrite drop_0, take_0.
      assert ((if last w then wrap 32 (dc_count s + 1) else dc_count s) = Z.of_nat (lasts (c ++ [w]))) as ->.
      { by rewrite Hcnt. }
      destruct (Z.eqb_spec (Z.of_nat (lasts (c ++ [w]))) (numberOfAccesses cfg)) as [Hn | Hn].
      * eexists _, _. rewrite decide_True by tauto. split; [done|]. split; [done|]. by rewrite decide_True by tauto.
      * eexists _, _. rewrite !decide_False by tauto. split; [done|]. split; [done|]. rewrite decide_False by tauto. done.
Qed.
Lemma bench_out_reads (rc1 rc2 : list memCmd) : fapp ((rc1, [], []) : bench_out) (rc2, [], []) = (rc1 ++ rc2, [], []).
Proof. done. Qed.

Lemma read_step e n k c T s o f r : read_inv n k c T s o -> ev_start e = false -> c ++ f ++ r = all ->
  Z.of_nat (S n) < 2 ^ 64 -> (c <> all /\ c ++ take 1 f = all -> T = Z.of_nat (S n)) ->
  exists s' w, dma_bench cfg e s f = (s', drop 1 f, w) /\
    read_inv (S n) (if ev_full_read e then k else S k) (c ++ take 1 f) T s' (fapp o w).
Proof.
  intros ((Hf1 & Hf2 & Hf3 & Hdg) & (Hcg & ->) & Hn & Hc) He Eall Hn' HT.
  destruct (cg_step cfg (ev_full_read e) (ev_full_write e) k (cg s) Hwf Hcg) as (cg' & rc & Hs1 & Hcg' & Ho1').
  rewrite Hdir in Hs1, Hcg', Ho1'. fold N in Hcg', Ho1'.
  destruct (dc_read_step c f r (dc s) Eall) as (dc' & t & Hs2 & -> & Hdc').
  { destruct (decide (c = all)); [apply Hc | destruct Hc as (? & ? & _); done]. }
  unfold dma_bench. rewrite Hf1, Hf2, Hf3, He, Hdir, Hs1, Hs2.
  unfold data_generator. rewrite Hdg. cbn [Z.eqb andb negb app]. unfold clock.
  destruct (decide (c = all)) as [Ec | Ec].
  - rewrite decide_False by tauto. destruct Hc as (Hst & Hrun & Hreg). rewrite Hrun. cbn [clock_start clock_done].
    eexists _, _. split; [reflexivity|]. rewrite bench_out_reads, Ho1'. split; [done|]. split; [done|].
    split; [done|].
    assert (Et : c ++ take 1 f = all).
    { apply (f_equal length) in Eall. rewrite Ec, !length_app in Eall.
      destruct f; [by rewrite Ec, take_nil, app_nil_r | cbn in Eall; lia]. }
    rewrite Et, decide_True in Hdc' by done. rewrite Et, decide_True by done. done.
  - destruct Hc as (Hst & Hcnt & -> & ->). rewrite wrap_small by lia.
    destruct (decide (c ++ take 1 f = all)) as [Et | Et].
    + rewrite decide_True by tauto. cbn [clock_start clock_done]. eexists _, _. split; [reflexivity|]. rewrite bench_out_reads, Ho1'.
      split; [done|]. split; [done|]. split; [done|]. rewrite decide_True by done.
      split; [done|]. split; [done|]. cbn [clk reg cycle_counter]. f_equal. rewrite HT by done. lia.
    + rewrite decide_False by tauto. cbn [clock_start clock_done]. eexists _, _. split; [reflexivity|]. rewrite bench_out_reads, Ho1'.
      split; [done|]. split; [done|]. split; [done|]. rewrite decide_False by done.
      destruct Hdc' as [? ?]. split_and!; try done. cbn. lia.
Qed.

(** One cycle of [take_cycles]. *)
Lemma take_cycles_step (c f r : list net_axis) e es : c ++ (f ++ ev_read_data e) ++ r = all ->
  let f' := f ++ ev_read_data e in
  c <> all ->
  take_cycles (length all - length c) (length f) (e :: es) =
    S (if decide (c ++ take 1 f' = all) then 0 else take_cycles (length all - length (c ++ take 1 f')) (length (drop 1 f')) es).
Proof.
  intros E f' Hc. fold f' in E. assert (Hl : length all = (length c + length f' + length r)%nat).
  { rewrite <- E, !length_app. lia. }
  assert (length c < length all)%nat.
  { destruct (f' ++ r) as [|w x] eqn:Ex; [by rewrite <- E, app_nil_r in Hc |].
    rewrite <- E, length_app. cbn. lia. }
  destruct (length all - length c)%nat as [|m] eqn:Em; [lia|]. cbn [take_cycles]. f_equal.
  replace (length f + length (ev_read_data e))%nat with (length f') by apply length_app.
  destruct f' as [|w f'']; cbn [take drop length].
  - rewrite app_nil_r, decide_False by done. by rewrite Em.
  - rewrite take_0, drop_0, length_app. cbn [length] in *. replace (length all - (length c + 1))%nat with m by lia.
    case_decide as Et; [|done]. apply (f_equal length) in Et. rewrite length_app in Et. cbn in Et.
    replace m with O by lia. by destruct es.
Qed.

Lemma read_cycles es : forall n k c T s o f, read_inv n k c T s o -> Forall (fun e => ev_start e = false) es ->
  c ++ f ++ concat (ev_read_data <$> es) = all -> Z.of_nat (n + length es) < 2 ^ 64 ->
  (c <> all -> T = Z.of_nat (n + take_cycles (length all - length c) (length f) es)) ->
  exists s' f' o' c', bench_run cfg es (s, f, o) = (s', f', o') /\
    read_inv (n + length es) (k + number ev_full_read es) c' T s' o' /\ c' ++ f' = all /\
    length f' = still_waiting (length f) es.
Proof.
  induction es as [|e es IH]; intros n k c T s o f Hinv Hst Eall Hn HT.
  - exists s, f, o, c. cbn in *. rewrite app_nil_r in Eall. by rewrite !Nat.add_0_r.
  - apply Forall_cons_1 in Hst as [He Hst]. cbn [length fmap list_fmap concat] in *.
    set (f' := f ++ ev_read_data e). assert (E1 : c ++ f' ++ concat (ev_read_data <$> es) = all).
    { unfold f'. by rewrite <- app_assoc. }
    pose proof (take_cycles_step c f _ e es E1) as Hstep. cbv zeta in Hstep. fold f' in Hstep.
    destruct (read_step e n k c T s o f' (concat (ev_read_data <$> es)) Hinv He) as (s1 & w & Hs & Hinv1); [done | lia | |].
    { intros [Hc Et]. rewrite HT, Hstep, decide_True by done. f_equal. lia. }
    destruct (IH _ _ _ T s1 (fapp o w) (drop 1 f') Hinv1 Hst) as (s' & f1 & o' & c' & Hr & Hinv' & Ec & Hlen).
    { by rewrite <- app_assoc, (app_assoc (take 1 f')), take_drop. }
    { lia. }
    { intros Ht. assert (Hc : c <> all).
      { intros ->. apply Ht. assert (f' = []) as ->; [|by rewrite take_nil, app_nil_r].
        apply (f_equal length) in E1. rewrite !length_app in E1. destruct f'; [done | cbn in E1; lia]. }
      rewrite HT, Hstep, decide_False by done. f_equal. lia. }
    exists s', f1, o', c'. split.
    { unfold bench_run. cbn [foldl]. unfold bench_cycle at 2. fold f'. rewrite Hs. exact Hr. }
    split; [|split; [done|]].
    + rewrite number_cons. replace (n + S (length es))%nat with (S n + length es)%nat by lia.
      by replace (k + ((if ev_full_read e then 0 else 1) + number ev_full_read es))%nat with
        ((if ev_full_read e then k else S k) + number ev_full_read es)%nat by (destruct (ev_full_read e); lia).
    + rewrite Hlen. unfold still_waiting. cbn [foldl]. f_equal. unfold f'. rewrite length_drop, length_app. lia.
Qed.

Lemma read_start e s : bench_idle s -> ev_start e = true ->
  exists s', bench_cycle cfg (s, [], fnil) e = (s', ev_read_data e, fnil) /\ forall T, read_inv 0 0 [] T s' fnil.
Proof.
  intros (Hf1 & Hf2 & Hf3 & Hcg & Hdg & Hdc) He. pose proof (wf_accesses _ Hwf).
  destruct (cg_start cfg Hwf (cg s) (ev_full_read e) (ev_full_write e) Hcg) as (cg' & Hs1 & Hcg').
  eexists. unfold bench_cycle, dma_bench. rewrite Hf1, Hf2, Hf3, He, Hs1.
  unfold data_generator, data_consumer. rewrite Hdg, Hdc, Hdir. cbn. split; [reflexivity|]. intros T.
  split; [by destruct (running (clk s))|]. split; [done|]. split; [done|].
  rewrite decide_False by (destruct all_last as (? & ? & -> & _); by destruct x). cbn.
  by destruct (running (clk s)).
Qed.
End reading.

(** ** Properties *)

Definition in_region (cfg : config) (c : memCmd) : Prop :=
  regBaseAddr cfg <= cmd_addr c /\ cmd_addr c + cmd_len c <= regBaseAddr cfg + memorySize cfg.

Lemma accesses_in_region cfg n : config_wf cfg -> Forall (in_region cfg) (accesses cfg n).
Proof. intros Hwf. unfold accesses. apply Forall_fmap, Forall_true. intros i. by apply access_bounds. Qed.

Lemma cg_at_done cfg k s : cg_at cfg k s -> Z.of_nat k = numberOfAccesses cfg -> cg_state s = IDLE.
Proof. intros [_ H] E. by rewrite (proj2 (Z.eqb_eq _ _)) in H. Qed.

(** A write benchmark. *)
Lemma write_run cfg e es s f : config_wf cfg -> isWrite cfg = true -> bench_idle s ->
  ev_start e = true -> Forall (fun e => ev_start e = false) es ->
  let total := Z.to_nat (totalWords cfg) in
  let sent := (number ev_full_write es `min` Z.to_nat (numberOfAccesses cfg))%nat in
  let done := (number ev_full_data es `min` total)%nat in
  exists s' f' ws, bench_run cfg (e :: es) (s, f, fnil) = (s', f', ([], accesses cfg sent, ws)) /\
    cg_at cfg sent (cg s') /\ dg_at cfg done (dg s') /\ dc_state (dc s') = 0 /\
    (startSignal s' = [] /\ readDoneStream s' = [] /\ writeDoneStream s' = []) /\
    Forall2 (write_word cfg) (seqZ 0 (Z.of_nat done)) ws /\
    (done = total -> dg_state (dg s') = 0 /\ reg (clk s') = Some (wrap 64 (Z.of_nat (accept_cycles total es)))).
Proof.
  intros Hwf Hdir Hidle He Hes total sent done'. pose proof (totalWords_bounds cfg Hwf). pose proof (wf_accesses _ Hwf).
  destruct (write_start cfg Hwf Hdir e s f Hidle He) as (s0 & f0 & Hs0 & Hinv0).
  destruct (write_cycles cfg Hwf Hdir es 0 0 0 (wrap 64 (Z.of_nat (accept_cycles total es))) s0 f0 fnil (Hinv0 _) Hes)
    as (s' & f' & [[rc wc] ws] & Hr & Hinv); [by rewrite Nat.sub_0_r|].
  destruct Hinv as ((? & ? & ? & Hdc) & (Hcg & Ho) & (Hdg & Hws) & Hclk).
  cbn [Nat.add fst snd] in *. injection Ho as -> ->. fold total sent done' in Hcg, Hdg, Hws, Hr.
  exists s', f', ws. split; [unfold bench_run; cbn [foldl]; by rewrite Hs0|]. split_and!; try done.
  intros E. split.
  - rewrite E in Hdg. destruct Hdg as [_ Hst]. by rewrite (proj2 (Z.eqb_eq _ _)) in Hst by (subst total; lia).
  - fold total in Hclk. rewrite (proj2 (Nat.leb_le _ _)) in Hclk by lia. apply Hclk.
Qed.

(** A read benchmark; [es] are the cycles in which the words arrive and some more. *)
Lemma read_run cfg e es1 es2 s all (es := es1 ++ es2) : config_wf cfg -> isWrite cfg = false -> bench_idle s ->
  ev_start e = true -> ev_read_data e = [] -> Forall (fun e => ev_start e = false) es ->
  concat (ev_read_data <$> es1) = all -> concat (ev_read_data <$> es2) = [] ->
  Z.of_nat (lasts all) = numberOfAccesses cfg -> (exists ws w, all = ws ++ [w] /\ last w = true) ->
  (length all <= length es2)%nat -> Z.of_nat (length es) < 2 ^ 64 ->
  let sent := (number ev_full_read es `min` Z.to_nat (numberOfAccesses cfg))%nat in
  exists s', bench_run cfg (e :: es) (s, [], fnil) = (s', [], (accesses cfg sent, [], [])) /\
    cg_at cfg sent (cg s') /\ dg_state (dg s') = 0 /\ dc_state (dc s') = 0 /\
    (startSignal s' = [] /\ readDoneStream s' = [] /\ writeDoneStream s' = []) /\
    reg (clk s') = Some (Z.of_nat (take_cycles (length all) 0 es)).
Proof.
  intros Hwf Hdir Hidle He Hed Hes Hall Hes2 Hlasts Hlast Hlen Hbound sent.
  destruct (read_start cfg Hwf Hdir all Hlasts Hlast e s Hidle He) as (s0 & Hs0 & Hinv0). rewrite Hed in Hs0.
  assert (Hcat : concat (ev_read_data <$> es) = all) by (unfold es; by rewrite fmap_app, concat_app, Hall, Hes2, app_nil_r).
  destruct (read_cycles cfg Hwf Hdir all Hlasts Hlast es 0 0 [] (Z.of_nat (take_cycles (length all) 0 es)) s0 fnil [] (Hinv0 _) Hes)
    as (s' & f' & o' & c' & Hr & Hinv & E & Hf); [exact Hcat | exact Hbound | by rewrite Nat.sub_0_r |].
  assert (f' = []) as ->.
  { apply nil_length_inv. rewrite Hf. unfold es. rewrite still_waiting_app, (still_waiting_none es2 Hes2). cbn [length].
    pose proof (still_waiting_bound es1 0) as Hb. rewrite Hall in Hb. lia. }
  rewrite app_nil_r in E. subst c'. destruct Hinv as ((? & ? & ? & Hdg) & (Hcg & ->) & _ & Hclk).
  rewrite decide_True in Hclk by done. destruct Hclk as (Hdc & _ & HT). exists s'.
  split; [|done]. unfold bench_run in *. cbn [foldl]. by rewrite Hs0.
Qed.

(** C11: a write benchmark with sensible parameters ([config_wf]: at least one access of at least one byte, which fits in a memory
    region that does not wrap around) started from an idle engine sends one command per
    cycle in which the command stream accepts one, [numberOfAccesses] in all,
    at multiples of the stride (or of the chunk) that wrap around inside the
    memory region; it sends one word per cycle in which the data stream accepts
    one: the words of all accesses in order, and for chunks of whole words one packet of
    [chunkLength] bytes per access.  When the last word is accepted the
    engine reports, modulo 2^64, exactly the number of the cycles from the start to this
    one - as many as words if the data stream never holds up the engine -
    however long the commands are held up; and it is idle again when the commands
    are sent, too. *)
Theorem write_benchmark cfg e es s f : config_wf cfg -> isWrite cfg = true -> bench_idle s ->
  ev_start e = true -> Forall (fun e => ev_start e = false) es ->
  let total := Z.to_nat (numberOfAccesses cfg * chunkWords cfg) in
  let sent := (number ev_full_write es `min` Z.to_nat (numberOfAccesses cfg))%nat in
  let words := (number ev_full_data es `min` total)%nat in
  exists s' f' ws, bench_run cfg (e :: es) (s, f, fnil) = (s', f', ([], accesses cfg sent, ws)) /\
    Forall (in_region cfg) (accesses cfg sent) /\
    Forall2 (write_word cfg) (seqZ 0 (Z.of_nat words)) ws /\
    (words = total ->
      reg (clk s') = Some (wrap 64 (Z.of_nat (accept_cycles total es))) /\
      (total <= accept_cycles total es <= length es)%nat /\
      (Forall (fun e => ev_full_data e = false) es -> accept_cycles total es = total) /\
      (chunkLength cfg mod 64 = 0 -> carries_all 64 ws (payload cfg <$> seqZ 0 (numberOfAccesses cfg))) /\
      (sent = Z.to_nat (numberOfAccesses cfg) -> bench_idle s')).
Proof.
  intros Hwf Hdir Hidle He Hes total sent words. pose proof (wf_accesses _ Hwf). pose proof (totalWords_bounds cfg Hwf).
  destruct (write_run cfg e es s f Hwf Hdir Hidle He Hes)
    as (s' & f' & ws & Hr & Hcg & Hdg & Hdc & (? & ? & ?) & Hws & Hend). exists s', f', ws.
  split; [exact Hr|]. split; [by apply accesses_in_region|]. split; [exact Hws|]. intros E.
  destruct (Hend E) as [Hst Hreg]. assert (Hn : (total <= number ev_full_data es)%nat) by lia.
  split; [exact Hreg|]. split; [by apply accept_cycles_bounds|]. split.
  { intros Hall. apply (accept_cycles_ready _ Hall). pose proof (number_bound ev_full_data es). lia. }
  split.
  - intros Hfull. pose proof (payload_packets cfg Hwf Hfull (Z.to_nat (numberOfAccesses cfg)) 0 ws) as Hp.
    rewrite Z2Nat.id in Hp by lia. apply Hp. change (number ev_full_data es `min` Z.to_nat (totalWords cfg))%nat with words in Hws. rewrite E in Hws. subst total.
    rewrite Z2Nat.id in Hws by (unfold totalWords in *; lia). done.
  - intros Hsent. split_and!; try done. apply (cg_at_done cfg sent); [done | lia].
Qed.

(** C12: a read benchmark with sensible parameters ([config_wf]) started from an idle engine sends its commands in the same way and counts the
    packets that arrive; when the answers to all accesses have arrived - as many packets, in the cycles after the start - and
    as many cycles have passed as they have words, fewer than 2^64 in all, it has read exactly these words
    and reported exactly the number of cycles from the start to the one in which it
    takes the word that completes the last packet ([take_cycles]: it takes one word in every cycle in which
    one waits), which is at least the number of words; and it is
    idle again when the commands are sent, too. *)
Theorem read_benchmark cfg e es1 es2 s all (es := es1 ++ es2) : config_wf cfg -> isWrite cfg = false -> bench_idle s ->
  ev_start e = true -> ev_read_data e = [] -> Forall (fun e => ev_start e = false) es ->
  concat (ev_read_data <$> es1) = all -> concat (ev_read_data <$> es2) = [] ->
  Z.of_nat (lasts all) = numberOfAccesses cfg -> (exists ws w, all = ws ++ [w] /\ last w = true) ->
  (length all <= length es2)%nat -> Z.of_nat (length es) < 2 ^ 64 ->
  let sent := (number ev_full_read es `min` Z.to_nat (numberOfAccesses cfg))%nat in
  let T := take_cycles (length all) 0 es in
  exists s', bench_run cfg (e :: es) (s, [], fnil) = (s', [], (accesses cfg sent, [], [])) /\
    Forall (in_region cfg) (accesses cfg sent) /\
    reg (clk s') = Some (Z.of_nat T) /\ (length all <= T <= length es)%nat /\
    (sent = Z.to_nat (numberOfAccesses cfg) -> bench_idle s').
Proof.
  intros Hwf Hdir Hidle He Hed Hes Hall Hes2 Hlasts Hlast Hlen Hbound sent T.
  destruct (read_run cfg e es1 es2 s all Hwf Hdir Hidle He Hed Hes Hall Hes2 Hlasts Hlast Hlen Hbound)
    as (s' & Hr & Hcg & Hdg & Hdc & (? & ? & ?) & HT). exists s'.
  split; [exact Hr|]. split; [by apply accesses_in_region|]. split; [done|]. split.
  - by apply (take_cycles_all es1 es2).
  - intros Hsent. split_and!; try done. pose proof (wf_accesses _ Hwf). apply (cg_at_done cfg sent); [done | lia].
Qed.

Lemma keep_NetAxis d k l : keep (NetAxis d k l) = k.
Proof. done. Qed.

(** for a chunk that is not a multiple of 64 bytes the mask of the last
    word is not determined: the mask bits above the remaining length are
    those the uninitialised variable happened to hold. *)
Theorem data_generator_keep_uninitialised N chunk w st u s : dg_state s = 1 -> 0 <= remainingLength s < 64 ->
  exists s' d x, data_generator N chunk w st false u s = (s', d, [x]) /\ last x = true /\
    keep x = Z.lor (Z.ones (remainingLength s)) (wrap 64 (keep u)).
Proof.
  intros Hst Hr. unfold data_generator. rewrite Hst. cbn [Z.eqb]. eexists _, _, _. split; [reflexivity|].
  split; [by apply Z.leb_le; lia|].
  rewrite keep_NetAxis, dg_fill_keep by apply undef_keep_bound. f_equal. f_equal. lia.
Qed.

(** [n] cycles of the command generator of a write benchmark, none stalled. *)
Fixpoint cg_cycles (cfg : config) (n : nat) (s : cg_vars) : cg_vars * list memCmd :=
  match n with
  | O => (s, [])
  | S n =>
      let '(s, cs) := cg_cycles cfg n s in
      let '(s', _, (_, c)) := cmd_generator cfg false false false s [] in (s', cs ++ c)
  end.

(** with [numberOfAccesses] zero the command generator does not send zero
    commands: the counter is compared only after it was incremented, so it
    stops when the counter wraps around, after 2^32 commands. *)
Theorem zero_accesses_sends_all cfg e s n : numberOfAccesses cfg = 0 -> isWrite cfg = true ->
  ev_start e = true -> cg_state s = IDLE -> Z.of_nat n <= 2 ^ 32 ->
  exists s' s'' cs, cmd_generator cfg (ev_start e) (ev_full_read e) (ev_full_write e) s [] = (s', [true], ([], [])) /\
    cg_cycles cfg n s' = (s'', cs) /\ length cs = n /\
    cg_state s'' = if Z.of_nat n =? 2 ^ 32 then IDLE else WRITE_CMD.
Proof.
  intros H0 Hw He Hs Hn. unfold cmd_generator at 1. rewrite Hs, He, Hw. cbn [andb negb length Nat.leb].
  set (s0 := CgVars WRITE_CMD _ _ _).
  enough (H : exists s'' cs, cg_cycles cfg n s0 = (s'', cs) /\ length cs = n /\
    cg_state s'' = (if Z.of_nat n =? 2 ^ 32 then IDLE else WRITE_CMD) /\ cg_count s'' = wrap 32 (Z.of_nat n)).
  { destruct H as (s'' & cs & H1 & H2 & H3 & _). by exists s0, s'', cs. }
  induction n as [|n IH]; [by exists s0, []|].
  destruct IH as (s1 & cs & H1 & H2 & H3 & H4); [lia|]. cbn [cg_cycles]. rewrite H1.
  rewrite (proj2 (Z.eqb_neq _ _)) in H3 by lia. unfold cmd_generator. rewrite H3.
  eexists _, _. split; [reflexivity|]. split; [rewrite length_app, H2; cbn; lia|].
  unfold cg_advance. cbn [cg_state cg_count]. rewrite H4, H0, H3, wrap_add_l, Nat2Z.inj_succ by lia. split; [|done].
  unfold Z.succ. destruct (Z.eqb_spec (Z.of_nat n + 1) (2 ^ 32)) as [-> | Hne].
  - unfold wrap. by rewrite Z.mod_same.
  - rewrite wrap_small by lia. by rewrite (proj2 (Z.eqb_neq _ _)) by lia.
Qed.

(** ** Instances *)

Definition demo_config (write : bool) : config := Config 0x10000 0x1000 3 128 0x600 write.

Lemma demo_config_wf b : config_wf (demo_config b).
Proof. split; cbn; lia. Qed.

Definition demo_event (start : bool) (ws : list net_axis) : bench_event :=
  BenchEvent start false false false (NetAxis 0 0 false) ws.

Definition demo_packet : list net_axis := [NetAxis 1 (Z.ones 64) false; NetAxis 2 (Z.ones 64) true].

(** The data stream does not accept a word in the second cycle. *)
Definition demo_stall : list bench_event :=
  demo_event false [] :: BenchEvent false false false true (NetAxis 0 0 false) [] :: replicate 5 (demo_event false []).

Lemma write_benchmark_witness : exists s' f' ws,
  bench_run (demo_config true) (demo_event true [] :: demo_stall) (bench_init, [], fnil) =
    (s', f', ([], [MemCmd 0x10000 128; MemCmd 0x10600 128; MemCmd 0x10C00 128], ws)) /\
  reg (clk s') = Some 7 /\ carries_all 64 ws (payload (demo_config true) <$> seqZ 0 3).
Proof.
  destruct (write_benchmark (demo_config true) (demo_event true []) demo_stall bench_init []
    (demo_config_wf true) eq_refl) as (s' & f' & ws & H1 & _ & _ & H2); [done | done | by repeat constructor |].
  destruct (H2 eq_refl) as (H3 & _ & _ & H4 & _). exists s', f', ws.
  split; [exact H1 | split; [exact H3 | by apply H4]].
Defined.

(** The first word arrives in the first cycle after the start, the last in the second. *)
Lemma read_benchmark_witness : exists s',
  bench_run (demo_config false) (demo_event true [] :: [demo_event false demo_packet; demo_event false (demo_packet ++ demo_packet)]
      ++ replicate 6 (demo_event false [])) (bench_init, [], fnil) =
    (s', [], ([MemCmd 0x10000 128; MemCmd 0x10600 128; MemCmd 0x10C00 128], [], [])) /\
  reg (clk s') = Some 6.
Proof.
  destruct (read_benchmark (demo_config false) (demo_event true []) [demo_event false demo_packet; demo_event false (demo_packet ++ demo_packet)]
    (replicate 6 (demo_event false [])) bench_init (demo_packet ++ demo_packet ++ demo_packet)
    (demo_config_wf false) eq_refl) as (s' & H1 & _ & H2 & _);
    [done | done | done | by repeat constructor | done | done | done
    | by exists (demo_packet ++ demo_packet ++ [NetAxis 1 (Z.ones 64) false]), (NetAxis 2 (Z.ones 64) true)
    | done | done |].
  exists s'. split; [exact H1 | exact H2].
Defined.

Lemma data_generator_keep_witness : exists s' d x,
  data_generator 1 100 true false false (NetAxis 0 (Z.ones 64) false) (DgVars 1 36 0) = (s', d, [x]) /\ keep x = Z.ones 64.
Proof.
  destruct (data_generator_keep_uninitialised 1 100 true false (NetAxis 0 (Z.ones 64) false) (DgVars 1 36 0))
    as (s' & d & x & H1 & _ & H2); [done | cbn; lia |].
  exists s', d, x. split; [exact H1|]. by rewrite H2.
Defined.

Lemma zero_accesses_witness : exists s' s'' cs,
  cmd_generator (Config 0 4096 0 64 0 true) true false false cg_init [] = (s', [true], ([], [])) /\
  cg_cycles (Config 0 4096 0 64 0 true) 100 s' = (s'', cs) /\ length cs = 100%nat /\ cg_state s'' = WRITE_CMD.
Proof.
  destruct (zero_accesses_sends_all (Config 0 4096 0 64 0 true) (demo_event true []) cg_init 100)
    as (s' & s'' & cs & H1 & H2 & H3 & H4); [done | done | done | done | lia |].
  by exists s', s'', cs.
Defined.
