(* ===== verification/MemoryManager.v ===== *)
(** [src/sw/src/fpga/MemoryManager.cpp]: the allocator of the DMA buffer. *)
From S2P Require Import Prelude.

(** ** Definitions *)

(** [class MemChunk]; the [next] pointers are the order of the list. *)
Record MemChunk := Chunk { addr : Z; size : Z; free : bool }.

(** The chunk list and the bytes of the process memory. *)
Record mm_state := MmState { chunks : list MemChunk; mem : Z -> Z }.

(** [memset(p, v, n)] *)
Definition memset (m : Z -> Z) (p v n : Z) : Z -> Z :=
  fun a => if (p <=? a) && (a <? p + n) then v else m a.

(** The constructor. *)
Definition MemoryManager (m : Z -> Z) (base size : Z) : mm_state :=
  MmState [Chunk base size true] (memset m base 0 size).

(** [((allocSize + 4095) / 4096) * 4096] in [size_t]. *)
Definition roundedSize (allocSize : Z) : Z := wrap 64 (wrap 64 (allocSize + 4095) / 4096 * 4096).

(** The loop of [allocate].  [compare_exchange_weak] may fail spuriously:
    [spurious] says for each chunk in turn whether it does. *)
Fixpoint allocate_loop (spurious : list bool) (roundedSize : Z) (cs : list MemChunk) :
    option (Z * list MemChunk) :=
  match cs with
  | [] => None
  | current :: rest =>
      if free current && (roundedSize <=? size current) && negb (default false (head spurious)) then
        Some (addr current,
          if size current >? roundedSize then
            Chunk (addr current) roundedSize false ::
            Chunk (addr current + roundedSize) (size current - roundedSize) true :: rest
          else Chunk (addr current) (size current) false :: rest)
      else
        '(p, rest) ← allocate_loop (tail spurious) roundedSize rest; Some (p, current :: rest)
  end.

(** [allocate]; [None] is the null pointer. *)
Definition allocate (spurious : list bool) (allocSize : Z) (s : mm_state) : option Z * mm_state :=
  match allocate_loop spurious (roundedSize allocSize) (chunks s) with
  | Some (p, cs) => (Some p, MmState cs (mem s))
  | None => (None, s)
  end.

(** The loop of [free]. *)
Fixpoint free_loop (ptr : Z) (m : Z -> Z) (cs : list MemChunk) : list MemChunk * (Z -> Z) :=
  match cs with
  | [] => ([], m)
  | current :: rest =>
      let here := addr current =? ptr in
      let m := if here then memset m (addr current) 0 (size current) else m in
      let '(rest, m) := free_loop ptr m rest in
      ((if here then Chunk (addr current) (size current) true else current) :: rest, m)
  end.

Definition mm_free (ptr : Z) (s : mm_state) : mm_state :=
  let '(cs, m) := free_loop ptr (mem s) (chunks s) in MmState cs m.

(** ** Specification *)

(** The chunks cover the addresses from [a] to [b] without gaps, in order. *)
Fixpoint covers (a b : Z) (cs : list MemChunk) : Prop :=
  match cs with
  | [] => a = b
  | c :: cs => addr c = a /\ 0 <= size c /\ covers (a + size c) b cs
  end.

Definition live (s : mm_state) : list MemChunk := filter (fun c => free c = false) (chunks s).

Definition inside (c : MemChunk) (a : Z) : Prop := addr c <= a < addr c + size c.

#[export] Instance inside_dec c a : Decision (inside c a).
Proof. unfold inside. apply _. Defined.

Definition disjoint (c d : MemChunk) : Prop := addr c + size c <= addr d \/ addr d + size d <= addr c.

(** Chunks are page aligned relative to the base, and free memory is zero. *)
Record mm_inv (base total : Z) (s : mm_state) : Prop := MmInv {
  inv_covers : covers base (base + total) (chunks s);
  inv_aligned : Forall (fun c => (addr c - base) mod 4096 = 0) (chunks s);
  inv_zero : forall c a, c ∈ chunks s -> free c = true -> inside c a -> mem s a = 0 }.

Definition no_empty (s : mm_state) : Prop := Forall (fun c => 0 < size c) (chunks s).

Definition mm_wf (base total : Z) (s : mm_state) : Prop := mm_inv base total s /\ no_empty s.

(** The sizes that a client can ask for, and those that are not rounded to zero. *)
Definition any_size (n : Z) : Prop := 0 <= n < 2 ^ 64.
Definition proper_size (n : Z) : Prop := 0 < n <= 2 ^ 64 - 4096.

(** A call by the clients of the manager, which write only to
    memory they were given and ask for sizes in [sizes]; the pointers they free are arbitrary. *)
Inductive mm_step (sizes : Z -> Prop) : mm_state -> mm_state -> Prop :=
  | step_allocate s spurious n : sizes n -> mm_step sizes s (allocate spurious n s).2
  | step_free s p : mm_step sizes s (mm_free p s)
  | step_write s c a v : c ∈ live s -> inside c a ->
      mm_step sizes s (MmState (chunks s) (fun x => if x =? a then v else mem s x)).

Lemma rounded_any n : any_size n -> roundedSize n mod 4096 = 0 /\ 0 <= roundedSize n.
Proof.
  intros Hn. unfold roundedSize. split; [|apply (wrap_bound 64); lia]. unfold wrap.
  rewrite Z.mod_mod_divide by (exists (2 ^ 52); lia). apply Z.mod_mul. lia.
Qed.

(** Larger requests are rounded to zero. *)
Lemma rounded_overflow n : 2 ^ 64 - 4096 < n < 2 ^ 64 -> roundedSize n = 0.
Proof.
  intros Hn. unfold roundedSize. replace (wrap 64 (n + 4095)) with (n + 4095 - 2 ^ 64).
  - rewrite Z.div_small by lia. by apply wrap_0.
  - unfold wrap. apply (Z.mod_unique_pos _ _ 1); lia.
Qed.

Lemma rounded_spec n : 0 < n <= 2 ^ 64 - 4096 ->
  roundedSize n mod 4096 = 0 /\ n <= roundedSize n < n + 4096 /\ 0 < roundedSize n.
Proof.
  intros Hn. unfold roundedSize. rewrite (wrap_small 64 (n + 4095)) by lia.
  pose proof (Z.div_mod (n + 4095) 4096 ltac:(lia)) as E. pose proof (Z.mod_pos_bound (n + 4095) 4096 ltac:(lia)).
  rewrite wrap_small by lia. split; [apply Z.mod_mul; lia | lia].
Qed.

#[export] Instance proper_size_dec n : Decision (proper_size n).
Proof. unfold proper_size. apply _. Defined.

Lemma roundedSize_cases n : any_size n ->
  if decide (proper_size n) then n <= roundedSize n < n + 4096 else roundedSize n = 0.
Proof.
  unfold any_size. intros Hn. case_decide as Hp; [by apply rounded_spec|]. unfold proper_size in Hp.
  destruct (decide (n = 0)) as [-> | Hne]; [done | apply rounded_overflow; lia].
Qed.

(** ** The chunk list *)

Lemma covers_app a b cs ds : covers a b (cs ++ ds) <-> exists m, covers a m cs /\ covers m b ds.
Proof.
  revert a. induction cs as [|c cs IH]; intros a; cbn.
  - split; [by eauto | by intros (m & -> & H)].
  - rewrite IH. split.
    + intros (? & ? & m & ? & ?). by exists m.
    + intros (m & (? & ? & ?) & ?). eauto.
Qed.

Lemma covers_le a b cs : covers a b cs -> a <= b.
Proof. revert a. induction cs as [|c cs IH]; cbn; intros a; [lia|]. intros (_ & ? & H). apply IH in H. lia. Qed.

Lemma covers_bounds a b cs c : covers a b cs -> c ∈ cs -> a <= addr c /\ addr c + size c <= b /\ 0 <= size c.
Proof.
  intros H Hc. apply list_elem_of_split in Hc as (l1 & l2 & ->).
  apply covers_app in H as (m & H1 & H2). cbn in H2. destruct H2 as (-> & ? & H2).
  apply covers_le in H1, H2. lia.
Qed.

Lemma covers_disjoint a b cs : covers a b cs -> ForallOrdPairs disjoint cs.
Proof.
  revert a. induction cs as [|c cs IH]; intros a; cbn; [constructor|]. intros (<- & ? & H). constructor; [|by eapply IH].
  apply Forall_forall. intros d Hd. left. by pose proof (covers_bounds _ _ _ d H Hd) as [? _].
Qed.

(** What [allocate_loop] does: it takes the first chunk it can acquire and
    splits off the rest. *)
Lemma allocate_loop_spec sp n cs p cs' : allocate_loop sp n cs = Some (p, cs') ->
  exists l c r, cs = l ++ c :: r /\ free c = true /\ n <= size c /\ p = addr c /\
    cs' = l ++ Chunk (addr c) n false ::
      (if size c >? n then Chunk (addr c + n) (size c - n) true :: r else r).
Proof.
  revert sp p cs'. induction cs as [|c cs IH]; intros sp p cs' H; cbn in H; [done|].
  destruct (free c && (n <=? size c) && negb (default false (head sp))) eqn:E.
  - injection H as <- <-. bool_hyps. exists [], c, cs. split_and!; try done. cbn. rewrite Z.gtb_ltb.
    destruct (Z.ltb_spec n (size c)); [done|]. by replace (size c) with n by lia.
  - destruct (allocate_loop (tail sp) n cs) as [[q ds]|] eqn:Ea; cbn in H; [|done]. injection H as <- <-.
    destruct (IH _ _ _ Ea) as (l & d & r & -> & ? & ? & ? & ->). by exists (c :: l), d, r.
Qed.

Lemma allocate_loop_first n c r : free c = true -> n <= size c ->
  allocate_loop [] n (c :: r) = Some (addr c,
    if size c >? n then Chunk (addr c) n false :: Chunk (addr c + n) (size c - n) true :: r
    else Chunk (addr c) (size c) false :: r).
Proof. intros Hf Hn. cbn [allocate_loop]. by rewrite Hf, (proj2 (Z.leb_le _ _)). Qed.

Lemma allocate_loop_skip n cs r : Forall (fun d => free d = false) cs ->
  allocate_loop [] n (cs ++ r) = ('(p, r) ← allocate_loop [] n r; Some (p, cs ++ r)).
Proof.
  induction 1 as [|d cs Hd _ IH]; cbn.
  - by destruct (allocate_loop [] n r) as [[? ?]|].
  - rewrite Hd. cbn. rewrite IH. by destruct (allocate_loop [] n r) as [[? ?]|].
Qed.

Lemma allocate_loop_None n cs : allocate_loop [] n cs = None ->
  Forall (fun c => free c = true -> size c < n) cs.
Proof.
  induction cs as [|c cs IH]; cbn; intros H; [constructor|].
  rewrite andb_true_r in H. destruct (free c && (n <=? size c)) eqn:E; [done|].
  destruct (allocate_loop [] n cs) as [[? ?]|] eqn:Ea; [done|]. constructor; [|by apply IH].
  intros Hf. rewrite Hf in E. by apply Z.leb_gt in E.
Qed.

Lemma free_loop_spec ptr cs : forall m,
  (free_loop ptr m cs).1 = (fun c => if addr c =? ptr then Chunk (addr c) (size c) true else c) <$> cs /\
  forall a, (free_loop ptr m cs).2 a =
    if decide (Exists (fun c => addr c = ptr /\ inside c a) cs) then 0 else m a.
Proof.
  induction cs as [|c cs IH]; intros m; cbn.
  - split; [done|]. intros a. rewrite decide_False; [done|]. by intros H%Exists_nil.
  - set (m' := if addr c =? ptr then memset m (addr c) 0 (size c) else m).
    destruct (IH m') as [H1 H2]. destruct (free_loop ptr m' cs) as [rest m2]. cbn [fst snd] in *. split; [by subst rest|].
    intros a. rewrite H2. clear H1 H2 IH. unfold m', memset, inside.
    destruct (decide (Exists _ cs)) as [He | He].
    + rewrite decide_True; [done|]. by right.
    + destruct (Z.eqb_spec (addr c) ptr) as [Ea | Ea].
      * destruct ((addr c <=? a) && (a <? addr c + size c)) eqn:Eb.
        -- rewrite decide_True; [done|]. left. bool_hyps. split; [done | lia].
        -- rewrite decide_False; [done|]. rewrite Exists_cons. intros [[_ ?] | ?]; [|done].
           apply andb_false_iff in Eb as [Eb%Z.leb_gt | Eb%Z.ltb_ge]; lia.
      * rewrite decide_False; [done|]. rewrite Exists_cons. by intros [[? _] | ?].
Qed.

Lemma covers_unique a b cs c d x : covers a b cs -> c ∈ cs -> d ∈ cs -> inside c x -> inside d x -> c = d.
Proof.
  revert a. induction cs as [|e cs IH]; intros a; [by intros _ ?%not_elem_of_nil|].
  cbn. intros (<- & ? & H) Hc Hd Hic Hid. unfold inside in *.
  apply elem_of_cons in Hc as [-> | Hc]; apply elem_of_cons in Hd as [-> | Hd]; [done | | |by eapply IH].
  - pose proof (covers_bounds _ _ _ d H Hd). lia.
  - pose proof (covers_bounds _ _ _ c H Hc). lia.
Qed.

Lemma covers_fmap f a b cs : (forall c, addr (f c) = addr c /\ size (f c) = size c) ->
  covers a b (f <$> cs) <-> covers a b cs.
Proof.
  intros Hf. revert a. induction cs as [|c cs IH]; intros a; cbn; [done|].
  destruct (Hf c) as [-> ->]. by rewrite IH.
Qed.

(** ** The invariant *)

Lemma MemoryManager_inv m base total : 0 <= total -> mm_inv base total (MemoryManager m base total).
Proof.
  intros Ht. split.
  - cbn. lia.
  - constructor; [|done]. cbn. by rewrite Z.sub_diag.
  - intros c a Hc _ Hi. apply list_elem_of_singleton in Hc as ->. unfold inside in Hi. cbn in *.
    unfold memset. by rewrite (proj2 (Z.leb_le _ _)), (proj2 (Z.ltb_lt _ _)) by lia.
Qed.

Lemma MemoryManager_wf m base total : 0 < total -> mm_wf base total (MemoryManager m base total).
Proof. intros Ht. split; [apply MemoryManager_inv; lia | by repeat constructor]. Qed.

(** The list after a successful allocation. *)
Lemma split_inv base total l c r n m : mm_inv base total (MmState (l ++ c :: r) m) -> free c = true ->
  0 <= n <= size c -> n mod 4096 = 0 ->
  mm_inv base total (MmState (l ++ Chunk (addr c) n false ::
    (if size c >? n then Chunk (addr c + n) (size c - n) true :: r else r)) m).
Proof.
  intros [Hc Ha Hz] Hf Hn Hmod. cbn [chunks mem] in *. rewrite Z.gtb_ltb.
  apply covers_app in Hc as (x & Hl & Hr). cbn in Hr. destruct Hr as (<- & ? & Hr).
  apply Forall_app in Ha as [Hal Har]. apply Forall_cons in Har as [Hac Har].
  assert (Hzero : forall d a, d ∈ l \/ d ∈ r \/ (addr c <= addr d /\ addr d + size d <= addr c + size c) ->
    free d = true -> inside d a -> m a = 0).
  { intros d a Hd Hfd Hi. destruct Hd as [Hd | [Hd | Hd]].
    - apply (Hz d a); [apply elem_of_app; by left | done | done].
    - apply (Hz d a); [apply elem_of_app; right; by right | done | done].
    - apply (Hz c a); [apply elem_of_app; right; by left | done | unfold inside in *; lia]. }
  split; cbn [chunks mem].
  - apply covers_app. exists (addr c). split; [done|]. cbn. split; [done|]. split; [lia|].
    destruct (Z.ltb_spec n (size c)); cbn.
    + split; [done|]. split; [lia|]. by replace (addr c + n + (size c - n)) with (addr c + size c) by lia.
    + by replace n with (size c) by lia.
  - apply Forall_app. split; [done|]. constructor; [done|]. case_match; [|done]. constructor; [|done]. cbn.
    replace (addr c + n - base) with (addr c - base + n) by lia. by rewrite Z.add_mod, Hac, Hmod.
  - intros d a Hd Hfd Hi. apply elem_of_app in Hd as [Hd | Hd]; [by eapply Hzero; eauto|].
    apply elem_of_cons in Hd as [-> | Hd]; [done|].
    destruct (Z.ltb_spec n (size c)); [|by eapply Hzero; eauto].
    apply elem_of_cons in Hd as [-> | Hd]; [|by eapply Hzero; eauto].
    apply (Hzero (Chunk (addr c + n) (size c - n) true) a); [right; right; cbn; lia | done | done].
Qed.

Lemma allocate_inv base total sp n s : mm_inv base total s -> any_size n -> mm_inv base total (allocate sp n s).2.
Proof.
  intros Hwf Hn. destruct (rounded_any n Hn) as (Hmod & Hpos). unfold allocate.
  destruct (allocate_loop sp (roundedSize n) (chunks s)) as [[p cs]|] eqn:E; [|done].
  apply allocate_loop_spec in E as (l & c & r & Ecs & Hf & Hle & -> & ->).
  destruct s as [cs m]. cbn in Ecs. subst cs. by apply split_inv.
Qed.

Lemma allocate_no_empty sp n s : no_empty s -> proper_size n -> no_empty (allocate sp n s).2.
Proof.
  intros Hp Hn. destruct (rounded_spec n Hn) as (_ & _ & Hpos). unfold allocate, no_empty in *.
  destruct (allocate_loop sp (roundedSize n) (chunks s)) as [[p cs]|] eqn:E; [|done].
  apply allocate_loop_spec in E as (l & c & r & Ecs & Hf & Hle & -> & ->). rewrite Ecs in Hp. cbn [chunks snd].
  apply Forall_app in Hp as [Hpl Hpr]. apply Forall_cons in Hpr as [Hpc Hpr].
  apply Forall_app. split; [done|]. constructor; [cbn; lia|]. rewrite Z.gtb_ltb. destruct (Z.ltb_spec (roundedSize n) (size c)); [|done].
  constructor; [cbn; lia | done].
Qed.

Lemma mm_free_spec p s :
  chunks (mm_free p s) = (fun c => if addr c =? p then Chunk (addr c) (size c) true else c) <$> chunks s /\
  forall a, mem (mm_free p s) a =
    if decide (Exists (fun c => addr c = p /\ inside c a) (chunks s)) then 0 else mem s a.
Proof.
  unfold mm_free. destruct (free_loop_spec p (chunks s) (mem s)) as [H1 H2].
  by destruct (free_loop p (mem s) (chunks s)) as [cs m].
Qed.

Lemma mm_free_inv base total p s : mm_inv base total s -> mm_inv base total (mm_free p s).
Proof.
  intros [Hc Ha Hz]. destruct (mm_free_spec p s) as [H1 H2].
  set (f := fun c => if addr c =? p then Chunk (addr c) (size c) true else c) in H1.
  assert (Hf : forall c, addr (f c) = addr c /\ size (f c) = size c) by (intros c; unfold f; by destruct (_ =? _)).
  split; rewrite ?H1.
  - by apply covers_fmap.
  - apply Forall_fmap. eapply Forall_impl; [exact Ha|]. intros c. cbn. by rewrite (proj1 (Hf c)).
  - intros d a Hd Hfd Hi. apply list_elem_of_fmap in Hd as (c & -> & Hc').
    assert (Hic : inside c a) by (unfold inside in *; destruct (Hf c) as [<- <-]; done).
    rewrite H2. case_decide as He; [done|]. apply (Hz c a); [done | | done].
    unfold f in Hfd. destruct (Z.eqb_spec (addr c) p) as [Ea | Ea]; [|done].
    exfalso. apply He, Exists_exists. eauto.
Qed.

Lemma mm_free_no_empty p s : no_empty s -> no_empty (mm_free p s).
Proof.
  unfold no_empty. intros Hp. destruct (mm_free_spec p s) as [-> _]. apply Forall_fmap.
  eapply Forall_impl; [exact Hp|]. intros c. cbn. by destruct (_ =? _).
Qed.

Lemma mm_step_inv base total s s' : mm_inv base total s -> mm_step any_size s s' -> mm_inv base total s'.
Proof.
  intros Hwf Hs. destruct Hs as [s sp n Hn | s p | s c x v Hc Hx].
  - by apply allocate_inv.
  - by apply mm_free_inv.
  - destruct Hwf as [Hcov Ha Hz]. split; [done..|]. cbn. intros d a Hd Hf Hi.
    destruct (Z.eqb_spec a x) as [-> | Hne]; [|by eapply Hz].
    apply list_elem_of_filter in Hc as [Hcf Hc]. pose proof (covers_unique _ _ _ c d x Hcov Hc Hd Hx Hi) as ->. congruence.
Qed.

Lemma mm_step_no_empty s s' : no_empty s -> mm_step proper_size s s' -> no_empty s'.
Proof. intros Hp Hs. destruct Hs; [by apply allocate_no_empty | by apply mm_free_no_empty | done]. Qed.

Lemma mm_step_any s s' : mm_step proper_size s s' -> mm_step any_size s s'.
Proof.
  intros Hs. destruct Hs as [s sp n Hn | |]; [apply step_allocate | apply step_free | by eapply step_write].
  unfold proper_size, any_size in *. lia.
Qed.

Lemma mm_steps_inv base total s s' : rtc (mm_step any_size) s s' -> mm_inv base total s -> mm_inv base total s'.
Proof. induction 1 as [|s s1 s' Hs _ IH]; [done|]. intros Hw. by eapply IH, mm_step_inv. Qed.

Lemma mm_steps_wf base total s s' : rtc (mm_step proper_size) s s' -> mm_wf base total s -> mm_wf base total s'.
Proof.
  intros Hs [Hi He]. split.
  - eapply mm_steps_inv; [|exact Hi]. eapply rtc_subrel; [|exact Hs]. exact mm_step_any.
  - clear Hi. induction Hs as [|s s1 s' H _ IH]; [done|]. by eapply IH, mm_step_no_empty.
Qed.

(** ** Properties *)

(** C13: whatever sequence of allocations of any size (with any spurious failures of the
    atomic exchange), frees of arbitrary pointers and writes to allocated
    memory the clients make, the chunks cover the buffer without gap or
    overlap, start at page offsets, and all free memory is
    zero; and as long as every request asks for 1 to 2^64 - 4096 bytes no
    chunk is empty (other requests are rounded to zero and give empty chunks). *)
Theorem mm_reachable_wf m base total s : 0 < total ->
  (rtc (mm_step any_size) (MemoryManager m base total) s -> mm_inv base total s /\ ForallOrdPairs disjoint (chunks s)) /\
  (rtc (mm_step proper_size) (MemoryManager m base total) s -> no_empty s).
Proof.
  intros Ht. split; intros Hr.
  - assert (Hi : mm_inv base total s) by (eapply mm_steps_inv; [exact Hr | apply MemoryManager_inv; lia]).
    split; [done|]. eapply covers_disjoint, Hi.
  - eapply mm_steps_wf; [exact Hr | by apply (MemoryManager_wf m base)].
Qed.

(** C14: in every state that clients can reach ([mm_inv]) a successful allocation of any size returns a page-aligned block inside the
    buffer, disjoint from every allocated block and filled with zeros; it is added to the
    allocated blocks and nothing else changes.  For 1 to 2^64 - 4096 bytes the
    block is large enough for the request and less than a page larger; for 0 bytes and for more
    than 2^64 - 4096 it is empty. *)
Theorem allocate_sound base total sp n s p s' : mm_inv base total s -> any_size n ->
  allocate sp n s = (Some p, s') ->
  let c := Chunk p (roundedSize n) false in
  (if decide (proper_size n) then n <= size c < n + 4096 else size c = 0) /\
  (p - base) mod 4096 = 0 /\ base <= p /\ p + size c <= base + total /\
  live s' ≡ₚ c :: live s /\ Forall (disjoint c) (live s) /\
  mem s' = mem s /\ (forall a, inside c a -> mem s' a = 0).
Proof.
  intros Hwf Hn Ha c. destruct (rounded_any n Hn) as (Hmod & Hpos). unfold allocate in Ha.
  destruct (allocate_loop sp (roundedSize n) (chunks s)) as [[q cs]|] eqn:E; [|done]. injection Ha as <- <-.
  apply allocate_loop_spec in E as (l & d & r & Ecs & Hf & Hle & -> & ->).
  pose proof Hwf as [Hcov Hal Hz]. assert (Hd : d ∈ chunks s).
  { rewrite Ecs. apply elem_of_app. right. by left. }
  pose proof (covers_bounds _ _ _ d Hcov Hd). rewrite Forall_forall in Hal. specialize (Hal d Hd).
  assert (Hlive : forall e, e ∈ live s -> disjoint c e).
  { intros e He. apply list_elem_of_filter in He as [Hfe He]. unfold disjoint, c. cbn.
    rewrite Ecs in He, Hcov. apply covers_app in Hcov as (x & Hl & Hr). cbn in Hr. destruct Hr as (<- & ? & Hr).
    apply elem_of_app in He as [He | He]; [right | apply elem_of_cons in He as [-> | He]; [congruence | left]].
    - pose proof (covers_bounds _ _ _ e Hl He). lia.
    - pose proof (covers_bounds _ _ _ e Hr He). lia. }
  split; [by apply roundedSize_cases|]. cbn. split; [done|]. split; [lia|]. split; [lia|]. split.
  { unfold live. cbn [chunks]. rewrite Ecs, !filter_app, !filter_cons, (decide_False (P := free d = false)) by congruence.
    rewrite decide_True by done. rewrite <- Permutation_middle. constructor. f_equiv.
    case_match; [|done]. by rewrite filter_cons, decide_False. }
  split; [by apply Forall_forall|]. split; [done|].
  intros a Hi. apply (Hz d a Hd Hf). unfold inside in *. cbn in Hi. lia.
Qed.

(** without spurious failures of the atomic exchange an allocation fails
    exactly when no free chunk is large enough for the rounded size, and then
    changes nothing. *)
Theorem allocate_fails_iff n s :
  allocate [] n s = (None, s) <-> Forall (fun c => free c = true -> size c < roundedSize n) (chunks s).
Proof.
  unfold allocate. destruct (allocate_loop [] (roundedSize n) (chunks s)) as [[p cs]|] eqn:E.
  - split; [done|]. intros H. apply allocate_loop_spec in E as (l & c & r & Ecs & Hf & Hle & _).
    rewrite Ecs in H. apply Forall_app in H as [_ H]. apply Forall_cons in H as [H _]. specialize (H Hf). lia.
  - split; [|done]. intros _. by apply allocate_loop_None.
Qed.

(** freeing an allocated block makes it free and fills it with zeros; the
    other allocated blocks and the bytes outside the block are untouched. *)
Theorem free_releases base total c s : mm_wf base total s -> c ∈ live s ->
  let s' := mm_free (addr c) s in
  live s ≡ₚ c :: live s' /\ Chunk (addr c) (size c) true ∈ chunks s' /\
  forall a, mem s' a = if decide (inside c a) then 0 else mem s a.
Proof.
  intros [[Hcov _ _] Hp] Hc s'. unfold no_empty in Hp. apply list_elem_of_filter in Hc as [Hf Hc].
  destruct (mm_free_spec (addr c) s) as [H1 H2]. fold s' in H1, H2.
  assert (Huniq : forall d, d ∈ chunks s -> addr d = addr c -> d = c).
  { intros d Hd Ea. rewrite Forall_forall in Hp. pose proof (Hp c Hc). pose proof (Hp d Hd).
    apply (covers_unique base (base + total) (chunks s) d c (addr c)); [done..| |]; unfold inside; lia. }
  assert (Hcs : exists l r, chunks s = l ++ c :: r /\ Forall (fun d => addr d <> addr c) (l ++ r)).
  { apply list_elem_of_split in Hc as (l & r & E). exists l, r. split; [done|].
    apply Forall_forall. intros d Hd Ea. assert (Hdc : d = c).
    { apply Huniq; [|done]. rewrite E. apply elem_of_app in Hd. apply elem_of_app. rewrite elem_of_cons. tauto. }
    subst d. rewrite E in Hcov, Hp. apply covers_app in Hcov as (m & Hl & Hr). cbn in Hr. destruct Hr as (<- & _ & Hr).
    apply Forall_app in Hp as [_ Hp]. apply Forall_cons in Hp as [Hp _].
    apply elem_of_app in Hd as [Hd | Hd].
    - pose proof (covers_bounds _ _ _ c Hl Hd). lia.
    - pose proof (covers_bounds _ _ _ c Hr Hd). lia. }
  destruct Hcs as (l & r & E & Hne). apply Forall_app in Hne as [Hl Hr].
  assert (Hid : forall ds, Forall (fun d => addr d <> addr c) ds ->
    (fun d => if addr d =? addr c then Chunk (addr d) (size d) true else d) <$> ds = ds).
  { induction 1 as [|d ds Hd _ IH]; [done|]. rewrite fmap_cons, IH, (proj2 (Z.eqb_neq _ _)) by done. done. }
  rewrite E, fmap_app, fmap_cons, Hid, Hid, Z.eqb_refl in H1 by done. split; [|split].
  - unfold live. rewrite H1, E, !filter_app, !filter_cons, (decide_True (P := free c = false)) by done.
    rewrite decide_False by done. by rewrite <- Permutation_middle.
  - rewrite H1. apply elem_of_app. right. by left.
  - intros a. rewrite H2. apply decide_ext. rewrite Exists_exists. split.
    + intros (d & Hd & Ea & Hi). by rewrite <- (Huniq d Hd Ea).
    + intros Hi. by exists c.
Qed.

(** an allocation of zero bytes succeeds when any chunk is free and returns
    an address that the next allocation returns again: the two clients share
    the block, and freeing the first pointer releases the block of the
    second. *)
Theorem allocate_zero_aliases s n l c r : 0 < n <= 2 ^ 64 - 4096 ->
  chunks s = l ++ c :: r -> Forall (fun d => free d = false) l -> free c = true -> roundedSize n <= size c ->
  exists s1 s2, allocate [] 0 s = (Some (addr c), s1) /\ allocate [] n s1 = (Some (addr c), s2) /\
    Forall (fun d => addr d = addr c -> free d = true) (chunks (mm_free (addr c) s2)).
Proof.
  intros Hn Hs Hl Hf Hfit. destruct (rounded_spec n Hn) as (_ & Hb & Hpos).
  set (c0 := Chunk (addr c) 0 false). set (c1 := Chunk (addr c) (size c) true).
  exists (MmState (l ++ c0 :: c1 :: r) (mem s)). unfold allocate. rewrite Hs. cbn [chunks mem].
  change (roundedSize 0) with 0. rewrite allocate_loop_skip, allocate_loop_first by (done || lia).
  rewrite Z.gtb_ltb, (proj2 (Z.ltb_lt 0 (size c))), Z.add_0_r, Z.sub_0_r by lia.
  replace (l ++ c0 :: c1 :: r) with ((l ++ [c0]) ++ c1 :: r) by by rewrite <- app_assoc.
  rewrite allocate_loop_skip by (apply Forall_app; split; [done | by repeat constructor]).
  rewrite allocate_loop_first by done. cbn [mbind option_bind].
  eexists. split; [by rewrite <- app_assoc|]. split; [done|]. set (s2 := MmState _ _).
  destruct (mm_free_spec (addr c) s2) as [-> _]. apply Forall_fmap, Forall_forall. intros d Hd. cbn.
  by destruct (Z.eqb_spec (addr d) (addr c)).
Qed.

(** a request of more than 2^64 - 4096 bytes is rounded up to zero, so it
    does not fail: it returns a pointer to an empty block. *)
Theorem allocate_overflow s n l c r : 2 ^ 64 - 4096 < n < 2 ^ 64 ->
  chunks s = c :: r -> free c = true -> 0 <= size c ->
  l = (if 0 <? size c then [Chunk (addr c) (size c) true] else []) ->
  allocate [] n s = (Some (addr c), MmState (Chunk (addr c) 0 false :: l ++ r) (mem s)).
Proof.
  intros Hn Hs Hf Hsz ->. unfold allocate. rewrite Hs.
  rewrite (rounded_overflow n Hn).
  rewrite allocate_loop_first, Z.gtb_ltb by done.
  destruct (Z.ltb_spec 0 (size c)); cbn.
  - by rewrite Z.add_0_r, Z.sub_0_r.
  - by replace (size c) with 0 by lia.
Qed.

(** freed chunks are not merged: after a block of one page was allocated
    from a fresh buffer and freed, all of the buffer is free again but a
    request for all of it fails. *)
Theorem free_does_not_merge m base k : 2 <= k -> k * 4096 <= 2 ^ 63 ->
  exists s1 s2, allocate [] 4096 (MemoryManager m base (k * 4096)) = (Some base, s1) /\
    s2 = mm_free base s1 /\ live s2 = [] /\
    fst (allocate [] (k * 4096) s2) = None.
Proof.
  intros Hk Hb. assert (Hr : roundedSize (k * 4096) = k * 4096).
  { unfold roundedSize. rewrite (wrap_small 64 (k * 4096 + 4095)), Z.div_add_l by lia. change (4095 / 4096) with 0. rewrite Z.add_0_r, wrap_small by lia. done. }
  unfold allocate at 1. cbn [MemoryManager chunks]. change (roundedSize 4096) with 4096.
  rewrite allocate_loop_first, Z.gtb_ltb by (done || cbn [size]; lia). cbn [size addr].
  rewrite (proj2 (Z.ltb_lt 4096 (k * 4096))) by lia.
  eexists _, _. split; [reflexivity|]. split; [reflexivity|].
  unfold mm_free. cbn. rewrite Z.eqb_refl, (proj2 (Z.eqb_neq (base + 4096) base)) by lia.
  cbn. split; [done|]. unfold allocate. cbn. rewrite Hr.
  by rewrite (proj2 (Z.leb_gt (k * 4096) 4096)), (proj2 (Z.leb_gt (k * 4096) (k * 4096 - 4096))) by lia.
Qed.

(** ** Instances *)

Definition demo_mm : mm_state := MemoryManager (fun _ => 7) 0x10000000 0x10000.

Lemma demo_mm_wf : mm_wf 0x10000000 0x10000 demo_mm.
Proof. by apply MemoryManager_wf. Qed.

(** Two blocks allocated, the first freed again. *)
Definition demo_mm2 : mm_state := mm_free 0x10000000 (allocate [] 5000 (allocate [] 100 demo_mm).2).2.

Lemma demo_mm2_reachable : rtc (mm_step proper_size) demo_mm demo_mm2.
Proof.
  apply (rtc_l _ _ (allocate [] 100 demo_mm).2); [apply step_allocate; unfold proper_size; lia|].
  apply (rtc_l _ _ (allocate [] 5000 (allocate [] 100 demo_mm).2).2); [apply step_allocate; unfold proper_size; lia|].
  unfold demo_mm2. apply rtc_once, step_free.
Qed.

(** After an empty block, too. *)
Lemma mm_reachable_witness : mm_inv 0x10000000 0x10000 (allocate [] 0 demo_mm2).2 /\ no_empty demo_mm2.
Proof.
  split.
  - apply (mm_reachable_wf (fun _ => 7) 0x10000000 0x10000); [done|]. eapply rtc_r; [|apply step_allocate; done].
    eapply rtc_subrel; [exact mm_step_any | exact demo_mm2_reachable].
  - apply (mm_reachable_wf (fun _ => 7) 0x10000000 0x10000 demo_mm2); [done | apply demo_mm2_reachable].
Defined.

Lemma allocate_sound_witness : exists s',
  allocate [true] 9000 demo_mm2 = (Some 0x10003000, s') /\ live s' ≡ₚ Chunk 0x10003000 12288 false :: live demo_mm2.
Proof.
  exists (allocate [true] 9000 demo_mm2).2.
  assert (E : allocate [true] 9000 demo_mm2 = (Some 0x10003000, (allocate [true] 9000 demo_mm2).2)).
  { rewrite (surjective_pairing (allocate _ _ _)) at 1. f_equal. }
  split; [exact E|]. apply (allocate_sound 0x10000000 0x10000 [true] 9000 demo_mm2 0x10003000); [| done | exact E].
  apply (mm_steps_wf 0x10000000 0x10000 demo_mm); [apply demo_mm2_reachable | apply demo_mm_wf].
Defined.

Lemma free_releases_witness :
  live demo_mm2 ≡ₚ Chunk 0x10001000 8192 false :: live (mm_free 0x10001000 demo_mm2).
Proof.
  apply (free_releases 0x10000000 0x10000 (Chunk 0x10001000 8192 false) demo_mm2).
  - eapply mm_steps_wf; [apply demo_mm2_reachable | apply demo_mm_wf].
  - apply list_elem_of_filter. split; [done|]. vm_compute. right. left.
Defined.

Lemma allocate_zero_witness : exists s1 s2,
  allocate [] 0 demo_mm = (Some 0x10000000, s1) /\ allocate [] 64 s1 = (Some 0x10000000, s2).
Proof.
  destruct (allocate_zero_aliases demo_mm 64 [] (Chunk 0x10000000 0x10000 true) [])
    as (s1 & s2 & H1 & H2 & _); [lia | done | done | done | by vm_compute |]. by exists s1, s2.
Defined.

Lemma allocate_overflow_witness : allocate [] (2 ^ 64 - 1) demo_mm =
  (Some 0x10000000, MmState [Chunk 0x10000000 0 false; Chunk 0x10000000 0x10000 true] (mem demo_mm)).
Proof.
  apply (allocate_overflow demo_mm (2 ^ 64 - 1) [Chunk 0x10000000 0x10000 true] (Chunk 0x10000000 0x10000 true) []);
    [lia | done | done | cbn; lia | done].
Defined.

Lemma free_does_not_merge_witness : exists s1 s2,
  allocate [] 4096 (MemoryManager (fun _ => 7) 0x10000000 (16 * 4096)) = (Some 0x10000000, s1) /\
  s2 = mm_free 0x10000000 s1 /\ live s2 = [] /\ fst (allocate [] (16 * 4096) s2) = None.
Proof. apply (free_does_not_merge (fun _ => 7) 0x10000000 16); lia. Defined.
