(* ===== verification/MemoryThreads.v ===== *)
(** [src/sw/src/fpga/MemoryManager.cpp] with several threads: [allocate] runs
    under [memoryMutex], [free] does not take it, and the two meet in the
    atomic flag [free] and in the [next] pointers.

    Each access to data that another thread can see at that time is a step of
    its own, and the steps of the threads interleave in any order.  The
    following are one step, because nobody else accesses the data meanwhile:
    reading [size] after [free] in [allocate] (sizes are written under the
    lock only), and the creation of the chunk that is split off with the
    assignments of [current->size] and [nchunk->next] (the new chunk is not
    reachable, and only the lock holder and the owner of a chunk read its
    size). *)
From stdpp Require Import gmap.
From S2P Require Import Prelude MemoryManager.

(** ** State *)

(** A chunk object with its [next] pointer; objects are never deleted while
    the manager exists. *)
Record node := Node { chunk : MemChunk; next : option nat }.

(** The objects, the first of which is number 0, the bytes of the process memory
    and the holder of [memoryMutex]. *)
Record shared := Shared { heap : gmap nat node; mem : Z -> Z; lock : option nat }.

(** Where a thread is: [allocate(n)] at the lock, at the test of [free] and
    [size], at [compare_exchange_weak], at [current = current->next], after the
    acquisition, before [current->next = nchunk], and before the return;
    [free(p)] at the comparison, at [memset], at [free = true] and at
    [current = current->next]. *)
Inductive pc :=
  | Idle
  | ALock (n : Z) | ATest (n : Z) (cur : nat) (exp : bool) | ACas (n : Z) (cur : nat) (exp : bool)
  | ANext (n : Z) (cur : nat) (exp : bool) | ASplit (n : Z) (cur : nat) | APublish (n : Z) (cur new : nat)
  | AReturn (n : Z) (cur : nat)
  | FTest (p : Z) (cur : nat) | FClear (p : Z) (cur : nat) | FStore (p : Z) (cur : nat) | FNext (p : Z) (cur : nat).

(** [owned] are the chunks whose addresses the client has and may use, and
    [freeing] is the chunk it has passed to [free] and that is not yet free. *)
Record thread := Thread { at_pc : pc; owned : list nat; freeing : option nat }.

(** ** Steps *)

(** Sizes that [roundedSize] neither overflows on nor maps to 0. *)
Definition valid_size (n : Z) : Prop := 0 < n <= 2 ^ 64 - 4096.

Definition set_free (b : bool) (c : node) : node := Node (Chunk (addr (chunk c)) (size (chunk c)) b) (next c).
Definition set_next (j : nat) (c : node) : node := Node (chunk c) (Some j).

(** The two parts of a chunk that is split after [r] bytes. *)
Definition low_part (r : Z) (c : node) : node := Node (Chunk (addr (chunk c)) r (free (chunk c))) (next c).
Definition high_part (r : Z) (c : node) : node :=
  Node (Chunk (addr (chunk c) + r) (size (chunk c) - r) true) (next c).

Definition split_chunk (h : gmap nat node) (cur new : nat) (c : node) (r : Z) : gmap nat node :=
  <[new := high_part r c]> (<[cur := low_part r c]> h).

Section steps.
(** The number of the thread. *)
Variable i : nat.

Inductive tstep : shared -> thread -> shared -> thread -> Prop :=
  (** The client: it allocates a positive size, frees what it owns, and writes
      to it. *)
  | t_alloc n o s : valid_size n ->
      tstep s (Thread Idle o None) s (Thread (ALock n) o None)
  | t_free o1 o2 g c s : heap s !! g = Some c ->
      tstep s (Thread Idle (o1 ++ g :: o2) None) s (Thread (FTest (addr (chunk c)) 0) (o1 ++ o2) (Some g))
  | t_write o g c x v s : heap s !! g = Some c -> g ∈ o -> inside (chunk c) x ->
      tstep s (Thread Idle o None) (Shared (heap s) (fun y => if y =? x then v else mem s y) (lock s)) (Thread Idle o None)
  (** [allocate] *)
  | t_lock n o h m : tstep (Shared h m None) (Thread (ALock n) o None)
      (Shared h m (Some i)) (Thread (ATest n 0 true) o None)
  | t_test_yes n cur exp c o s : heap s !! cur = Some c -> free (chunk c) = true -> roundedSize n <= size (chunk c) ->
      tstep s (Thread (ATest n cur exp) o None) s (Thread (ACas n cur exp) o None)
  | t_test_no n cur exp c o s : heap s !! cur = Some c -> free (chunk c) = false \/ size (chunk c) < roundedSize n ->
      tstep s (Thread (ATest n cur exp) o None) s (Thread (ANext n cur exp) o None)
  | t_cas_yes n cur exp c o h m l : h !! cur = Some c -> free (chunk c) = exp ->
      tstep (Shared h m l) (Thread (ACas n cur exp) o None)
        (Shared (<[cur := set_free false c]> h) m l) (Thread (ASplit n cur) o None)
  (** A failed exchange, which may be spurious, loads the flag into [exp]. *)
  | t_cas_no n cur exp c o s : heap s !! cur = Some c ->
      tstep s (Thread (ACas n cur exp) o None) s (Thread (ANext n cur (free (chunk c))) o None)
  | t_next n cur exp c j o s : heap s !! cur = Some c -> next c = Some j ->
      tstep s (Thread (ANext n cur exp) o None) s (Thread (ATest n j exp) o None)
  | t_fail n cur exp c o h m l : h !! cur = Some c -> next c = None ->
      tstep (Shared h m l) (Thread (ANext n cur exp) o None) (Shared h m None) (Thread Idle o None)
  | t_split n cur new c o h m l : h !! cur = Some c -> size (chunk c) > roundedSize n -> h !! new = None ->
      tstep (Shared h m l) (Thread (ASplit n cur) o None)
        (Shared (split_chunk h cur new c (roundedSize n)) m l)
        (Thread (APublish n cur new) o None)
  | t_whole n cur c o s : heap s !! cur = Some c -> size (chunk c) <= roundedSize n ->
      tstep s (Thread (ASplit n cur) o None) s (Thread (AReturn n cur) o None)
  | t_publish n cur new c o h m l : h !! cur = Some c ->
      tstep (Shared h m l) (Thread (APublish n cur new) o None)
        (Shared (<[cur := set_next new c]> h) m l) (Thread (AReturn n cur) o None)
  | t_return n cur o h m l :
      tstep (Shared h m l) (Thread (AReturn n cur) o None) (Shared h m None) (Thread Idle (cur :: o) None)
  (** [free] *)
  | t_match p cur c o f s : heap s !! cur = Some c -> addr (chunk c) = p ->
      tstep s (Thread (FTest p cur) o f) s (Thread (FClear p cur) o f)
  | t_mismatch p cur c o f s : heap s !! cur = Some c -> addr (chunk c) <> p ->
      tstep s (Thread (FTest p cur) o f) s (Thread (FNext p cur) o f)
  | t_clear p cur c o f h m l : h !! cur = Some c ->
      tstep (Shared h m l) (Thread (FClear p cur) o f)
        (Shared h (memset m (addr (chunk c)) 0 (size (chunk c))) l) (Thread (FStore p cur) o f)
  | t_store p cur c o f h m l : h !! cur = Some c ->
      tstep (Shared h m l) (Thread (FStore p cur) o f)
        (Shared (<[cur := set_free true c]> h) m l) (Thread (FNext p cur) o None)
  | t_follow p cur c j o f s : heap s !! cur = Some c -> next c = Some j ->
      tstep s (Thread (FNext p cur) o f) s (Thread (FTest p j) o f)
  | t_end p cur c o f s : heap s !! cur = Some c -> next c = None ->
      tstep s (Thread (FNext p cur) o f) s (Thread Idle o f).
End steps.

Definition pool := list thread.

Inductive step : pool * shared -> pool * shared -> Prop :=
  | step_thread ts us t t' s s' : tstep (length ts) s t s' t' -> step (ts ++ t :: us, s) (ts ++ t' :: us, s').

(** The constructor, and [k] threads. *)
Definition init (m : Z -> Z) (base total : Z) (k : nat) : pool * shared :=
  (replicate k (Thread Idle [] None),
   Shared {[ 0%nat := Node (Chunk base total true) None ]} (memset m base 0 total) None).

(** The number of objects. *)
Definition objects (h : gmap nat node) : nat := stdpp.base.size h.

(** The destructor: [None] is the use of an object that has been deleted.  The
    fuel is the number of rounds of the loop. *)
Fixpoint destroy (fuel : nat) (current : nat) (h : gmap nat node) : option (gmap nat node) :=
  match fuel with
  | O => None
  | S fuel =>
      c ← h !! current;
      let h := delete current h in
      match next c with
      | Some j => destroy fuel j h
      | None => Some h
      end
  end.

(** ** Invariant *)

(** The chunks a thread has exclusive use of. *)
Definition pc_holds (p : pc) : list nat :=
  match p with ASplit _ cur | APublish _ cur _ | AReturn _ cur => [cur] | _ => [] end.

Definition holds (t : thread) : list nat := owned t ++ option_list (freeing t) ++ pc_holds (at_pc t).

Arguments holds : simpl never.

Definition edge (h : gmap nat node) (a b : nat) : Prop := exists c, h !! a = Some c /\ next c = Some b.
Definition reach (h : gmap nat node) : nat -> nat -> Prop := rtc (edge h).

Definition zero (m : Z -> Z) (c : node) : Prop := forall x, inside (chunk c) x -> m x = 0.

Record heap_ok (base total : Z) (s : shared) : Prop := HeapOk {
  ok_disjoint : forall a b c d, heap s !! a = Some c -> heap s !! b = Some d -> a <> b -> disjoint (chunk c) (chunk d);
  ok_inside : forall a c, heap s !! a = Some c ->
    base <= addr (chunk c) /\ addr (chunk c) + size (chunk c) <= base + total /\ 0 < size (chunk c) /\
    (addr (chunk c) - base) mod 4096 = 0;
  ok_next : forall a c j, heap s !! a = Some c -> next c = Some j ->
    exists d, heap s !! j = Some d /\ addr (chunk c) < addr (chunk d);
  ok_zero : forall a c, heap s !! a = Some c -> free (chunk c) = true -> zero (mem s) c;
  ok_head : exists c, heap s !! 0%nat = Some c }.

Definition in_allocate (p : pc) : bool :=
  match p with
  | ATest _ _ _ | ACas _ _ _ | ANext _ _ _ | ASplit _ _ | APublish _ _ _ | AReturn _ _ => true
  | _ => false
  end.

(** The rest of the list after [cur] in [free(p)]: the chunk to be freed is
    still to come, or its address has been passed. *)
Definition ahead (s : shared) (p : Z) (cur : nat) (strict : bool) (f : option nat) : Prop :=
  exists c, heap s !! cur = Some c /\
  match f with
  | Some g => (exists d, heap s !! g = Some d /\ addr (chunk d) = p) /\ reach (heap s) cur g /\ (strict = true -> cur <> g)
  | None => if strict then p <= addr (chunk c) else p < addr (chunk c)
  end.

Definition pc_ok (s : shared) (p : pc) (f : option nat) : Prop :=
  match p with
  | Idle => f = None
  | ALock n => f = None /\ valid_size n
  | ATest n cur exp | ANext n cur exp => f = None /\ valid_size n /\ exp = true /\
      reach (heap s) 0%nat cur /\ exists c, heap s !! cur = Some c
  | ACas n cur exp => f = None /\ valid_size n /\ exp = true /\ reach (heap s) 0%nat cur /\
      exists c, heap s !! cur = Some c /\ free (chunk c) = true /\ roundedSize n <= size (chunk c)
  | ASplit n cur => f = None /\ valid_size n /\
      exists c, heap s !! cur = Some c /\ roundedSize n <= size (chunk c) /\ zero (mem s) c
  | APublish n cur new => f = None /\ valid_size n /\ cur <> new /\
      exists c d, heap s !! cur = Some c /\ heap s !! new = Some d /\ size (chunk c) = roundedSize n /\
        zero (mem s) c /\ next d = next c /\ addr (chunk c) < addr (chunk d)
  | AReturn n cur => f = None /\ valid_size n /\
      exists c, heap s !! cur = Some c /\ size (chunk c) = roundedSize n /\ zero (mem s) c
  | FTest p cur => ahead s p cur false f
  | FNext p cur => ahead s p cur true f
  | FClear p cur => f = Some cur /\ exists c, heap s !! cur = Some c /\ addr (chunk c) = p
  | FStore p cur => f = Some cur /\ exists c, heap s !! cur = Some c /\ addr (chunk c) = p /\ zero (mem s) c
  end.

(** What holds for thread [i]. *)
Record thread_ok (i : nat) (s : shared) (t : thread) : Prop := ThreadOk {
  ok_lock : in_allocate (at_pc t) = true <-> lock s = Some i;
  ok_holds : forall g, g ∈ holds t -> exists c, heap s !! g = Some c /\ free (chunk c) = false /\ reach (heap s) 0%nat g;
  ok_pc : pc_ok s (at_pc t) (freeing t) }.

Record pool_ok (base total : Z) (ts : pool) (s : shared) : Prop := PoolOk {
  ok_heap : heap_ok base total s;
  ok_threads : forall i t, ts !! i = Some t -> thread_ok i s t;
  ok_exclusive : NoDup (ts ≫= holds);
  ok_holder : forall i, lock s = Some i -> is_Some (ts !! i);
  ok_linked : forall g c, heap s !! g = Some c -> reach (heap s) 0%nat g \/
    exists i t n cur, ts !! i = Some t /\ at_pc t = APublish n cur g }.

(** ** What a step of another thread preserves *)

(** Seen by thread [j], which holds the chunks [hs]. *)
Record stable (j : nat) (hs : list nat) (s s' : shared) : Prop := Stable {
  st_addr : forall a c, heap s !! a = Some c -> exists c', heap s' !! a = Some c' /\ addr (chunk c') = addr (chunk c);
  st_held : forall a c c', a ∈ hs -> heap s !! a = Some c -> heap s' !! a = Some c' ->
    size (chunk c') = size (chunk c) /\ free (chunk c') = free (chunk c) /\ (zero (mem s) c -> zero (mem s') c');
  st_reach : forall a b, reach (heap s) a b -> reach (heap s') a b;
  st_mine : lock s = Some j -> forall a c c', heap s !! a = Some c -> heap s' !! a = Some c' ->
    size (chunk c') = size (chunk c) /\ next c' = next c /\ (free (chunk c) = true -> free (chunk c') = true);
  st_lock : lock s = Some j <-> lock s' = Some j }.

Lemma ahead_stable j hs s s' p cur b f : stable j hs s s' -> ahead s p cur b f -> ahead s' p cur b f.
Proof.
  intros H (c & Hc & Hf). destruct (st_addr _ _ _ _ H cur c Hc) as (c' & Hc' & Ha).
  exists c'. split; [done|]. destruct f as [g|]; [|by rewrite Ha].
  destruct Hf as ((d & Hd & Hp) & Hr & Hne). destruct (st_addr _ _ _ _ H g d Hd) as (d' & Hd' & Hp').
  split_and!; [exists d'; by rewrite Hp' | by apply (st_reach _ _ _ _ H) | done].
Qed.

Lemma pc_stable j hs s s' p f : stable j hs s s' -> (in_allocate p = true -> lock s = Some j) ->
  (forall g, g ∈ option_list f ++ pc_holds p -> g ∈ hs) -> pc_ok s p f -> pc_ok s' p f.
Proof.
  intros H Hin Hhs Hp. pose proof (st_reach _ _ _ _ H) as Hreach.
  assert (Hmine : in_allocate p = true -> forall a c, heap s !! a = Some c -> exists c',
    heap s' !! a = Some c' /\ addr (chunk c') = addr (chunk c) /\ size (chunk c') = size (chunk c) /\ next c' = next c /\
    (free (chunk c) = true -> free (chunk c') = true)).
  { intros Ha a c Hc. destruct (st_addr _ _ _ _ H a c Hc) as (c' & Hc' & Had).
    destruct (st_mine _ _ _ _ H (Hin Ha) a c c' Hc Hc') as (? & ? & ?). eauto 10. }
  assert (Hzero : forall a c c', a ∈ option_list f ++ pc_holds p -> heap s !! a = Some c -> heap s' !! a = Some c' ->
    zero (mem s) c -> zero (mem s') c').
  { intros a c c' Ha Hc Hc'. apply (st_held _ _ _ _ H a c c' (Hhs a Ha) Hc Hc'). }
  clear Hin Hhs. destruct p as [|n|n cur e|n cur e|n cur e|n cur|n cur new|n cur|p cur|p cur|p cur|p cur]; cbn in *; try done.
  - destruct Hp as (? & ? & ? & ? & c & Hc). destruct (Hmine eq_refl _ c Hc) as (c' & ? & _). eauto 10.
  - destruct Hp as (? & ? & ? & ? & c & Hc & ? & ?). destruct (Hmine eq_refl _ c Hc) as (c' & ? & ? & E & ? & ?).
    split_and!; eauto. exists c'. rewrite E. auto.
  - destruct Hp as (? & ? & ? & ? & c & Hc). destruct (Hmine eq_refl _ c Hc) as (c' & ? & _). eauto 10.
  - destruct Hp as (-> & ? & c & Hc & ? & Hz). destruct (Hmine eq_refl _ c Hc) as (c' & Hc' & ? & E & ? & ?).
    split_and!; try done. exists c'. rewrite E. split_and!; try done. apply (Hzero cur c c'); [by left | done..].
  - destruct Hp as (-> & ? & ? & c & d & Hc & Hd & ? & ? & Hn & Hlt).
    destruct (Hmine eq_refl _ c Hc) as (c' & ? & Ea & E & En & ?). destruct (Hmine eq_refl _ d Hd) as (d' & ? & Ea' & E' & En' & ?).
    split_and!; try done. exists c', d'. rewrite E, En, En', Ea, Ea'. split_and!; try done.
    apply (Hzero cur c c'); [by left | done..].
  - destruct Hp as (-> & ? & c & Hc & ? & Hz). destruct (Hmine eq_refl _ c Hc) as (c' & Hc' & ? & E & ? & ?).
    split_and!; try done. exists c'. rewrite E. split_and!; try done. apply (Hzero cur c c'); [by left | done..].
  - by eapply ahead_stable.
  - destruct Hp as (-> & c & Hc & <-). destruct (st_addr _ _ _ _ H cur c Hc) as (c' & ? & ?). eauto 10.
  - destruct Hp as (-> & c & Hc & <- & Hz). destruct (st_addr _ _ _ _ H cur c Hc) as (c' & ? & ?).
    split; [done|]. exists c'. split_and!; try done. apply (Hzero cur c c'); [by left | done..].
  - by eapply ahead_stable.
Qed.

Lemma thread_stable j s s' t : thread_ok j s t -> stable j (holds t) s s' -> thread_ok j s' t.
Proof.
  intros [Hl Hh Hp] H. split.
  - rewrite Hl. apply (st_lock _ _ _ _ H).
  - intros g Hg. destruct (Hh g Hg) as (c & Hc & Hf & Hr). destruct (st_addr _ _ _ _ H g c Hc) as (c' & Hc' & _).
    destruct (st_held _ _ _ _ H g c c' Hg Hc Hc') as (_ & Hf' & _). exists c'.
    split_and!; [done | by rewrite Hf' | by apply (st_reach _ _ _ _ H)].
  - apply (pc_stable j (holds t) s); [done | apply Hl | | done].
    intros g Hg. unfold holds. apply elem_of_app. by right.
Qed.

(** ** Paths *)

Lemma reach_mono h h' x y : (forall a b, edge h a b -> reach h' a b) -> reach h x y -> reach h' x y.
Proof. intros He. induction 1 as [|a b c Hab _ IH]; [done|]. etrans; [by apply He | done]. Qed.

(** The link a path starts with. *)
Lemma reach_next h a b c : h !! a = Some c -> reach h a b -> a <> b -> exists j, next c = Some j /\ reach h j b.
Proof.
  intros Hc H Hne. inversion H as [|? j ? (e & He & Hj) Hr]; subst; [done|].
  rewrite Hc in He. injection He as <-. by exists j.
Qed.

(** A chunk changed in everything but [next]. *)
Lemma reach_insert h a c c' x y : h !! a = Some c -> next c' = next c -> reach h x y -> reach (<[a := c']> h) x y.
Proof.
  intros Hc Hn. apply reach_mono. intros u v (d & Hd & Hv). apply rtc_once. destruct (decide (u = a)) as [-> | Hu].
  - exists c'. rewrite lookup_insert_eq. split; [done|]. rewrite Hc in Hd. injection Hd as <-. by rewrite Hn.
  - exists d. by rewrite lookup_insert_ne.
Qed.

Lemma reach_fresh h a c x y : h !! a = None -> reach h x y -> reach (<[a := c]> h) x y.
Proof.
  intros Ha. apply reach_mono. intros u v (d & Hd & Hv). apply rtc_once. exists d.
  rewrite lookup_insert_ne; [done|]. by intros ->; rewrite Ha in Hd.
Qed.

(** A chunk put into the list after [a]. *)
Lemma reach_publish h a b c d x y : h !! a = Some c -> h !! b = Some d -> a <> b -> next d = next c ->
  reach h x y -> reach (<[a := set_next b c]> h) x y.
Proof.
  intros Hc Hd Hab Hn. apply reach_mono. intros u v (e & He & Hv). destruct (decide (u = a)) as [-> | Hu].
  - rewrite Hc in He. injection He as <-. apply (rtc_l _ _ b).
    + exists (set_next b c). by rewrite lookup_insert_eq.
    + apply rtc_once. exists d. rewrite lookup_insert_ne by done. by rewrite Hn.
  - apply rtc_once. exists e. by rewrite lookup_insert_ne.
Qed.

(** ** Changes of the shared state *)

(** A chunk changed in its flag or its link. *)
Lemma heap_ok_insert base total s l cur c c' : heap_ok base total s -> heap s !! cur = Some c ->
  addr (chunk c') = addr (chunk c) -> size (chunk c') = size (chunk c) ->
  (forall j, next c' = Some j -> exists d, heap s !! j = Some d /\ addr (chunk c) < addr (chunk d)) ->
  (free (chunk c') = true -> zero (mem s) c) -> heap_ok base total (Shared (<[cur := c']> (heap s)) (mem s) l).
Proof.
  intros [Hd Hi Hn Hz Hh] Hc Ha Hs Hnext Hfree.
  assert (Hold : forall a d', <[cur := c']> (heap s) !! a = Some d' -> exists d, heap s !! a = Some d /\
    addr (chunk d') = addr (chunk d) /\ size (chunk d') = size (chunk d)).
  { intros a d' [[<- <-] | [_ Hd']]%lookup_insert_Some; eauto. }
  assert (Hnew : forall a d, heap s !! a = Some d -> exists d', <[cur := c']> (heap s) !! a = Some d' /\
    addr (chunk d') = addr (chunk d)).
  { intros a d Hd'. destruct (decide (a = cur)) as [-> | Hne].
    - exists c'. rewrite lookup_insert_eq. rewrite Hc in Hd'. by injection Hd' as <-.
    - exists d. by rewrite lookup_insert_ne. }
  split; cbn.
  - intros a b x y Hx Hy Hab. destruct (Hold a x Hx) as (x' & Hx' & E1 & E2), (Hold b y Hy) as (y' & Hy' & E3 & E4).
    unfold disjoint. rewrite E1, E2, E3, E4. by apply (Hd a b).
  - intros a x Hx. destruct (Hold a x Hx) as (x' & Hx' & -> & ->). by apply (Hi a).
  - intros a x j Hx Hj. apply lookup_insert_Some in Hx as [[<- <-] | [_ Hx]].
    + destruct (Hnext j Hj) as (d & Hd' & Hlt). destruct (Hnew j d Hd') as (d' & ? & E). exists d'. by rewrite Ha, E.
    + destruct (Hn a x j Hx Hj) as (d & Hd' & Hlt). destruct (Hnew j d Hd') as (d' & ? & E). exists d'. by rewrite E.
  - intros a x Hx Hf y Hy. apply lookup_insert_Some in Hx as [[<- <-] | [_ Hx]].
    + apply (Hfree Hf). unfold inside in *. by rewrite <- Ha, <- Hs.
    + by apply (Hz a x).
  - destruct Hh as (d & Hd'). destruct (Hnew 0%nat d Hd') as (d' & ? & _). eauto.
Qed.

(** Only the memory or the lock changes. *)
Lemma heap_ok_mem base total s m l : heap_ok base total s ->
  (forall a c, heap s !! a = Some c -> free (chunk c) = true -> zero (mem s) c -> zero m c) ->
  heap_ok base total (Shared (heap s) m l).
Proof. intros [? ? ? Hz ?] Hm. split; cbn; [done..| | done]. intros a c Hc Hf. eauto. Qed.

Lemma heap_ok_lock base total s l : heap_ok base total s -> heap_ok base total (Shared (heap s) (mem s) l).
Proof. intros H. by apply heap_ok_mem. Qed.

(** A chunk is split. *)
Lemma split_lookup h cur new c r a d : split_chunk h cur new c r !! a = Some d ->
  (a = new /\ d = high_part r c) \/ (a = cur /\ d = low_part r c) \/ (a <> new /\ a <> cur /\ h !! a = Some d).
Proof. unfold split_chunk. intros [[<- <-] | [? [[<- <-] | [? ?]]%lookup_insert_Some]]%lookup_insert_Some; auto. Qed.

Lemma split_exists h cur new c r j d : h !! cur = Some c -> h !! new = None -> h !! j = Some d ->
  exists d', split_chunk h cur new c r !! j = Some d' /\ addr (chunk d') = addr (chunk d).
Proof.
  intros Hc Hnew Hj. assert (j <> new) by (intros ->; by rewrite Hj in Hnew).
  unfold split_chunk. rewrite lookup_insert_ne by done. destruct (decide (j = cur)) as [-> | ?].
  - rewrite lookup_insert_eq. eexists. split; [done|]. rewrite Hc in Hj. by injection Hj as <-.
  - rewrite lookup_insert_ne by done. eauto.
Qed.

Lemma heap_ok_split base total s l cur new c r : heap_ok base total s -> heap s !! cur = Some c ->
  heap s !! new = None -> 0 < r < size (chunk c) -> r mod 4096 = 0 -> zero (mem s) c ->
  heap_ok base total (Shared (split_chunk (heap s) cur new c r) (mem s) l).
Proof.
  intros [Hd Hi Hn Hz Hh] Hc Hnew Hr Hmod Hzero. pose proof (Hi cur c Hc) as (Hb1 & Hb2 & Hpos & Hal).
  assert (Hne : new <> cur) by (intros ->; by rewrite Hc in Hnew).
  assert (Hother : forall a x, a <> cur -> heap s !! a = Some x -> disjoint (chunk x) (chunk c)) by (intros; by apply (Hd a cur)).
  pose proof (split_lookup (heap s) cur new c r) as Hold.
  pose proof (fun j d => split_exists (heap s) cur new c r j d Hc Hnew) as Hex.
  split; cbn.
  - intros a b x y [[-> ->] | [[-> ->] | (Ha1 & Ha2 & Hx)]]%Hold [[-> ->] | [[-> ->] | (Hb3 & Hb4 & Hy)]]%Hold Hab; try done;
      unfold disjoint; cbn; try (by lia);
      try (specialize (Hother _ _ Ha2 Hx); unfold disjoint in Hother; lia);
      try (specialize (Hother _ _ Hb4 Hy); unfold disjoint in Hother; lia).
    by apply (Hd a b).
  - intros a x [[-> ->] | [[-> ->] | (_ & _ & Hx)]]%Hold; cbn.
    + split_and!; try lia. replace (addr (chunk c) + r - base) with ((addr (chunk c) - base) + r) by lia.
      rewrite Z.add_mod, Hal, Hmod by lia. done.
    + split_and!; try lia.
    + by apply (Hi a).
  - assert (Hnc : forall j, next c = Some j -> exists d, heap s !! j = Some d /\ addr (chunk c) + r < addr (chunk d)).
    { intros j Hj. destruct (Hn cur c j Hc Hj) as (d & Hd' & Hlt). exists d. split; [done|].
      assert (j <> cur) by (intros ->; rewrite Hc in Hd'; injection Hd' as <-; lia).
      pose proof (Hother j d H Hd') as Hdis. unfold disjoint in Hdis. pose proof (Hi j d Hd'). lia. }
    intros a x j [[-> ->] | [[-> ->] | (_ & _ & Hx)]]%Hold Hj; cbn in *.
    + destruct (Hnc j Hj) as (d & Hd' & ?). destruct (Hex j d Hd') as (d' & ? & E). exists d'. by rewrite E.
    + destruct (Hnc j Hj) as (d & Hd' & ?). destruct (Hex j d Hd') as (d' & ? & E). exists d'. rewrite E. split; [done | lia].
    + destruct (Hn a x j Hx Hj) as (d & Hd' & ?). destruct (Hex j d Hd') as (d' & ? & E). exists d'. by rewrite E.
  - intros a x [[-> ->] | [[-> ->] | (_ & _ & Hx)]]%Hold Hf; cbn in *.
    + intros y Hy. apply Hzero. unfold inside in *. cbn in Hy. lia.
    + intros y Hy. apply Hzero. unfold inside in *. cbn in Hy. lia.
    + by apply (Hz a).
  - destruct Hh as (d & Hd'). destruct (Hex 0%nat d Hd') as (d' & ? & _). eauto.
Qed.

Lemma stable_mem j hs s m l :
  (forall a c, a ∈ hs -> heap s !! a = Some c -> zero (mem s) c -> zero m c) ->
  (lock s = Some j <-> l = Some j) -> stable j hs s (Shared (heap s) m l).
Proof.
  intros Hm Hl. split; cbn; [eauto | | done | | done].
  - intros a c c' Ha Hc Hc'. rewrite Hc in Hc'. injection Hc' as <-. eauto.
  - intros Hj a c c' Hc Hc'. rewrite Hc in Hc'. by injection Hc' as <-.
Qed.

Lemma stable_insert j hs s cur c c' : heap s !! cur = Some c -> cur ∉ hs ->
  addr (chunk c') = addr (chunk c) -> size (chunk c') = size (chunk c) ->
  (forall x y, reach (heap s) x y -> reach (<[cur := c']> (heap s)) x y) ->
  (lock s = Some j -> next c' = next c /\ (free (chunk c) = true -> free (chunk c') = true)) ->
  stable j hs s (Shared (<[cur := c']> (heap s)) (mem s) (lock s)).
Proof.
  intros Hc Hcur Ha Hs Hr Hl. split; cbn; [| | done | | done].
  - intros a d Hd. destruct (decide (a = cur)) as [-> | Hne].
    + exists c'. rewrite lookup_insert_eq. rewrite Hc in Hd. by injection Hd as <-.
    + exists d. by rewrite lookup_insert_ne.
  - intros a d d' Hin Hd Hd'. rewrite lookup_insert_ne in Hd' by (by intros ->). rewrite Hd in Hd'. by injection Hd' as <-.
  - intros Hj a d d' Hd [[<- <-] | [_ Hd']]%lookup_insert_Some.
    + rewrite Hc in Hd. injection Hd as <-. destruct (Hl Hj). auto.
    + rewrite Hd in Hd'. by injection Hd' as <-.
Qed.

Lemma reach_split h cur new c r x y : h !! cur = Some c -> h !! new = None -> reach h x y ->
  reach (split_chunk h cur new c r) x y.
Proof.
  intros Hc Hnew H. apply reach_fresh; [|by apply (reach_insert _ _ c)].
  rewrite lookup_insert_ne; [done|]. intros ->. by rewrite Hc in Hnew.
Qed.

Lemma stable_split j hs s cur new c r : heap s !! cur = Some c -> heap s !! new = None -> cur ∉ hs ->
  lock s <> Some j -> stable j hs s (Shared (split_chunk (heap s) cur new c r) (mem s) (lock s)).
Proof.
  intros Hc Hnew Hcur Hl. split; cbn; [| | | done | done].
  - intros a d Hd. by apply split_exists.
  - intros a d d' Hin Hd [[-> _] | [[-> _] | (_ & _ & Hd')]]%split_lookup; [by rewrite Hd in Hnew | done|].
    rewrite Hd in Hd'. by injection Hd' as <-.
  - intros a b. by apply reach_split.
Qed.

(** ** Every step preserves the invariant *)

Lemma holds_pc t g : g ∈ pc_holds (at_pc t) -> g ∈ holds t.
Proof. intros H. unfold holds. rewrite !elem_of_app. auto. Qed.

Lemma holds_freeing t g : freeing t = Some g -> g ∈ holds t.
Proof. intros H. unfold holds. rewrite H, !elem_of_app. right. left. by left. Qed.

Lemma holds_owned t g : g ∈ owned t -> g ∈ holds t.
Proof. intros H. unfold holds. rewrite !elem_of_app. auto. Qed.

Section preserve.
Variables (base total : Z).

(** The chunks held after a step are among those held before, but for one that
    was free. *)
Lemma tstep_holds i s t s' t' : tstep i s t s' t' -> thread_ok i s t ->
  holds t' ⊆+ holds t \/ exists g c, heap s !! g = Some c /\ free (chunk c) = true /\
    heap s' !! g = Some (set_free false c) /\ reach (heap s) 0%nat g /\ holds t' ≡ₚ g :: holds t.
Proof.
  intros H [_ _ Hp]. destruct H; cbn in Hp; unfold holds; cbn; try (by left); rewrite ?app_nil_r.
  - left. rewrite <- app_assoc. apply Permutation_submseteq. solve_Permutation.
  - right. destruct Hp as (_ & _ & -> & ? & d & Hd & Hf & _). rewrite H in Hd. injection Hd as <-.
    exists cur, c. split_and!; [done..| by rewrite lookup_insert_eq | done |]. solve_Permutation.
  - left. apply Permutation_submseteq. solve_Permutation.
  - left. by apply submseteq_inserts_r.
Qed.

(** What another thread sees of a step. *)
Lemma tstep_stable i s t s' t' j hs : tstep i s t s' t' -> heap_ok base total s -> thread_ok i s t -> j <> i ->
  (forall g, g ∈ hs -> (g ∉ holds t) /\ exists c, heap s !! g = Some c /\ free (chunk c) = false) ->
  stable j hs s s'.
Proof.
  intros H Hok [Hlk Hh Hp] Hji Hhs.
  assert (Hrefl : forall s, stable j hs s s) by (intros [h m l]; by apply (stable_mem j hs (Shared h m l))).
  assert (Hmine : in_allocate (at_pc t) = true -> lock s <> Some j) by (intros E%Hlk ?; congruence).
  destruct H as [| | | n o h m | | | n cur exp c o h m l Hc Hf | | |n cur exp c o h m l Hc Hn |n cur new c o h m l Hc Hs Hnew |
    | n cur new c o h m l Hc | n cur o h m l | | | p cur c o f h m l Hc | p cur c o f h m l Hc | |]; cbn in *; auto.
  - apply (stable_mem j hs s); [|done]. intros a d Ha Hd Hz y Hy. destruct (Z.eqb_spec y x) as [-> | ?]; [|by apply Hz].
    destruct (Hhs a Ha) as [Hno _]. exfalso. destruct (decide (a = g)) as [-> | Hne].
    + by apply Hno, holds_owned.
    + pose proof (ok_disjoint _ _ _ Hok a g d c Hd H Hne) as Hdis. unfold disjoint, inside in *. lia.
  - apply (stable_mem j hs (Shared h m None)); cbn; [done|]. split; [done | congruence].
  - apply (stable_insert j hs (Shared h m l) cur c); cbn; try done.
    + intros Hin. destruct Hp as (_ & _ & -> & _). destruct (Hhs cur Hin) as (_ & d & Hd & Hfd). congruence.
    + intros x y. by apply reach_insert with (c := c).
    + intros E. by destruct (Hmine eq_refl).
  - apply (stable_mem j hs (Shared h m l)); cbn; [done|]. split; [intros E; by destruct (Hmine eq_refl) | done].
  - apply (stable_split j hs (Shared h m l)); cbn; try done; [|by apply Hmine].
    intros Hin. destruct (Hhs cur Hin) as [Hno _]. apply Hno, holds_pc. by left.
  - destruct Hp as (_ & _ & Hne & c' & d & Hc' & Hd & _ & _ & Hnext & _). rewrite Hc in Hc'. injection Hc' as <-.
    apply (stable_insert j hs (Shared h m l) cur c); cbn; try done.
    + intros Hin. destruct (Hhs cur Hin) as [Hno _]. apply Hno, holds_pc. by left.
    + intros x y. by apply reach_publish with d.
    + intros E. by destruct (Hmine eq_refl).
  - apply (stable_mem j hs (Shared h m l)); cbn; [done|]. split; [intros E; by destruct (Hmine eq_refl) | done].
  - apply (stable_mem j hs (Shared h m l)); cbn; [|done]. intros a d _ _ Hz y Hy. unfold memset.
    destruct (_ && _); [done | by apply Hz].
  - apply (stable_insert j hs (Shared h m l) cur c); cbn; try done.
    + destruct Hp as (-> & _). intros Hin. destruct (Hhs cur Hin) as [Hno _]. by apply Hno, holds_freeing.
    + intros x y. by apply reach_insert with (c := c).
Qed.

Lemma tstep_heap i s t s' t' : tstep i s t s' t' -> heap_ok base total s -> thread_ok i s t -> heap_ok base total s'.
Proof.
  intros H Hok [Hlk Hh Hp].
  destruct H as [| |o g c x v s Hc Hg Hx | n o h m | | | n cur exp c o h m l Hc Hf | | |n cur exp c o h m l Hc Hn
    |n cur new c o h m l Hc Hs Hnew | | n cur new c o h m l Hc | n cur o h m l | | | p cur c o f h m l Hc
    | p cur c o f h m l Hc | |]; cbn in *; auto.
  - apply (heap_ok_mem base total s); [done|]. intros a d Hd Hfree Hz y Hy. destruct (Z.eqb_spec y x) as [-> | ?]; [|by apply Hz].
    exfalso. destruct (Hh g) as (c' & Hc' & Hf & _); [by apply holds_owned|]. rewrite Hc in Hc'. injection Hc' as <-.
    assert (Hne : a <> g) by (intros ->; congruence).
    pose proof (ok_disjoint _ _ _ Hok a g d c Hd Hc Hne). unfold disjoint, inside in *. lia.
  - by apply (heap_ok_lock base total (Shared h m None)).
  - apply (heap_ok_insert base total (Shared h m l) l cur c); try done. intros j. by apply (ok_next _ _ _ Hok cur c j).
  - by apply (heap_ok_lock base total (Shared h m l)).
  - destruct Hp as (_ & Hn & c' & Hc' & _ & Hz). rewrite Hc in Hc'. injection Hc' as <-.
    destruct (rounded_spec n Hn) as (? & _ & ?). by apply (heap_ok_split base total (Shared h m l)); try lia.
  - destruct Hp as (_ & _ & _ & c' & d & Hc' & Hd & _ & Hz & _ & Hlt). rewrite Hc in Hc'. injection Hc' as <-.
    apply (heap_ok_insert base total (Shared h m l) l cur c); try done. intros j [= <-]. eauto.
  - by apply (heap_ok_lock base total (Shared h m l)).
  - apply (heap_ok_mem base total (Shared h m l)); [done|]. intros a d _ _ Hz y Hy. unfold memset.
    destruct (_ && _); [done | by apply Hz].
  - destruct Hp as (_ & c' & Hc' & _ & Hz). rewrite Hc in Hc'. injection Hc' as <-.
    apply (heap_ok_insert base total (Shared h m l) l cur c); try done. intros j. by apply (ok_next _ _ _ Hok cur c j).
Qed.

(** Paths are never cut. *)
Lemma tstep_reach i s t s' t' x y : tstep i s t s' t' -> thread_ok i s t ->
  reach (heap s) x y -> reach (heap s') x y.
Proof.
  intros H [_ _ Hp]. destruct H; cbn in *; try done.
  - by eapply reach_insert.
  - by apply reach_split.
  - destruct Hp as (_ & _ & Hne & c' & d & Hc' & Hd & _ & _ & Hnext & _). rewrite H in Hc'. injection Hc' as <-.
    by eapply reach_publish.
  - by eapply reach_insert.
Qed.

(** Every chunk is in the list or about to be put there. *)
Lemma tstep_linked i s t s' t' g c : tstep i s t s' t' -> thread_ok i s t -> heap s' !! g = Some c ->
  (forall d, heap s !! g = Some d -> reach (heap s) 0%nat g \/ exists n cur, at_pc t = APublish n cur g) ->
  reach (heap s') 0%nat g \/ exists n cur, at_pc t' = APublish n cur g.
Proof.
  intros H Hok Hg Hold.
  assert (Hkeep : (exists d, heap s !! g = Some d) -> (forall n cur, at_pc t <> APublish n cur g) -> reach (heap s') 0%nat g).
  { intros (d & Hd) Hne. destruct (Hold d Hd) as [Hr | (n & cur & E)]; [by eapply tstep_reach | by destruct (Hne n cur)]. }
  destruct H; cbn in *; try (left; apply Hkeep; [by eauto | done]).
  - left. apply Hkeep; [|done]. destruct (decide (g = cur)) as [-> | ?]; [eauto|]. rewrite lookup_insert_ne in Hg by done. eauto.
  - destruct (decide (g = new)) as [-> | Hne]; [eauto|]. left. apply Hkeep; [|done].
    apply split_lookup in Hg as [[? _] | [[-> _] | (_ & _ & ?)]]; [done | eauto..].
  - left. destruct (decide (g = new)) as [-> | Hne].
    + destruct (ok_holds _ _ _ Hok cur) as (_ & _ & _ & Hr); [by apply holds_pc; left|].
      pose proof (tstep_reach i _ _ _ _ 0%nat cur (t_publish i n cur new c0 o h m l H) Hok Hr) as Hr'.
      etrans; [exact Hr'|].
      apply rtc_once. exists (set_next new c0). cbn. by rewrite lookup_insert_eq.
    + apply Hkeep; [|congruence]. destruct (decide (g = cur)) as [-> | ?]; [eauto|].
      rewrite lookup_insert_ne in Hg by done. eauto.
  - left. apply Hkeep; [|done]. destruct (decide (g = cur)) as [-> | ?]; [eauto|]. rewrite lookup_insert_ne in Hg by done. eauto.
Qed.

(** A chunk in use stays in use, but for the one that is released. *)
Lemma tstep_taken i s t s' t' g c : tstep i s t s' t' -> heap s !! g = Some c -> free (chunk c) = false ->
  (forall p, at_pc t <> FStore p g) -> exists c', heap s' !! g = Some c' /\ free (chunk c') = false.
Proof.
  intros H Hg Hf Hne.
  assert (Hins : forall (h : gmap nat node) cur d d', h !! cur = Some d -> h !! g = Some c -> free (chunk d') = free (chunk d) ->
    exists c', <[cur := d']> h !! g = Some c' /\ free (chunk c') = false).
  { intros h cur d d' Hd Hg' Hfd. destruct (decide (g = cur)) as [-> | ?].
    - exists d'. rewrite lookup_insert_eq, Hfd. rewrite Hd in Hg'. by injection Hg' as ->.
    - exists c. by rewrite lookup_insert_ne. }
  destruct H; cbn in *; eauto.
  - destruct (decide (g = cur)) as [-> | ?]; [exists (set_free false c0) | exists c].
    + by rewrite lookup_insert_eq.
    + by rewrite lookup_insert_ne.
  - unfold split_chunk. rewrite lookup_insert_ne by (intros ->; congruence). by apply (Hins h cur c0).
  - exists c. rewrite lookup_insert_ne; [done|]. intros ->. by apply (Hne p).
Qed.

(** The chunks the thread itself holds after the step. *)
Lemma tstep_held i s t s' t' g : tstep i s t s' t' -> thread_ok i s t -> NoDup (holds t) -> g ∈ holds t' ->
  exists c, heap s' !! g = Some c /\ free (chunk c) = false /\ reach (heap s') 0%nat g.
Proof.
  intros H Hok Hnd Hg.
  assert (Hne : forall p, at_pc t <> FStore p g).
  { intros p Hp. destruct H; try discriminate Hp. injection Hp as -> ->. destruct Hok as [_ _ Hpc]. cbn in Hpc.
    destruct Hpc as (-> & _). unfold holds in Hnd, Hg. cbn in Hnd, Hg. rewrite app_nil_r in Hg.
    apply NoDup_app in Hnd as (_ & Hnd & _). by apply (Hnd g Hg), list_elem_of_singleton. }
  assert (Hold : g ∈ holds t -> exists c, heap s' !! g = Some c /\ free (chunk c) = false /\ reach (heap s') 0%nat g).
  { intros Hin. destruct (ok_holds _ _ _ Hok g Hin) as (c & Hc & Hf & Hr).
    destruct (tstep_taken _ _ _ _ _ g c H Hc Hf Hne) as (c' & ? & ?). exists c'. split_and!; [done..|].
    by eapply tstep_reach. }
  destruct (tstep_holds _ _ _ _ _ H Hok) as [Hsub | (k & c & Hc & Hf & Hs & Hr & Hperm)].
  - by eapply Hold, elem_of_submseteq.
  - rewrite Hperm, elem_of_cons in Hg. destruct Hg as [-> | Hg]; [|by apply Hold].
    exists (set_free false c). split_and!; [done..|]. by eapply tstep_reach.
Qed.

Lemma unique_address s a b c d : heap_ok base total s -> heap s !! a = Some c -> heap s !! b = Some d ->
  addr (chunk c) = addr (chunk d) -> a = b.
Proof.
  intros Hok Hc Hd Ha. destruct (decide (a = b)) as [-> | Hne]; [done|]. exfalso.
  pose proof (ok_disjoint _ _ _ Hok a b c d Hc Hd Hne) as Hdis. unfold disjoint in Hdis.
  pose proof (ok_inside _ _ _ Hok a c Hc). pose proof (ok_inside _ _ _ Hok b d Hd). lia.
Qed.

(** The steps of [allocate]. *)
Lemma tstep_pc_allocate i s t s' t' : tstep i s t s' t' -> heap_ok base total s -> pc_ok s (at_pc t) (freeing t) ->
  in_allocate (at_pc t) = true -> pc_ok s' (at_pc t') (freeing t').
Proof.
  intros H Hok Hp Hin. destruct H; try discriminate Hin; cbn in *; try done.
  - destruct Hp as (? & ? & -> & ? & _). eauto 10.
  - destruct Hp as (? & ? & -> & ? & d & Hd & Hf & Hs). rewrite H in Hd. injection Hd as <-. split_and!; try done.
    exists (set_free false c). rewrite lookup_insert_eq. split_and!; try done. by apply (ok_zero _ _ _ Hok cur c).
  - destruct Hp as (? & ? & -> & ? & d & Hd & Hf & Hs). rewrite H in Hd. injection Hd as <-. eauto 10.
  - destruct Hp as (? & ? & ? & Hr & _). split_and!; try done.
    + etrans; [exact Hr|]. apply rtc_once. by exists c.
    + destruct (ok_next _ _ _ Hok cur c j H H0) as (d & ? & _). eauto.
  - destruct Hp as (? & Hn & d & Hd & _ & Hz). rewrite H in Hd. injection Hd as <-.
    assert (new <> cur) by (intros ->; congruence). destruct (rounded_spec n Hn) as (_ & _ & ?).
    split_and!; try done. exists (low_part (roundedSize n) c), (high_part (roundedSize n) c). unfold split_chunk.
    rewrite lookup_insert_ne, !lookup_insert_eq by done. split_and!; try done; [|cbn; lia].
    intros x Hx. apply Hz. unfold inside in *. cbn in Hx. lia.
  - destruct Hp as (? & Hn & d & Hd & Hs & Hz). rewrite H in Hd. injection Hd as <-. split_and!; try done.
    exists c. split_and!; try done. lia.
  - destruct Hp as (? & Hn & ? & d & ? & Hd & _ & Hs & Hz & _). rewrite H in Hd. injection Hd as <-. split_and!; try done.
    exists (set_next new c). by rewrite lookup_insert_eq.
Qed.

(** The steps of [free]. *)
Lemma tstep_pc_free i s t s' t' : tstep i s t s' t' -> heap_ok base total s -> pc_ok s (at_pc t) (freeing t) ->
  in_allocate (at_pc t) = false -> at_pc t <> Idle -> (forall n, at_pc t <> ALock n) -> pc_ok s' (at_pc t') (freeing t').
Proof.
  intros H Hok Hp Hin Hidle Hlock. destruct H; try discriminate Hin; try done; try (by edestruct Hlock); cbn in *.
  - destruct Hp as (d & Hd & Hf). rewrite H in Hd. injection Hd as <-. destruct f as [g|]; [|lia].
    destruct Hf as ((d & Hd & Hg) & _). rewrite (unique_address s g cur d c) by (done || congruence). eauto.
  - destruct Hp as (d & Hd & Hf). rewrite H in Hd. injection Hd as <-. exists c. split; [done|].
    destruct f as [g|]; [|lia]. destruct Hf as ((d & Hd & Hg) & ? & _). split_and!; eauto. intros _ ->. congruence.
  - destruct Hp as (-> & d & Hd & <-). rewrite H in Hd. injection Hd as <-. split; [done|]. exists c. split_and!; try done.
    intros x Hx. unfold memset, inside in *. cbn in *. by rewrite (proj2 (Z.leb_le _ _)), (proj2 (Z.ltb_lt _ _)) by lia.
  - destruct Hp as (-> & d & Hd & <- & _). rewrite H in Hd. injection Hd as <-. exists (set_free true c).
    cbn. rewrite lookup_insert_eq. split; [done | cbn; lia].
  - destruct Hp as (d & Hd & Hf). rewrite H in Hd. injection Hd as <-.
    destruct (ok_next _ _ _ Hok cur c j H H0) as (d & Hd & Hlt). exists d. split; [done|]. destruct f as [g|]; [|lia].
    destruct Hf as (Hg & Hr & Hne). split_and!; [done | | done].
    destruct (reach_next _ _ _ _ H Hr (Hne eq_refl)) as (k & Hk & Hr'). rewrite H0 in Hk. by injection Hk as ->.
  - destruct Hp as (d & Hd & Hf). rewrite H in Hd. injection Hd as <-. destruct f as [g|]; [|done].
    destruct Hf as (_ & Hr & Hne). destruct (reach_next _ _ _ _ H Hr (Hne eq_refl)) as (k & Hk & _). congruence.
Qed.

Lemma tstep_pc i s t s' t' : tstep i s t s' t' -> heap_ok base total s -> thread_ok i s t ->
  pc_ok s' (at_pc t') (freeing t').
Proof.
  intros H Hok [_ Hh Hp]. destruct (in_allocate (at_pc t)) eqn:E; [by eapply tstep_pc_allocate|].
  pose proof H as H'. destruct H'; try discriminate E; try (by eapply tstep_pc_free); cbn in *; try done.
  - destruct (ok_head _ _ _ Hok) as (c0 & Hc0). exists c0. split; [done|].
    destruct (Hh g) as (d & Hd & _ & Hr); [apply holds_owned; cbn; rewrite elem_of_app, elem_of_cons; auto|]. eauto.
  - destruct Hp as [_ Hn]. destruct (ok_head _ _ _ Hok) as (c0 & Hc0). split_and!; [done.. | apply rtc_refl | by exists c0].
Qed.
Lemma tstep_lock i s t s' t' : tstep i s t s' t' -> (in_allocate (at_pc t) = true <-> lock s = Some i) ->
  (in_allocate (at_pc t') = true <-> lock s' = Some i) /\ (lock s' = lock s \/ lock s' = None \/ lock s' = Some i).
Proof. intros H Hl. destruct H; cbn in *; auto; (split; [by split | auto]). Qed.

Lemma pool_lookup (ts us : pool) t t' i u : (ts ++ t' :: us) !! i = Some u ->
  (i = length ts /\ u = t') \/ (i <> length ts /\ (ts ++ t :: us) !! i = Some u /\ u ∈ ts ++ us).
Proof.
  intros [H | [Hle H]]%lookup_app_Some.
  - right. split; [apply lookup_lt_Some in H; lia|]. split; [by apply lookup_app_l_Some|].
    apply elem_of_app. left. by eapply list_elem_of_lookup_2.
  - apply lookup_cons_Some in H as [[? ->] | [? H]]; [left; split; [lia | done] | right].
    split; [lia|]. split.
    + rewrite lookup_app_r, lookup_cons_ne_0 by lia. rewrite <- H. f_equal. lia.
    + apply elem_of_app. right. by eapply list_elem_of_lookup_2.
Qed.

Lemma exclusive_others (ts us : pool) t u g : NoDup ((ts ++ t :: us) ≫= holds) -> u ∈ ts ++ us ->
  g ∈ holds u -> g ∉ holds t.
Proof.
  rewrite bind_app, bind_cons. intros (Hd1 & Hx1 & (Hd2 & Hx2 & _)%NoDup_app)%NoDup_app [Hu | Hu]%elem_of_app Hg Ht.
  - apply (Hx1 g); [apply list_elem_of_bind; eauto | apply elem_of_app; by left].
  - apply (Hx2 g Ht). apply list_elem_of_bind. eauto.
Qed.

Lemma exclusive_preserved i (ts us : pool) s t s' t' : tstep i s t s' t' -> NoDup ((ts ++ t :: us) ≫= holds) ->
  thread_ok i s t ->
  (forall g u, u ∈ ts ++ us -> g ∈ holds u -> exists c, heap s !! g = Some c /\ free (chunk c) = false) ->
  NoDup ((ts ++ t' :: us) ≫= holds).
Proof.
  rewrite !bind_app, !bind_cons. intros H Hnd Hok Hothers.
  assert (Hperm : forall l : list nat, (ts ≫= holds) ++ l ++ (us ≫= holds) ≡ₚ l ++ (ts ≫= holds) ++ (us ≫= holds))
    by (intros; solve_Permutation).
  rewrite Hperm in Hnd |- *. destruct (tstep_holds _ _ _ _ _ H Hok) as [Hsub | (g & c & Hc & Hf & _ & _ & Hh)].
  - apply submseteq_Permutation in Hsub as (k & Hk). rewrite Hk, <- app_assoc in Hnd.
    apply NoDup_app in Hnd as (Hd & Hx & (_ & _ & Hrest)%NoDup_app). apply NoDup_app. split_and!; [done | | done].
    intros x Hin Hin'. apply (Hx x Hin). apply elem_of_app. by right.
  - rewrite Hh. cbn. apply NoDup_cons. split; [|done]. rewrite !elem_of_app, !list_elem_of_bind.
    assert (Hbad : forall d, heap s !! g = Some d -> free (chunk d) = false -> False) by congruence.
    intros [Hin | [(u & Hin & Hu) | (u & Hin & Hu)]].
    + destruct (ok_holds _ _ _ Hok g Hin) as (d & ? & ? & _). eauto.
    + destruct (Hothers g u) as (d & ? & ?); [by apply elem_of_app; left | done | eauto].
    + destruct (Hothers g u) as (d & ? & ?); [by apply elem_of_app; right | done | eauto].
Qed.

Lemma pool_step_ok ts s ts' s' : step (ts, s) (ts', s') -> pool_ok base total ts s -> pool_ok base total ts' s'.
Proof.
  intros Hstep Hok. inversion Hstep as [ts1 us t t' s1 s1' H]; subst. clear Hstep.
  destruct Hok as [Hheap Hth Hex Hlk Hlinked].
  pose proof (Hth (length ts1) t (list_lookup_middle _ _ _ _ eq_refl)) as Ht.
  assert (Hothers : forall u, u ∈ ts1 ++ us -> forall g, g ∈ holds u -> exists c, heap s !! g = Some c /\ free (chunk c) = false).
  { intros u Hu g Hg. assert (Hin : u ∈ ts1 ++ t :: us) by (rewrite elem_of_app, elem_of_cons in *; tauto).
    apply list_elem_of_lookup in Hin as (k & Hk). destruct (ok_holds _ _ _ (Hth k u Hk) g Hg) as (c & ? & ? & _). eauto. }
  pose proof (tstep_lock _ _ _ _ _ H (ok_lock _ _ _ Ht)) as [Hl Hl'].
  assert (Hndt : NoDup (holds t)) by (rewrite bind_app, bind_cons in Hex; by apply NoDup_app in Hex as (_ & _ & [? _]%NoDup_app)).
  split.
  - by eapply tstep_heap.
  - intros i u [[-> ->] | (Hi & Hu & Hin)]%(pool_lookup ts1 us t).
    + split; [done | intros g; by eapply tstep_held | by eapply tstep_pc].
    + apply (thread_stable i s); [by apply Hth|]. eapply tstep_stable; [done.. |]. intros g Hg.
      split; [by eapply exclusive_others | by eapply Hothers].
  - eapply exclusive_preserved; [done.. |]. intros g u Hu. by apply Hothers.
  - intros i Hi. destruct Hl' as [E | [E | E]]; rewrite E in Hi; [|done|].
    + destruct (Hlk i Hi) as (u & Hu). destruct (decide (i = length ts1)) as [-> | Hne].
      * exists t'. by apply list_lookup_middle.
      * exists u. by apply (pool_lookup ts1 us t' t) in Hu as [[? _] | (_ & ? & _)].
    + injection Hi as <-. exists t'. by apply list_lookup_middle.
  - intros g c Hg.
    assert (Hself : (forall d, heap s !! g = Some d -> reach (heap s) 0%nat g \/ exists n cur, at_pc t = APublish n cur g) ->
      reach (heap s') 0%nat g \/ exists i u n cur, (ts1 ++ t' :: us) !! i = Some u /\ at_pc u = APublish n cur g).
    { intros Hd. destruct (tstep_linked _ _ _ _ _ g c H Ht Hg Hd) as [? | (n & cur & ?)]; [by left | right].
      exists (length ts1), t', n, cur. split; [by apply list_lookup_middle | done]. }
    destruct (heap s !! g) as [d|] eqn:Ed; [|by apply Hself].
    destruct (Hlinked g d Ed) as [Hr | (i & u & n & cur & Hu & E)]; [apply Hself; auto|].
    apply (pool_lookup ts1 us t' t) in Hu as [[-> ->] | (_ & Hu & _)]; [apply Hself; eauto | right; eauto 10].
Qed.

Lemma init_ok m k : 0 < total -> pool_ok base total (init m base total k).1 (init m base total k).2.
Proof.
  intros Ht. split; cbn.
  - split; cbn.
    + intros a b c d [<- <-]%lookup_singleton_Some [<- <-]%lookup_singleton_Some Hab. done.
    + intros a c [<- <-]%lookup_singleton_Some. cbn. split_and!; try lia. by rewrite Z.sub_diag.
    + intros a c j [<- <-]%lookup_singleton_Some. done.
    + intros a c [<- <-]%lookup_singleton_Some _ x Hx. unfold inside, memset in *. cbn in Hx.
      by rewrite (proj2 (Z.leb_le _ _)), (proj2 (Z.ltb_lt _ _)) by lia.
    + eexists. by rewrite lookup_singleton_eq.
  - intros i t [-> _]%lookup_replicate. split; cbn; [done | by intros g Hg%elem_of_nil | done].
  - induction k; [constructor | done].
  - done.
  - intros g c [<- _]%lookup_singleton_Some. left. apply rtc_refl.
Qed.

Lemma pool_reachable_ok m k ts s : 0 < total -> rtc step (init m base total k) (ts, s) -> pool_ok base total ts s.
Proof.
  intros Ht H. pose proof (init_ok m k Ht) as Hinit. revert Hinit.
  remember (ts, s) as e eqn:Ee. change ts with (ts, s).1. change s with (ts, s).2 at 2. rewrite <- Ee. clear Ee.
  induction H as [|[ts1 s1] [ts2 s2] e Hstep _ IH]; [done|]. intros Hok. apply IH. cbn in *. by eapply pool_step_ok.
Qed.
End preserve.

(** A thread that does not wait for the lock can take a step. *)
Lemma running_step base total i s t : heap_ok base total s -> thread_ok i s t -> at_pc t <> Idle ->
  (forall n, at_pc t = ALock n -> lock s = None) -> exists s' t', tstep i s t s' t'.
Proof.
  intros Hok [_ _ Hp] Hidle Hlock. destruct s as [h m l], t as [p o f].
  destruct p as [|n|n cur e|n cur e|n cur e|n cur|n cur new|n cur|p cur|p cur|p cur|p cur]; cbn in *; try done.
  - destruct Hp as [-> _]. rewrite (Hlock n eq_refl). eauto using tstep.
  - destruct Hp as (-> & _ & _ & _ & c & Hc). destruct (free (chunk c)) eqn:Ef; [|eauto using tstep].
    destruct (Z.le_gt_cases (roundedSize n) (size (chunk c))); [eauto using tstep|]. do 2 eexists.
    apply (t_test_no i n cur e c); [done | right; lia].
  - destruct Hp as (-> & _ & _ & _ & c & Hc & _). do 2 eexists. by apply (t_cas_no i n cur e c).
  - destruct Hp as (-> & _ & _ & _ & c & Hc). destruct (next c) as [j|] eqn:En; eauto using tstep.
  - destruct Hp as (-> & _ & c & Hc & _). destruct (Z.le_gt_cases (size (chunk c)) (roundedSize n)); [eauto using tstep|].
    do 2 eexists. apply (t_split i n cur (fresh (dom h)) c); [done | lia | apply not_elem_of_dom, is_fresh].
  - destruct Hp as (-> & _ & _ & c & d & Hc & _). eauto using tstep.
  - destruct Hp as (-> & _). eauto using tstep.
  - destruct Hp as (c & Hc & _). destruct (decide (addr (chunk c) = p)); eauto using tstep.
  - destruct Hp as (_ & c & Hc & _). eauto using tstep.
  - destruct Hp as (_ & c & Hc & _). eauto using tstep.
  - destruct Hp as (c & Hc & _). destruct (next c) as [j|] eqn:En; eauto using tstep.
Qed.

(** ** Properties *)

Lemma nodup_owned (ts : pool) : NoDup (ts ≫= holds) -> NoDup (ts ≫= owned).
Proof.
  intros H. refine (sublist_NoDup _ _ H _). clear H. induction ts as [|t ts IH]; [done|]. rewrite !bind_cons.
  apply sublist_app; [|done]. unfold holds. by apply sublist_inserts_r.
Qed.

(** C15: For clients that keep to the protocol of [tstep] - they ask for 1 to 2^64 - 4096 bytes, free only
    chunks they own, once, and write only to these; a request for 0 bytes would break the
    property ([allocate_zero_aliases]) - and however the calls of several threads interleave, [free] running without
    the lock, and whichever exchanges fail spuriously: no chunk is in the
    hands of two clients or twice in those of one, every chunk a client has
    is taken, page aligned and inside the buffer, and two of them are disjoint. *)
Theorem concurrent_allocations_disjoint m base total k ts s : 0 < total ->
  rtc step (init m base total k) (ts, s) ->
  NoDup (ts ≫= owned) /\
  (forall g, g ∈ ts ≫= owned -> exists c, heap s !! g = Some c /\ free (chunk c) = false /\
     base <= addr (chunk c) /\ addr (chunk c) + size (chunk c) <= base + total /\ (addr (chunk c) - base) mod 4096 = 0) /\
  (forall g g' c c', g ∈ ts ≫= owned -> g' ∈ ts ≫= owned -> g <> g' -> heap s !! g = Some c -> heap s !! g' = Some c' ->
     disjoint (chunk c) (chunk c')).
Proof.
  intros Ht H. destruct (pool_reachable_ok base total m k ts s Ht H) as [Hheap Hth Hex _ _]. split_and!.
  - by apply nodup_owned.
  - intros g (t & Hg & Hin)%list_elem_of_bind. apply list_elem_of_lookup in Hin as (i & Hi).
    destruct (ok_holds _ _ _ (Hth i t Hi) g (holds_owned t g Hg)) as (c & Hc & Hf & _).
    destruct (ok_inside _ _ _ Hheap g c Hc) as (? & ? & _ & ?). eauto 10.
  - intros g g' c c' _ _ Hne Hc Hc'. by apply (ok_disjoint _ _ _ Hheap g g').
Qed.

(** When [allocate(n)] returns, its chunk has at least [n] bytes, all of them
    zero, and nobody else uses it; a call of [free] that has ended has
    released the chunk it was given. *)
Theorem concurrent_allocate_zeroed m base total k ts s i t : 0 < total ->
  rtc step (init m base total k) (ts, s) -> ts !! i = Some t ->
  (forall n cur, at_pc t = AReturn n cur -> exists c, heap s !! cur = Some c /\ n <= size (chunk c) /\
     (forall x, inside (chunk c) x -> mem s x = 0) /\ forall j u, ts !! j = Some u -> j <> i -> cur ∉ holds u) /\
  (at_pc t = Idle -> freeing t = None).
Proof.
  intros Ht H Hi. destruct (pool_reachable_ok base total m k ts s Ht H) as [Hheap Hth Hex _ _].
  pose proof (ok_pc _ _ _ (Hth i t Hi)) as Hp. split; [|by intros E; rewrite E in Hp].
  intros n cur E. rewrite E in Hp. destruct Hp as (_ & Hn & c & Hc & Hs & Hz). destruct (rounded_spec n Hn) as (_ & ? & _).
  exists c. split_and!; [done | lia | done |]. intros j u Hu Hne Hin.
  apply list_elem_of_split_length in Hi as (ts1 & us & -> & ->).
  apply (pool_lookup ts1 us t t) in Hu as [[-> _] | (_ & _ & Hu)]; [done|].
  apply (exclusive_others ts1 us t u cur Hex Hu Hin), holds_pc. rewrite E. by left.
Qed.

(** C32: The threads of clients that keep to the protocol of [tstep] never block each other for good: as long as a call is running,
    a thread with a running call can take a step. *)
Theorem concurrent_calls_progress m base total k ts s t : 0 < total ->
  rtc step (init m base total k) (ts, s) -> t ∈ ts -> at_pc t <> Idle ->
  exists i u s' u', ts !! i = Some u /\ at_pc u <> Idle /\ tstep i s u s' u'.
Proof.
  intros Ht H Hin Hrun. destruct (pool_reachable_ok base total m k ts s Ht H) as [Hheap Hth _ Hlk _].
  assert (Hgo : exists i u, ts !! i = Some u /\ at_pc u <> Idle /\ (forall n, at_pc u = ALock n -> lock s = None)).
  { destruct (lock s) as [i|] eqn:E.
    - destruct (Hlk i eq_refl) as (u & Hu). exists i, u. apply (ok_lock _ _ _ (Hth i u Hu)) in E.
      split_and!; [done | by intros Ei; rewrite Ei in E | intros n Ei; by rewrite Ei in E].
    - apply list_elem_of_lookup in Hin as (i & Hi). by exists i, t. }
  destruct Hgo as (i & u & Hu & Hidle & Hlock). exists i, u.
  destruct (running_step base total i s u Hheap (Hth i u Hu) Hidle Hlock) as (s' & u' & ?). by exists s', u'.
Qed.

(** ** The destructor *)

Lemma reach_increases base total s a b c d : heap_ok base total s -> reach (heap s) a b ->
  heap s !! a = Some c -> heap s !! b = Some d -> addr (chunk c) <= addr (chunk d).
Proof.
  intros Hok H. revert c. induction H as [|a k b (e & He & Hk) _ IH]; intros c Hc Hd; [by simplify_eq|].
  rewrite Hc in He. injection He as <-. destruct (ok_next _ _ _ Hok a c k Hc Hk) as (x & Hx & ?). specialize (IH x Hx Hd). lia.
Qed.

Lemma reach_exists base total s a b : heap_ok base total s -> reach (heap s) a b -> is_Some (heap s !! a) ->
  is_Some (heap s !! b).
Proof.
  intros Hok H. induction H as [|a j b (e & He & Hj) _ IH]; [done|]. intros _. apply IH.
  destruct (ok_next _ _ _ Hok a e j He Hj) as (d & ? & _). eauto.
Qed.

(** The chunks [r] that are left when the loop is at [cur] are those of the list
    from [cur] on. *)
Lemma destroy_all base total s r n cur : heap_ok base total s -> r ⊆ heap s -> is_Some (r !! cur) ->
  (forall g, is_Some (r !! g) <-> reach (heap s) cur g) -> (objects r <= S n)%nat -> destroy (S n) cur r = Some ∅.
Proof.
  intros Hok. revert r cur. induction n as [|n IH]; intros r cur Hsub [c Hc] Hr Hn; cbn; rewrite Hc; cbn;
    pose proof (lookup_weaken _ _ _ _ Hc Hsub) as Hc';
    assert (Hsize : objects r = S (objects (delete cur r))) by
      (unfold objects; rewrite <- (insert_delete_id r cur c Hc) at 1; by rewrite map_size_insert_None by apply lookup_delete_eq).
  - assert (E : delete cur r = ∅) by (apply map_size_empty_iff; unfold objects in *; lia). destruct (next c) as [j|] eqn:En; [|by rewrite E].
    exfalso. destruct (ok_next _ _ _ Hok cur c j Hc' En) as (d & Hd & Hlt).
    assert (Hj : is_Some (r !! j)) by (apply Hr, rtc_once; by exists c).
    assert (Hne : j <> cur) by (intros ->; rewrite Hc' in Hd; injection Hd as <-; lia).
    rewrite <- (lookup_delete_ne r cur j) in Hj by done. rewrite E, lookup_empty in Hj. by destruct Hj.
  - destruct (next c) as [j|] eqn:En.
    + destruct (ok_next _ _ _ Hok cur c j Hc' En) as (d & Hd & Hlt).
      assert (Hpast : forall g, reach (heap s) j g -> g <> cur).
      { intros g Hg ->. pose proof (reach_increases base total s j cur d c Hok Hg Hd Hc'). lia. }
      assert (Hjn : is_Some (r !! j)) by (apply Hr, rtc_once; by exists c).
      apply IH.
      * etrans; [apply delete_subseteq | done].
      * rewrite lookup_delete_ne by (intros ->; by apply (Hpast j); [apply rtc_refl|]). done.
      * intros g. destruct (decide (g = cur)) as [-> | Hg].
        -- rewrite lookup_delete_eq. split; [by intros [] | intros H; by destruct (Hpast cur H)].
        -- rewrite lookup_delete_ne, Hr by done. split; [|intros; apply rtc_l with j; [by exists c | done]].
           intros H. destruct (reach_next _ _ _ _ Hc' H ltac:(done)) as (k & Hk & ?). congruence.
      * lia.
    + f_equal. apply map_empty. intros g. destruct (decide (g = cur)) as [-> | Hg]; [apply lookup_delete_eq|].
      rewrite lookup_delete_ne by done. destruct (r !! g) as [e|] eqn:Eg; [|done].
      assert (H : reach (heap s) cur g) by (apply Hr; eauto).
      destruct (reach_next _ _ _ _ Hc' H ltac:(done)) as (k & Hk & _). congruence.
Qed.

(** ** Executing schedules *)

(** What decides the next step of a thread: the call of an idle client, or
    whether an exchange fails spuriously. *)
Inductive choice := CallAllocate (n : Z) | CallFree (g : nat) | CallWrite (g : nat) (x v : Z) | Go (spurious : bool).

Fixpoint take_out (g : nat) (o : list nat) : option (list nat) :=
  match o with
  | [] => None
  | x :: o => if decide (x = g) then Some o else cons x <$> take_out g o
  end.

Definition execute (i : nat) (ch : choice) (s : shared) (t : thread) : option (shared * thread) :=
  let '(Shared h m l) := s in
  let o := owned t in
  let f := freeing t in
  match at_pc t, f, ch with
  | Idle, None, CallAllocate n =>
      if decide (0 < n /\ n <= 2 ^ 64 - 4096) then Some (s, Thread (ALock n) o None) else None
  | Idle, None, CallFree g =>
      c ← h !! g; o ← take_out g o; Some (s, Thread (FTest (addr (chunk c)) 0) o (Some g))
  | Idle, None, CallWrite g x v =>
      c ← h !! g;
      if decide (g ∈ o /\ inside (chunk c) x) then Some (Shared h (fun y => if y =? x then v else m y) l, Thread Idle o None)
      else None
  | ALock n, None, Go _ => match l with Some _ => None | None => Some (Shared h m (Some i), Thread (ATest n 0 true) o None) end
  | ATest n cur e, None, Go _ =>
      c ← h !! cur;
      Some (s, Thread (if free (chunk c) && (roundedSize n <=? size (chunk c)) then ACas n cur e else ANext n cur e) o None)
  | ACas n cur e, None, Go spurious =>
      c ← h !! cur;
      if Bool.eqb (free (chunk c)) e && negb spurious
      then Some (Shared (<[cur := set_free false c]> h) m l, Thread (ASplit n cur) o None)
      else Some (s, Thread (ANext n cur (free (chunk c))) o None)
  | ANext n cur e, None, Go _ =>
      c ← h !! cur;
      match next c with
      | Some j => Some (s, Thread (ATest n j e) o None)
      | None => Some (Shared h m None, Thread Idle o None)
      end
  | ASplit n cur, None, Go _ =>
      c ← h !! cur;
      if roundedSize n <? size (chunk c) then
        let new := fresh (dom h) in
        Some (Shared (split_chunk h cur new c (roundedSize n)) m l, Thread (APublish n cur new) o None)
      else Some (s, Thread (AReturn n cur) o None)
  | APublish n cur new, None, Go _ =>
      c ← h !! cur; Some (Shared (<[cur := set_next new c]> h) m l, Thread (AReturn n cur) o None)
  | AReturn n cur, None, Go _ => Some (Shared h m None, Thread Idle (cur :: o) None)
  | FTest p cur, _, Go _ =>
      c ← h !! cur; Some (s, Thread (if addr (chunk c) =? p then FClear p cur else FNext p cur) o f)
  | FClear p cur, _, Go _ =>
      c ← h !! cur; Some (Shared h (memset m (addr (chunk c)) 0 (size (chunk c))) l, Thread (FStore p cur) o f)
  | FStore p cur, _, Go _ =>
      c ← h !! cur; Some (Shared (<[cur := set_free true c]> h) m l, Thread (FNext p cur) o None)
  | FNext p cur, _, Go _ =>
      c ← h !! cur; Some (s, match next c with Some j => Thread (FTest p j) o f | None => Thread Idle o f end)
  | _, _, _ => None
  end.

Lemma take_out_split g o o' : take_out g o = Some o' -> exists o1 o2, o = o1 ++ g :: o2 /\ o' = o1 ++ o2.
Proof.
  revert o'. induction o as [|x o IH]; intros o' H; cbn in H; [done|]. case_decide as E.
  - injection H as <-. subst. by exists [], o.
  - destruct (take_out g o) as [o''|]; [|done]. injection H as <-. destruct (IH o'' eq_refl) as (o1 & o2 & -> & ->).
    by exists (x :: o1), o2.
Qed.

Lemma execute_sound i ch s t s' t' : execute i ch s t = Some (s', t') -> tstep i s t s' t'.
Proof.
  intros H. destruct s as [h m l], t as [p o f].
  destruct p as [|n|n cur e|n cur e|n cur e|n cur|n cur new|n cur|p cur|p cur|p cur|p cur], f as [k|], ch;
    cbn in H; try discriminate H;
    repeat match goal with
      | H : (_ ≫= _) = Some _ |- _ => apply bind_Some in H as (? & ? & H)
      | H : (if decide ?P then _ else _) = Some _ |- _ => destruct (decide P); [|discriminate H]
      end; try (destruct (next _) eqn:?); try (injection H as <- <-; by econstructor).
  - match goal with E : take_out _ _ = Some _ |- _ => apply take_out_split in E as (o1 & o2 & -> & ->) end.
    injection H as <- <-. by constructor.
  - match goal with E : _ /\ _ |- _ => destruct E end. injection H as <- <-. by econstructor.
  - destruct l; [done|]. injection H as <- <-. constructor.
  - injection H as <- <-. destruct (free _ && _) eqn:E; bool_hyps; [by econstructor|].
    eapply t_test_no; [done|]. destruct (free (chunk _)); [right | by left]. by apply Z.leb_gt.
  - destruct (Bool.eqb _ _ && _) eqn:E; injection H as <- <-; [|by econstructor].
    apply andb_true_iff in E as [E%Bool.eqb_prop _]. by econstructor.
  - destruct (Z.ltb_spec (roundedSize n) (size (chunk x))); injection H as <- <-; [|by econstructor].
    eapply t_split; [done | lia | apply not_elem_of_dom, is_fresh].
  - injection H as <- <-. destruct (Z.eqb_spec (addr (chunk x)) p); by econstructor.
  - injection H as <- <-. destruct (Z.eqb_spec (addr (chunk x)) p); by econstructor.
Qed.

(** A schedule names the thread that takes the next step and its choice. *)
Fixpoint execute_all (sched : list (nat * choice)) (ts : pool) (s : shared) : option (pool * shared) :=
  match sched with
  | [] => Some (ts, s)
  | (i, ch) :: sched =>
      t ← ts !! i; '(s, t) ← execute i ch s t; execute_all sched (<[i := t]> ts) s
  end.

Lemma pool_insert (ts us : pool) t t' : <[length ts := t']> (ts ++ t :: us) = ts ++ t' :: us.
Proof. induction ts as [|x ts IH]; [done|]. cbn. by f_equal. Qed.

Lemma execute_all_sound sched ts s cfg : execute_all sched ts s = Some cfg -> rtc step (ts, s) cfg.
Proof.
  revert ts s. induction sched as [|[i ch] sched IH]; intros ts s H; cbn in H; [by injection H as <-|].
  apply bind_Some in H as (t & Ht & H). apply bind_Some in H as ([s' t'] & He & H).
  apply rtc_l with (<[i := t']> ts, s'); [|by apply IH].
  apply list_elem_of_split_length in Ht as (ts1 & us & -> & ->).
  rewrite pool_insert. constructor. by apply execute_sound with ch.
Qed.

(** Thread 1 allocates a page, and while it frees it thread 0 allocates
    another one. *)
Definition race_schedule : list (nat * choice) :=
  let go (i n : nat) := replicate n (i, Go false) in
  [(1%nat, CallAllocate 4096)] ++ go 1%nat 6%nat ++ [(1%nat, CallWrite 0 0x1004 7); (1%nat, CallFree 0)] ++
  [(0%nat, CallAllocate 4096)] ++ go 0%nat 6%nat ++ go 1%nat 5%nat.

Definition race_start : pool * shared := init (fun _ => 0) 0x1000 0x3000 2.

Definition race_end : option (pool * shared) := execute_all race_schedule race_start.1 race_start.2.

Definition race_state : shared := match race_end with Some cfg => cfg.2 | None => race_start.2 end.

Lemma race_run : rtc step race_start
  ([Thread (APublish 4096 1 2) [] None; Thread (FNext 0x1000 1) [] None], race_state).
Proof. apply (execute_all_sound race_schedule). by vm_compute. Qed.

(** The link of a chunk is read without the lock while it is assigned: a state
    is reachable in which one thread is about to assign [current->next] in
    [allocate] and another is about to read the same field in [free].  The field
    is not atomic, so that the program has a data race there. *)
Theorem concurrent_next_race : exists ts s t u n cur new p, rtc step race_start (ts, s) /\
  ts !! 0%nat = Some t /\ at_pc t = APublish n cur new /\ ts !! 1%nat = Some u /\ at_pc u = FNext p cur.
Proof. do 8 eexists. split; [exact race_run | done]. Qed.

(** C33: The destructor, called when no call of clients that keep to the protocol of [tstep] is running any more, terminates, deletes
    every chunk object exactly once and uses none after it has been deleted. *)
Theorem destructor_deletes_all m base total k ts s : 0 < total -> rtc step (init m base total k) (ts, s) ->
  Forall (fun t => at_pc t = Idle) ts -> destroy (objects (heap s)) 0 (heap s) = Some ∅.
Proof.
  intros Ht H Hidle. destruct (pool_reachable_ok base total m k ts s Ht H) as [Hheap _ _ _ Hlinked].
  destruct (ok_head _ _ _ Hheap) as (c & Hc).
  assert (Hs : objects (heap s) <> 0%nat) by (apply map_size_ne_0_lookup; eauto).
  destruct (objects (heap s)) as [|n] eqn:En; [done|].
  apply (destroy_all base total s); [done | done | eauto | | lia]. intros g. split.
  - intros [d Hd]. destruct (Hlinked g d Hd) as [? | (i & t & n' & cur & Hi & E)]; [done|].
    rewrite Forall_lookup in Hidle. by rewrite (Hidle i t Hi) in E.
  - intros Hr. apply (reach_exists base total s 0 g); eauto.
Qed.

(** ** Witnesses *)

(** Two threads own a chunk each. *)
Definition two_owners_schedule : list (nat * choice) :=
  let go (i n : nat) := replicate n (i, Go false) in
  [(1%nat, CallAllocate 4096)] ++ go 1%nat 6%nat ++ [(0%nat, CallAllocate 4096)] ++ go 0%nat 6%nat ++ [(1%nat, CallFree 0)] ++
  go 0%nat 1%nat.

Definition two_owners : option (pool * shared) := execute_all two_owners_schedule race_start.1 race_start.2.
Definition two_owners_state : shared := match two_owners with Some cfg => cfg.2 | None => race_start.2 end.
Definition two_owners_pool : pool := match two_owners with Some cfg => cfg.1 | None => race_start.1 end.

Lemma two_owners_run : rtc step race_start (two_owners_pool, two_owners_state).
Proof. apply (execute_all_sound two_owners_schedule). by vm_compute. Qed.

Example two_owners_pcs : two_owners_pool = [Thread (AReturn 4096 1) [] None; Thread (FTest 0x1000 0) [] (Some 0%nat)].
Proof. by vm_compute. Qed.

Lemma concurrent_allocations_disjoint_witness : NoDup (two_owners_pool ≫= owned).
Proof.
  exact (proj1 (concurrent_allocations_disjoint (fun _ => 0) 0x1000 0x3000 2 two_owners_pool two_owners_state
    ltac:(lia) two_owners_run)).
Defined.

Lemma concurrent_allocate_zeroed_witness : exists c, heap two_owners_state !! 1%nat = Some c /\ 4096 <= size (chunk c).
Proof.
  destruct (concurrent_allocate_zeroed (fun _ => 0) 0x1000 0x3000 2 two_owners_pool two_owners_state 0
    (Thread (AReturn 4096 1) [] None) ltac:(lia) two_owners_run ltac:(by vm_compute)) as [H _].
  destruct (H 4096 1%nat eq_refl) as (c & ? & ? & _). by exists c.
Defined.

Lemma concurrent_calls_progress_witness : exists i u s' u',
  two_owners_pool !! i = Some u /\ at_pc u <> Idle /\ tstep i two_owners_state u s' u'.
Proof.
  apply (concurrent_calls_progress (fun _ => 0) 0x1000 0x3000 2 two_owners_pool two_owners_state
    (Thread (AReturn 4096 1) [] None)); [lia | exact two_owners_run | by left | done].
Defined.

Definition all_idle_schedule : list (nat * choice) := two_owners_schedule ++ (replicate 1 (0%nat, Go false) ++ replicate 8 (1%nat, Go false)).

Definition all_idle : pool * shared :=
  match execute_all all_idle_schedule race_start.1 race_start.2 with Some cfg => cfg | None => race_start end.

Lemma all_idle_run : rtc step race_start (all_idle.1, all_idle.2).
Proof. apply (execute_all_sound all_idle_schedule). by vm_compute. Qed.

Lemma destructor_deletes_all_witness : destroy (objects (heap all_idle.2)) 0 (heap all_idle.2) = Some ∅.
Proof.
  apply (destructor_deletes_all (fun _ => 0) 0x1000 0x3000 2 all_idle.1); [lia | exact all_idle_run | by repeat constructor].
Defined.
