(* ===== verification/Mmio.v ===== *)
(** The effects of the host software: accesses to the memory-mapped registers
    of the device, passing time, undefined behaviour and loops that may not
    end; and the interface [MmioDevice] between the software and the models
    of the register files in [DmaController] and [BenchmarkController]. *)
From S2P Require Import Prelude.

(** A device as the host sees it: 32-bit reads and writes at byte offsets of
    the mapped region, and what happens while the host sleeps. *)
Class MmioDevice (D : Type) := {
  mmio_write : Z -> Z -> D -> D;
  mmio_read : Z -> D -> Z * D;
  elapse : D -> D;
}.

(** The outcome of a computation: it returns, it ends the process ([exit] or
    an exception that nobody catches), its behaviour is undefined, or it is
    still running when the fuel is used up. *)
Inductive outcome (A : Type) := Returns (a : A) | Exits | Undefined | Running.
Arguments Returns {A}.
Arguments Exits {A}.
Arguments Undefined {A}.
Arguments Running {A}.

Definition M (D A : Type) : Type := D -> outcome (A * D).

#[export] Instance M_ret D : MRet (M D) := fun A a d => Returns (a, d).

#[export] Instance M_bind D : MBind (M D) := fun A B f m d =>
  match m d with Returns (a, d) => f a d | Exits => Exits | Undefined => Undefined | Running => Running end.

Definition undefined {D A} : M D A := fun _ => Undefined.
Definition exits {D A} : M D A := fun _ => Exits.
Definition modify {D} (f : D -> D) : M D unit := fun d => Returns (tt, f d).
Definition gets {D A} (f : D -> A) : M D A := fun d => Returns (f d, d).
Definition out_of_fuel {D A} : M D A := fun _ => Running.

(** Reaching the end of a function that promises a value: in C++ this is
    undefined whether or not the caller uses the value. *)
Definition flows_off_end {D A} : M D A := undefined.

(** [for (int i = 0; i < n; ++i)] collecting the values of the body. *)
Fixpoint collect {D A} (body : nat -> M D A) (i n : nat) : M D (list A) :=
  match n with
  | O => mret []
  | S n => x ← body i; l ← collect body (S i) n; mret (x :: l)
  end.

Lemma bind_returns {D A B} (m : M D A) (f : A -> M D B) d a d' :
  m d = Returns (a, d') -> (m ≫= f) d = f a d'.
Proof. intros H. unfold mbind, M_bind. by rewrite H. Qed.

Lemma bind_inv {D A B} (m : M D A) (f : A -> M D B) d b d' : (m ≫= f) d = Returns (b, d') ->
  exists a d1, m d = Returns (a, d1) /\ f a d1 = Returns (b, d').
Proof. unfold mbind, M_bind. destruct (m d) as [[a d1] | | |]; [eauto | done | done | done]. Qed.

(** The address crossbar between the host port and the register blocks, of
    which only the contract is known: the accesses to the 4 KiB above [base]
    reach the block [C], which sees them as its own reads and writes. *)
Class Routed (D C : Type) `{MmioDevice D} (base : Z) (cwrite : Z -> Z -> C -> C) (cread : Z -> C -> Z * C) := {
  block : D -> C;
  route_write : forall a v d, base <= a < base + 4096 -> block (mmio_write a v d) = cwrite a v (block d);
  route_read : forall a d, base <= a < base + 4096 ->
    (mmio_read a d).1 = (cread a (block d)).1 /\ block (mmio_read a d).2 = (cread a (block d)).2;
}.

(** The accesses elsewhere do not change the block. *)
Class Apart (D C : Type) `{routed : Routed D C base cwrite cread} := {
  apart_write : forall a v d, ~ base <= a < base + 4096 -> block (mmio_write a v d) = block d;
  apart_read : forall a d, ~ base <= a < base + 4096 -> block (mmio_read a d).2 = block d;
}.

(** Part [f] of the state is the same when [m] returns. *)
Definition keeps {D X A} (f : D -> X) (m : M D A) : Prop := forall d a d', m d = Returns (a, d') -> f d' = f d.

Section keeps.
Context {D X : Type} (f : D -> X).

Lemma keeps_ret {A} (a : A) : keeps f (mret a).
Proof. by intros d x d' [= _ <-]. Qed.

Lemma keeps_bind {A B} (m : M D A) (g : A -> M D B) : keeps f m -> (forall a, keeps f (g a)) -> keeps f (m ≫= g).
Proof.
  intros Hm Hg d b d' HR. apply bind_inv in HR as (a & d1 & H1 & H2). by rewrite (Hg _ _ _ _ H2), (Hm _ _ _ H1).
Qed.

Lemma keeps_modify g : (forall d, f (g d) = f d) -> keeps f (modify g).
Proof. by intros Hg d a d' [= _ <-]. Qed.

Lemma keeps_gets {A} (g : D -> A) : keeps f (gets g).
Proof. by intros d a d' [= _ <-]. Qed.

Lemma keeps_undefined {A} : keeps f (undefined : M D A).
Proof. done. Qed.

Lemma keeps_exits {A} : keeps f (exits : M D A).
Proof. done. Qed.

Lemma keeps_collect {A} (body : nat -> M D A) : (forall i, keeps f (body i)) -> forall n i, keeps f (collect body i n).
Proof.
  intros Hb. induction n as [|n IH]; intros i; cbn [collect]; [apply keeps_ret|].
  apply keeps_bind; [apply Hb | intros x; apply keeps_bind; [apply IH | intros; apply keeps_ret]].
Qed.
End keeps.

Create HintDb keeps.
#[export] Hint Resolve keeps_ret keeps_gets keeps_undefined keeps_exits keeps_collect : keeps.
#[export] Hint Extern 1 (keeps _ (_ ≫= _)) => apply keeps_bind; [|intros] : keeps.
#[export] Hint Extern 1 (keeps _ (modify _)) => by apply keeps_modify : keeps.
#[export] Hint Extern 2 (keeps _ (if ?b then _ else _)) => destruct b : keeps.
#[export] Hint Extern 2 (keeps _ (match ?x with _ => _ end)) => destruct x : keeps.
