(* ===== verification/FpgaController.v ===== *)
(** [src/sw/src/fpga/FpgaController.h], [src/sw/src/fpga/FpgaController.cpp]:
    the access of the host software to the control registers. *)
From stdpp Require Import strings.
From S2P Require Import Prelude Mmio.

(** ** Data *)

Definition MAP_SIZE : Z := 32 * 1024.

Inductive memoryOp := READ | WRITE.

Definition memoryOp_value (op : memoryOp) : Z := match op with READ => 0 | WRITE => 1 end.

Inductive userCtrlAddr := DDR_BENCH | DMA_BENCH | DEBUG | DDR_BENCH_CYCLES | DMA_BENCH_CYCLES.

Definition userCtrlAddr_value (a : userCtrlAddr) : Z :=
  match a with DDR_BENCH => 2 | DMA_BENCH => 3 | DEBUG => 12 | DDR_BENCH_CYCLES => 13 | DMA_BENCH_CYCLES => 14 end.

Inductive dmaCtrlAddr := TLB | DMA_READS | DMA_WRITES | DMA_STATS.

Definition dmaCtrlAddr_value (a : dmaCtrlAddr) : Z :=
  match a with TLB => 2 | DMA_READS => 10 | DMA_WRITES => 11 | DMA_STATS => 13 end.

Inductive ddrCtrlAddr := DDR_DEBUG | DDR_STATS | DDR_READS | DDR_WRITES.

Definition ddrCtrlAddr_value (a : ddrCtrlAddr) : Z :=
  match a with DDR_DEBUG => 9 | DDR_STATS => 1 | DDR_READS => 2 | DDR_WRITES => 3 end.

Definition numDebugRegs : nat := 0.
Definition RegNames : list string := ["TLB Miss counter"; "TLB Page Boundary crossing counter"].

Definition numDmaStatsRegs : nat := 10.
Definition DmaRegNames : list string :=
  ["DMA write cmd counter"; "DMA write word counter"; "DMA write pkg counter"; "DMA write length counter";
   "DMA read cmd counter"; "DMA read word counter"; "DMA read pkg counter"; "DMA read length counter";
   "TLB Miss counter"; "TLB Page Boundary crossing counter"].

Definition numDdrStatsRegs : nat := 13.
Definition DdrRegNames : list string :=
  ["write cmd counter"; "write word counter"; "write pkg counter"; "write length counter";
   "write status counter"; "write error counter"; "read cmd counter"; "read word counter";
   "read pkg counter"; "read length counter"; "read status counter"; "read error counter"; "datamover errors"].

Definition userRegAddressOffset : Z := 0.
Definition dmaRegAddressOffset : Z := 4096.
Definition ddrRegAddressOffset : list Z := [8192; 12288; 16384; 20480].

(** [(uint64_t) ((uint32_t) addr << 5)] *)
Definition reg_shift (a : Z) : Z := wrap 32 (Z.shiftl a 5).

(** [htols]: [__bswap_16] on a big-endian host. *)
Definition htols (big_endian : bool) (x : Z) : Z :=
  if big_endian then Z.lor (Z.shiftl (range x 7 0) 8) (range x 15 8) else x.

(** ** Register accesses *)

Section controller.
Context {D : Type} `{MmioDevice D}.
Variable big_endian : bool.

(** [*wPtr = v] and [*rPtr] at an offset of [m_base]; an access outside the
    [MAP_SIZE] bytes that are mapped is undefined. *)
Definition store (off v : Z) : M D unit := fun d =>
  if (0 <=? off) && (off + 4 <=? MAP_SIZE) then Returns (tt, mmio_write off v d) else Undefined.

Definition load (off : Z) : M D Z := fun d =>
  if (0 <=? off) && (off + 4 <=? MAP_SIZE) then Returns (mmio_read off d) else Undefined.

Definition sleep : M D unit := fun d => Returns (tt, elapse d).

Definition writeReg_user (a : userCtrlAddr) (value : Z) : M D unit :=
  store (userRegAddressOffset + reg_shift (userCtrlAddr_value a)) (htols big_endian (wrap 32 value)).

Definition writeReg_dma (a : dmaCtrlAddr) (value : Z) : M D unit :=
  store (dmaRegAddressOffset + reg_shift (dmaCtrlAddr_value a)) (htols big_endian (wrap 32 value)).

Definition readReg_user (a : userCtrlAddr) : M D Z :=
  v ← load (userRegAddressOffset + reg_shift (userCtrlAddr_value a)); mret (htols big_endian v).

Definition readReg_dma (a : dmaCtrlAddr) : M D Z :=
  v ← load (dmaRegAddressOffset + reg_shift (dmaCtrlAddr_value a)); mret (htols big_endian v).

(** An index outside [ddrRegAddressOffset] is undefined. *)
Definition readReg_ddr (a : ddrCtrlAddr) (channel : Z) : M D Z :=
  match ddrRegAddressOffset !! Z.to_nat channel with
  | Some base => v ← load (base + reg_shift (ddrCtrlAddr_value a)); mret (htols big_endian v)
  | None => undefined
  end.

(** ** Operations *)

Definition writeTlb (vaddr paddr : Z) (isBase : bool) : M D unit :=
  writeReg_dma TLB vaddr;;
  writeReg_dma TLB (Z.shiftr vaddr 32);;
  writeReg_dma TLB paddr;;
  writeReg_dma TLB (Z.shiftr paddr 32);;
  writeReg_dma TLB (if isBase then 1 else 0).

(** [((upper << 32) | lower)] in [uint64_t]. *)
Definition join64 (lower upper : Z) : Z := Z.lor (wrap 64 (Z.shiftl upper 32)) lower.

(** The [do ... while (lower == 0)] loop that retrieves the execution cycles. *)
Fixpoint poll (fuel : nat) (cycles : userCtrlAddr) : M D Z :=
  match fuel with
  | O => out_of_fuel
  | S fuel =>
      sleep;;
      lower ← readReg_user cycles;
      upper ← readReg_user cycles;
      if lower =? 0 then poll fuel cycles else mret (join64 lower upper)
  end.

Definition runDmaBenchmark (fuel : nat) (baseAddr memorySize numberOfAccesses chunkLength strideLength : Z)
    (op : memoryOp) : M D Z :=
  writeReg_user DMA_BENCH baseAddr;;
  writeReg_user DMA_BENCH (Z.shiftr baseAddr 32);;
  writeReg_user DMA_BENCH memorySize;;
  writeReg_user DMA_BENCH (Z.shiftr memorySize 32);;
  writeReg_user DMA_BENCH numberOfAccesses;;
  writeReg_user DMA_BENCH chunkLength;;
  writeReg_user DMA_BENCH strideLength;;
  writeReg_user DMA_BENCH (memoryOp_value op);;
  poll fuel DMA_BENCH_CYCLES.

Definition runDramBenchmark (fuel : nat) (baseAddr memorySize numberOfAccesses chunkLength strideLength : Z)
    (op : memoryOp) (channel : Z) : M D Z :=
  writeReg_user DDR_BENCH baseAddr;;
  writeReg_user DDR_BENCH (Z.shiftr baseAddr 32);;
  writeReg_user DDR_BENCH memorySize;;
  writeReg_user DDR_BENCH (Z.shiftr memorySize 32);;
  writeReg_user DDR_BENCH numberOfAccesses;;
  writeReg_user DDR_BENCH chunkLength;;
  writeReg_user DDR_BENCH strideLength;;
  writeReg_user DDR_BENCH (Z.lor (Z.shiftl channel 1) (memoryOp_value op));;
  poll fuel DDR_BENCH_CYCLES.

(** The public wrappers.  They call the function above and end without a
    [return] statement. *)
Definition runDmaSeqWriteBenchmark fuel baseAddr memorySize numberOfAccesses chunkLength : M D Z :=
  runDmaBenchmark fuel baseAddr memorySize numberOfAccesses chunkLength 0 WRITE;; flows_off_end.

Definition runDmaSeqReadBenchmark fuel baseAddr memorySize numberOfAccesses chunkLength : M D Z :=
  runDmaBenchmark fuel baseAddr memorySize numberOfAccesses chunkLength 0 READ;; flows_off_end.

Definition runDmaRandomWriteBenchmark fuel baseAddr memorySize numberOfAccesses chunkLength strideLength : M D Z :=
  runDmaBenchmark fuel baseAddr memorySize numberOfAccesses chunkLength strideLength WRITE;; flows_off_end.

Definition runDmaRandomReadBenchmark fuel baseAddr memorySize numberOfAccesses chunkLength strideLength : M D Z :=
  runDmaBenchmark fuel baseAddr memorySize numberOfAccesses chunkLength strideLength READ;; flows_off_end.

Definition runDramSeqWriteBenchmark fuel baseAddr memorySize numberOfAccesses chunkLength channel : M D Z :=
  runDramBenchmark fuel baseAddr memorySize numberOfAccesses chunkLength 0 WRITE channel;; flows_off_end.

Definition runDramSeqReadBenchmark fuel baseAddr memorySize numberOfAccesses chunkLength channel : M D Z :=
  runDramBenchmark fuel baseAddr memorySize numberOfAccesses chunkLength 0 READ channel;; flows_off_end.

Definition runDramRandomWriteBenchmark fuel baseAddr memorySize numberOfAccesses chunkLength strideLength channel : M D Z :=
  runDramBenchmark fuel baseAddr memorySize numberOfAccesses chunkLength strideLength WRITE channel;; flows_off_end.

Definition runDramRandomReadBenchmark fuel baseAddr memorySize numberOfAccesses chunkLength strideLength channel : M D Z :=
  runDramBenchmark fuel baseAddr memorySize numberOfAccesses chunkLength strideLength READ channel;; flows_off_end.

(** These two only take the lock; the register writes are commented out. *)
Definition setIpAddr (addr : Z) : M D unit := mret tt.
Definition setBoardNumber (num : Z) : M D unit := mret tt.

Definition resetDmaReads : M D unit := writeReg_dma DMA_READS 1.

Definition getDmaReads : M D Z :=
  lower ← readReg_dma DMA_READS; upper ← readReg_dma DMA_READS; mret (join64 lower upper).

Definition resetDmaWrites : M D unit := writeReg_dma DMA_WRITES 1.

Definition getDmaWrites : M D Z :=
  lower ← readReg_dma DMA_WRITES; upper ← readReg_dma DMA_WRITES; mret (join64 lower upper).

(** The lines the print functions write: the name and value of each register. *)
Definition reg_line (names : list string) (read : M D Z) (i : nat) : M D (string * Z) :=
  reg ← read;
  match names !! i with Some name => mret (name, reg) | None => undefined end.

Definition printDebugRegs : M D (list (string * Z)) :=
  collect (reg_line RegNames (readReg_user DEBUG)) 0 numDebugRegs.

Definition printDmaStatsRegs : M D (list (string * Z)) :=
  collect (reg_line DmaRegNames (readReg_dma DMA_STATS)) 0 numDmaStatsRegs.

Definition printDdrStatsRegs (channel : Z) : M D (list (string * Z)) :=
  collect (reg_line DdrRegNames (readReg_ddr DDR_STATS channel)) 0 numDdrStatsRegs.
End controller.

(** Printing the registers behind a cursor: [P i] says that the next read gives
    the value [val i] and moves the cursor on. *)
Lemma collect_cursor {D} (names : list string) (read : M D Z) (val : nat -> Z) (P : nat -> D -> Prop) :
  (forall i d, (i < length names)%nat -> P i d -> exists d', read d = Returns (val i, d') /\ P (S i) d') ->
  forall n i d, (i + n <= length names)%nat -> P i d ->
  exists d', collect (reg_line names read) i n d = Returns ((fun j => (nth j names "", val j)) <$> seq i n, d') /\
    P (i + n)%nat d'.
Proof.
  intros Hread. induction n as [|n IH]; intros i d Hn Hd; [exists d; by rewrite Nat.add_0_r|].
  destruct (Hread i d ltac:(lia) Hd) as (d1 & R1 & P1). destruct (IH (S i) d1 ltac:(lia) P1) as (d2 & R2 & P2).
  exists d2. rewrite Nat.add_succ_r. split; [|done]. cbn [collect seq fmap list_fmap].
  rewrite (bind_returns _ _ d (nth i names "", val i) d1); [by rewrite (bind_returns _ _ _ _ _ R2)|].
  unfold reg_line. rewrite (bind_returns _ _ _ _ _ R1). destruct (lookup_lt_is_Some_2 names i ltac:(lia)) as [name Hname].
  by rewrite Hname, (nth_lookup_Some _ _ _ _ Hname).
Qed.

(** What the accesses leave alone. *)
Section keeps.
Context {D X : Type} `{MmioDevice D} (f : D -> X).

Lemma keeps_store off v : (forall d, f (mmio_write off v d) = f d) -> keeps f (store off v).
Proof. intros Hf d a d'. unfold store. destruct (_ && _); [by intros [= _ <-] | done]. Qed.

Lemma keeps_load off : (forall d, f (mmio_read off d).2 = f d) -> keeps f (load off).
Proof.
  intros Hf d a d'. unfold load. destruct (_ && _); [|done]. intros [= E].
  rewrite <- (Hf d). by rewrite E.
Qed.

Lemma keeps_reg_line names (read : M D Z) : keeps f read -> forall i, keeps f (reg_line names read i).
Proof. unfold reg_line. auto with keeps. Qed.
End keeps.

#[export] Hint Resolve keeps_reg_line : keeps.
