(* ===== verification/DmaController.v ===== *)
(** [src/hdl/common/dma_controller.sv] at the level of bus transactions: the
    registers through which the host programs the TLB and reads the DMA
    statistics; and what the operations of [FpgaController] do to it. *)
From stdpp Require Import strings.
From S2P Require Import Prelude Tlb Mmio FpgaController.

(** ** Definitions *)

(** The counters the controller reports. *)
Record dma_stats := DmaStats {
  dma_write_cmd_counter : Z; dma_write_word_counter : Z; dma_write_pkg_counter : Z; dma_write_length_counter : Z;
  dma_read_cmd_counter : Z; dma_read_word_counter : Z; dma_read_pkg_counter : Z; dma_read_length_counter : Z;
  tlb_miss_counter : Z; tlb_boundary_crossing_counter : Z }.

(** The registers of the module.  [tlb_interface] are the words accepted by
    the TLB so far, [write_resets] and [read_resets] count the pulses on the
    two reset outputs. *)
Record dma_ctrl := DmaCtrl {
  word_counter : Z;
  m_axis_tlb_interface_data : Z;
  tlb_interface : list Z;
  write_resets : nat;
  read_resets : nat;
  debugRegAddr : Z;
  dma_read_length_upper : bool;
  dma_write_length_upper : bool;
  dma_reads_flushed : bool;
  stats : dma_stats }.

Definition reg_index (a : Z) : Z := Z.shiftr (range a 11 0) 5.

(** The states WRITE_DATA and WRITE_TLB: the effect of one write. *)
Definition dma_ctrl_write (awaddr wdata : Z) (s : dma_ctrl) : dma_ctrl :=
  let update wc d out := DmaCtrl wc d out (write_resets s) (read_resets s) (debugRegAddr s)
    (dma_read_length_upper s) (dma_write_length_upper s) (dma_reads_flushed s) (stats s) in
  let d := m_axis_tlb_interface_data s in
  let next := wrap 8 (word_counter s + 1) in
  match reg_index awaddr with
  | 0x02 =>
      match word_counter s with
      | 0 => update next (set_range d 31 0 wdata) (tlb_interface s)
      | 1 => update next (set_range d 63 32 wdata) (tlb_interface s)
      | 2 => update next (set_range d 95 64 wdata) (tlb_interface s)
      | 3 => update next (set_range d 127 96 wdata) (tlb_interface s)
      | 4 => let d := set_range d 128 128 wdata in update 0 d (tlb_interface s ++ [d])
      | _ => update next d (tlb_interface s)
      end
  | 0x0A => DmaCtrl (word_counter s) d (tlb_interface s) (write_resets s) (S (read_resets s)) (debugRegAddr s)
      (dma_read_length_upper s) (dma_write_length_upper s) (dma_reads_flushed s) (stats s)
  | 0x0B => DmaCtrl (word_counter s) d (tlb_interface s) (S (write_resets s)) (read_resets s) (debugRegAddr s)
      (dma_read_length_upper s) (dma_write_length_upper s) (dma_reads_flushed s) (stats s)
  | _ => s
  end.

(** The case over [debugRegAddr]. *)
Definition debug_reg (t : dma_stats) (i : Z) : Z :=
  match i with
  | 0 => dma_write_cmd_counter t
  | 1 => dma_write_word_counter t
  | 2 => dma_write_pkg_counter t
  | 3 => range (dma_write_length_counter t) 31 0
  | 4 => dma_read_cmd_counter t
  | 5 => dma_read_word_counter t
  | 6 => dma_read_pkg_counter t
  | 7 => range (dma_read_length_counter t) 31 0
  | 8 => tlb_miss_counter t
  | 9 => tlb_boundary_crossing_counter t
  | _ => 0
  end.

(** The states READ_IDLE and READ_RESPONSE: the data and effect of one read. *)
Definition dma_ctrl_read (araddr : Z) (s : dma_ctrl) : Z * dma_ctrl :=
  let debug := if debugRegAddr s =? 10 then 0 else debugRegAddr s in
  let update debug ru wu := DmaCtrl (word_counter s) (m_axis_tlb_interface_data s) (tlb_interface s)
    (write_resets s) (read_resets s) debug ru wu (dma_reads_flushed s) (stats s) in
  let ru := dma_read_length_upper s in
  let wu := dma_write_length_upper s in
  match reg_index araddr with
  | 0x0A =>
      (if dma_reads_flushed s then
         if negb ru then range (dma_read_length_counter (stats s)) 31 0
         else range (dma_read_length_counter (stats s)) 47 32
       else 0,
       update debug (negb ru) wu)
  | 0x0B =>
      (if negb wu then range (dma_write_length_counter (stats s)) 31 0
       else range (dma_write_length_counter (stats s)) 47 32,
       update debug ru (negb wu))
  | 0x0D => (debug_reg (stats s) debug, update (wrap 8 (debug + 1)) ru wu)
  | _ => (0xdeadbeef, update debug ru wu)
  end.

(** The [tlbMapping] packed in a word of the TLB interface. *)
Definition mapping_of_word (w : Z) : tlbMapping :=
  TlbMapping (range w 63 0) (range w 127 64) (Z.testbit w 128).

(** What [printDmaStatsRegs] is meant to print. *)
Definition dma_stats_report (t : dma_stats) : list (string * Z) :=
  [("DMA write cmd counter"%string, dma_write_cmd_counter t);
   ("DMA write word counter"%string, dma_write_word_counter t);
   ("DMA write pkg counter"%string, dma_write_pkg_counter t);
   ("DMA write length counter"%string, range (dma_write_length_counter t) 31 0);
   ("DMA read cmd counter"%string, dma_read_cmd_counter t);
   ("DMA read word counter"%string, dma_read_word_counter t);
   ("DMA read pkg counter"%string, dma_read_pkg_counter t);
   ("DMA read length counter"%string, range (dma_read_length_counter t) 31 0);
   ("TLB Miss counter"%string, tlb_miss_counter t);
   ("TLB Page Boundary crossing counter"%string, tlb_boundary_crossing_counter t)].

(** ** The host operations on a board that contains the controller *)

Definition mappings (s : dma_ctrl) : list tlbMapping := mapping_of_word <$> tlb_interface s.

Section host.
Context {D : Type} `{Routed D dma_ctrl 4096 dma_ctrl_write dma_ctrl_read}.

Lemma dma_reg_offset a : 4096 <= dmaRegAddressOffset + reg_shift (dmaCtrlAddr_value a) < 4096 + 4096 /\
  dmaRegAddressOffset + reg_shift (dmaCtrlAddr_value a) + 4 <= MAP_SIZE /\
  reg_index (dmaRegAddressOffset + reg_shift (dmaCtrlAddr_value a)) = dmaCtrlAddr_value a.
Proof. by destruct a. Qed.

Lemma writeReg_dma_block a v d : exists d', writeReg_dma false a v d = Returns (tt, d') /\
  block d' = dma_ctrl_write (dmaRegAddressOffset + reg_shift (dmaCtrlAddr_value a)) (wrap 32 v) (block d).
Proof.
  destruct (dma_reg_offset a) as (Hb & Hm & _). unfold writeReg_dma, store.
  rewrite (proj2 (Z.leb_le _ _)), (proj2 (Z.leb_le _ _)) by lia. cbn [andb].
  eexists. split; [reflexivity|]. by apply route_write.
Qed.

Lemma readReg_dma_block a d : exists d',
  readReg_dma false a d =
    Returns ((dma_ctrl_read (dmaRegAddressOffset + reg_shift (dmaCtrlAddr_value a)) (block d)).1, d') /\
  block d' = (dma_ctrl_read (dmaRegAddressOffset + reg_shift (dmaCtrlAddr_value a)) (block d)).2.
Proof.
  destruct (dma_reg_offset a) as (Hb & Hm & _). unfold readReg_dma, load.
  destruct (route_read (dmaRegAddressOffset + reg_shift (dmaCtrlAddr_value a)) d Hb) as [H1 H2].
  unfold mbind, M_bind. rewrite (proj2 (Z.leb_le 0 _)), (proj2 (Z.leb_le _ MAP_SIZE)) by lia. cbn [andb].
  destruct (mmio_read _ d) as [v d']. cbn in H1, H2. exists d'. split; [by rewrite H1 | done].
Qed.
End host.

(** The word assembled from the five writes of [writeTlb]. *)
Definition tlb_word (d v p : Z) (b : bool) : Z :=
  set_range (set_range (set_range (set_range (set_range d 31 0 (wrap 32 v)) 63 32 (wrap 32 (Z.shiftr v 32)))
    95 64 (wrap 32 p)) 127 96 (wrap 32 (Z.shiftr p 32))) 128 128 (wrap 32 (if b then 1 else 0)).

Lemma mapping_of_tlb_word d v p b : 0 <= v < 2 ^ 64 -> 0 <= p < 2 ^ 64 ->
  mapping_of_word (tlb_word d v p b) = TlbMapping v p b.
Proof.
  intros Hv Hp. unfold mapping_of_word, tlb_word. f_equal.
  - rewrite !(range_set_range_other _ _ _ _ 63 0) by lia.
    rewrite (range_set_range_pair d 32 63 0) by lia. cbn [Z.sub]. rewrite wrap_idemp by lia.
    rewrite (join_halves 32) by lia. by apply wrap_small.
  - rewrite (range_set_range_other _ 128 128) by lia.
    rewrite (range_set_range_pair _ 96 127 64) by lia. rewrite wrap_idemp by lia.
    change (96 - 64) with 32. rewrite (join_halves 32) by lia. by apply wrap_small.
  - rewrite testbit_set_range by lia. by destruct b.
Qed.

(** The five writes, as the controller sees them. *)
Lemma dma_ctrl_five_writes s v p b : word_counter s = 0 ->
  let w x := dma_ctrl_write (dmaRegAddressOffset + reg_shift (dmaCtrlAddr_value TLB)) (wrap 32 x) in
  let word := tlb_word (m_axis_tlb_interface_data s) v p b in
  w (if b then 1 else 0) (w (Z.shiftr p 32) (w p (w (Z.shiftr v 32) (w v s)))) =
  DmaCtrl 0 word (tlb_interface s ++ [word]) (write_resets s) (read_resets s) (debugRegAddr s)
    (dma_read_length_upper s) (dma_write_length_upper s) (dma_reads_flushed s) (stats s).
Proof. destruct s as [wc]. cbn [word_counter]. by intros ->. Qed.

(** One read of the length registers. *)
Lemma dma_reads_register s : let r := dma_ctrl_read (dmaRegAddressOffset + reg_shift (dmaCtrlAddr_value DMA_READS)) s in
  r.1 = (if dma_reads_flushed s then
           if negb (dma_read_length_upper s) then range (dma_read_length_counter (stats s)) 31 0
           else range (dma_read_length_counter (stats s)) 47 32
         else 0) /\
  dma_read_length_upper r.2 = negb (dma_read_length_upper s) /\
  dma_reads_flushed r.2 = dma_reads_flushed s /\ stats r.2 = stats s.
Proof. done. Qed.

Lemma dma_writes_register s : let r := dma_ctrl_read (dmaRegAddressOffset + reg_shift (dmaCtrlAddr_value DMA_WRITES)) s in
  r.1 = (if negb (dma_write_length_upper s) then range (dma_write_length_counter (stats s)) 31 0
         else range (dma_write_length_counter (stats s)) 47 32) /\
  dma_write_length_upper r.2 = negb (dma_write_length_upper s) /\ stats r.2 = stats s.
Proof. done. Qed.

Lemma join64_halves c : 0 <= c < 2 ^ 48 -> join64 (range c 31 0) (range c 47 32) = c.
Proof.
  intros Hc. transitivity (wrap 48 c); [|by apply wrap_small]. unfold join64. bitwise.
Qed.

Section host_operations.
Context {D : Type} `{Routed D dma_ctrl 4096 dma_ctrl_write dma_ctrl_read}.

Lemma writeTlb_block v p b d : word_counter (block d) = 0 -> 0 <= v < 2 ^ 64 -> 0 <= p < 2 ^ 64 ->
  exists d', writeTlb false v p b d = Returns (tt, d') /\ word_counter (block d') = 0 /\
    mappings (block d') = mappings (block d) ++ [TlbMapping v p b] /\
    stats (block d') = stats (block d) /\ debugRegAddr (block d') = debugRegAddr (block d).
Proof.
  intros Hwc Hv Hp. unfold writeTlb.
  destruct (writeReg_dma_block TLB v d) as (d1 & H1 & E1).
  destruct (writeReg_dma_block TLB (Z.shiftr v 32) d1) as (d2 & H2 & E2).
  destruct (writeReg_dma_block TLB p d2) as (d3 & H3 & E3).
  destruct (writeReg_dma_block TLB (Z.shiftr p 32) d3) as (d4 & H4 & E4).
  destruct (writeReg_dma_block TLB (if b then 1 else 0) d4) as (d5 & H5 & E5).
  exists d5. split.
  { rewrite (bind_returns _ _ _ _ _ H1), (bind_returns _ _ _ _ _ H2), (bind_returns _ _ _ _ _ H3),
      (bind_returns _ _ _ _ _ H4). exact H5. }
  rewrite E4, E3, E2, E1, dma_ctrl_five_writes in E5 by done. rewrite E5. split_and!; try done.
  unfold mappings. cbn [tlb_interface]. by rewrite fmap_app, fmap_cons, mapping_of_tlb_word.
Qed.

(** One read of the statistics register reports the counter under the cursor
    [debugRegAddr] and moves the cursor on; after the last counter it starts
    again. *)
Lemma read_stats (i : nat) d : (i < 10)%nat ->
  debugRegAddr (block d) = Z.of_nat i \/ (i = 0%nat /\ debugRegAddr (block d) = 10) ->
  exists d', readReg_dma false DMA_STATS d = Returns (debug_reg (stats (block d)) (Z.of_nat i), d') /\
    debugRegAddr (block d') = Z.of_nat (S i) /\ stats (block d') = stats (block d).
Proof.
  intros Hi Hd. destruct (readReg_dma_block DMA_STATS d) as (d' & H1 & E1). exists d'. rewrite H1, E1.
  clear H1 E1. generalize dependent (block d). intros s Hd.
  unfold dma_ctrl_read. rewrite (proj2 (proj2 (dma_reg_offset DMA_STATS))).
  cbn [dmaCtrlAddr_value fst snd debugRegAddr stats].
  destruct Hd as [-> | [-> ->]]; [|done]. rewrite (proj2 (Z.eqb_neq _ _)) by lia.
  split_and!; [done | | done]. rewrite wrap_small; lia.
Qed.

(** The cursor before the [i]-th read, with the counters [t]. *)
Definition stats_at (t : dma_stats) (i : nat) (d : D) : Prop :=
  (debugRegAddr (block d) = Z.of_nat i \/ (i = 0%nat /\ debugRegAddr (block d) = 10)) /\ stats (block d) = t.

Lemma read_stats_at t i d : (i < length DmaRegNames)%nat -> stats_at t i d ->
  exists d', readReg_dma false DMA_STATS d = Returns (debug_reg t (Z.of_nat i), d') /\ stats_at t (S i) d'.
Proof.
  intros Hi [Hd <-]. destruct (read_stats i d Hi Hd) as (d' & R & E & S). exists d'. split; [done|]. split; [by left | done].
Qed.

(** [FpgaController::writeTlb] hands the TLB exactly the mapping it was
    called with - the five register writes assemble to the same virtual
    address, physical address and base flag - and leaves the controller
    ready for the next mapping. *)
Theorem writeTlb_programs_mapping v p b d : word_counter (block d) = 0 -> 0 <= v < 2 ^ 64 -> 0 <= p < 2 ^ 64 ->
  exists d', writeTlb false v p b d = Returns (tt, d') /\ word_counter (block d') = 0 /\
    mappings (block d') = mappings (block d) ++ [TlbMapping v p b].
Proof. intros Hwc Hv Hp. destruct (writeTlb_block v p b d Hwc Hv Hp) as (d' & R & Hwc' & M & _). by exists d'. Qed.

(** [getDmaReads] and [getDmaWrites] return the 48-bit counters when the
    reads start at the lower half and the counters do not change in between
    (and zero for the reads while they are not flushed), and leave the
    controller at the lower half again. *)
Theorem get_dma_counters d : let s := block d in
  dma_read_length_upper s = false -> dma_write_length_upper s = false ->
  0 <= dma_read_length_counter (stats s) < 2 ^ 48 -> 0 <= dma_write_length_counter (stats s) < 2 ^ 48 ->
  (exists d', getDmaReads false d =
      Returns (if dma_reads_flushed s then dma_read_length_counter (stats s) else 0, d') /\
    dma_read_length_upper (block d') = false /\ stats (block d') = stats s) /\
  (exists d', getDmaWrites false d = Returns (dma_write_length_counter (stats s), d') /\
    dma_write_length_upper (block d') = false /\ stats (block d') = stats s).
Proof.
  intros s Hr Hw Hcr Hcw.
  split.
  - destruct (readReg_dma_block DMA_READS d) as (d1 & H1 & E1).
    destruct (readReg_dma_block DMA_READS d1) as (d2 & H2 & E2). exists d2.
    unfold getDmaReads. rewrite (bind_returns _ _ _ _ _ H1), (bind_returns _ _ _ _ _ H2). fold s in E1 |- *.
    destruct (dma_reads_register s) as (V1 & U1 & F1 & S1). rewrite <- E1 in U1, F1, S1.
    destruct (dma_reads_register (block d1)) as (V2 & U2 & F2 & S2). rewrite <- E2 in U2, F2, S2.
    rewrite V1, V2, U2, U1, Hr, F1, S2, S1. cbn [negb]. split; [|done].
    destruct (dma_reads_flushed s); [by rewrite join64_halves | done].
  - destruct (readReg_dma_block DMA_WRITES d) as (d1 & H1 & E1).
    destruct (readReg_dma_block DMA_WRITES d1) as (d2 & H2 & E2). exists d2.
    unfold getDmaWrites. rewrite (bind_returns _ _ _ _ _ H1), (bind_returns _ _ _ _ _ H2). fold s in E1 |- *.
    destruct (dma_writes_register s) as (V1 & U1 & S1). rewrite <- E1 in U1, S1.
    destruct (dma_writes_register (block d1)) as (V2 & U2 & S2). rewrite <- E2 in U2, S2.
    rewrite V1, V2, U2, U1, Hw, S2, S1. cbn [negb]. split; [|done]. by rewrite join64_halves.
Qed.
(** [printDmaStatsRegs] prints every counter of the controller under its
    own name, the length counters cut to 32 bits, whether it is the first
    print or a later one: it leaves the controller ready to print the same
    report again. *)
Theorem print_dma_stats d : let s := block d in
  debugRegAddr s = 0 \/ debugRegAddr s = 10 ->
  exists d', printDmaStatsRegs false d = Returns (dma_stats_report (stats s), d') /\
    debugRegAddr (block d') = 10 /\ stats (block d') = stats s.
Proof.
  intros s Hd. assert (Hat : stats_at (stats s) 0 d) by (split; [destruct Hd; auto | done]).
  destruct (collect_cursor _ _ _ _ (read_stats_at (stats s)) 10 0 d ltac:(done) Hat) as (d' & R & [[E | [? _]] S]);
    [|done]. by exists d'.
Qed.
End host_operations.

(** ** Instances: a board with nothing but this controller *)

#[export] Instance dma_board : MmioDevice dma_ctrl := {|
  mmio_write a v s := if (4096 <=? a) && (a <? 8192) then dma_ctrl_write a v s else s;
  mmio_read a s := if (4096 <=? a) && (a <? 8192) then dma_ctrl_read a s else (0, s);
  elapse s := s |}.

#[export] Instance dma_board_routed : Routed dma_ctrl dma_ctrl 4096 dma_ctrl_write dma_ctrl_read.
Proof.
  refine {| block := fun s => s |}; intros; cbn;
    by rewrite (proj2 (Z.leb_le _ _)), (proj2 (Z.ltb_lt _ _)) by lia.
Defined.

Definition demo_dma_ctrl : dma_ctrl :=
  DmaCtrl 0 0 [] 0 0 0 false false true (DmaStats 1 2 3 (2 ^ 40 + 5) 4 5 6 (2 ^ 33 + 7) 8 9).

Lemma writeTlb_witness : exists d', writeTlb false 0x7F0000000000 0x12340000000 true demo_dma_ctrl = Returns (tt, d') /\
  mappings d' = [TlbMapping 0x7F0000000000 0x12340000000 true].
Proof.
  destruct (writeTlb_programs_mapping (D := dma_ctrl) 0x7F0000000000 0x12340000000 true demo_dma_ctrl)
    as (d' & H1 & _ & H2); [done | lia | lia |]. exists d'. split; [exact H1 | exact H2].
Defined.

Lemma get_dma_counters_witness :
  (exists d', getDmaReads false demo_dma_ctrl = Returns (2 ^ 33 + 7, d')) /\
  (exists d', getDmaWrites false demo_dma_ctrl = Returns (2 ^ 40 + 5, d')).
Proof.
  destruct (get_dma_counters (D := dma_ctrl) demo_dma_ctrl) as [(d1 & H1 & _) (d2 & H2 & _)];
    [done | done | by cbn | by cbn |]. split; [exists d1; exact H1 | exists d2; exact H2].
Defined.

Lemma print_dma_stats_witness : exists d1 d2,
  printDmaStatsRegs false demo_dma_ctrl = Returns (dma_stats_report (stats demo_dma_ctrl), d1) /\
  printDmaStatsRegs false d1 = Returns (dma_stats_report (stats demo_dma_ctrl), d2).
Proof.
  destruct (print_dma_stats (D := dma_ctrl) demo_dma_ctrl) as (d1 & H1 & E1 & S1); [by left|].
  destruct (print_dma_stats (D := dma_ctrl) d1) as (d2 & H2 & _ & _); [by right|].
  exists d1, d2. split; [exact H1|]. cbn [block dma_board_routed] in S1. rewrite <- S1. exact H2.
Defined.
