(* ===== verification/DmaInf.v ===== *)
(** [src/hdl/common/dma_inf.sv], clock by clock on the side of the DMA engine: the
    registers that hand the translated commands to the engine (descriptor
    bypass) and the statistics that the host reads ([DmaController]). *)
From S2P Require Import Prelude AxiUtils Tlb Mmio FpgaController DmaController.

(** ** Definitions *)

(** One direction in one clock: the command that is valid, whether the engine is
    ready for a descriptor, the data word that is valid (its [tlast]) and
    whether it is taken, and the pulse that resets the length counter. *)
Record side := Side { cmd : option dmaCmd; byp_ready : bool; word : option bool; word_ready : bool; reset_length : bool }.

(** The transfers: [tvalid && tready]. *)
Definition accepted (i : side) : option dmaCmd := if byp_ready i then cmd i else None.
Definition taken (i : side) : option bool := if word_ready i then word i else None.

(** [dsc_byp_load], [_addr] and [_len]. *)
Record bypass := Bypass { byp_load : bool; byp_addr : Z; byp_len : Z }.

Definition bypass_clock (i : side) (b : bypass) : bypass :=
  match accepted i with
  | Some c => Bypass true (dma_addr c) (dma_len c)
  | None => Bypass false (byp_addr b) (byp_len b)
  end.

(** The counters of one direction. *)
Record counters := Counters { cmd_counter : Z; load_counter : Z; word_counter : Z; pkg_counter : Z; length_counter : Z }.

Definition counters_clock (i : side) (b : bypass) (c : counters) : counters :=
  Counters
    (match accepted i with Some _ => wrap 32 (cmd_counter c + 1) | None => cmd_counter c end)
    (if byp_load b then wrap 32 (load_counter c + 1) else load_counter c)
    (match taken i with Some _ => wrap 32 (word_counter c + 1) | None => word_counter c end)
    (match taken i with Some true => wrap 32 (pkg_counter c + 1) | _ => pkg_counter c end)
    (if reset_length i then 0
     else match accepted i with Some x => wrap 48 (length_counter c + dma_len x) | None => length_counter c end).

Record dma_inf := DmaInf {
  write_byp : bypass; read_byp : bypass; write_counters : counters; read_counters : counters; reads_flushed : bool }.

(** One clock of [pcie_clk]; every register takes its value from those before the clock. *)
Definition dma_inf_clock (s : dma_inf) (i : side * side) : dma_inf :=
  DmaInf (bypass_clock i.1 (write_byp s)) (bypass_clock i.2 (read_byp s))
    (counters_clock i.1 (write_byp s) (write_counters s)) (counters_clock i.2 (read_byp s) (read_counters s))
    (cmd_counter (read_counters s) =? pkg_counter (read_counters s)).

Definition counters_zero : counters := Counters 0 0 0 0 0.

(** A clock with [pcie_aresetn] low; the descriptors keep their value. *)
Definition dma_inf_reset (s : dma_inf) : dma_inf :=
  DmaInf (Bypass false (byp_addr (write_byp s)) (byp_len (write_byp s))) (Bypass false (byp_addr (read_byp s)) (byp_len (read_byp s)))
    counters_zero counters_zero false.

(** [tlb_miss_counter] and [tlb_boundary_crossing_counter]: the last value the TLB has
    signalled as valid. *)
Definition tlb_counter_clock (counter : Z) (count : option Z) : Z := match count with Some n => n | None => counter end.

(** The ports of [controller_inst]: what it reports, with the two counters that
    come from the TLB. *)
Definition controller_stats (s : dma_inf) (miss crossing : Z) : dma_stats :=
  DmaStats (cmd_counter (write_counters s)) (word_counter (write_counters s)) (pkg_counter (write_counters s))
    (length_counter (write_counters s)) (cmd_counter (read_counters s)) (word_counter (read_counters s))
    (pkg_counter (read_counters s)) (length_counter (read_counters s)) miss crossing.

Definition run_clocks (l : list (side * side)) (s : dma_inf) : dma_inf := foldl dma_inf_clock s l.

(** ** What the registers mean *)

Section counting.
Variable dir : side * side -> side.

(** The commands and words of a direction in some clocks. *)
Definition commands (l : list (side * side)) : list dmaCmd := omap (fun i => accepted (dir i)) l.
Definition words (l : list (side * side)) : list bool := omap (fun i => taken (dir i)) l.

(** The clocks after the last pulse on the reset of the length counter. *)
Fixpoint since_reset (l : list (side * side)) : list (side * side) :=
  match l with
  | [] => []
  | i :: l => if existsb (fun i => reset_length (dir i)) l then since_reset l else if reset_length (dir i) then l else i :: l
  end.

Definition total_length (cs : list dmaCmd) : Z := foldr (fun c n => dma_len c + n) 0 cs.

Definition count (A : Type) (l : list A) : Z := Z.of_nat (length l).

(** The counters after the clocks [l], with the number of descriptors that have been loaded. *)
Definition counted (l : list (side * side)) (loads : Z) : counters :=
  Counters (wrap 32 (count dmaCmd (commands l))) (wrap 32 loads) (wrap 32 (count bool (words l)))
    (wrap 32 (count bool (List.filter id (words l)))) (wrap 48 (total_length (commands (since_reset l)))).
End counting.

Lemma total_length_app a b : total_length (a ++ b) = total_length a + total_length b.
Proof. unfold total_length. induction a as [|c a IH]; cbn [foldr app]; lia. Qed.

Lemma since_reset_snoc dir l i : since_reset dir (l ++ [i]) =
  if reset_length (dir i) then [] else since_reset dir l ++ [i].
Proof.
  induction l as [|j l IH]; cbn [app since_reset existsb]; [done|]. rewrite existsb_app. cbn [existsb]. rewrite orb_false_r, IH.
  destruct (existsb _ l) eqn:E; cbn [orb].
  - by destruct (reset_length (dir i)).
  - destruct (reset_length (dir i)); [done|]. by destruct (reset_length (dir j)).
Qed.

(** One more clock. *)
Lemma counted_snoc dir l i n b : 
  counters_clock (dir i) b (counted dir l n) = counted dir (l ++ [i]) (n + if byp_load b then 1 else 0).
Proof.
  unfold counters_clock, counted, commands, words, count. cbn [cmd_counter load_counter word_counter pkg_counter length_counter].
  rewrite since_reset_snoc, !omap_app. cbn [omap list_omap]. f_equal.
  - destruct (accepted (dir i)); [|by rewrite app_nil_r]. rewrite wrap_add_l, length_app by done. do 2 f_equal. cbn. lia.
  - destruct (byp_load b); [by rewrite wrap_add_l | by rewrite Z.add_0_r].
  - destruct (taken (dir i)); [|by rewrite app_nil_r]. rewrite wrap_add_l, length_app by done. do 2 f_equal. cbn. lia.
  - destruct (taken (dir i)) as [[|]|]; rewrite ?app_nil_r, ?List.filter_app; cbn; rewrite ?app_nil_r; try done.
    rewrite wrap_add_l, length_app by done. do 2 f_equal. cbn. lia.
  - destruct (reset_length (dir i)); [done|]. rewrite omap_app. cbn [omap list_omap].
    destruct (accepted (dir i)); [|by rewrite app_nil_r]. rewrite wrap_add_l, total_length_app by done. do 2 f_equal. cbn. lia.
Qed.

Lemma tlb_counter_last l n rest counter : Forall (fun c => c = None) rest ->
  foldl tlb_counter_clock counter (l ++ Some n :: rest) = n.
Proof.
  intros Hr. rewrite foldl_app. cbn [foldl tlb_counter_clock]. induction Hr as [|c rest -> _ IH]; [done|]. exact IH.
Qed.

(** ** Clock by clock *)

(** The descriptors that are loaded: what the engine sees after each clock. *)
Definition descriptor (b : bypass) : option dmaCmd := if byp_load b then Some (DmaCmd (byp_addr b) (byp_len b)) else None.

Fixpoint descriptors (dir : side * side -> side) (l : list (side * side)) (b : bypass) : list dmaCmd :=
  match l with
  | [] => []
  | i :: l => let b := bypass_clock (dir i) b in option_list (descriptor b) ++ descriptors dir l b
  end.

Lemma descriptors_commands dir l : forall b, descriptors dir l b = commands dir l.
Proof.
  unfold commands. induction l as [|i l IH]; intros b; [done|]. cbn [descriptors omap list_omap]. rewrite IH.
  unfold bypass_clock. by destruct (accepted (dir i)) as [[a n]|].
Qed.

(** One direction after some clocks: the commands of all but the last clock have been
    loaded. *)
Definition direction_at (dir : side * side -> side) (l : list (side * side)) (b : bypass) (c : counters) : Prop :=
  exists pending, c = counted dir l (count dmaCmd (commands dir l) - count dmaCmd (option_list pending)) /\ descriptor b = pending.

Lemma direction_clock dir l i b c : direction_at dir l b c ->
  direction_at dir (l ++ [i]) (bypass_clock (dir i) b) (counters_clock (dir i) b c).
Proof.
  intros (pending & -> & Hb). rewrite counted_snoc. exists (descriptor (bypass_clock (dir i) b)). split; [|done].
  f_equal. unfold commands. rewrite omap_app. cbn [omap list_omap]. unfold count. subst pending.
  unfold bypass_clock, descriptor. destruct (byp_load b), (accepted (dir i)) as [x|]; cbn; rewrite ?app_nil_r, ?length_app; cbn; lia.
Qed.

(** The state after the clocks [l]. *)
Definition inf_at (l : list (side * side)) (s : dma_inf) : Prop :=
  direction_at fst l (write_byp s) (write_counters s) /\ direction_at snd l (read_byp s) (read_counters s).

Lemma inf_run l2 : forall l1 s, inf_at l1 s -> inf_at (l1 ++ l2) (run_clocks l2 s).
Proof.
  induction l2 as [|i l2 IH]; intros l1 s [Hw Hr]; [by rewrite app_nil_r|].
  replace (l1 ++ i :: l2) with ((l1 ++ [i]) ++ l2) by by rewrite <- app_assoc. apply (IH (l1 ++ [i]) (dma_inf_clock s i)).
  split; [exact (direction_clock fst l1 i _ _ Hw) | exact (direction_clock snd l1 i _ _ Hr)].
Qed.

Lemma inf_reset s : inf_at [] (dma_inf_reset s).
Proof. split; by exists None. Qed.

Lemma counters_at dir l b c : direction_at dir l b c ->
  cmd_counter c = wrap 32 (count dmaCmd (commands dir l)) /\ word_counter c = wrap 32 (count bool (words dir l)) /\
  pkg_counter c = wrap 32 (count bool (List.filter id (words dir l))) /\
  length_counter c = wrap 48 (total_length (commands dir (since_reset dir l))).
Proof. by intros (? & -> & _). Qed.

(** ** Properties *)

(** C19: the statistics count what happened.  From a reset on, after any
    clocks: the engine has been given exactly the commands that were accepted, each once and in their order,
    in both directions; the counters are the numbers of accepted commands, of data
    words and of packets modulo 2^32, and the lengths of the commands since the clock with the last
    reset of the length counter modulo 2^48; and the flag that all reads are
    answered says, one clock late, that there were as many packets as read
    commands. *)
Theorem dma_statistics_count s l i :
  let r := run_clocks (l ++ [i]) (dma_inf_reset s) in
  let all := l ++ [i] in
  (forall dir b, descriptors dir all b = commands dir all) /\
  cmd_counter (write_counters r) = wrap 32 (count dmaCmd (commands fst all)) /\
  word_counter (write_counters r) = wrap 32 (count bool (words fst all)) /\
  pkg_counter (write_counters r) = wrap 32 (count bool (List.filter id (words fst all))) /\
  length_counter (write_counters r) = wrap 48 (total_length (commands fst (since_reset fst all))) /\
  cmd_counter (read_counters r) = wrap 32 (count dmaCmd (commands snd all)) /\
  word_counter (read_counters r) = wrap 32 (count bool (words snd all)) /\
  pkg_counter (read_counters r) = wrap 32 (count bool (List.filter id (words snd all))) /\
  length_counter (read_counters r) = wrap 48 (total_length (commands snd (since_reset snd all))) /\
  reads_flushed r = (wrap 32 (count dmaCmd (commands snd l)) =? wrap 32 (count bool (List.filter id (words snd l)))).
Proof.
  intros r all. destruct (inf_run all [] _ (inf_reset s)) as [Hw Hr]. cbn [app] in Hw, Hr. fold r in Hw, Hr.
  destruct (counters_at _ _ _ _ Hw) as (W1 & W2 & W3 & W4). destruct (counters_at _ _ _ _ Hr) as (R1 & R2 & R3 & R4).
  split_and!; try done; [intros dir b; apply descriptors_commands|].
  unfold r, run_clocks. rewrite foldl_app. cbn [foldl dma_inf_clock reads_flushed].
  destruct (inf_run l [] _ (inf_reset s)) as [_ Hl]. cbn [app] in Hl. unfold run_clocks in Hl.
  destruct (counters_at _ _ _ _ Hl) as (-> & _ & -> & _). done.
Qed.

(** ** What the host reads *)

Lemma length_counter_range dir l b c : direction_at dir l b c -> 0 <= length_counter c < 2 ^ 48.
Proof. intros H. destruct (counters_at _ _ _ _ H) as (_ & _ & _ & ->). apply wrap_bound. lia. Qed.

Section host.
Context {D : Type} `{Routed D dma_ctrl 4096 dma_ctrl_write dma_ctrl_read}.

(** The controller is connected to the statistics after the clocks [l]. *)
Definition reports (d : D) (s : dma_inf) (l : list (side * side)) (miss crossing : Z) : Prop :=
  stats (block d) = controller_stats (run_clocks l (dma_inf_reset s)) miss crossing /\
  dma_read_length_upper (block d) = false /\ dma_write_length_upper (block d) = false.

(** [getDmaWrites] and [getDmaReads] return how many bytes the commands since the last reset ask
    for. *)
Lemma host_reads_lengths d s l miss crossing : reports d s l miss crossing ->
  (exists d', getDmaReads false d =
     Returns (if dma_reads_flushed (block d) then wrap 48 (total_length (commands snd (since_reset snd l))) else 0, d')) /\
  (exists d', getDmaWrites false d = Returns (wrap 48 (total_length (commands fst (since_reset fst l))), d')).
Proof.
  intros (Hs & Hr & Hw). destruct (inf_run l [] _ (inf_reset s)) as [Iw Ir]. cbn [app] in Iw, Ir.
  pose proof (length_counter_range _ _ _ _ Iw). pose proof (length_counter_range _ _ _ _ Ir).
  destruct (counters_at _ _ _ _ Iw) as (_ & _ & _ & Ew). destruct (counters_at _ _ _ _ Ir) as (_ & _ & _ & Er).
  destruct (get_dma_counters d Hr Hw) as [(d1 & R1 & _) (d2 & R2 & _)]; try (rewrite Hs; done).
  split; [exists d1 | exists d2].
  - rewrite R1, Hs. cbn [dma_read_length_counter controller_stats]. by rewrite Er.
  - rewrite R2, Hs. cbn [dma_write_length_counter controller_stats]. by rewrite Ew.
Qed.
End host.

Lemma since_reset_none dir l : existsb (fun i => reset_length (dir i)) l = false -> since_reset dir l = l.
Proof.
  induction l as [|i l IH]; [done|]. cbn [existsb since_reset]. intros [-> ->]%orb_false_iff. done.
Qed.

(** ** Instance: two writes, one while the engine is not ready, and a read *)

Definition idle_side : side := Side None true None true false.

Definition demo_traffic : list (side * side) :=
  [(Side (Some (DmaCmd 0x40000000 64)) true (Some true) true false, idle_side);
   (Side (Some (DmaCmd 0x40200000 128)) false None true false, Side (Some (DmaCmd 0x40000000 4096)) true None true false);
   (Side (Some (DmaCmd 0x40200000 128)) true (Some false) true false, idle_side)].

Example demo_statistics : let s := run_clocks demo_traffic (dma_inf_reset (DmaInf (Bypass false 0 0) (Bypass false 0 0) counters_zero counters_zero false)) in
  write_counters s = Counters 2 1 2 1 192 /\ read_counters s = Counters 1 1 0 0 4096 /\ reads_flushed s = false /\
  write_byp s = Bypass true 0x40200000 128.
Proof. vm_compute. auto. Qed.
