(* ===== verification/ControlMutex.v ===== *)
(** [ctrl_mutex] of [src/sw/src/fpga/FpgaController.cpp]: threads that call the
    public functions of [FpgaController] at the same time.  Every function is
    a program whose register accesses are steps of their own; the threads
    interleave at these steps, and a function runs between taking the mutex and
    releasing it.  The calls turn out to happen one after the other. *)
From stdpp Require Import strings.
From S2P Require Import Prelude Tlb Mmio FpgaController DmaController.

(** ** Programs with their accesses *)

(** A program returns, stores, loads, sleeps, is undefined, or has used up the
    fuel of its loop. *)
Inductive prog (A : Type) :=
  | PRet (a : A) | PStore (off v : Z) (k : prog A) | PLoad (off : Z) (k : Z -> prog A) | PSleep (k : prog A)
  | PUndefined | PRunning.
Arguments PRet {A}.
Arguments PStore {A}.
Arguments PLoad {A}.
Arguments PSleep {A}.
Arguments PUndefined {A}.
Arguments PRunning {A}.

#[export] Instance prog_ret : MRet prog := fun A a => PRet a.

#[export] Instance prog_bind : MBind prog := fun A B f =>
  fix bind (p : prog A) : prog B :=
    match p with
    | PRet a => f a
    | PStore off v k => PStore off v (bind k)
    | PLoad off k => PLoad off (fun x => bind (k x))
    | PSleep k => PSleep (bind k)
    | PUndefined => PUndefined
    | PRunning => PRunning
    end.

Fixpoint pcollect {A} (body : nat -> prog A) (i n : nat) : prog (list A) :=
  match n with
  | O => mret []
  | S n => x ← body i; l ← pcollect body (S i) n; mret (x :: l)
  end.

Section programs.
Variable big_endian : bool.

Definition pwrite_user (a : userCtrlAddr) (value : Z) : prog unit :=
  PStore (userRegAddressOffset + reg_shift (userCtrlAddr_value a)) (htols big_endian (wrap 32 value)) (PRet tt).

Definition pwrite_dma (a : dmaCtrlAddr) (value : Z) : prog unit :=
  PStore (dmaRegAddressOffset + reg_shift (dmaCtrlAddr_value a)) (htols big_endian (wrap 32 value)) (PRet tt).

Definition pread_user (a : userCtrlAddr) : prog Z :=
  PLoad (userRegAddressOffset + reg_shift (userCtrlAddr_value a)) (fun v => PRet (htols big_endian v)).

Definition pread_dma (a : dmaCtrlAddr) : prog Z :=
  PLoad (dmaRegAddressOffset + reg_shift (dmaCtrlAddr_value a)) (fun v => PRet (htols big_endian v)).

Definition pread_ddr (a : ddrCtrlAddr) (channel : Z) : prog Z :=
  match ddrRegAddressOffset !! Z.to_nat channel with
  | Some base => PLoad (base + reg_shift (ddrCtrlAddr_value a)) (fun v => PRet (htols big_endian v))
  | None => PUndefined
  end.

Fixpoint ppoll (fuel : nat) (cycles : userCtrlAddr) : prog Z :=
  match fuel with
  | O => PRunning
  | S fuel =>
      PSleep (PRet tt);;
      lower ← pread_user cycles;
      upper ← pread_user cycles;
      if lower =? 0 then ppoll fuel cycles else mret (join64 lower upper)
  end.

Definition pbenchmark (fuel : nat) (cmd cycles : userCtrlAddr) (base memory accesses chunk stride last : Z) : prog Z :=
  pwrite_user cmd base;; pwrite_user cmd (Z.shiftr base 32);;
  pwrite_user cmd memory;; pwrite_user cmd (Z.shiftr memory 32);;
  pwrite_user cmd accesses;; pwrite_user cmd chunk;; pwrite_user cmd stride;; pwrite_user cmd last;;
  ppoll fuel cycles.

Definition preg_line (names : list string) (read : prog Z) (i : nat) : prog (string * Z) :=
  reg ← read;
  match names !! i with Some name => mret (name, reg) | None => PUndefined end.

(** ** The public functions *)

Inductive call :=
  | WriteTlb (vaddr paddr : Z) (isBase : bool)
  | RunDmaBenchmark (base memory accesses chunk stride : Z) (op : memoryOp)
  | RunDramBenchmark (base memory accesses chunk stride : Z) (op : memoryOp) (channel : Z)
  | SetIpAddr (a : Z) | SetBoardNumber (n : Z)
  | ResetDmaReads | GetDmaReads | ResetDmaWrites | GetDmaWrites
  | PrintDebugRegs | PrintDmaStatsRegs | PrintDdrStatsRegs (channel : Z).

Inductive result := RUnit | RWord (x : Z) | RLines (l : list (string * Z)).

Definition program (fuel : nat) (c : call) : prog result :=
  match c with
  | WriteTlb vaddr paddr isBase =>
      pwrite_dma TLB vaddr;; pwrite_dma TLB (Z.shiftr vaddr 32);;
      pwrite_dma TLB paddr;; pwrite_dma TLB (Z.shiftr paddr 32);;
      pwrite_dma TLB (if isBase then 1 else 0);; mret RUnit
  | RunDmaBenchmark b m n l s op =>
      x ← pbenchmark fuel DMA_BENCH DMA_BENCH_CYCLES b m n l s (memoryOp_value op); mret (RWord x)
  | RunDramBenchmark b m n l s op ch =>
      x ← pbenchmark fuel DDR_BENCH DDR_BENCH_CYCLES b m n l s (Z.lor (Z.shiftl ch 1) (memoryOp_value op)); mret (RWord x)
  | SetIpAddr _ | SetBoardNumber _ => mret RUnit
  | ResetDmaReads => pwrite_dma DMA_READS 1;; mret RUnit
  | ResetDmaWrites => pwrite_dma DMA_WRITES 1;; mret RUnit
  | GetDmaReads => lower ← pread_dma DMA_READS; upper ← pread_dma DMA_READS; mret (RWord (join64 lower upper))
  | GetDmaWrites => lower ← pread_dma DMA_WRITES; upper ← pread_dma DMA_WRITES; mret (RWord (join64 lower upper))
  | PrintDebugRegs => l ← pcollect (preg_line RegNames (pread_user DEBUG)) 0 numDebugRegs; mret (RLines l)
  | PrintDmaStatsRegs => l ← pcollect (preg_line DmaRegNames (pread_dma DMA_STATS)) 0 numDmaStatsRegs; mret (RLines l)
  | PrintDdrStatsRegs ch => l ← pcollect (preg_line DdrRegNames (pread_ddr DDR_STATS ch)) 0 numDdrStatsRegs; mret (RLines l)
  end.
End programs.

(** ** The meaning of a program *)

Section machine.
Context {D : Type} `{MmioDevice D}.
Variable big_endian : bool.
Variable fuel : nat.

(** One access; [None] when the program has ended or its behaviour is undefined. *)
Definition access {A} (p : prog A) (d : D) : option (prog A * D) :=
  match p with
  | PStore off v k => match store off v d with Returns (_, d) => Some (k, d) | _ => None end
  | PLoad off k => match load off d with Returns (x, d) => Some (k x, d) | _ => None end
  | PSleep k => match sleep d with Returns (_, d) => Some (k, d) | _ => None end
  | _ => None
  end.

(** The program run alone. *)
Fixpoint interp {A} (p : prog A) : M D A :=
  match p with
  | PRet a => mret a
  | PStore off v k => store off v;; interp k
  | PLoad off k => x ← load off; interp (k x)
  | PSleep k => sleep;; interp k
  | PUndefined => undefined
  | PRunning => out_of_fuel
  end.

(** The functions as [FpgaController] defines them. *)
Definition semantics (c : call) : M D result :=
  match c with
  | WriteTlb vaddr paddr isBase => writeTlb big_endian vaddr paddr isBase;; mret RUnit
  | RunDmaBenchmark b m n l s op => x ← runDmaBenchmark big_endian fuel b m n l s op; mret (RWord x)
  | RunDramBenchmark b m n l s op ch => x ← runDramBenchmark big_endian fuel b m n l s op ch; mret (RWord x)
  | SetIpAddr a => setIpAddr a;; mret RUnit
  | SetBoardNumber n => setBoardNumber n;; mret RUnit
  | ResetDmaReads => resetDmaReads big_endian;; mret RUnit
  | ResetDmaWrites => resetDmaWrites big_endian;; mret RUnit
  | GetDmaReads => x ← getDmaReads big_endian; mret (RWord x)
  | GetDmaWrites => x ← getDmaWrites big_endian; mret (RWord x)
  | PrintDebugRegs => l ← printDebugRegs big_endian; mret (RLines l)
  | PrintDmaStatsRegs => l ← printDmaStatsRegs big_endian; mret (RLines l)
  | PrintDdrStatsRegs ch => l ← printDdrStatsRegs big_endian ch; mret (RLines l)
  end.

(** Two computations that cannot be told apart. *)
Record same {A} (m n : M D A) : Prop := Same { same_at : forall d, m d = n d }.

#[export] Instance same_equivalence {A} : Equivalence (@same A).
Proof.
  split; [by split | intros m n [E]; split; intros d; by rewrite E |].
  intros m n o [E1] [E2]. split. intros d. by rewrite E1.
Qed.

#[export] Instance bind_same {A B} :
  Proper (pointwise_relation A (@same B) ==> @same A ==> @same B) (@mbind (M D) _ A B).
Proof.
  intros f g Hf m n [Hm]. split. intros d. unfold mbind, M_bind. rewrite Hm.
  destruct (n d) as [[a d'] | | |]; [apply (same_at _ _ (Hf a)) | done..].
Qed.

Lemma bind_assoc {A B C} (m : M D A) (f : A -> M D B) (g : B -> M D C) :
  same ((m ≫= f) ≫= g) (m ≫= fun a => f a ≫= g).
Proof. split. intros d. unfold mbind, M_bind. by destruct (m d) as [[a d'] | | |]. Qed.

Lemma ret_bind {A B} (a : A) (f : A -> M D B) : same (mret a ≫= f) (f a).
Proof. by split. Qed.

Lemma interp_bind {A B} (p : prog A) (f : A -> prog B) : same (interp (p ≫= f)) (interp p ≫= fun a => interp (f a)).
Proof.
  induction p as [a | off v k IH | off k IH | k IH | |]; try done.
  - transitivity (store off v;; (interp k ≫= fun a => interp (f a))); [|symmetry; apply bind_assoc].
    apply bind_same; [intros _; exact IH | done].
  - transitivity (x ← load off; (interp (k x) ≫= fun a => interp (f a))); [|symmetry; apply bind_assoc].
    apply bind_same; [exact IH | done].
  - transitivity (sleep;; (interp k ≫= fun a => interp (f a))); [|symmetry; apply bind_assoc].
    apply bind_same; [intros _; exact IH | done].
Qed.

(** ** The programs are the functions *)

Lemma interp_write_user a v : same (interp (pwrite_user big_endian a v)) (writeReg_user big_endian a v).
Proof. split. intros d. cbn. unfold writeReg_user, mbind, M_bind. by destruct (store _ _ d) as [[[] ?] | | |]. Qed.

Lemma interp_write_dma a v : same (interp (pwrite_dma big_endian a v)) (writeReg_dma big_endian a v).
Proof. split. intros d. cbn. unfold writeReg_dma, mbind, M_bind. by destruct (store _ _ d) as [[[] ?] | | |]. Qed.

Lemma interp_read_ddr a ch : same (interp (pread_ddr big_endian a ch)) (readReg_ddr big_endian a ch).
Proof. unfold pread_ddr, readReg_ddr. by case_match. Qed.

(** One step of two programs in the monads. *)
Ltac same_bind := rewrite interp_bind; apply bind_same; [intros ?; cbv beta|].

Lemma interp_poll n cycles : same (interp (ppoll big_endian n cycles)) (poll big_endian n cycles).
Proof.
  induction n as [|n IH]; [done|]. cbn [ppoll poll].
  same_bind; [|split; intros d; cbn; unfold mbind, M_bind; by destruct (sleep d) as [[[] ?] | | |]].
  same_bind; [|done]. same_bind; [|done]. by case_match.
Qed.

Lemma interp_benchmark cmd cycles b m n l s x :
  same (interp (pbenchmark big_endian fuel cmd cycles b m n l s x))
    (writeReg_user big_endian cmd b;; writeReg_user big_endian cmd (Z.shiftr b 32);;
     writeReg_user big_endian cmd m;; writeReg_user big_endian cmd (Z.shiftr m 32);;
     writeReg_user big_endian cmd n;; writeReg_user big_endian cmd l;; writeReg_user big_endian cmd s;;
     writeReg_user big_endian cmd x;; poll big_endian fuel cycles).
Proof. unfold pbenchmark. do 8 (same_bind; [|apply interp_write_user]). apply interp_poll. Qed.

Lemma interp_collect {A} (body : nat -> prog A) (f : nat -> M D A) : (forall i, same (interp (body i)) (f i)) ->
  forall n i, same (interp (pcollect body i n)) (collect f i n).
Proof.
  intros Hb. induction n as [|n IH]; intros i; [done|]. cbn [pcollect collect].
  same_bind; [|apply Hb]. by same_bind; [|apply IH].
Qed.

Lemma interp_lines names (read : prog Z) (f : M D Z) n : same (interp read) f ->
  same (interp (l ← pcollect (preg_line names read) 0 n; mret (RLines l)))
    (l ← collect (reg_line names f) 0 n; mret (RLines l)).
Proof.
  intros Hf. same_bind; [done|]. apply interp_collect. intros i. unfold preg_line, reg_line. same_bind; [by case_match | done].
Qed.

Lemma interp_program c : same (interp (program big_endian fuel c)) (semantics c).
Proof.
  destruct c as [v p b | b m n l s op | b m n l s op ch | a | n | | | | | | |ch]; cbn [program semantics];
    try reflexivity; try (by apply interp_lines).
  - same_bind; [done | apply interp_benchmark].
  - same_bind; [done | apply interp_benchmark].
  - unfold getDmaReads. rewrite bind_assoc. same_bind; [|done]. rewrite bind_assoc. by same_bind.
  - unfold getDmaWrites. rewrite bind_assoc. same_bind; [|done]. rewrite bind_assoc. by same_bind.
  - apply interp_lines, interp_read_ddr.
Qed.

(** ** Threads *)

(** The calls a thread has still to make, and the one that runs. *)
Record thread := Thread { todo : list call; running : option (call * prog result) }.

(** The device, the holder of [ctrl_mutex], the threads, and the calls that
    have returned, in that order, each with its thread. *)
Record config := Config {
  device : D; ctrl_mutex : option nat; threads : list thread; returned : list (nat * call * result) }.

Inductive step : config -> config -> Prop :=
  | step_lock d ts us c cs l :
      step (Config d None (ts ++ Thread (c :: cs) None :: us) l)
        (Config d (Some (length ts)) (ts ++ Thread cs (Some (c, program big_endian fuel c)) :: us) l)
  | step_access d m ts us cs c p p' d' l : access p d = Some (p', d') ->
      step (Config d m (ts ++ Thread cs (Some (c, p)) :: us) l) (Config d' m (ts ++ Thread cs (Some (c, p')) :: us) l)
  | step_unlock d m ts us cs c r l :
      step (Config d m (ts ++ Thread cs (Some (c, PRet r)) :: us) l)
        (Config d None (ts ++ Thread cs None :: us) (l ++ [(length ts, c, r)])).

Definition start (d : D) (calls : list (list call)) : config := Config d None ((fun cs => Thread cs None) <$> calls) [].

(** ** The sequential specification *)

(** Calls made one after the other by a single thread. *)
Inductive in_order : D -> list (call * result) -> D -> Prop :=
  | in_order_nil d : in_order d [] d
  | in_order_snoc d0 d1 d2 l c r : in_order d0 l d1 -> semantics c d1 = Returns (r, d2) -> in_order d0 (l ++ [(c, r)]) d2.

Definition calls_of (i : nat) (l : list (nat * call * result)) : list call :=
  omap (fun x => if decide (x.1.1 = i) then Some x.1.2 else None) l.

(** What a thread has done, does and will do. *)
Definition script (i : nat) (l : list (nat * call * result)) (t : thread) : list call :=
  calls_of i l ++ match running t with Some (c, _) => [c] | None => [] end ++ todo t.

Lemma access_interp {A} (p p' : prog A) d d' : access p d = Some (p', d') -> interp p d = interp p' d'.
Proof.
  destruct p as [a | off v k | off k | k | |]; cbn; try done; unfold mbind, M_bind.
  - destruct (store off v d) as [[? ?] | | |]; [by intros [= -> ->] | done..].
  - destruct (load off d) as [[? ?] | | |]; [by intros [= <- ->] | done..].
  - by intros [= <- <-].
Qed.

(** The device is as after the calls that have returned, but for the calls of the
    thread that holds the mutex, the only one with a call running. *)
Record config_ok (d0 : D) (calls : list (list call)) (s : config) : Prop := ConfigOk {
  ok_device : exists d, in_order d0 ((fun x => (x.1.2, x.2)) <$> returned s) d /\
    match ctrl_mutex s with
    | None => device s = d
    | Some i => exists t c p, threads s !! i = Some t /\ running t = Some (c, p) /\ interp p (device s) = semantics c d
    end;
  ok_running : forall i t, threads s !! i = Some t -> running t <> None -> ctrl_mutex s = Some i;
  ok_script : forall i, (script i (returned s)) <$> threads s !! i = calls !! i;
  ok_index : Forall (fun x => is_Some (threads s !! x.1.1)) (returned s) }.

Lemma start_ok d calls : config_ok d calls (start d calls).
Proof.
  split; cbn.
  - exists d. split; [constructor | done].
  - intros i t. rewrite list_lookup_fmap. by destruct (calls !! i); intros [= <-].
  - intros i. rewrite list_lookup_fmap. by destruct (calls !! i).
  - done.
Qed.

(** The threads other than the one that takes the step. *)
Lemma lookup_others {A} (ts us : list A) t t' i : i <> length ts -> (ts ++ t :: us) !! i = (ts ++ t' :: us) !! i.
Proof.
  intros Hi. destruct (Nat.lt_ge_cases i (length ts)); [by rewrite !lookup_app_l|].
  rewrite !lookup_app_r by lia. by rewrite !lookup_cons_ne_0 by lia.
Qed.

Lemma lookup_index {A} (ts us : list A) t t' i : is_Some ((ts ++ t :: us) !! i) -> is_Some ((ts ++ t' :: us) !! i).
Proof. rewrite !lookup_lt_is_Some, !length_app. done. Qed.

Lemma calls_of_snoc i l j c r : calls_of i (l ++ [(j, c, r)]) = calls_of i l ++ if decide (j = i) then [c] else [].
Proof. unfold calls_of. rewrite omap_app. cbn. by case_decide. Qed.

Lemma config_step_ok d0 calls s s' : step s s' -> config_ok d0 calls s -> config_ok d0 calls s'.
Proof.
  intros Hstep [(d1 & Hseq & Hdev) Hrun Hscript Hindex].
  assert (Hkeep : forall ts us t t' l, Forall (fun x : nat * call * result => is_Some ((ts ++ t :: us) !! x.1.1)) l ->
    Forall (fun x => is_Some ((ts ++ t' :: us : list thread) !! x.1.1)) l)
    by (intros * Hl; eapply Forall_impl; [exact Hl | intros x; apply lookup_index]).
  destruct Hstep as [d ts us c cs l | d m ts us cs c p p' d' l Ha | d m ts us cs c r l]; cbn in *.
  - subst d1. split; cbn.
    + exists d. split; [done|]. do 3 eexists. split_and!; [by apply list_lookup_middle | done |].
      apply same_at, interp_program.
    + intros i t Hi. destruct (decide (i = length ts)) as [-> | Hne]; [done|].
      rewrite (lookup_others _ _ _ (Thread (c :: cs) None) i Hne) in Hi. intros Ht. by specialize (Hrun i t Hi Ht).
    + intros i. rewrite <- Hscript. destruct (decide (i = length ts)) as [-> | Hne].
      * by rewrite !list_lookup_middle by done.
      * by rewrite (lookup_others _ _ _ (Thread (c :: cs) None) i Hne).
    + by eapply Hkeep.
  - pose proof (Hrun (length ts) _ (list_lookup_middle _ _ _ _ eq_refl) ltac:(done)) as ->.
    destruct Hdev as (t & c' & p0 & Ht & Hr & Hi). rewrite list_lookup_middle in Ht by done. injection Ht as <-.
    injection Hr as -> ->. split; cbn.
    + exists d1. split; [done|]. do 3 eexists. split_and!; [by apply list_lookup_middle | done |].
      by rewrite <- (access_interp _ _ _ _ Ha).
    + intros i t Hi' Hne. destruct (decide (i = length ts)) as [-> | Hn]; [done|].
      rewrite (lookup_others _ _ _ (Thread cs (Some (c', p0))) i Hn) in Hi'. by apply (Hrun i t).
    + intros i. rewrite <- Hscript. destruct (decide (i = length ts)) as [-> | Hne].
      * by rewrite !list_lookup_middle by done.
      * by rewrite (lookup_others _ _ _ (Thread cs (Some (c', p0))) i Hne).
    + by eapply Hkeep.
  - pose proof (Hrun (length ts) _ (list_lookup_middle _ _ _ _ eq_refl) ltac:(done)) as ->.
    destruct Hdev as (t & c' & p0 & Ht & Hr & Hi). rewrite list_lookup_middle in Ht by done. injection Ht as <-.
    injection Hr as -> <-. split; cbn.
    + exists d. split; [|done]. rewrite fmap_app. by apply in_order_snoc with d1.
    + intros i t Hi' Hne. destruct (decide (i = length ts)) as [-> | Hn].
      * rewrite list_lookup_middle in Hi' by done. by injection Hi' as <-.
      * rewrite (lookup_others _ _ _ (Thread cs (Some (c', PRet r))) i Hn) in Hi'. specialize (Hrun i t Hi' Hne). congruence.
    + intros i. rewrite <- Hscript. unfold script. destruct (decide (i = length ts)) as [-> | Hne].
      * rewrite !list_lookup_middle by done. cbn. by rewrite calls_of_snoc, decide_True, <- app_assoc by done.
      * rewrite (lookup_others _ _ _ (Thread cs (Some (c', PRet r))) i Hne).
        destruct (_ !! i); [|done]. cbn. by rewrite calls_of_snoc, decide_False, app_nil_r by done.
    + apply Forall_app. split; [by eapply Hkeep|]. constructor; [|done]. cbn. rewrite list_lookup_middle by done. eauto.
Qed.

Lemma config_reachable_ok d0 calls s : rtc step (start d0 calls) s -> config_ok d0 calls s.
Proof.
  intros Hs. pose proof (start_ok d0 calls) as Hok. revert Hok. induction Hs as [|s1 s2 s3 Hstep _ IH]; [done|].
  intros Hok. by apply IH, (config_step_ok d0 calls s1).
Qed.
End machine.

(** ** Executing schedules *)

Section execute.
Context {D : Type} `{MmioDevice D}.
Variable big_endian : bool.
Variable fuel : nat.

(** The next step of thread [i], if it can take one. *)
Definition advance (i : nat) (s : config (D := D)) : option config :=
  t ← threads s !! i;
  match running t with
  | None =>
      match todo t, ctrl_mutex s with
      | c :: cs, None => Some (Config (device s) (Some i)
          (<[i := Thread cs (Some (c, program big_endian fuel c))]> (threads s)) (returned s))
      | _, _ => None
      end
  | Some (c, PRet r) =>
      Some (Config (device s) None (<[i := Thread (todo t) None]> (threads s)) (returned s ++ [(i, c, r)]))
  | Some (c, p) =>
      '(p, d) ← access p (device s);
      Some (Config d (ctrl_mutex s) (<[i := Thread (todo t) (Some (c, p))]> (threads s)) (returned s))
  end.

Fixpoint advance_all (sched : list nat) (s : config) : option config :=
  match sched with
  | [] => Some s
  | i :: sched => s ← advance i s; advance_all sched s
  end.

Lemma insert_thread (ts us : list thread) t t' : <[length ts := t']> (ts ++ t :: us) = ts ++ t' :: us.
Proof. induction ts as [|x ts IH]; [done|]. cbn. by f_equal. Qed.

Lemma advance_sound i s s' : advance i s = Some s' -> step big_endian fuel s s'.
Proof.
  destruct s as [d m ths l]. unfold advance. intros Ha. apply bind_Some in Ha as (t & Ht & Ha). cbn in *.
  apply list_elem_of_split_length in Ht as (ts & us & -> & ->). rewrite !insert_thread in Ha.
  destruct t as [cs [[c p]|]]; cbn in Ha.
  - destruct p; try discriminate Ha; rewrite ?insert_thread in Ha;
      try (injection Ha as <-; constructor);
      apply bind_Some in Ha as ([p' d'] & Hacc & Ha); rewrite insert_thread in Ha; injection Ha as <-; by constructor.
  - destruct cs as [|c cs]; [discriminate|]. destruct m; [discriminate|]. rewrite ?insert_thread in Ha.
    injection Ha as <-. constructor.
Qed.

Lemma advance_all_sound sched s s' : advance_all sched s = Some s' -> rtc (step big_endian fuel) s s'.
Proof.
  revert s. induction sched as [|i sched IH]; intros s Hs; cbn in Hs; [by injection Hs as <-|].
  apply bind_Some in Hs as (s1 & H1 & H2). apply rtc_l with s1; [by apply (advance_sound i) | by apply IH].
Qed.
End execute.

(** What holds for the calls of the threads holds for those that have returned. *)
Lemma returned_calls {D} `{MmioDevice D} be fuel (P : call -> Prop) d0 calls s :
  config_ok be fuel d0 calls s -> Forall (Forall P) calls -> Forall (fun x => P x.1.2) (returned s).
Proof.
  intros Hok HP. rewrite !Forall_forall in *. intros [[i c] r] Hx. cbn.
  pose proof (ok_index _ _ _ _ _ Hok) as Hi. rewrite Forall_forall in Hi. destruct (Hi _ Hx) as [t Ht]. cbn in Ht.
  pose proof (ok_script _ _ _ _ _ Hok i) as Hs. rewrite Ht in Hs. cbn in Hs. symmetry in Hs.
  apply list_elem_of_lookup_2 in Hs. specialize (HP _ Hs). rewrite Forall_forall in HP. apply HP.
  unfold script. apply elem_of_app. left. apply list_elem_of_omap. exists (i, c, r). cbn. by rewrite decide_True.
Qed.

(** ** The mappings of a board *)

Section board.
Context {D : Type} `{routed : Routed D dma_ctrl 4096 dma_ctrl_write dma_ctrl_read} `{!Apart D dma_ctrl}.
Variable fuel : nat.

(** The registers the TLB is programmed through, and what it was given. *)
Definition tlb_port (d : D) : Z * list tlbMapping := (word_counter (block d), mappings (block d)).

(** The calls but for the benchmarks, during which time passes; mappings are
    those of 64-bit addresses. *)
Definition plain_call (c : call) : Prop :=
  match c with
  | WriteTlb v p _ => 0 <= v < 2 ^ 64 /\ 0 <= p < 2 ^ 64
  | RunDmaBenchmark _ _ _ _ _ _ | RunDramBenchmark _ _ _ _ _ _ _ => False
  | _ => True
  end.

Definition mapping_of_call (c : call) : list tlbMapping :=
  match c with WriteTlb v p b => [TlbMapping v p b] | _ => [] end.

Lemma keeps_write_dma a v : a <> TLB -> keeps tlb_port (writeReg_dma false a v).
Proof.
  intros Ha. apply keeps_store. intros d. destruct (dma_reg_offset a) as (Hb & _ & Hi).
  unfold tlb_port. rewrite route_write by done. unfold dma_ctrl_write. rewrite Hi. by destruct a.
Qed.

Lemma keeps_read_dma a : keeps tlb_port (readReg_dma false a).
Proof.
  apply keeps_bind; [|auto with keeps]. apply keeps_load. intros d. destruct (dma_reg_offset a) as (Hb & _ & Hi).
  unfold tlb_port. rewrite (proj2 (route_read _ d Hb)). unfold dma_ctrl_read. rewrite Hi. by destruct a.
Qed.

Lemma keeps_read_ddr a ch : keeps tlb_port (readReg_ddr false a ch).
Proof.
  unfold readReg_ddr. destruct (_ !! _) as [b|] eqn:E; [|auto with keeps].
  apply keeps_bind; [|auto with keeps]. apply keeps_load. intros d. unfold tlb_port. rewrite apart_read; [done|].
  apply list_elem_of_lookup_2 in E. unfold ddrRegAddressOffset in E. rewrite !elem_of_cons, elem_of_nil in E.
  destruct E as [-> | [-> | [-> | [-> | []]]]]; destruct a; vm_compute; by intros [].
Qed.

Lemma call_mappings c d r d' : plain_call c -> word_counter (block d) = 0 ->
  semantics false fuel c d = Returns (r, d') ->
  word_counter (block d') = 0 /\ mappings (block d') = mappings (block d) ++ mapping_of_call c.
Proof.
  intros Hc Hw HR.
  assert (Hkeep : keeps tlb_port (semantics false fuel c) -> mapping_of_call c = [] ->
    word_counter (block d') = 0 /\ mappings (block d') = mappings (block d) ++ mapping_of_call c).
  { intros Hk ->. specialize (Hk d r d' HR). injection Hk as -> ->. by rewrite app_nil_r. }
  destruct c as [v p b | | | a | n | | | | | | |ch]; cbn [plain_call semantics mapping_of_call] in *; try done.
  - destruct Hc as [Hv Hp]. destruct (writeTlb_block v p b d Hw Hv Hp) as (d1 & R & Hw1 & Hm & _).
    rewrite (bind_returns _ _ _ _ _ R) in HR. by injection HR as _ <-.
  - apply Hkeep; [|done]. apply keeps_bind; [apply keeps_ret | intros; apply keeps_ret].
  - apply Hkeep; [|done]. apply keeps_bind; [apply keeps_ret | intros; apply keeps_ret].
  - apply Hkeep; [|done]. apply keeps_bind; [by apply keeps_write_dma | intros; apply keeps_ret].
  - apply Hkeep; [|done]. apply keeps_bind; [|intros; apply keeps_ret].
    apply keeps_bind; [apply keeps_read_dma | intros]. apply keeps_bind; [apply keeps_read_dma | intros; apply keeps_ret].
  - apply Hkeep; [|done]. apply keeps_bind; [by apply keeps_write_dma | intros; apply keeps_ret].
  - apply Hkeep; [|done]. apply keeps_bind; [|intros; apply keeps_ret].
    apply keeps_bind; [apply keeps_read_dma | intros]. apply keeps_bind; [apply keeps_read_dma | intros; apply keeps_ret].
  - apply Hkeep; [|done]. apply keeps_bind; [apply keeps_ret | intros; apply keeps_ret].
  - apply Hkeep; [|done]. apply keeps_bind; [apply keeps_collect, keeps_reg_line, keeps_read_dma | intros; apply keeps_ret].
  - apply Hkeep; [|done]. apply keeps_bind; [apply keeps_collect, keeps_reg_line, keeps_read_ddr | intros; apply keeps_ret].
Qed.

Lemma in_order_mappings d0 l d : in_order false fuel d0 l d -> Forall (fun x => plain_call x.1) l ->
  word_counter (block d0) = 0 ->
  word_counter (block d) = 0 /\ mappings (block d) = mappings (block d0) ++ (l ≫= fun x => mapping_of_call x.1).
Proof.
  induction 1 as [|d0 d1 d2 l c r Hin IH Hc]; intros Hl Hw; [by rewrite app_nil_r|].
  apply Forall_app in Hl as [Hl Hx]. inversion_clear Hx. destruct (IH Hl Hw) as [Hw1 Hm1].
  destruct (call_mappings c d1 r d2) as [Hw2 Hm2]; [done..|]. split; [done|].
  by rewrite Hm2, Hm1, bind_app, <- app_assoc, bind_singleton.
Qed.

(** ** Properties *)

(** C16: [ctrl_mutex] makes the public functions of [FpgaController] atomic: for
    every number of threads and every interleaving of their register accesses,
    whenever the mutex is free the device is in the state, and the calls
    have returned the results, of the same calls made one after the other in
    the order in which they returned; at most one call runs at a time, and
    every thread makes its calls in its own order. *)
Theorem concurrent_calls_in_order be d0 calls s : rtc (step be fuel) (start d0 calls) s ->
  (ctrl_mutex s = None -> in_order be fuel d0 ((fun x => (x.1.2, x.2)) <$> returned s) (device s)) /\
  (forall i j t u, threads s !! i = Some t -> threads s !! j = Some u -> running t <> None -> running u <> None -> i = j) /\
  (forall i t, threads s !! i = Some t -> exists rest, calls !! i = Some (calls_of i (returned s) ++ rest)).
Proof.
  intros Hs. destruct (config_reachable_ok be fuel d0 calls s Hs) as [(d & Hd & Hm) Hrun Hscript _]. split_and!.
  - intros E. rewrite E in Hm. by rewrite Hm.
  - intros i j t u Ht Hu Hrt Hru. pose proof (Hrun i t Ht Hrt). pose proof (Hrun j u Hu Hru). congruence.
  - intros i t Ht. specialize (Hscript i). rewrite Ht in Hscript. cbn in Hscript. rewrite <- Hscript. unfold script. eauto.
Qed.

(** C17: Threads that program the TLB at the same time do not mix up the words of
    their mappings: whenever [ctrl_mutex] is free, the TLB of the board has been
    given the mappings of exactly the [writeTlb] calls that have returned, each
    as it was passed and in the order in which the calls returned. *)
Theorem concurrent_mappings_intact d0 calls s : word_counter (block d0) = 0 -> Forall (Forall plain_call) calls ->
  rtc (step false fuel) (start d0 calls) s -> ctrl_mutex s = None ->
  mappings (block (device s)) = mappings (block d0) ++ (returned s ≫= fun x => mapping_of_call x.1.2) /\
  word_counter (block (device s)) = 0.
Proof.
  intros Hw Hp Hs Hm. pose proof (config_reachable_ok false fuel d0 calls s Hs) as Hok.
  pose proof (returned_calls _ _ plain_call d0 calls s Hok Hp) as Hpl.
  destruct (ok_device _ _ _ _ _ Hok) as (d & Hd & Hdev). rewrite Hm in Hdev. subst d.
  destruct (in_order_mappings d0 _ _ Hd) as [H1 H2]; [by apply Forall_fmap | done |]. split; [|done].
  by rewrite H2, list_fmap_bind.
Qed.
End board.

(** ** Witnesses: two threads on the board of [DmaController] *)

#[export] Instance dma_board_apart : Apart dma_ctrl dma_ctrl.
Proof.
  split.
  - intros a v d Ha. cbn. destruct ((4096 <=? a) && (a <? 8192)) eqn:E; [|done]. bool_hyps. lia.
  - intros a d Ha. cbn. destruct ((4096 <=? a) && (a <? 8192)) eqn:E; [|done]. bool_hyps. lia.
Defined.

Definition example_calls : list (list call) :=
  [[WriteTlb 0x7F0000000000 0x1000000 true; GetDmaWrites]; [WriteTlb 0x7F0000200000 0x2200000 false]].

(** The second thread starts while the first is between two calls. *)
Definition example_run : option config :=
  advance_all false 0 (replicate 7 0%nat ++ replicate 7 1%nat ++ replicate 4 0%nat) (start demo_dma_ctrl example_calls).

Definition example_end : config := match example_run with Some s => s | None => start demo_dma_ctrl example_calls end.

Lemma example_reaches : rtc (step false 0) (start demo_dma_ctrl example_calls) example_end.
Proof.
  apply (advance_all_sound false 0 (replicate 7 0%nat ++ replicate 7 1%nat ++ replicate 4 0%nat)). by vm_compute.
Qed.

Example example_returned : returned example_end =
  [(0%nat, WriteTlb 0x7F0000000000 0x1000000 true, RUnit); (1%nat, WriteTlb 0x7F0000200000 0x2200000 false, RUnit);
   (0%nat, GetDmaWrites, RWord (2 ^ 40 + 5))].
Proof. by vm_compute. Qed.

Lemma concurrent_calls_in_order_witness :
  in_order false 0 demo_dma_ctrl ((fun x => (x.1.2, x.2)) <$> returned example_end) (device example_end).
Proof.
  apply (proj1 (concurrent_calls_in_order (D := dma_ctrl) 0 false demo_dma_ctrl example_calls example_end example_reaches)).
  by vm_compute.
Defined.

Lemma concurrent_mappings_intact_witness : mappings (device example_end) =
  [TlbMapping 0x7F0000000000 0x1000000 true; TlbMapping 0x7F0000200000 0x2200000 false].
Proof.
  destruct (concurrent_mappings_intact (D := dma_ctrl) 0 demo_dma_ctrl example_calls example_end) as [H _].
  - done.
  - repeat constructor; cbn; lia.
  - exact example_reaches.
  - by vm_compute.
  - exact H.
Defined.
