(* ===== verification/ControllerMapping.v ===== *)
(** The constructor and destructor of [FpgaController]
    ([src/sw/src/fpga/FpgaController.cpp]): the registers are mapped into the
    address space of the process, and the functions of the object access them
    through the pointer [m_base].  The other files take the mapping for
    granted, with offsets instead of addresses; here it is shown when that
    is right. *)
From stdpp Require Import strings.
From S2P Require Import Prelude Mmio FpgaController DmaController ControlMutex.

(** ** Definitions *)

(** The pointer with the value -1. *)
Definition MAP_FAILED : Z := 2 ^ 64 - 1.

Section object.
Context {D : Type} `{MmioDevice D}.

(** The device, and the address at which its registers are mapped. *)
Record process := Process { registers : D; mapping : option Z }.

(** [mmap] maps the registers at the address [result] or returns [MAP_FAILED];
    the constructor stores what it gets. *)
Definition FpgaController_new (result : Z) (s : process) : Z * process :=
  (result, if result =? MAP_FAILED then s else Process (registers s) (Some result)).

(** [munmap] returns 0 or -1; whether the destructor prints its message. *)
Definition FpgaController_delete (result m_base : Z) (s : process) : bool * process :=
  (result =? -1,
   if result =? -1 then s
   else Process (registers s) (match mapping s with Some b => if b =? m_base then None else Some b | None => None end)).

(** [(uint64_t) m_base + (uint64_t) off] *)
Definition reg_address (m_base off : Z) : Z := wrap 64 (m_base + off).

(** The offset in the registers of the word at an address, if it is mapped. *)
Definition mapped_offset (a : Z) (s : process) : option Z :=
  b ← mapping s; if (b <=? a) && (a + 4 <=? b + MAP_SIZE) then Some (a - b) else None.

(** The program of a function of the object with the pointer [m_base]. *)
Fixpoint run_at {A} (m_base : Z) (p : prog A) : M process A :=
  match p with
  | PRet a => mret a
  | PStore off v k => fun s =>
      match mapped_offset (reg_address m_base off) s with
      | Some o => run_at m_base k (Process (mmio_write o v (registers s)) (mapping s))
      | None => Undefined
      end
  | PLoad off k => fun s =>
      match mapped_offset (reg_address m_base off) s with
      | Some o => let '(x, d) := mmio_read o (registers s) in run_at m_base (k x) (Process d (mapping s))
      | None => Undefined
      end
  | PSleep k => fun s => run_at m_base k (Process (elapse (registers s)) (mapping s))
  | PUndefined => undefined
  | PRunning => out_of_fuel
  end.

(** A computation on the device, seen from the process. *)
Definition on_registers {A} (m : M D A) : M process A := fun s =>
  match m (registers s) with
  | Returns (a, d) => Returns (a, Process d (mapping s))
  | Exits => Exits
  | Undefined => Undefined
  | Running => Running
  end.

(** ** Offsets *)

(** Offsets are sums of 32-bit values. *)
Fixpoint offsets_ok {A} (p : prog A) : Prop :=
  match p with
  | PStore off _ k => 0 <= off < 2 ^ 32 /\ offsets_ok k
  | PLoad off k => 0 <= off < 2 ^ 32 /\ forall x, offsets_ok (k x)
  | PSleep k => offsets_ok k
  | _ => True
  end.

Lemma offsets_bind {A B} (p : prog A) (f : A -> prog B) :
  offsets_ok p -> (forall a, offsets_ok (f a)) -> offsets_ok (p ≫= f).
Proof.
  intros Hp Hf. induction p as [a | off v k IH | off k IH | k IH | |]; cbn in *; try done.
  - destruct Hp as [Ho Hk]. split; [done | by apply IH].
  - destruct Hp as [Ho Hk]. split; [done|]. intros x. by apply IH.
  - by apply IH.
Qed.

Lemma offsets_collect {A} (body : nat -> prog A) n : forall i, (forall i, offsets_ok (body i)) -> offsets_ok (pcollect body i n).
Proof.
  induction n as [|n IH]; intros i Hb; [done|]. apply offsets_bind; [apply Hb|].
  intros x. apply offsets_bind; [by apply IH | done].
Qed.

Section calls.
Variable big_endian : bool.

Lemma offsets_write_user a v : offsets_ok (pwrite_user big_endian a v).
Proof. split; [by destruct a | done]. Qed.

Lemma offsets_write_dma a v : offsets_ok (pwrite_dma big_endian a v).
Proof. split; [by destruct a | done]. Qed.

Lemma offsets_read_user a : offsets_ok (pread_user big_endian a).
Proof. split; [by destruct a | done]. Qed.

Lemma offsets_read_dma a : offsets_ok (pread_dma big_endian a).
Proof. split; [by destruct a | done]. Qed.

Lemma offsets_read_ddr a ch : offsets_ok (pread_ddr big_endian a ch).
Proof.
  unfold pread_ddr. destruct (_ !! _) as [b|] eqn:E; [|done]. split; [|done].
  apply list_elem_of_lookup_2 in E. unfold ddrRegAddressOffset in E.
  rewrite !elem_of_cons, elem_of_nil in E. destruct_or! E; subst; (done || by destruct a).
Qed.

Create HintDb offsets.
#[local] Hint Resolve offsets_bind offsets_write_user offsets_write_dma offsets_read_user offsets_read_dma offsets_read_ddr : offsets.
#[local] Hint Extern 1 (offsets_ok (PRet _)) => exact I : offsets.
#[local] Hint Extern 1 (offsets_ok (mret _)) => exact I : offsets.

Lemma offsets_poll fuel cycles : offsets_ok (ppoll big_endian fuel cycles).
Proof.
  induction fuel as [|fuel IH]; [done|]. cbn [ppoll]. apply offsets_bind; [done|]. intros _.
  apply offsets_bind; [apply offsets_read_user|]. intros lower.
  apply offsets_bind; [apply offsets_read_user|]. intros upper. by destruct (lower =? 0).
Qed.
#[local] Hint Resolve offsets_poll : offsets.

Lemma offsets_lines names (read : prog Z) n : offsets_ok read ->
  offsets_ok (l ← pcollect (preg_line names read) 0 n; mret (RLines l)).
Proof.
  intros Hr. apply offsets_bind; [|done]. apply offsets_collect. intros i. apply offsets_bind; [done|].
  intros x. by destruct (names !! i).
Qed.
#[local] Hint Resolve offsets_lines : offsets.

Lemma offsets_program fuel c : offsets_ok (program big_endian fuel c).
Proof. destruct c; cbn [program]; unfold pbenchmark; auto 20 with offsets. Qed.
End calls.

(** ** The mapping is transparent *)

(** What [mmap] promises for a result that is not [MAP_FAILED]: [MAP_SIZE] bytes in the
    address space start there. *)
Definition mappable_at (a : Z) : Prop := 0 <= a /\ a + MAP_SIZE <= 2 ^ 64.

Lemma mapped_offset_at m_base off d : mappable_at m_base -> 0 <= off < 2 ^ 32 ->
  mapped_offset (reg_address m_base off) (Process d (Some m_base)) =
  if (0 <=? off) && (off + 4 <=? MAP_SIZE) then Some off else None.
Proof.
  intros [H1 H2] Ho. unfold mapped_offset, reg_address. cbn [mapping mbind option_bind]. unfold MAP_SIZE in *.
  destruct (Z.lt_ge_cases (m_base + off) (2 ^ 64)) as [Hlt | Hge].
  - rewrite wrap_small by lia. bool_cases; f_equal; lia.
  - assert (wrap 64 (m_base + off) = m_base + off - 2 ^ 64) as ->.
    { unfold wrap. symmetry. apply (Z.mod_unique_pos _ _ 1); lia. }
    bool_cases; f_equal; lia.
Qed.

Lemma run_at_mapped {A} m_base (p : prog A) : mappable_at m_base -> offsets_ok p -> forall d,
  run_at m_base p (Process d (Some m_base)) = on_registers (interp p) (Process d (Some m_base)).
Proof.
  intros Hm. induction p as [a | off v k IH | off k IH | k IH | |]; intros Hp d; cbn [offsets_ok] in Hp; try done.
  - destruct Hp as [Ho Hk]. cbn [run_at interp]. rewrite (mapped_offset_at m_base off d Hm Ho).
    unfold on_registers, store, mbind, M_bind. cbn [registers mapping].
    destruct (_ && _); [|done]. rewrite (IH Hk). done.
  - destruct Hp as [Ho Hk]. cbn [run_at interp]. rewrite (mapped_offset_at m_base off d Hm Ho).
    unfold on_registers, load, mbind, M_bind. cbn [registers mapping].
    destruct (_ && _); [|done]. destruct (mmio_read off d) as [x d1]. rewrite (IH x (Hk x)). done.
  - cbn [run_at interp]. rewrite (IH Hp). done.
Qed.

(** The calls that access a register; the debug registers are none, and the
    network functions are empty. *)
Definition accesses_register (c : call) : bool :=
  match c with SetIpAddr _ | SetBoardNumber _ | PrintDebugRegs => false | _ => true end.

Lemma run_at_unmapped big_endian fuel c m_base d : accesses_register c = true ->
  run_at m_base (program big_endian fuel c) (Process d None) = Undefined.
Proof.
  destruct c as [| | | | | | | | | | |ch]; try done. intros _. cbn. unfold pread_ddr. by destruct (_ !! _).
Qed.

(** ** Properties *)

(** Calls of the object one after the other, with the pointer [m_base] and with offsets. *)
Fixpoint calls_at (big_endian : bool) (fuel : nat) (m_base : Z) (cs : list call) : M process (list result) :=
  match cs with
  | [] => mret []
  | c :: cs => x ← run_at m_base (program big_endian fuel c); xs ← calls_at big_endian fuel m_base cs; mret (x :: xs)
  end.

Fixpoint calls (big_endian : bool) (fuel : nat) (cs : list call) : M D (list result) :=
  match cs with
  | [] => mret []
  | c :: cs => x ← semantics big_endian fuel c; xs ← calls big_endian fuel cs; mret (x :: xs)
  end.

Lemma calls_mapped big_endian fuel m_base cs : mappable_at m_base -> forall d,
  calls_at big_endian fuel m_base cs (Process d (Some m_base)) =
    on_registers (calls big_endian fuel cs) (Process d (Some m_base)).
Proof.
  intros Hm. induction cs as [|c cs IH]; intros d; [done|]. cbn [calls_at calls]. unfold mbind, M_bind.
  rewrite (run_at_mapped m_base _ Hm (offsets_program big_endian fuel c)). unfold on_registers. cbn [registers].
  rewrite (same_at _ _ (interp_program big_endian fuel c)). destruct (semantics big_endian fuel c d) as [[x d1] | | |]; try done.
  cbn [mapping]. rewrite IH. unfold on_registers. cbn [registers]. by destruct (calls big_endian fuel cs d1) as [[xs d2] | | |].
Qed.

(** C29: the life of the object.  When [mmap] succeeds, at whatever address, any calls of the public
    functions after the constructor do to the device what they do with the offsets
    alone - no address wraps around into the registers - and keep the mapping; the destructor then unmaps the registers without
    touching the device, and every function called later that accesses a
    register is undefined - as it is from the start when [mmap] fails, which the constructor does not check;
    but if [munmap] fails the destructor only complains, and the
    registers stay mapped. *)
Theorem controller_lifecycle big_endian fuel cs c result d :
  mappable_at result \/ result = MAP_FAILED ->
  let '(m_base, s) := FpgaController_new result (Process d None) in
  (result <> MAP_FAILED ->
     calls_at big_endian fuel m_base cs s = on_registers (calls big_endian fuel cs) s /\
     forall xs s1, calls_at big_endian fuel m_base cs s = Returns (xs, s1) ->
       mapping s1 = Some m_base /\ calls big_endian fuel cs d = Returns (xs, registers s1) /\
       (let '(message, s2) := FpgaController_delete 0 m_base s1 in message = false /\ registers s2 = registers s1 /\
          (accesses_register c = true -> run_at m_base (program big_endian fuel c) s2 = Undefined)) /\
       (let '(message, s2) := FpgaController_delete (-1) m_base s1 in message = true /\
          run_at m_base (program big_endian fuel c) s2 = on_registers (semantics big_endian fuel c) s1)) /\
  (result = MAP_FAILED -> accesses_register c = true -> run_at m_base (program big_endian fuel c) s = Undefined).
Proof.
  intros Hr. unfold FpgaController_new. split.
  - intros Hne. destruct Hr as [Hr | Hr]; [|done]. rewrite (proj2 (Z.eqb_neq _ _) Hne). cbn [registers].
    split; [by apply calls_mapped|]. intros xs s1. rewrite calls_mapped by done. unfold on_registers at 1. cbn [registers mapping].
    destruct (calls big_endian fuel cs d) as [[ys d1] | | |]; try done. intros [= <- <-].
    split_and!; [done | done | |].
    + cbn. rewrite Z.eqb_refl. split_and!; [done | done | apply run_at_unmapped].
    + cbn. split; [done|]. rewrite run_at_mapped by (done || apply offsets_program). unfold on_registers.
      by rewrite (same_at _ _ (interp_program big_endian fuel c)).
  - intros ->. rewrite Z.eqb_refl. apply run_at_unmapped.
Qed.
End object.

(** ** Instances *)

(** Two calls at an address just below 2^47, then the destructor. *)
Definition demo_calls : list call := [ResetDmaReads; ResetDmaWrites].
Definition demo_after_calls : dma_ctrl :=
  match calls false 1 demo_calls demo_dma_ctrl with Returns (_, d) => d | _ => demo_dma_ctrl end.

Lemma demo_calls_run : calls_at (D := dma_ctrl) false 1 0x7FFFFFFF0000 demo_calls (Process demo_dma_ctrl (Some 0x7FFFFFFF0000)) =
  Returns ([RUnit; RUnit], Process demo_after_calls (Some 0x7FFFFFFF0000)).
Proof. vm_compute. reflexivity. Qed.

Lemma demo_mappable : mappable_at 0x7FFFFFFF0000.
Proof. split; discriminate. Qed.

Lemma controller_lifecycle_witness :
  calls (D := dma_ctrl) false 1 demo_calls demo_dma_ctrl = Returns ([RUnit; RUnit], demo_after_calls) /\
  run_at (D := dma_ctrl) 0x7FFFFFFF0000 (program false 1 ResetDmaReads) (Process demo_after_calls None) = Undefined /\
  run_at (D := dma_ctrl) MAP_FAILED (program false 1 ResetDmaReads) (Process demo_dma_ctrl None) = Undefined.
Proof.
  destruct (controller_lifecycle false 1 demo_calls ResetDmaReads 0x7FFFFFFF0000 demo_dma_ctrl (or_introl demo_mappable)) as [H _].
  destruct (H ltac:(discriminate)) as [_ H1]. destruct (H1 _ _ demo_calls_run) as (_ & H2 & (_ & _ & H3) & _).
  split; [exact H2|]. split; [exact (H3 eq_refl)|].
  exact (proj2 (controller_lifecycle false 1 [] ResetDmaReads MAP_FAILED demo_dma_ctrl (or_intror eq_refl)) eq_refl eq_refl).
Defined.
