(* ===== verification/BenchmarkController.v ===== *)
(** [src/hdl/common/benchmark_controller.sv] at the level of bus transactions,
    with the registers of [src/hdl/common/benchmark_role.sv] that hold the
    results: how the host configures a benchmark and retrieves its cycles. *)
From S2P Require Import Prelude Mmio FpgaController.

(** ** Definitions *)

(** The fields of the 193-bit command. *)
Record bench_cmd := BenchCmd {
  bc_base : Z; bc_memory : Z; bc_accesses : Z; bc_chunk : Z; bc_stride : Z; bc_write : bool }.

Definition cmd_of_word (w : Z) : bench_cmd :=
  BenchCmd (range w 47 0) (range w 95 48) (range w 127 96) (range w 159 128) (range w 191 160) (Z.testbit w 192).

(** What a [dma_bench] instance is doing: it finishes after some more events
    with a number of cycles; [None] when no benchmark will finish. *)
Definition progress : Type := option (nat * Z).

Record bench_role := BenchRole {
  word_counter : Z;
  ddr_cmd_data : Z;
  dma_cmd_data : Z;
  ddr_cycles_upper : bool;
  dma_cycles_upper : bool;
  ddr_cycles : Z;
  dma_cycles : Z;
  ddr0_running : progress;
  ddr1_running : progress;
  dma_running : progress;
  ddr_cmds : list (bench_cmd * Z);
  dma_cmds : list bench_cmd }.

Section role.
(** How the [dma_bench] instances, with the memory behind them, react to a
    start with the parameters of a command. *)
Variable dma_engine : progress -> bench_cmd -> progress.
Variable ddr_engine : Z -> progress -> bench_cmd -> progress.

(** The words 0 to 6 of a command. *)
Definition cmd_field (counter d wdata : Z) : Z :=
  match counter with
  | 0 => set_range d 31 0 wdata
  | 1 => set_range d 47 32 (range wdata 15 0)
  | 2 => set_range d 79 48 wdata
  | 3 => set_range d 95 80 (range wdata 15 0)
  | 4 => set_range d 127 96 wdata
  | 5 => set_range d 159 128 wdata
  | 6 => set_range d 191 160 wdata
  | _ => d
  end.

(** The states WRITE_DATA, WRITE_DDR_BENCH and WRITE_DMA_BENCH with the reaction
    of the role to a command: it clears the cycles and starts the engine;
    of the four values of [dest] only 0 and 1 start one.  The registers not
    mentioned keep their values. *)
Definition bench_write (awaddr wdata : Z) (s : bench_role) : bench_role :=
  let next := wrap 8 (word_counter s + 1) in
  match Z.shiftr awaddr 5 with
  | 0x02 =>
      if word_counter s =? 7 then
        let d := set_range (ddr_cmd_data s) 192 192 (range wdata 0 0) in
        let dest := range wdata 2 1 in
        BenchRole 0 d (dma_cmd_data s) (ddr_cycles_upper s) (dma_cycles_upper s) 0 (dma_cycles s)
          (if dest =? 0 then ddr_engine 0 (ddr0_running s) (cmd_of_word d) else ddr0_running s)
          (if dest =? 1 then ddr_engine 1 (ddr1_running s) (cmd_of_word d) else ddr1_running s)
          (dma_running s) (ddr_cmds s ++ [(cmd_of_word d, dest)]) (dma_cmds s)
      else
        BenchRole next (cmd_field (word_counter s) (ddr_cmd_data s) wdata) (dma_cmd_data s)
          (ddr_cycles_upper s) (dma_cycles_upper s) (ddr_cycles s) (dma_cycles s)
          (ddr0_running s) (ddr1_running s) (dma_running s) (ddr_cmds s) (dma_cmds s)
  | 0x03 =>
      if word_counter s =? 7 then
        let d := set_range (dma_cmd_data s) 192 192 (range wdata 0 0) in
        BenchRole 0 (ddr_cmd_data s) d (ddr_cycles_upper s) (dma_cycles_upper s) (ddr_cycles s) 0
          (ddr0_running s) (ddr1_running s) (dma_engine (dma_running s) (cmd_of_word d))
          (ddr_cmds s) (dma_cmds s ++ [cmd_of_word d])
      else
        BenchRole next (ddr_cmd_data s) (cmd_field (word_counter s) (dma_cmd_data s) wdata)
          (ddr_cycles_upper s) (dma_cycles_upper s) (ddr_cycles s) (dma_cycles s)
          (ddr0_running s) (ddr1_running s) (dma_running s) (ddr_cmds s) (dma_cmds s)
  | _ => s
  end.

(** Time passes between two events: a finished engine delivers its cycles. *)
Definition advance (p : progress) (cycles : Z) : progress * Z :=
  match p with
  | Some (S n, c) => (Some (n, c), cycles)
  | Some (O, c) => (None, c)
  | None => (None, cycles)
  end.

(** The two DDR engines share a register, which [ddr1] writes last. *)
Definition tick (s : bench_role) : bench_role :=
  let d0 := advance (ddr0_running s) (ddr_cycles s) in
  let d1 := advance (ddr1_running s) d0.2 in
  let m := advance (dma_running s) (dma_cycles s) in
  BenchRole (word_counter s) (ddr_cmd_data s) (dma_cmd_data s) (ddr_cycles_upper s) (dma_cycles_upper s)
    d1.2 m.2 d0.1 d1.1 m.1 (ddr_cmds s) (dma_cmds s).

(** The states READ_IDLE and READ_RESPONSE; time passes after the read. *)
Definition bench_read (araddr : Z) (s : bench_role) : Z * bench_role :=
  let update du mu := tick (BenchRole (word_counter s) (ddr_cmd_data s) (dma_cmd_data s) du mu
    (ddr_cycles s) (dma_cycles s) (ddr0_running s) (ddr1_running s) (dma_running s) (ddr_cmds s) (dma_cmds s)) in
  let du := ddr_cycles_upper s in
  let mu := dma_cycles_upper s in
  match Z.shiftr araddr 5 with
  | 0x0D => (if negb du then range (ddr_cycles s) 31 0 else range (ddr_cycles s) 63 32, update (negb du) mu)
  | 0x0E => (if negb mu then range (dma_cycles s) 31 0 else range (dma_cycles s) 63 32, update du (negb mu))
  | _ => (0xdeadbeef, update du mu)
  end.
End role.

(** ** The command assembled from eight writes *)

Definition command_word (d base memory n chunk stride op : Z) : Z :=
  set_range (set_range (set_range (set_range (set_range (set_range (set_range (set_range d
    31 0 (wrap 32 base)) 47 32 (range (wrap 32 (Z.shiftr base 32)) 15 0))
    79 48 (wrap 32 memory)) 95 80 (range (wrap 32 (Z.shiftr memory 32)) 15 0))
    127 96 (wrap 32 n)) 159 128 (wrap 32 chunk)) 191 160 (wrap 32 stride)) 192 192 (range (wrap 32 op) 0 0).

Lemma range_halves x : range (wrap 32 (Z.shiftr x 32)) 15 0 = wrap 16 (Z.shiftr x 32).
Proof. unfold range. rewrite Z.shiftr_0_r. apply wrap_wrap. lia. Qed.

Lemma cmd_of_command_word d base memory n chunk stride op :
  cmd_of_word (command_word d base memory n chunk stride op) =
  BenchCmd (wrap 48 base) (wrap 48 memory) (wrap 32 n) (wrap 32 chunk) (wrap 32 stride) (Z.testbit op 0).
Proof.
  unfold cmd_of_word, command_word. rewrite !range_halves. f_equal.
  - rewrite !(range_set_range_other _ _ _ _ 47 0) by lia.
    rewrite (range_set_range_pair d 32 47 0) by lia. change (32 - 0) with 32. change (47 - 32 + 1) with 16.
    rewrite wrap_idemp by lia. by apply join_parts.
  - rewrite !(range_set_range_other _ _ _ _ 95 48) by lia.
    rewrite (range_set_range_pair _ 80 95 48) by lia. change (80 - 48) with 32. change (95 - 80 + 1) with 16.
    rewrite wrap_idemp by lia. by apply join_parts.
  - rewrite !(range_set_range_other _ _ _ _ 127 96) by lia. rewrite range_set_range_same by lia. by apply (wrap_idemp 32).
  - rewrite !(range_set_range_other _ _ _ _ 159 128) by lia. rewrite range_set_range_same by lia. by apply (wrap_idemp 32).
  - rewrite !(range_set_range_other _ _ _ _ 191 160) by lia. rewrite range_set_range_same by lia. by apply (wrap_idemp 32).
  - rewrite testbit_set_range by lia. cbn [andb Z.leb Z.compare Pos.compare Pos.compare_cont].
    change (192 - 192) with 0. rewrite testbit_range, testbit_wrap by lia. done.
Qed.

(** ** One benchmark of the role: [ddr] selects the DDR registers *)

(** The half to be read next, the cycles reported so far and the engine that
    may still report; the other DDR engine is idle. *)
Definition cycles_view (ddr : bool) (s : bench_role) (u : bool) (c : Z) (p : progress) : Prop :=
  if ddr then
    ddr_cycles_upper s = u /\ ddr_cycles s = c /\
    ((ddr0_running s = p /\ ddr1_running s = None) \/ (ddr0_running s = None /\ ddr1_running s = p))
  else dma_cycles_upper s = u /\ dma_cycles s = c /\ dma_running s = p.

Definition cmd_reg (ddr : bool) : userCtrlAddr := if ddr then DDR_BENCH else DMA_BENCH.
Definition cycles_reg (ddr : bool) : userCtrlAddr := if ddr then DDR_BENCH_CYCLES else DMA_BENCH_CYCLES.

Definition user_offset (a : userCtrlAddr) : Z := userRegAddressOffset + reg_shift (userCtrlAddr_value a).

Lemma tick_view ddr s u c p : cycles_view ddr s u c p ->
  cycles_view ddr (tick s) u (advance p c).2 (advance p c).1.
Proof.
  destruct ddr; cbn.
  - intros (-> & -> & [[-> ->] | [-> ->]]); cbn; auto.
  - by intros (-> & -> & ->).
Qed.

Lemma bench_read_view ddr s u c p : cycles_view ddr s u c p ->
  (bench_read (user_offset (cycles_reg ddr)) s).1 = (if negb u then range c 31 0 else range c 63 32) /\
  cycles_view ddr (bench_read (user_offset (cycles_reg ddr)) s).2 (negb u) (advance p c).2 (advance p c).1.
Proof.
  intros Hv. split; [destruct ddr; by destruct Hv as (<- & <- & _)|].
  destruct ddr; refine (tick_view _ (BenchRole _ _ _ _ _ _ _ _ _ _ _ _) _ _ _ _);
    (destruct Hv as (<- & Hv); split; [done | exact Hv]).
Qed.

(** What reading does not change. *)
Definition static (s : bench_role) : Z * list (bench_cmd * Z) * list bench_cmd := (word_counter s, ddr_cmds s, dma_cmds s).

Lemma tick_static s : static (tick s) = static s.
Proof. done. Qed.

Lemma bench_read_static ddr s : static (bench_read (user_offset (cycles_reg ddr)) s).2 = static s.
Proof. destruct ddr; exact (tick_static (BenchRole _ _ _ _ _ _ _ _ _ _ _ _)). Qed.

(** The benchmark ends with [C] cycles after at most [n] events. *)
Definition ends (C : Z) (n : nat) (c : Z) (p : progress) : Prop :=
  (p = None /\ c = C) \/ (exists k, p = Some (k, C) /\ c = 0 /\ (k <= n)%nat).

Lemma ends_advance C n c p : ends C n c p -> ends C (Nat.pred n) (advance p c).2 (advance p c).1.
Proof.
  intros [[-> ->] | (k & -> & -> & Hk)]; [by left|]. destruct k as [|k]; [by left|].
  right. exists k. split_and!; try done. lia.
Qed.

Lemma ends_zero C c p : ends C 0 c p -> ends C 0 (advance p c).2 (advance p c).1 /\ (advance p c).2 = C.
Proof.
  intros H. split; [by apply (ends_advance C 0)|]. destruct H as [[-> ->] | (k & -> & _ & Hk)]; [done|].
  by replace k with O by lia.
Qed.

Lemma low_range c : range c 31 0 = wrap 32 c.
Proof. unfold range. by rewrite Z.shiftr_0_r. Qed.

Lemma join64_words c : 0 <= c < 2 ^ 64 -> join64 (range c 31 0) (range c 63 32) = c.
Proof. intros Hc. transitivity (wrap 64 c); [|by apply wrap_small]. unfold join64. bitwise. Qed.

(** ** The host on a board that contains the role *)

Section host.
Variable dma_engine : progress -> bench_cmd -> progress.
Variable ddr_engine : Z -> progress -> bench_cmd -> progress.
Context {D : Type} `{Routed D bench_role 0 (bench_write dma_engine ddr_engine) bench_read}.
Hypothesis block_elapse : forall d, block (elapse d) = tick (block d).

Lemma user_offset_bounds a : 0 <= user_offset a < 0 + 4096 /\ user_offset a + 4 <= MAP_SIZE.
Proof. by destruct a. Qed.

Lemma writeReg_user_block a v d : exists d', writeReg_user false a v d = Returns (tt, d') /\
  block d' = bench_write dma_engine ddr_engine (user_offset a) (wrap 32 v) (block d).
Proof.
  destruct (user_offset_bounds a) as [Hb Hm]. unfold writeReg_user, store. fold (user_offset a).
  rewrite (proj2 (Z.leb_le _ _)), (proj2 (Z.leb_le _ _)) by lia. cbn [andb].
  eexists. split; [reflexivity|]. by apply route_write.
Qed.

Lemma readReg_user_block a d : exists d',
  readReg_user false a d = Returns ((bench_read (user_offset a) (block d)).1, d') /\
  block d' = (bench_read (user_offset a) (block d)).2.
Proof.
  destruct (user_offset_bounds a) as [Hb Hm]. unfold readReg_user, load. fold (user_offset a).
  destruct (route_read (user_offset a) d Hb) as [H1 H2].
  unfold mbind, M_bind. rewrite (proj2 (Z.leb_le 0 _)), (proj2 (Z.leb_le _ MAP_SIZE)) by lia. cbn [andb].
  destruct (mmio_read _ d) as [v d']. cbn in H1, H2. exists d'. split; [by rewrite H1 | done].
Qed.

(** One round of the polling loop. *)
Lemma poll_round ddr fuel d c p : cycles_view ddr (block d) false c p ->
  let '(p1, c1) := advance p c in
  let '(p2, c2) := advance p1 c1 in
  let '(p3, c3) := advance p2 c2 in
  exists d', cycles_view ddr (block d') false c3 p3 /\ static (block d') = static (block d) /\
    poll false (S fuel) (cycles_reg ddr) d =
      if wrap 32 c1 =? 0 then poll false fuel (cycles_reg ddr) d'
      else Returns (join64 (range c1 31 0) (range c2 63 32), d').
Proof.
  intros Hv. destruct (advance p c) as [p1 c1] eqn:E1. destruct (advance p1 c1) as [p2 c2] eqn:E2.
  destruct (advance p2 c2) as [p3 c3] eqn:E3.
  assert (V1 : cycles_view ddr (block (elapse d)) false c1 p1).
  { rewrite block_elapse. pose proof (tick_view ddr _ _ _ _ Hv) as V. by rewrite E1 in V. }
  destruct (readReg_user_block (cycles_reg ddr) (elapse d)) as (d2 & R2 & B2).
  destruct (bench_read_view ddr _ _ _ _ V1) as [L2 V2]. rewrite <- B2 in V2. rewrite E2 in V2. cbn in V2.
  destruct (readReg_user_block (cycles_reg ddr) d2) as (d3 & R3 & B3).
  destruct (bench_read_view ddr _ _ _ _ V2) as [L3 V3]. rewrite <- B3 in V3. rewrite E3 in V3. cbn in V3.
  exists d3. split; [done|]. split.
  { by rewrite B3, bench_read_static, B2, bench_read_static, block_elapse, tick_static. }
  cbn [poll]. unfold mbind, M_bind, sleep at 1. cbn beta iota.
  rewrite R2, R3, L2, L3. cbn [negb]. rewrite low_range.
  by destruct (wrap 32 c1 =? 0).
Qed.

(** The loop ends when the benchmark has ended. *)
Lemma poll_returns ddr C : 0 <= C < 2 ^ 64 -> wrap 32 C <> 0 -> forall fuel n d c p,
  cycles_view ddr (block d) false c p -> ends C n c p -> (n < fuel)%nat ->
  exists d', poll false fuel (cycles_reg ddr) d = Returns (C, d') /\ static (block d') = static (block d).
Proof.
  intros HC Hlow. induction fuel as [|fuel IH]; intros n d c p Hv He Hn; [lia|].
  pose proof (poll_round ddr fuel d c p Hv) as Hr.
  assert (Hagain : forall m d' c' p', static (block d') = static (block d) ->
    cycles_view ddr (block d') false c' p' -> ends C m c' p' -> (m < fuel)%nat ->
    exists d'', poll false fuel (cycles_reg ddr) d' = Returns (C, d'') /\ static (block d'') = static (block d)).
  { intros m d' c' p' <- Hv' He' Hm. by eapply IH. }
  destruct He as [[-> ->] | (k & -> & -> & Hk)].
  - cbn [advance] in Hr. destruct Hr as (d' & Hv' & Hs & ->). exists d'.
    by rewrite (proj2 (Z.eqb_neq _ _)), join64_words.
  - destruct k as [|[|[|k]]]; cbn [advance] in Hr; destruct Hr as (d' & Hv' & Hs & ->).
    + exists d'. by rewrite (proj2 (Z.eqb_neq _ _)), join64_words.
    + apply (Hagain O d' C None); [done | done | by left | lia].
    + apply (Hagain O d' C None); [done | done | by left | lia].
    + apply (Hagain k d' 0 (Some (k, C))); [done | done | right; eauto | lia].
Qed.

(** The loop does not end when the lower half of the cycles stays zero. *)
Lemma poll_runs ddr C : wrap 32 C = 0 -> forall fuel d c p,
  cycles_view ddr (block d) false c p -> (p = None /\ c = C) \/ (exists k, p = Some (k, C) /\ c = 0) ->
  poll false fuel (cycles_reg ddr) d = Running.
Proof.
  intros Hlow. induction fuel as [|fuel IH]; intros d c p Hv He; [done|].
  pose proof (poll_round ddr fuel d c p Hv) as Hr.
  destruct He as [[-> ->] | (k & -> & ->)].
  - cbn [advance] in Hr. destruct Hr as (d' & Hv' & _ & ->). rewrite Hlow. cbn [Z.eqb]. apply (IH d' C None); auto.
  - destruct k as [|[|[|k]]]; cbn [advance] in Hr; destruct Hr as (d' & Hv' & _ & ->); rewrite ?Hlow; cbn [Z.eqb].
    + apply (IH d' C None); auto.
    + apply (IH d' C None); auto.
    + apply (IH d' C None); auto.
    + apply (IH d' 0 (Some (k, C))); eauto.
Qed.
(** The command register and the writes of its words. *)
Definition cmd_data (ddr : bool) (s : bench_role) : Z := if ddr then ddr_cmd_data s else dma_cmd_data s.

Definition set_word (ddr : bool) (wc d : Z) (s : bench_role) : bench_role :=
  BenchRole wc (if ddr then d else ddr_cmd_data s) (if ddr then dma_cmd_data s else d)
    (ddr_cycles_upper s) (dma_cycles_upper s) (ddr_cycles s) (dma_cycles s)
    (ddr0_running s) (ddr1_running s) (dma_running s) (ddr_cmds s) (dma_cmds s).

Lemma bench_write_field ddr wc x s : word_counter s = wc -> 0 <= wc < 7 ->
  bench_write dma_engine ddr_engine (user_offset (cmd_reg ddr)) x s =
    set_word ddr (wc + 1) (cmd_field wc (cmd_data ddr s) x) s.
Proof.
  intros Hs Hwc. destruct ddr; unfold bench_write, set_word, cmd_data;
    rewrite Hs, (proj2 (Z.eqb_neq _ _)), (wrap_small 8) by lia; reflexivity.
Qed.

Lemma cmd_data_set_word ddr wc d s : cmd_data ddr (set_word ddr wc d s) = d.
Proof. by destruct ddr. Qed.

Lemma set_word_set_word ddr wc d wc' d' s : set_word ddr wc d (set_word ddr wc' d' s) = set_word ddr wc d s.
Proof. by destruct ddr. Qed.

Lemma seven_writes ddr s base memory n chunk stride : word_counter s = 0 ->
  let w a := bench_write dma_engine ddr_engine (user_offset (cmd_reg ddr)) (wrap 32 a) in
  exists d, w stride (w chunk (w n (w (Z.shiftr memory 32) (w memory (w (Z.shiftr base 32) (w base s)))))) =
    set_word ddr 7 d s /\ forall x,
    set_range d 192 192 (range (wrap 32 x) 0 0) = command_word (cmd_data ddr s) base memory n chunk stride x.
Proof.
  intros Hwc w. subst w. cbv beta. rewrite (bench_write_field ddr 0 _ s) by (done || lia).
  rewrite (bench_write_field ddr 1 _ (set_word _ _ _ _)), cmd_data_set_word, set_word_set_word by (reflexivity || lia).
  rewrite (bench_write_field ddr 2 _ (set_word _ _ _ _)), cmd_data_set_word, set_word_set_word by (reflexivity || lia).
  rewrite (bench_write_field ddr 3 _ (set_word _ _ _ _)), cmd_data_set_word, set_word_set_word by (reflexivity || lia).
  rewrite (bench_write_field ddr 4 _ (set_word _ _ _ _)), cmd_data_set_word, set_word_set_word by (reflexivity || lia).
  rewrite (bench_write_field ddr 5 _ (set_word _ _ _ _)), cmd_data_set_word, set_word_set_word by (reflexivity || lia).
  rewrite (bench_write_field ddr 6 _ (set_word _ _ _ _)), cmd_data_set_word, set_word_set_word by (reflexivity || lia).
  eexists. split; [reflexivity|]. intros x. unfold command_word; cbn [cmd_field]; reflexivity.
Qed.

(** The eight writes of a command. *)
Lemma eight_writes (ddr : bool) s base memory n chunk stride x : word_counter s = 0 ->
  let w a := bench_write dma_engine ddr_engine (user_offset (cmd_reg ddr)) (wrap 32 a) in
  let s' := w x (w stride (w chunk (w n (w (Z.shiftr memory 32) (w memory (w (Z.shiftr base 32) (w base s))))))) in
  let cmd := BenchCmd (wrap 48 base) (wrap 48 memory) (wrap 32 n) (wrap 32 chunk) (wrap 32 stride) (Z.testbit x 0) in
  let dest := range (wrap 32 x) 2 1 in
  word_counter s' = 0 /\
  if ddr then
    ddr_cmds s' = ddr_cmds s ++ [(cmd, dest)] /\ ddr_cycles_upper s' = ddr_cycles_upper s /\ ddr_cycles s' = 0 /\
    ddr0_running s' = (if dest =? 0 then ddr_engine 0 (ddr0_running s) cmd else ddr0_running s) /\
    ddr1_running s' = (if dest =? 1 then ddr_engine 1 (ddr1_running s) cmd else ddr1_running s)
  else
    dma_cmds s' = dma_cmds s ++ [cmd] /\ cycles_view false s' (dma_cycles_upper s) 0 (dma_engine (dma_running s) cmd).
Proof.
  intros Hwc. cbv zeta. rewrite <- (cmd_of_command_word (cmd_data ddr s)).
  destruct (seven_writes ddr s base memory n chunk stride Hwc) as (d & -> & Hd).
  rewrite <- Hd. destruct ddr; cbn [cycles_view]; split_and!; reflexivity.
Qed.

Lemma program_command (ddr : bool) base memory n chunk stride x d (k : M D Z) : exists d',
  block d' = (let w a := bench_write dma_engine ddr_engine (user_offset (cmd_reg ddr)) (wrap 32 a) in
    w x (w stride (w chunk (w n (w (Z.shiftr memory 32) (w memory (w (Z.shiftr base 32) (w base (block d))))))))) /\
  (writeReg_user false (cmd_reg ddr) base;; writeReg_user false (cmd_reg ddr) (Z.shiftr base 32);;
   writeReg_user false (cmd_reg ddr) memory;; writeReg_user false (cmd_reg ddr) (Z.shiftr memory 32);;
   writeReg_user false (cmd_reg ddr) n;; writeReg_user false (cmd_reg ddr) chunk;;
   writeReg_user false (cmd_reg ddr) stride;; writeReg_user false (cmd_reg ddr) x;; k) d = k d'.
Proof.
  destruct (writeReg_user_block (cmd_reg ddr) base d) as (d1 & R1 & B1).
  destruct (writeReg_user_block (cmd_reg ddr) (Z.shiftr base 32) d1) as (d2 & R2 & B2).
  destruct (writeReg_user_block (cmd_reg ddr) memory d2) as (d3 & R3 & B3).
  destruct (writeReg_user_block (cmd_reg ddr) (Z.shiftr memory 32) d3) as (d4 & R4 & B4).
  destruct (writeReg_user_block (cmd_reg ddr) n d4) as (d5 & R5 & B5).
  destruct (writeReg_user_block (cmd_reg ddr) chunk d5) as (d6 & R6 & B6).
  destruct (writeReg_user_block (cmd_reg ddr) stride d6) as (d7 & R7 & B7).
  destruct (writeReg_user_block (cmd_reg ddr) x d7) as (d8 & R8 & B8).
  exists d8. split; [cbv zeta; congruence|].
  unfold mbind, M_bind. by rewrite R1, R2, R3, R4, R5, R6, R7, R8.
Qed.

(** The command the role receives from [runDmaBenchmark]. *)
Definition op_is_write (op : memoryOp) : bool := match op with READ => false | WRITE => true end.

Lemma testbit_op op : Z.testbit (memoryOp_value op) 0 = op_is_write op.
Proof. by destruct op. Qed.

Definition received (baseAddr memorySize numberOfAccesses chunkLength strideLength : Z) (op : memoryOp) : bench_cmd :=
  BenchCmd (wrap 48 baseAddr) (wrap 48 memorySize) (wrap 32 numberOfAccesses) (wrap 32 chunkLength)
    (wrap 32 strideLength) (op_is_write op).

(** [runDmaBenchmark] sends the role one command with its parameters (the
    address and size cut to 48 bits) and, when the benchmark ends after [k]
    events with [C] cycles whose lower half is not zero, returns exactly [C]
    after at most [k + 1] rounds of polling, whenever the benchmark ends
    relative to the two reads of a round. *)
Theorem runDmaBenchmark_returns base memory n chunk stride op fuel k C d :
  word_counter (block d) = 0 -> dma_cycles_upper (block d) = false ->
  dma_engine (dma_running (block d)) (received base memory n chunk stride op) = Some (k, C) ->
  0 <= C < 2 ^ 64 -> wrap 32 C <> 0 -> (k < fuel)%nat ->
  exists d', runDmaBenchmark false fuel base memory n chunk stride op d = Returns (C, d') /\
    word_counter (block d') = 0 /\
    dma_cmds (block d') = dma_cmds (block d) ++ [received base memory n chunk stride op].
Proof.
  intros Hwc Hu Hen HC Hlow Hfuel.
  destruct (program_command false base memory n chunk stride (memoryOp_value op) d (poll false fuel DMA_BENCH_CYCLES))
    as (d1 & B1 & R1).
  destruct (eight_writes false (block d) base memory n chunk stride (memoryOp_value op) Hwc) as (Hwc1 & Hc1 & Hv1).
  cbv zeta in B1. cbn [cmd_reg] in R1. rewrite <- B1 in Hwc1, Hc1, Hv1. rewrite Hu in Hv1.
  rewrite testbit_op in Hc1, Hv1.
  fold (received base memory n chunk stride op) in Hc1, Hv1. rewrite Hen in Hv1.
  destruct (poll_returns false C HC Hlow fuel k d1 _ _ Hv1) as (d2 & R2 & S2); [right; eauto | done |].
  exists d2. split; [by unfold runDmaBenchmark; rewrite R1|]. injection S2 as -> _ ->. done.
Qed.

(** when the lower 32 bits of the number of cycles are zero,
    [runDmaBenchmark] takes the finished benchmark for a running one and
    never returns. *)
Theorem runDmaBenchmark_zero_low_never_returns base memory n chunk stride op fuel k C d :
  word_counter (block d) = 0 -> dma_cycles_upper (block d) = false ->
  dma_engine (dma_running (block d)) (received base memory n chunk stride op) = Some (k, C) -> wrap 32 C = 0 ->
  runDmaBenchmark false fuel base memory n chunk stride op d = Running.
Proof.
  intros Hwc Hu Hen Hlow.
  destruct (program_command false base memory n chunk stride (memoryOp_value op) d (poll false fuel DMA_BENCH_CYCLES))
    as (d1 & B1 & R1).
  destruct (eight_writes false (block d) base memory n chunk stride (memoryOp_value op) Hwc) as (Hwc1 & Hc1 & Hv1).
  cbv zeta in B1. cbn [cmd_reg] in R1. rewrite <- B1 in Hv1. rewrite Hu in Hv1.
  rewrite testbit_op in Hv1.
  fold (received base memory n chunk stride op) in Hv1. rewrite Hen in Hv1.
  unfold runDmaBenchmark. rewrite R1. eapply (poll_runs false C Hlow fuel d1); [exact Hv1 | eauto].
Qed.

(** The last word of a DDR command holds the operation and the channel. *)
Lemma dram_word channel op : let x := Z.lor (Z.shiftl channel 1) (memoryOp_value op) in
  Z.testbit x 0 = op_is_write op /\ range (wrap 32 x) 2 1 = channel mod 4.
Proof.
  cbv zeta. split; [destruct op; by rewrite Z.lor_spec, Z.shiftl_spec_low by lia|].
  change (channel mod 4) with (wrap 2 channel). destruct op; bitwise.
  rewrite (Z.bits_above_log2 1) by (cbn; lia). rewrite ?orb_false_r. f_equal; lia.
Qed.

(** [runDramBenchmark] reaches the DDR channel [channel mod 4]: it returns
    the cycles of channels 0 and 1, which have an engine, and never returns
    for the other two. *)
Theorem runDramBenchmark_channel base memory n chunk stride op channel fuel d :
  word_counter (block d) = 0 -> ddr_cycles_upper (block d) = false ->
  ddr0_running (block d) = None -> ddr1_running (block d) = None -> 0 <= channel < 256 ->
  let cmd := received base memory n chunk stride op in
  (2 <= channel mod 4 -> runDramBenchmark false fuel base memory n chunk stride op channel d = Running) /\
  (forall k C, channel mod 4 < 2 -> ddr_engine (channel mod 4) None cmd = Some (k, C) ->
     0 <= C < 2 ^ 64 -> wrap 32 C <> 0 -> (k < fuel)%nat ->
     exists d', runDramBenchmark false fuel base memory n chunk stride op channel d = Returns (C, d') /\
       ddr_cmds (block d') = ddr_cmds (block d) ++ [(cmd, channel mod 4)]).
Proof.
  intros Hwc Hu I0 I1 Hch cmd.
  set (x := Z.lor (Z.shiftl channel 1) (memoryOp_value op)).
  destruct (program_command true base memory n chunk stride x d (poll false fuel DDR_BENCH_CYCLES)) as (d1 & B1 & R1).
  destruct (eight_writes true (block d) base memory n chunk stride x Hwc) as (_ & Hc1 & Hu1 & Hz1 & Hr0 & Hr1).
  cbv zeta in B1. cbn [cmd_reg] in R1. rewrite <- B1 in Hc1, Hu1, Hz1, Hr0, Hr1. rewrite Hu in Hu1. rewrite I0 in Hr0.
  rewrite I1 in Hr1. destruct (dram_word channel op) as [E0 Ed]. fold x in E0, Ed. rewrite E0, Ed in Hc1, Hr0, Hr1.
  fold (received base memory n chunk stride op) in Hc1, Hr0, Hr1. fold cmd in Hc1, Hr0, Hr1.
  unfold runDramBenchmark. fold x. rewrite R1. assert (0 <= channel mod 4 < 4) by (apply Z.mod_pos_bound; lia). split.
  - intros Hge. rewrite (proj2 (Z.eqb_neq _ _)) in Hr0 by lia. rewrite (proj2 (Z.eqb_neq _ _)) in Hr1 by lia.
    eapply (poll_runs true 0); [done | cbn; auto | by left].
  - intros k C Hlt Hen HC Hlow Hfuel.
    assert (Hv1 : cycles_view true (block d1) false 0 (Some (k, C))).
    { rewrite <- Hen. cbn. split_and!; [done | done |].
      assert (channel mod 4 = 0 \/ channel mod 4 = 1) as [E | E] by lia; rewrite E in Hr0, Hr1 |- *; auto. }
    destruct (poll_returns true C HC Hlow fuel k d1 _ _ Hv1) as (d2 & R2 & S2); [right; eauto | done |].
    exists d2. split; [done|]. injection S2 as _ -> _. done.
Qed.
End host.

(** ** Boards with nothing but this controller *)

Section board.
Variable dma_engine : progress -> bench_cmd -> progress.
Variable ddr_engine : Z -> progress -> bench_cmd -> progress.

Definition bench_board : MmioDevice bench_role := {|
  mmio_write a v s := if (0 <=? a) && (a <? 4096) then bench_write dma_engine ddr_engine a v s else s;
  mmio_read a s := if (0 <=? a) && (a <? 4096) then bench_read a s else (0, s);
  elapse := tick |}.

Definition bench_board_routed :
  @Routed bench_role bench_role bench_board 0 (bench_write dma_engine ddr_engine) bench_read.
Proof.
  refine {| block := fun s => s |}; intros; cbn;
    by rewrite (proj2 (Z.leb_le _ _)), (proj2 (Z.ltb_lt _ _)) by lia.
Defined.
End board.

Definition bench_role_init : bench_role := BenchRole 0 0 0 false false 0 0 None None None [] [].

(** Engines that report a fixed number of cycles after two events. *)
Definition demo_dma_engine (C : Z) (p : progress) (cmd : bench_cmd) : progress :=
  match p with None => Some (2%nat, C) | Some _ => p end.
Definition demo_ddr_engine (dest : Z) (p : progress) (cmd : bench_cmd) : progress :=
  match p with None => Some (2%nat, 50 + dest) | Some _ => p end.
Definition demo_board (C : Z) := bench_board (demo_dma_engine C) demo_ddr_engine.
Definition demo_routed (C : Z) := bench_board_routed (demo_dma_engine C) demo_ddr_engine.

Lemma runDmaBenchmark_witness : exists d',
  runDmaBenchmark (H := demo_board (2 ^ 32 + 100)) false 5 0x7F0000000000 4096 10 64 0 WRITE bench_role_init =
    Returns (2 ^ 32 + 100, d') /\
  dma_cmds d' = [BenchCmd 0x7F0000000000 4096 10 64 0 true].
Proof.
  destruct (runDmaBenchmark_returns _ _ (H0 := demo_routed (2 ^ 32 + 100)) (fun _ => eq_refl)
    0x7F0000000000 4096 10 64 0 WRITE 5 2 (2 ^ 32 + 100) bench_role_init) as (d' & H1 & _ & H2);
    [done | done | done | lia | done | lia |]. exists d'. split; [exact H1 | exact H2].
Defined.

Lemma runDmaBenchmark_zero_low_witness :
  runDmaBenchmark (H := demo_board (2 ^ 33)) false 1000 0 4096 10 64 0 READ bench_role_init = Running.
Proof.
  by apply (runDmaBenchmark_zero_low_never_returns _ _ (H0 := demo_routed (2 ^ 33)) (fun _ => eq_refl)
    0 4096 10 64 0 READ 1000 2 (2 ^ 33) bench_role_init).
Defined.

Lemma runDramBenchmark_witness :
  runDramBenchmark (H := demo_board 1) false 9 0 4096 10 64 0 READ 7 bench_role_init = Running /\
  exists d', runDramBenchmark (H := demo_board 1) false 9 0 4096 10 64 0 READ 5 bench_role_init = Returns (51, d').
Proof.
  split.
  - by apply (runDramBenchmark_channel _ _ (H0 := demo_routed 1) (fun _ => eq_refl) 0 4096 10 64 0 READ 7 9 bench_role_init).
  - destruct (runDramBenchmark_channel _ _ (H0 := demo_routed 1) (fun _ => eq_refl) 0 4096 10 64 0 READ 5 9 bench_role_init)
      as [_ H]; [done | done | done | done | done |].
    destruct (H 2%nat 51) as (d' & R & _); [done | done | done | done | lia |]. exists d'. exact R.
Defined.
