(* ===== verification/BenchmarkRole.v ===== *)
(** [src/hdl/common/benchmark_role.sv] clock by clock: the registers that take
    the commands of the controller, the [dma_bench] instances of [DmaBench]
    behind them and the registers that hold the results.  It gives the
    parameters [dma_engine] and [ddr_engine] of [BenchmarkController] their
    meaning, so that the functions of [FpgaController] can be followed from
    the call of the host to the words on the memory interfaces. *)
From S2P Require Import Prelude Streams AxiUtils DmaBench Mmio FpgaController BenchmarkController.

(** ** Definitions *)

(** An instance of [dma_bench] with the words that wait in its read stream. *)
Record engine := Engine { vars : bench_vars; waiting : list net_axis }.

(** [start_V] is a register of the role, whatever the environment says. *)
Definition drive (start : bool) (e : bench_event) : bench_event :=
  BenchEvent start (ev_full_read e) (ev_full_write e) (ev_full_data e) (ev_junk e) (ev_read_data e).

(** The port [regExecutionCycles_V], which is valid ([ap_vld]) in the clocks in
    which the process [clock] writes it. *)
Definition execution_cycles (cfg : config) (e : bench_event) (s : bench_vars) (f : list net_axis) : option Z :=
  let '(_, wd, _) := data_generator (numberOfAccesses cfg) (chunkLength cfg) (ev_start e) (isWrite cfg)
    (ev_full_data e) (ev_junk e) (dg s) in
  let '(_, _, rd) := data_consumer (numberOfAccesses cfg) (ev_start e) (isWrite cfg) (dc s) f in
  match readDoneStream s ++ rd, writeDoneStream s ++ wd with
  | [], [] => None
  | _, _ => reg (clk (dma_bench cfg e s f).1.1)
  end.

Definition engine_clock (cfg : config) (start : bool) (e : bench_event) (x : engine) :
    engine * option Z * bench_out :=
  let e := drive start e in
  let f := waiting x ++ ev_read_data e in
  let '(s, f', o) := dma_bench cfg e (vars x) f in
  (Engine s f', execution_cycles cfg e (vars x) f, o).

(** The registers of one [always] block but for the start signals; [params] are
    the six parameters of the instances. *)
Record role_regs := RoleRegs {
  cmd_ready : bool; params : config; bench_execution_cycles : Z; runBench : bool; debug_cycle_counter : Z }.

(** The 48-bit registers are extended with zeros. *)
Definition params_of (c : bench_cmd) : config :=
  Config (bc_base c) (bc_memory c) (bc_accesses c) (bc_chunk c) (bc_stride c) (bc_write c).

(** One clock: [taken] is the command accepted and [valid] the cycles an
    instance reports; of several assignments to a register the last counts. *)
Definition regs_clock (r : role_regs) (taken : option bench_cmd) (valid : option Z) : role_regs :=
  RoleRegs true
    (match taken with Some c => params_of c | None => params r end)
    (match valid, taken with Some n, _ => n | None, Some _ => 0 | None, None => bench_execution_cycles r end)
    (match valid, taken with Some _, _ => false | None, Some _ => true | None, None => runBench r end)
    (if runBench r then wrap 32 (debug_cycle_counter r + 1)
     else match taken with Some _ => 0 | None => debug_cycle_counter r end).

(** The DMA benchmark. *)
Record dma_role := DmaRole { dma_regs : role_regs; dmaBenchStart : bool; dma_bench_inst : engine }.

Definition dma_role_clock (s : dma_role) (cmd : option bench_cmd) (e : bench_event) : dma_role * bench_out :=
  let '(x, valid, o) := engine_clock (params (dma_regs s)) (dmaBenchStart s) e (dma_bench_inst s) in
  let taken := if cmd_ready (dma_regs s) then cmd else None in
  (DmaRole (regs_clock (dma_regs s) taken valid) (match taken with Some _ => true | None => false end) x, o).

(** The memory benchmark, with two instances; only the destinations 0 and 1 start
    one, and the second overrides the first. *)
Record ddr_role := DdrRole {
  ddr_regs : role_regs; ddrBenchStart : bool * bool; ddr0_bench_inst : engine; ddr1_bench_inst : engine }.

Definition ddr_role_clock (s : ddr_role) (cmd : option (bench_cmd * Z)) (e0 e1 : bench_event) :
    ddr_role * (bench_out * bench_out) :=
  let '(x0, valid0, o0) := engine_clock (params (ddr_regs s)) (ddrBenchStart s).1 e0 (ddr0_bench_inst s) in
  let '(x1, valid1, o1) := engine_clock (params (ddr_regs s)) (ddrBenchStart s).2 e1 (ddr1_bench_inst s) in
  let taken := if cmd_ready (ddr_regs s) then cmd else None in
  (DdrRole (regs_clock (ddr_regs s) (fst <$> taken) (match valid1 with Some n => Some n | None => valid0 end))
     (match taken with Some (_, dest) => (dest =? 0, dest =? 1) | None => (false, false) end) x0 x1, (o0, o1)).

(** A clock under reset: not all registers have one, and only the DDR start signals do. *)
Definition regs_reset (r : role_regs) : role_regs :=
  RoleRegs false (params r) (bench_execution_cycles r) false (debug_cycle_counter r).

Definition dma_role_reset (s : dma_role) : dma_role :=
  DmaRole (regs_reset (dma_regs s)) (dmaBenchStart s) (dma_bench_inst s).

Definition ddr_role_reset (s : ddr_role) : ddr_role :=
  DdrRole (regs_reset (ddr_regs s)) (false, false) (ddr0_bench_inst s) (ddr1_bench_inst s).

(** Clock after clock, with the accumulated outputs. *)
Definition dma_cycle (c : dma_role * bench_out) (i : option bench_cmd * bench_event) : dma_role * bench_out :=
  let '(s, o) := c in let '(s', w) := dma_role_clock s i.1 i.2 in (s', fapp o w).

Definition dma_run (ins : list (option bench_cmd * bench_event)) (c : dma_role * bench_out) : dma_role * bench_out :=
  foldl dma_cycle c ins.

(** Without further commands. *)
Definition clocks (es : list bench_event) (c : dma_role * bench_out) : dma_role * bench_out :=
  dma_run ((fun e => (None, e)) <$> es) c.

Definition reported (c : dma_role * bench_out) : Z := bench_execution_cycles (dma_regs c.1).

(** What the transaction-level model calls [progress], for the clocks that pass
    between its events. *)
Fixpoint measured (gs : list (list bench_event)) (c : dma_role * bench_out) : progress :=
  match gs with
  | [] => None
  | g :: gs =>
      let c := clocks g c in
      if runBench (dma_regs c.1) then match measured gs c with Some (k, n) => Some (S k, n) | None => None end
      else Some (O, reported c)
  end.

(** The engine of the transaction-level model: the role in the state [r], the
    clock [e] in which it takes the command, and then the clocks [gs]. *)
Definition role_engine (r : dma_role) (e : bench_event) (gs : list (list bench_event)) (_ : progress) (c : bench_cmd) :
    progress :=
  measured gs (dma_run [(Some c, e)] (r, fnil)).

(** ** The engine *)

(** Between two clocks the streams inside the engine are empty. *)
Definition flushed (s : bench_vars) : Prop :=
  startSignal s = [] /\ readDoneStream s = [] /\ writeDoneStream s = [].

Definition quiet (s : bench_vars) : Prop := flushed s /\ dg_state (dg s) = 0 /\ dc_state (dc s) = 0.

Definition busy (s : bench_vars) : Prop :=
  flushed s /\ ((dg_state (dg s) <> 0 /\ dc_state (dc s) = 0) \/ (dg_state (dg s) = 0 /\ dc_state (dc s) <> 0)).

Lemma bench_idle_quiet s : bench_idle s -> quiet s.
Proof. unfold bench_idle, quiet, flushed. tauto. Qed.

Lemma busy_not_quiet s : busy s -> quiet s -> False.
Proof. unfold busy, quiet. tauto. Qed.

Lemma cmd_generator_signal cfg start fr fw s : exists cg' ss rc wc,
  cmd_generator cfg start fr fw s [] = (cg', ss, (rc, wc)) /\ (ss = [] \/ start = true /\ ss = [true]).
Proof.
  unfold cmd_generator. destruct (cg_state s).
  - destruct start; cbn; eauto 10.
  - destruct fw; eauto 10.
  - destruct fr; eauto 10.
Qed.

(** What the two data processes do decides what the engine does. *)
Lemma engine_step cfg start e s f : flushed s ->
  forall dg' wd words dc' rest rd,
  data_generator (numberOfAccesses cfg) (chunkLength cfg) start (isWrite cfg) (ev_full_data e) (ev_junk e) (dg s) = (dg', wd, words) ->
  data_consumer (numberOfAccesses cfg) start (isWrite cfg) (dc s) f = (dc', rest, rd) ->
  (wd = [] \/ wd = [true] /\ rd = []) -> (rd = [] \/ rd = [true]) ->
  let s' := (dma_bench cfg (drive start e) s f).1.1 in
  flushed s' /\ dg s' = dg' /\ dc s' = dc' /\
  match wd, rd with
  | [], [] => execution_cycles cfg (drive start e) s f = None /\ reg (clk s') = reg (clk s)
  | _, _ => exists n, execution_cycles cfg (drive start e) s f = Some n /\ reg (clk s') = Some n
  end.
Proof.
  intros (Hf1 & Hf2 & Hf3) dg' wd words dc' rest rd Hg Hc Hwd Hrd.
  destruct (cmd_generator_signal cfg start (ev_full_read e) (ev_full_write e) (cg s)) as (cg' & ss & rc & wc & Hs & Hss).
  unfold execution_cycles, dma_bench, flushed. cbn [drive ev_start ev_full_read ev_full_write ev_full_data ev_junk].
  rewrite Hf1, Hf2, Hf3, Hs, Hg, Hc. unfold clock.
  destruct Hrd as [-> | ->], Hwd as [-> | [-> Hx]]; try discriminate Hx;
    destruct Hss as [-> | [_ ->]], (running (clk s)); cbn; split_and!; try done; eauto.
Qed.

Lemma generator_cases N L start w full u s : dg_state s = 0 -> start = false ->
  data_generator N L start w full u s = (s, [], []).
Proof. intros H ->. unfold data_generator. rewrite H. by destruct w. Qed.

Lemma consumer_cases N start w s f : dc_state s = 0 -> start = false ->
  data_consumer N start w s f = (s, f, []).
Proof. intros H ->. unfold data_consumer. by rewrite H. Qed.

Lemma quiet_step cfg e s f : quiet s ->
  let s' := (dma_bench cfg (drive false e) s f).1.1 in
  quiet s' /\ execution_cycles cfg (drive false e) s f = None /\ reg (clk s') = reg (clk s).
Proof.
  intros (Hf & Hg & Hc).
  destruct (engine_step cfg false e s f Hf _ _ _ _ _ _ (generator_cases _ _ false _ _ _ _ Hg eq_refl)
    (consumer_cases _ false _ _ f Hc eq_refl)) as (Hf' & Eg & Ec & H); [by left | by left |].
  split; [split; [exact Hf' | by rewrite Eg, Ec] | exact H].
Qed.

Lemma start_step cfg e s f : quiet s ->
  let s' := (dma_bench cfg (drive true e) s f).1.1 in
  busy s' /\ execution_cycles cfg (drive true e) s f = None.
Proof.
  intros (Hf & Hg & Hc). pose proof (engine_step cfg true e s f Hf) as H.
  unfold data_generator, data_consumer in H. rewrite Hg, Hc in H. cbn [Z.eqb andb] in H.
  destruct (isWrite cfg); cbn [negb] in H; edestruct H as (Hf' & Eg & Ec & Hv);
    try reflexivity; try (by left);
    (split; [|apply Hv]); (split; [exact Hf'|]); rewrite Eg, Ec; cbn; rewrite ?Hg, ?Hc; auto.
Qed.

Lemma generator_busy N L b1 b2 full u s : dg_state s <> 0 -> exists dg' wd words,
  data_generator N L b1 b2 full u s = (dg', wd, words) /\
  ((wd = [] /\ dg_state dg' <> 0) \/ (wd = [true] /\ dg_state dg' = 0)).
Proof.
  intros Hs. unfold data_generator. rewrite (proj2 (Z.eqb_neq _ _) Hs). destruct full; [by eauto 10|]. eexists _, _, _. split; [reflexivity|].
  cbn. destruct (_ =? N); auto.
Qed.

Lemma consumer_busy N b1 b2 s f : dc_state s <> 0 -> exists dc' rest rd,
  data_consumer N b1 b2 s f = (dc', rest, rd) /\
  ((rd = [] /\ dc_state dc' <> 0) \/ (rd = [true] /\ dc_state dc' = 0)).
Proof.
  intros Hs. unfold data_consumer. rewrite (proj2 (Z.eqb_neq _ _) Hs). destruct f as [|w f]; [by eauto 10|].
  cbv zeta. destruct (_ =? N); eexists _, _, _; (split; [reflexivity | cbn; auto]).
Qed.

Lemma busy_step cfg e s f : busy s ->
  let s' := (dma_bench cfg (drive false e) s f).1.1 in
  (busy s' /\ execution_cycles cfg (drive false e) s f = None) \/
  (quiet s' /\ exists n, execution_cycles cfg (drive false e) s f = Some n /\ reg (clk s') = Some n).
Proof.
  intros (Hf & [[Hg Hc] | [Hg Hc]]).
  - destruct (generator_busy (numberOfAccesses cfg) (chunkLength cfg) false (isWrite cfg)
      (ev_full_data e) (ev_junk e) _ Hg)
      as (dg' & wd & words & E & Hwd).
    destruct (engine_step cfg false e s f Hf _ _ _ _ _ _ E (consumer_cases _ false _ _ f Hc eq_refl))
      as (Hf' & Eg & Ec & Hv); [tauto | by left |]. unfold busy, quiet. rewrite Eg, Ec.
    destruct Hwd as [[-> Hd] | [-> Hd]]; [left | right]; tauto.
  - destruct (consumer_busy (numberOfAccesses cfg) false (isWrite cfg) _ f Hc) as (dc' & rest & rd & E & Hrd).
    destruct (engine_step cfg false e s f Hf _ _ _ _ _ _ (generator_cases _ _ false _ _ _ _ Hg eq_refl) E)
      as (Hf' & Eg & Ec & Hv); [by left | tauto |]. unfold busy, quiet. rewrite Eg, Ec.
    destruct Hrd as [[-> Hd] | [-> Hd]]; [left | right]; tauto.
Qed.

(** An engine that still waits to send commands of the last write benchmark,
    whose cycles it has reported, takes a start for its data alone: the command
    generator continues with the old benchmark and the clock is not started,
    so the new benchmark reports the cycles of the old one. *)
Lemma start_while_commands_wait cfg e s f : quiet s -> cg_state (cg s) = WRITE_CMD -> running (clk s) = false ->
  let s' := (dma_bench cfg (drive true e) s f).1.1 in
  clk s' = clk s /\ busy s' /\ (ev_full_write e = true -> cg s' = cg s) /\
  forall e' f' n, execution_cycles cfg (drive false e') s' f' = Some n -> n = cycle_counter (clk s).
Proof.
  intros Hq Hcg Hrun s'. destruct (start_step cfg e s f Hq) as [Hb _]. fold s' in Hb.
  assert (Hclk : clk s' = clk s /\ (ev_full_write e = true -> cg s' = cg s)).
  { subst s'. destruct Hq as ((Hf1 & Hf2 & Hf3) & Hg & Hc). unfold dma_bench. cbn [drive ev_start ev_full_read ev_full_write ev_full_data ev_junk].
    unfold cmd_generator, data_generator, data_consumer. rewrite Hf1, Hf2, Hf3, Hcg, Hg, Hc. cbn [Z.eqb andb negb].
    destruct (ev_full_write e), (isWrite cfg); cbn [negb app]; unfold clock; rewrite Hrun; cbn; done. }
  destruct Hclk as [Hclk Hkeep]. split_and!; [done..|]. intros e' f' n. destruct Hb as ((Hf1 & Hf2 & Hf3) & _).
  unfold execution_cycles, dma_bench. cbn [drive ev_start ev_full_read ev_full_write ev_full_data ev_junk].
  destruct (cmd_generator_signal cfg false (ev_full_read e') (ev_full_write e') (cg s')) as (cg' & ss & rc & wc & Hs & Hss).
  destruct Hss as [-> | [? _]]; [|done]. rewrite Hf1, Hf2, Hf3, Hs, Hclk.
  destruct (data_generator _ _ _ _ _ _ _) as [[? wd] ?], (data_consumer _ _ _ _ _) as [[? ?] rd].
  unfold clock. rewrite Hrun. destruct rd, wd; cbn; congruence.
Qed.

(** ** The registers *)

(** While a benchmark runs the cycles are 0; afterwards they are those of the
    engine. *)
Definition phase_ok (s : dma_role) : Prop :=
  let b := vars (dma_bench_inst s) in
  if runBench (dma_regs s) then
    bench_execution_cycles (dma_regs s) = 0 /\ (if dmaBenchStart s then quiet b else busy b)
  else dmaBenchStart s = false /\ quiet b /\ reg (clk b) = Some (bench_execution_cycles (dma_regs s)).

(** A role that waits for a command. *)
Definition role_idle (s : dma_role) : Prop :=
  cmd_ready (dma_regs s) = true /\ dmaBenchStart s = false /\ bench_idle (vars (dma_bench_inst s)).

Lemma dma_role_clock_eq s cmd e :
  let x := dma_bench_inst s in
  let f := waiting x ++ ev_read_data e in
  let r := dma_bench (params (dma_regs s)) (drive (dmaBenchStart s) e) (vars x) f in
  let taken := if cmd_ready (dma_regs s) then cmd else None in
  dma_role_clock s cmd e =
    (DmaRole (regs_clock (dma_regs s) taken (execution_cycles (params (dma_regs s)) (drive (dmaBenchStart s) e) (vars x) f))
      (match taken with Some _ => true | None => false end) (Engine r.1.1 r.1.2), r.2).
Proof. cbv zeta. unfold dma_role_clock, engine_clock. by destruct (dma_bench _ _ _ _) as [[? ?] ?]. Qed.

Lemma phase_step s e : phase_ok s ->
  let s' := (dma_role_clock s None e).1 in
  phase_ok s' /\ (runBench (dma_regs s) = false ->
    runBench (dma_regs s') = false /\ bench_execution_cycles (dma_regs s') = bench_execution_cycles (dma_regs s)).
Proof.
  intros H. rewrite dma_role_clock_eq. destruct s as [[rd cfg n run dbg] start [b w]]. unfold phase_ok in *.
  cbn [fst dma_regs dmaBenchStart dma_bench_inst runBench bench_execution_cycles vars waiting params cmd_ready] in *.
  replace (if rd then None else None) with (@None bench_cmd) by by destruct rd.
  unfold regs_clock. cbn [runBench bench_execution_cycles]. destruct run.
  - destruct H as [-> H]. destruct start.
    + destruct (start_step cfg e b (w ++ ev_read_data e) H) as (Hb & ->). done.
    + destruct (busy_step cfg e b (w ++ ev_read_data e) H) as [(Hb & ->) | (Hq & n' & -> & Hr)]; done.
  - destruct H as (-> & Hq & Hr). destruct (quiet_step cfg e b (w ++ ev_read_data e) Hq) as (Hq' & -> & Hr').
    split; [|done]. split_and!; [done | done | by rewrite Hr'].
Qed.

(** The clock in which an idle role takes a command. *)
Lemma command_step s c e o : role_idle s -> exists b',
  dma_run [(Some c, e)] (s, o) = (DmaRole (RoleRegs true (params_of c) 0 true
      (debug_cycle_counter (regs_clock (dma_regs s) (Some c) None))) true (Engine b' (waiting (dma_bench_inst s) ++ ev_read_data e)), o) /\
  bench_idle b'.
Proof.
  intros (Hrd & Hst & Hidle). unfold dma_run. cbn [foldl dma_cycle fst snd]. unfold dma_cycle. cbn [fst snd].
  rewrite dma_role_clock_eq, Hrd, Hst. set (f := waiting (dma_bench_inst s) ++ ev_read_data e). set (cfg := params (dma_regs s)).
  destruct (quiet_step cfg e _ f (bench_idle_quiet _ Hidle)) as (_ & -> & _).
  destruct Hidle as (Hf1 & Hf2 & Hf3 & Hcg & Hdg & Hdc). unfold dma_bench.
  cbn [drive ev_start ev_full_read ev_full_write ev_full_data ev_junk].
  unfold cmd_generator. rewrite Hcg, (consumer_cases _ false _ _ f Hdc eq_refl), (generator_cases _ _ false _ _ _ _ Hdg eq_refl), Hf1, Hf2, Hf3.
  unfold clock. destruct o as [[? ?] ?]. cbn. eexists. rewrite !app_nil_r. split; [reflexivity|]. by split_and!.
Qed.

Lemma clocks_cons e es c : clocks (e :: es) c = clocks es (dma_cycle c (None, e)).
Proof. done. Qed.

Lemma clocks_app es1 es2 c : clocks (es1 ++ es2) c = clocks es2 (clocks es1 c).
Proof. unfold clocks, dma_run. by rewrite fmap_app, foldl_app. Qed.

Lemma phase_clocks es : forall c, phase_ok c.1 ->
  phase_ok (clocks es c).1 /\ (runBench (dma_regs c.1) = false ->
    runBench (dma_regs (clocks es c).1) = false /\ reported (clocks es c) = reported c).
Proof.
  induction es as [|e es IH]; intros [s o] Hok; [done|]. rewrite clocks_cons. unfold dma_cycle. cbn [fst snd] in *.
  destruct (phase_step s e Hok) as [H1 H2]. destruct (dma_role_clock s None e) as [s1 w]. cbn [fst] in *.
  destruct (IH (s1, fapp o w) H1) as [H3 H4]. split; [done|]. intros Hr. destruct (H2 Hr) as [H5 H6].
  destruct (H4 H5) as [H7 H8]. split; [done|]. by rewrite H8.
Qed.

Lemma running_reports_zero c : phase_ok c.1 -> runBench (dma_regs c.1) = true -> reported c = 0.
Proof. unfold phase_ok, reported. intros H Hr. rewrite Hr in H. apply H. Qed.

(** After the command the engine sees the events of the environment with the
    start signal in the first clock. *)
Definition driven (start : bool) (es : list bench_event) : list bench_event :=
  match es with [] => [] | e :: es => drive start e :: (drive false <$> es) end.

Lemma driven_false es : driven false es = drive false <$> es.
Proof. by destruct es. Qed.

Lemma clocks_engine es : forall s o s' f' o',
  bench_run (params (dma_regs s)) (driven (dmaBenchStart s) es) (vars (dma_bench_inst s), waiting (dma_bench_inst s), o) =
    (s', f', o') ->
  dma_bench_inst (clocks es (s, o)).1 = Engine s' f' /\ (clocks es (s, o)).2 = o'.
Proof.
  induction es as [|e es IH]; intros s o s' f' o' Hrun.
  - destruct s as [? ? []]. injection Hrun as <- <- <-. done.
  - rewrite clocks_cons. unfold dma_cycle. cbn [fst snd]. rewrite dma_role_clock_eq.
    cbn [driven] in Hrun. unfold bench_run in Hrun. cbn [foldl] in Hrun. unfold bench_cycle at 2 in Hrun.
    cbn [drive ev_read_data] in Hrun. fold (drive (dmaBenchStart s) e) in Hrun.
    replace (if cmd_ready (dma_regs s) then None else None) with (@None bench_cmd) by by destruct (cmd_ready _).
    destruct (dma_bench _ _ _ _) as [[b1 f1] w1]. cbn [fst snd].
    apply IH. cbn [dma_regs dmaBenchStart dma_bench_inst vars waiting regs_clock params]. by rewrite driven_false.
Qed.

Lemma number_driven f es : (forall b e, f (drive b e) = f e) -> number f (driven false es) = number f es.
Proof.
  intros Hf. rewrite driven_false. unfold number. induction es as [|e es IH]; [done|].
  cbn [fmap list_fmap]. rewrite !filter_cons, Hf. by destruct (decide _); cbn; rewrite IH.
Qed.

Lemma accept_cycles_driven es : forall n, accept_cycles n (driven false es) = accept_cycles n es.
Proof.
  rewrite driven_false. induction es as [|e es IH]; intros [|n]; cbn; try done. by rewrite !IH.
Qed.

Lemma take_cycles_driven es : forall n q, take_cycles n q (driven false es) = take_cycles n q es.
Proof.
  rewrite driven_false. induction es as [|e es IH]; intros [|n] q; cbn; try done. by destruct (q + _)%nat; rewrite IH.
Qed.

Lemma driven_start es : Forall (fun e => ev_start e = false) (driven false es).
Proof. rewrite driven_false. by apply Forall_fmap, Forall_true. Qed.

Lemma driven_data es : ev_read_data <$> driven false es = ev_read_data <$> es.
Proof. rewrite driven_false, <- list_fmap_compose. by apply list_fmap_ext. Qed.

Lemma length_driven es : length (driven false es) = length es.
Proof. by rewrite driven_false, length_fmap. Qed.

(** ** Progress *)

Lemma measured_observed gs : forall c j, phase_ok c.1 -> (j <= length gs)%nat ->
  reported (clocks (concat (take j gs)) c) =
  (Nat.iter j (fun x => advance x.1 x.2) (if runBench (dma_regs c.1) then measured gs c else None, reported c)).2.
Proof.
  induction gs as [|g gs IH]; intros c [|j] Hok Hj; try done; [cbn in Hj; lia|].
  cbn [take concat]. rewrite clocks_app, Nat.iter_succ_r.
  destruct (phase_clocks g c Hok) as [Hok1 Hdone]. rewrite IH by (done || (cbn in Hj; lia)).
  f_equal. f_equal. cbn [fst snd]. destruct (runBench (dma_regs c.1)) eqn:Hr.
  - rewrite (running_reports_zero c Hok Hr). cbn [measured]. destruct (runBench (dma_regs (clocks g c).1)) eqn:Hr1.
    + rewrite (running_reports_zero _ Hok1 Hr1). by destruct (measured gs (clocks g c)) as [[k n]|].
    + done.
  - destruct (Hdone eq_refl) as [-> ->]. done.
Qed.

Lemma measured_done gs : forall c, phase_ok c.1 -> runBench (dma_regs c.1) = true ->
  runBench (dma_regs (clocks (concat gs) c).1) = false ->
  exists k, measured gs c = Some (k, reported (clocks (concat gs) c)) /\ (k < length gs)%nat.
Proof.
  induction gs as [|g gs IH]; intros c Hok Hr Hend; [by cbn in Hend; rewrite Hr in Hend|].
  cbn [concat measured length] in *. rewrite clocks_app in Hend |- *.
  destruct (phase_clocks g c Hok) as [Hok1 _]. destruct (runBench (dma_regs (clocks g c).1)) eqn:Hr1.
  - destruct (IH _ Hok1 Hr1 Hend) as (k & -> & Hk). exists (S k). split; [done | lia].
  - destruct (phase_clocks (concat gs) _ Hok1) as [_ H]. destruct (H Hr1) as [_ ->]. exists O. split; [done | lia].
Qed.

(** ** A benchmark from the command to its end *)

Section benchmark.
Variables (r : dma_role) (c : bench_cmd) (e e1 : bench_event).
Hypothesis Hidle : role_idle r.

(** The state after the clock that takes the command. *)
Definition commanded : dma_role * bench_out := dma_run [(Some c, e)] (r, fnil).

Lemma commanded_phase : phase_ok commanded.1 /\ runBench (dma_regs commanded.1) = true /\ reported commanded = 0.
Proof.
  unfold commanded. destruct (command_step r c e fnil Hidle) as (b & -> & Hb).
  split; [|done]. split; [done|]. apply (bench_idle_quiet _ Hb).
Qed.

Lemma commanded_engine es : exists b, bench_idle b /\ forall s' f' o',
  bench_run (params_of c) (drive true e1 :: (drive false <$> es)) (b, waiting (dma_bench_inst r) ++ ev_read_data e, fnil) =
    (s', f', o') ->
  vars (dma_bench_inst (clocks (e1 :: es) commanded).1) = s' /\ (clocks (e1 :: es) commanded).2 = o'.
Proof.
  unfold commanded. destruct (command_step r c e fnil Hidle) as (b & -> & Hb). exists b. split; [done|].
  intros s' f' o' Hrun. match goal with |- context [clocks _ (?s, ?o)] =>
    by destruct (clocks_engine (e1 :: es) s o s' f' o' Hrun) as [-> ->] end.
Qed.

(** An engine that has finished has reported its cycles. *)
Lemma finished_reports es C : let x := clocks es commanded in
  quiet (vars (dma_bench_inst x.1)) -> dmaBenchStart x.1 = false -> reg (clk (vars (dma_bench_inst x.1))) = Some C ->
  runBench (dma_regs x.1) = false /\ reported x = C.
Proof.
  intros x Hq Hst HC. destruct commanded_phase as (Hok & _). destruct (phase_clocks es _ Hok) as [H _]. fold x in H.
  unfold phase_ok in H. rewrite Hst in H. destruct (runBench _); [destruct (busy_not_quiet _ (proj2 H) Hq)|].
  split; [done|]. destruct H as (_ & _ & H). rewrite HC in H. by injection H.
Qed.

Lemma clocks_start es : dmaBenchStart (clocks (e1 :: es) commanded).1 = false.
Proof.
  rewrite clocks_cons. generalize commanded. revert e1.
  induction es as [|e2 es IH]; intros e0 [s o]; [|rewrite clocks_cons; apply IH].
  cbn. unfold dma_cycle. cbn [fst snd]. rewrite dma_role_clock_eq. cbn. by destruct (cmd_ready _).
Qed.
End benchmark.

Lemma role_write_run r c e e1 es (cfg := params_of c) : role_idle r -> config_wf cfg -> bc_write c = true ->
  totalWords cfg <= Z.of_nat (number ev_full_data es) -> Z.of_nat (length es) < 2 ^ 64 ->
  let x := clocks (e1 :: es) (commanded r c e) in
  let T := accept_cycles (Z.to_nat (totalWords cfg)) es in
  exists ws, runBench (dma_regs x.1) = false /\ reported x = Z.of_nat T /\ totalWords cfg <= Z.of_nat T < 2 ^ 64 /\
    (Forall (fun e => ev_full_data e = false) es -> Z.of_nat T = totalWords cfg) /\
    x.2 = ([], accesses cfg (number ev_full_write es `min` Z.to_nat (numberOfAccesses cfg)), ws) /\
    Forall2 (write_word cfg) (seqZ 0 (totalWords cfg)) ws.
Proof.
  intros Hidle Hwf Hdir Hlen Hbound x T. destruct (commanded_engine r c e e1 Hidle es) as (b & Hb & Hx).
  rewrite <- driven_false in Hx. pose proof (totalWords_bounds cfg Hwf).
  destruct (accept_cycles_bounds es (Z.to_nat (totalWords cfg))) as [HT1 HT2]; [lia|]. fold T in HT1, HT2.
  destruct (write_run cfg (drive true e1) (driven false es) b (waiting (dma_bench_inst r) ++ ev_read_data e) Hwf Hdir Hb
    eq_refl (driven_start es)) as (s' & f' & ws & Hr & Hcg & _ & Hdc & Hfl & Hws & Hend).
  rewrite (number_driven ev_full_data), Nat.min_r in Hend, Hws by (done || lia). rewrite accept_cycles_driven in Hend.
  destruct Hend as [Hdg Hreg]; [done|]. rewrite wrap_small in Hreg by (fold T; lia).
  destruct (Hx _ _ _ Hr) as [Ev Eo]. fold x in Ev, Eo. rewrite (number_driven ev_full_write) in Eo by done.
  destruct (finished_reports r c e Hidle (e1 :: es) (Z.of_nat T)) as [H1 H2];
    fold x; rewrite ?Ev; [done | apply clocks_start | done |]. exists ws. rewrite Z2Nat.id in Hws by lia.
  split_and!; try done; try lia. intros Hall. unfold T. rewrite (accept_cycles_ready _ Hall) by lia. lia.
Qed.

Lemma role_read_run r c e e1 es1 es2 all (cfg := params_of c) : role_idle r -> config_wf cfg -> bc_write c = false ->
  waiting (dma_bench_inst r) = [] -> ev_read_data e = [] -> ev_read_data e1 = [] ->
  concat (ev_read_data <$> es1) = all -> concat (ev_read_data <$> es2) = [] ->
  Z.of_nat (lasts all) = numberOfAccesses cfg -> (exists ws w, all = ws ++ [w] /\ last w = true) ->
  (length all <= length es2)%nat -> Z.of_nat (length (es1 ++ es2)) < 2 ^ 64 ->
  let x := clocks (e1 :: es1 ++ es2) (commanded r c e) in
  runBench (dma_regs x.1) = false /\ reported x = Z.of_nat (take_cycles (length all) 0 (es1 ++ es2)) /\
  x.2 = (accesses cfg (number ev_full_read (es1 ++ es2) `min` Z.to_nat (numberOfAccesses cfg)), [], []).
Proof.
  intros Hidle Hwf Hdir Hw He He1 Hall Hes2 Hlasts Hlast Hlen Hbound x.
  destruct (commanded_engine r c e e1 Hidle (es1 ++ es2)) as (b & Hb & Hx). rewrite Hw, He in Hx.
  rewrite fmap_app, <- !driven_false in Hx.
  assert (E : driven false es1 ++ driven false es2 = driven false (es1 ++ es2)) by by rewrite !driven_false, fmap_app.
  destruct (read_run cfg (drive true e1) (driven false es1) (driven false es2) b all Hwf Hdir Hb eq_refl He1)
    as (s' & Hr & Hcg & Hdg & Hdc & Hfl & Hreg); rewrite ?driven_data, ?E, ?length_driven; try done; [apply driven_start|].
  rewrite !E in *. rewrite (number_driven ev_full_read) in Hr, Hcg by done. rewrite take_cycles_driven in Hreg.
  destruct (Hx _ _ _ Hr) as [Ev Eo]. fold x in Ev, Eo.
  destruct (finished_reports r c e Hidle (e1 :: es1 ++ es2) (Z.of_nat (take_cycles (length all) 0 (es1 ++ es2)))) as [H1 H2];
    fold x; rewrite ?Ev; [done | apply clocks_start | done |]. fold x in H2. rewrite H2. done.
Qed.

(** ** The memory benchmark is one of its two channels *)

Definition ddr_run (ins : list (option (bench_cmd * Z) * bench_event * bench_event))
    (c : ddr_role * (bench_out * bench_out)) : ddr_role * (bench_out * bench_out) :=
  foldl (fun c i => let '(s, o) := c in let '(s', w) := ddr_role_clock s i.1.1 i.1.2 i.2 in
    (s', (fapp o.1 w.1, fapp o.2 w.2))) c ins.

(** What channel 0 or 1 sees of the state and of the inputs. *)
Definition channel_role (ch : bool) (s : ddr_role) : dma_role :=
  DmaRole (ddr_regs s) (if ch then (ddrBenchStart s).2 else (ddrBenchStart s).1)
    (if ch then ddr1_bench_inst s else ddr0_bench_inst s).

Definition channel_in (ch : bool) (i : option (bench_cmd * Z) * bench_event * bench_event) : option bench_cmd * bench_event :=
  (fst <$> i.1.1, if ch then i.2 else i.1.2).

Definition channel_out (ch : bool) (o : bench_out * bench_out) : bench_out := if ch then o.2 else o.1.

(** The other channel is idle. *)
Definition other_idle (ch : bool) (s : ddr_role) : Prop :=
  dmaBenchStart (channel_role (negb ch) s) = false /\ bench_idle (vars (dma_bench_inst (channel_role (negb ch) s))).

Lemma idle_engine cfg e x : bench_idle (vars x) -> exists b,
  engine_clock cfg false e x = (Engine b (waiting x ++ ev_read_data e), None, fnil) /\ bench_idle b.
Proof.
  intros Hidle. unfold engine_clock. cbv zeta.
  change (ev_read_data (drive false e)) with (ev_read_data e). set (f := waiting x ++ ev_read_data e).
  destruct (quiet_step cfg e _ f (bench_idle_quiet _ Hidle)) as (_ & Hv & _). rewrite Hv. clear Hv.
  destruct Hidle as (Hf1 & Hf2 & Hf3 & Hcg & Hdg & Hdc). unfold dma_bench.
  cbn [drive ev_start ev_full_read ev_full_write ev_full_data ev_junk]. unfold cmd_generator.
  rewrite Hcg, (consumer_cases _ false _ _ f Hdc eq_refl), (generator_cases _ _ false _ _ _ _ Hdg eq_refl), Hf1, Hf2, Hf3.
  unfold clock. cbn. eexists. split; [reflexivity|]. by split_and!.
Qed.

(** One clock after the reset an idle role waits for commands. *)
Lemma reset_then_idle s cmd e : dmaBenchStart s = false -> bench_idle (vars (dma_bench_inst s)) ->
  role_idle (dma_role_clock (dma_role_reset s) cmd e).1 /\ runBench (dma_regs (dma_role_clock (dma_role_reset s) cmd e).1) = false.
Proof.
  intros Hst Hidle. unfold dma_role_clock, dma_role_reset. cbn [dma_regs dmaBenchStart dma_bench_inst]. rewrite Hst.
  destruct (idle_engine (params (regs_reset (dma_regs s))) e _ Hidle) as (b & -> & Hb). done.
Qed.

Lemma channel_step (ch : bool) s cmd e0 e1 : other_idle ch s ->
  (match cmd with Some (_, dest) => dest = if ch then 1 else 0 | None => True end) ->
  let r := ddr_role_clock s cmd e0 e1 in
  let q := dma_role_clock (channel_role ch s) (fst <$> cmd) (if ch then e1 else e0) in
  channel_role ch r.1 = q.1 /\ channel_out ch r.2 = q.2 /\ channel_out (negb ch) r.2 = fnil /\ other_idle ch r.1.
Proof.
  intros [Hst Hidle] Hcmd. unfold ddr_role_clock, dma_role_clock, other_idle, channel_role in *.
  assert (Htaken : (if cmd_ready (ddr_regs s) then fst <$> cmd else None) = fst <$> (if cmd_ready (ddr_regs s) then cmd else None))
    by by destruct (cmd_ready (ddr_regs s)).
  destruct ch; cbn [negb dma_regs dmaBenchStart dma_bench_inst] in *; rewrite Hst, Htaken.
  - destruct (idle_engine (params (ddr_regs s)) e0 (ddr0_bench_inst s) Hidle) as (b & -> & Hb).
    destruct (engine_clock _ (ddrBenchStart s).2 e1 _) as [[x1 v1] o1]. cbn.
    destruct (cmd_ready (ddr_regs s)), cmd as [[c dest]|]; try rewrite Hcmd; cbn; by destruct v1.
  - destruct (idle_engine (params (ddr_regs s)) e1 (ddr1_bench_inst s) Hidle) as (b & -> & Hb).
    destruct (engine_clock _ (ddrBenchStart s).1 e0 _) as [[x0 v0] o0]. cbn.
    destruct (cmd_ready (ddr_regs s)), cmd as [[c dest]|]; try rewrite Hcmd; cbn; by destruct v0.
Qed.

Lemma unused_step s c dest e0 e1 : 2 <= dest -> ddrBenchStart s = (false, false) ->
  bench_idle (vars (ddr0_bench_inst s)) -> bench_idle (vars (ddr1_bench_inst s)) -> forall cmd,
  cmd = None \/ cmd = Some (c, dest) ->
  let r := ddr_role_clock s cmd e0 e1 in
  ddrBenchStart r.1 = (false, false) /\ bench_idle (vars (ddr0_bench_inst r.1)) /\
  bench_idle (vars (ddr1_bench_inst r.1)) /\ r.2 = (fnil, fnil) /\
  bench_execution_cycles (ddr_regs r.1) =
    match cmd with Some _ => if cmd_ready (ddr_regs s) then 0 else bench_execution_cycles (ddr_regs s)
    | None => bench_execution_cycles (ddr_regs s) end.
Proof.
  intros Hdest Hst H0 H1 cmd Hcmd. unfold ddr_role_clock. rewrite Hst. cbn [fst snd].
  destruct (idle_engine (params (ddr_regs s)) e0 _ H0) as (b0 & -> & Hb0).
  destruct (idle_engine (params (ddr_regs s)) e1 _ H1) as (b1 & -> & Hb1).
  destruct Hcmd as [-> | ->], (cmd_ready (ddr_regs s)); cbn;
    rewrite ?(proj2 (Z.eqb_neq dest 0)), ?(proj2 (Z.eqb_neq dest 1)) by lia; by split_and!.
Qed.

(** ** Properties *)

(** the view of the host - a benchmark that reports its cycles after some
    more events and reports nothing before - is what the registers show: from
    the clock that takes a command on, whatever the memory does and however
    many clocks pass between the events, the cycles register holds 0 until
    the engine reports, then what it has reported, as [advance] says of the
    [progress] that [role_engine] computes. *)
Theorem role_progress r c e gs p j : role_idle r -> (j <= length gs)%nat ->
  reported (clocks (concat (take j gs)) (commanded r c e)) =
  (Nat.iter j (fun x => advance x.1 x.2) (role_engine r e gs p c, 0)).2.
Proof.
  intros Hidle Hj. destruct (commanded_phase r c e Hidle) as (Hok & Hr & Hz).
  rewrite (measured_observed gs _ j Hok Hj), Hr, Hz. done.
Qed.

(** C22: the memory benchmark serves the channels 0 and 1 separately: while only
    commands for one of them arrive, the role behaves as the DMA benchmark does
    with that instance, and the other instance stays idle and sends nothing;
    a command for the channels 2 and 3 clears the cycles and starts nothing. *)
Theorem ddr_role_channels s o : 
  (forall (ch : bool) ins, other_idle ch s ->
    Forall (fun i => match i.1.1 with Some (_, dest) => dest = if ch then 1 else 0 | None => True end) ins ->
    let x := ddr_run ins (s, o) in
    (channel_role ch x.1, channel_out ch x.2) = dma_run (channel_in ch <$> ins) (channel_role ch s, channel_out ch o) /\
    channel_out (negb ch) x.2 = channel_out (negb ch) o /\ other_idle ch x.1) /\
  (forall c dest e0 e1 ins, 2 <= dest -> cmd_ready (ddr_regs s) = true -> ddrBenchStart s = (false, false) ->
    bench_idle (vars (ddr0_bench_inst s)) -> bench_idle (vars (ddr1_bench_inst s)) ->
    Forall (fun i => i.1.1 = None) ins ->
    let x := ddr_run ((Some (c, dest), e0, e1) :: ins) (s, o) in
    bench_execution_cycles (ddr_regs x.1) = 0 /\ x.2 = o).
Proof.
  split.
  - intros ch ins. revert s o. induction ins as [|[[cmd e0] e1] ins IH]; intros s o Ho Hins; [done|].
    apply Forall_cons_1 in Hins as [Hcmd Hins]. cbn [fst snd] in Hcmd.
    destruct (channel_step ch s cmd e0 e1 Ho Hcmd) as (E1 & E2 & E3 & Ho'). cbv zeta.
    unfold ddr_run, dma_run in *. cbn [foldl fmap list_fmap]. cbn [fst snd]. unfold dma_cycle at 2. cbn [fst snd channel_in].
    replace (dma_role_clock (channel_role ch s) (fst <$> cmd) (if ch then e1 else e0)) with
      (channel_role ch (ddr_role_clock s cmd e0 e1).1, channel_out ch (ddr_role_clock s cmd e0 e1).2)
      by (rewrite E1, E2; by destruct (dma_role_clock _ _ _)).
    destruct (ddr_role_clock s cmd e0 e1) as [s1 w]. cbn [fst snd] in *.
    destruct (IH s1 (fapp o.1 w.1, fapp o.2 w.2) Ho' Hins) as (H1 & H2 & H3). split_and!; [|rewrite H2|done].
    + rewrite H1. by destruct ch.
    + destruct ch; cbn [negb channel_out fst snd] in *; by rewrite E3, fapp_nil_r.
  - intros c dest e0 e1 ins Hdest Hrd Hst H0 H1 Hins. cbv zeta. unfold ddr_run. cbn [foldl fst snd].
    destruct (unused_step s c dest e0 e1 Hdest Hst H0 H1 _ (or_intror eq_refl)) as (A1 & A2 & A3 & A4 & A5).
    rewrite Hrd in A5. destruct (ddr_role_clock s _ e0 e1) as [s1 w]. cbn [fst snd] in *. subst w.
    cbn [fst snd]. rewrite !fapp_nil_r. replace (o.1, o.2) with o by by destruct o.
    revert s1 A1 A2 A3 A5. clear -c Hdest Hins. induction ins as [|[[cmd e0] e1] ins IH]; intros s1 A1 A2 A3 A5; [done|].
    apply Forall_cons_1 in Hins as [Hcmd Hins]. cbn [fst snd] in Hcmd. subst cmd. cbn [foldl fst snd].
    destruct (unused_step s1 c dest e0 e1 Hdest A1 A2 A3 _ (or_introl eq_refl)) as (B1 & B2 & B3 & B4 & B5).
    destruct (ddr_role_clock s1 _ e0 e1) as [s2 w]. cbn [fst snd] in *. subst w. cbn [fst snd]. rewrite !fapp_nil_r.
    replace (o.1, o.2) with o by by destruct o. apply IH; try done. congruence.
Qed.

Section host.
(** The role when the host calls, what happens in the clock that takes its
    command, and in the clocks between the following accesses. *)
Variables (r : dma_role) (e : bench_event) (gs : list (list bench_event)).
Hypothesis Hidle : role_idle r.
Variable ddr_engine : Z -> progress -> bench_cmd -> progress.
Context {D : Type} `{Routed D bench_role 0 (bench_write (role_engine r e gs) ddr_engine) bench_read}.
Hypothesis block_elapse : forall d, block (elapse d) = tick (block d).

(** A benchmark that has ended within the clocks is reported to the host. *)
Lemma host_measures base memory n chunk stride op fuel d (cmd := received base memory n chunk stride op)
    (x := clocks (concat gs) (commanded r cmd e)) :
  word_counter (block d) = 0 -> dma_cycles_upper (block d) = false ->
  runBench (dma_regs x.1) = false -> 1 <= reported x < 2 ^ 64 -> wrap 32 (reported x) <> 0 -> (length gs <= fuel)%nat ->
  exists d', runDmaBenchmark false fuel base memory n chunk stride op d = Returns (reported x, d') /\
    dma_cmds (block d') = dma_cmds (block d) ++ [cmd].
Proof.
  intros Hwc Hu Hend Hn Hlow Hfuel. destruct (commanded_phase r cmd e Hidle) as (Hok & Hr & _).
  destruct (measured_done gs _ Hok Hr Hend) as (k & Hm & Hk).
  destruct (runDmaBenchmark_returns _ _ block_elapse base memory n chunk stride op fuel k (reported x) d)
    as (d' & R & _ & C); try done; [lia | lia |]. by exists d'.
Qed.

(** C10: from the call of the host to the memory and back, for writes: when the
    parameters make sense ([config_wf]), the role is idle, the controller expects the first word of a command, and the data stream accepts the words of all
    accesses within the clocks considered (fewer than 2^64), [runDmaBenchmark] returns - after at most
    one round of polling per event - exactly the number of clocks from the start of the engine to the
    one in which the last word is accepted, which is the number of words if the stream accepts one in every clock; and
    the engine has sent, within the memory region, the commands the memory accepted and the words of all
    accesses, in order.  (A number whose lower 32 bits are zero is excluded: the
    host would go on polling.) *)
Theorem host_write_benchmark base memory n chunk stride op fuel d e1 es
    (cmd := received base memory n chunk stride op) (cfg := params_of cmd)
    (T := Z.of_nat (accept_cycles (Z.to_nat (totalWords cfg)) es)) :
  word_counter (block d) = 0 -> dma_cycles_upper (block d) = false -> config_wf cfg -> op_is_write op = true ->
  concat gs = e1 :: es -> totalWords cfg <= Z.of_nat (number ev_full_data es) -> Z.of_nat (length es) < 2 ^ 64 ->
  wrap 32 T <> 0 -> (length gs <= fuel)%nat ->
  let sent := accesses cfg (number ev_full_write es `min` Z.to_nat (numberOfAccesses cfg)) in
  exists d' ws, runDmaBenchmark false fuel base memory n chunk stride op d = Returns (T, d') /\
    totalWords cfg <= T <= Z.of_nat (length es) /\
    (Forall (fun e => ev_full_data e = false) es -> T = totalWords cfg) /\
    (clocks (concat gs) (commanded r cmd e)).2 = ([], sent, ws) /\ Forall (in_region cfg) sent /\
    Forall2 (write_word cfg) (seqZ 0 (totalWords cfg)) ws /\ dma_cmds (block d') = dma_cmds (block d) ++ [cmd].
Proof.
  intros Hwc Hu Hwf Hop Hgs Hlen Hbound Hlow Hfuel sent. pose proof (totalWords_bounds cfg Hwf).
  destruct (role_write_run r cmd e e1 es Hidle Hwf Hop Hlen Hbound) as (ws & Hr & Ht & HT & Hready & Ho & Hws).
  fold cfg T in Ht, HT, Hready, Ho, Hws. rewrite <- Hgs in Hr, Ht, Ho.
  destruct (host_measures base memory n chunk stride op fuel d Hwc Hu Hr) as (d' & R & C);
    fold cmd in Ht |- *; rewrite ?Ht; [lia | done | done |]. fold cmd in R. rewrite Ht in R. exists d', ws.
  pose proof (accept_cycles_bounds es (Z.to_nat (totalWords cfg))).
  split; [done|]. split; [lia|]. split; [done|]. split; [exact Ho|]. split; [by apply accesses_in_region | done].
Qed.

(** the same for reads: when the packets that answer all accesses arrive and
    enough clocks pass to take them, [runDmaBenchmark] returns exactly the number of
    clocks until the engine takes the word that completes the last packet - at least the number
    of words, at most the number of clocks - and the engine has sent the
    commands the memory accepted, within the memory region, and no data. *)
Theorem host_read_benchmark base memory n chunk stride op fuel d e1 es1 es2 all
    (cmd := received base memory n chunk stride op) (cfg := params_of cmd)
    (T := Z.of_nat (take_cycles (length all) 0 (es1 ++ es2))) :
  word_counter (block d) = 0 -> dma_cycles_upper (block d) = false -> config_wf cfg -> op_is_write op = false ->
  waiting (dma_bench_inst r) = [] -> ev_read_data e = [] -> ev_read_data e1 = [] -> concat gs = e1 :: es1 ++ es2 ->
  concat (ev_read_data <$> es1) = all -> concat (ev_read_data <$> es2) = [] ->
  Z.of_nat (lasts all) = numberOfAccesses cfg -> (exists ws w, all = ws ++ [w] /\ last w = true) ->
  (length all <= length es2)%nat -> Z.of_nat (length (es1 ++ es2)) < 2 ^ 32 -> (length gs <= fuel)%nat ->
  let sent := accesses cfg (number ev_full_read (es1 ++ es2) `min` Z.to_nat (numberOfAccesses cfg)) in
  exists d', runDmaBenchmark false fuel base memory n chunk stride op d = Returns (T, d') /\
    Z.of_nat (length all) <= T <= Z.of_nat (length (es1 ++ es2)) /\
    (clocks (concat gs) (commanded r cmd e)).2 = (sent, [], []) /\ Forall (in_region cfg) sent /\
    dma_cmds (block d') = dma_cmds (block d) ++ [cmd].
Proof.
  intros Hwc Hu Hwf Hop Hw He He1 Hgs Hall Hes2 Hlasts Hlast Hlen Hbound Hfuel sent.
  destruct (role_read_run r cmd e e1 es1 es2 all Hidle Hwf Hop Hw He He1 Hall Hes2 Hlasts Hlast Hlen) as (Hr & Ht & Ho);
    [lia|]. fold cfg in Ho. fold T in Ht. rewrite <- Hgs in Hr, Ht, Ho.
  destruct (take_cycles_all es1 es2 all Hall Hes2 Hlen) as [HT1 HT2].
  assert (1 <= Z.of_nat (length all)) by (destruct Hlast as (ws & w & -> & _); rewrite length_app; cbn; lia).
  destruct (host_measures base memory n chunk stride op fuel d Hwc Hu Hr) as (d' & R & C);
    fold cmd in Ht |- *; rewrite ?Ht; [lia | rewrite wrap_small by lia; lia | done |]. fold cmd in R. rewrite Ht in R.
  exists d'. split; [done|]. split; [lia|]. split; [exact Ho|]. split; [by apply accesses_in_region | done].
Qed.
End host.

(** ** Instances *)

Definition demo_role : dma_role :=
  DmaRole (RoleRegs true (Config 0 0 0 0 0 false) 0 false 0) false (Engine bench_init []).

(** Ten clocks between two accesses. *)
Definition demo_clock (ws : list net_axis) : bench_event := BenchEvent false false false false (NetAxis 0 0 false) ws.
Definition demo_groups (es : list bench_event) : list (list bench_event) := [firstn 4 es; skipn 4 es].

(** The data stream accepts no word in one clock. *)
Definition demo_after : list bench_event :=
  demo_clock [] :: BenchEvent false false false true (NetAxis 0 0 false) [] :: replicate 7 (demo_clock []).
Definition demo_write_clocks : list bench_event := demo_clock [] :: demo_after.
Definition demo_reads : list bench_event :=
  demo_clock [] :: [demo_clock demo_packet; demo_clock (demo_packet ++ demo_packet)] ++ replicate 6 (demo_clock []).

Lemma role_progress_witness :
  reported (clocks (concat (take 1 (demo_groups demo_write_clocks))) (commanded demo_role (received 0x10000 0x1000 3 128 0x600 WRITE) (demo_clock []))) = 0 /\
  reported (clocks (concat (take 2 (demo_groups demo_write_clocks))) (commanded demo_role (received 0x10000 0x1000 3 128 0x600 WRITE) (demo_clock []))) = 7.
Proof.
  split.
  - rewrite (role_progress demo_role _ _ _ None 1) by (vm_compute; (tauto || lia)). vm_compute. reflexivity.
  - rewrite (role_progress demo_role _ _ _ None 2) by (vm_compute; (tauto || lia)). vm_compute. reflexivity.
Defined.

Lemma host_write_benchmark_witness : exists d',
  runDmaBenchmark (H := bench_board (role_engine demo_role (demo_clock []) (demo_groups demo_write_clocks)) demo_ddr_engine)
    false 2 0x10000 0x1000 3 128 0x600 WRITE bench_role_init = Returns (7, d').
Proof.
  destruct (host_write_benchmark demo_role (demo_clock []) (demo_groups demo_write_clocks) ltac:(vm_compute; tauto) demo_ddr_engine
    (H0 := bench_board_routed _ _) (fun _ => eq_refl) 0x10000 0x1000 3 128 0x600 WRITE 2 bench_role_init
    (demo_clock []) demo_after) as (d' & ws & R & _).
  1, 2, 4, 5, 7: reflexivity.
  - exact (demo_config_wf true).
  - vm_compute. discriminate.
  - vm_compute. discriminate.
  - cbn. lia.
  - exists d'. exact R.
Defined.

Lemma host_read_benchmark_witness : exists d',
  runDmaBenchmark (H := bench_board (role_engine demo_role (demo_clock []) (demo_groups demo_reads)) demo_ddr_engine)
    false 2 0x10000 0x1000 3 128 0x600 READ bench_role_init = Returns (6, d').
Proof.
  destruct (host_read_benchmark demo_role (demo_clock []) (demo_groups demo_reads) ltac:(vm_compute; tauto) demo_ddr_engine
    (H0 := bench_board_routed _ _) (fun _ => eq_refl) 0x10000 0x1000 3 128 0x600 READ 2 bench_role_init
    (demo_clock []) [demo_clock demo_packet; demo_clock (demo_packet ++ demo_packet)] (replicate 6 (demo_clock []))
    (demo_packet ++ demo_packet ++ demo_packet)) as (d' & R & _); try reflexivity.
  - exact (demo_config_wf false).
  - by exists (demo_packet ++ demo_packet ++ [NetAxis 1 (Z.ones 64) false]), (NetAxis 2 (Z.ones 64) true).
  - exists d'. exact R.
Defined.

(** Both channels start idle; a command for channel 1. *)
Definition demo_ddr_role : ddr_role :=
  DdrRole (RoleRegs true (Config 0 0 0 0 0 false) 5 false 0) (false, false) (Engine bench_init []) (Engine bench_init []).

Definition demo_ddr_ins (dest : Z) : list (option (bench_cmd * Z) * bench_event * bench_event) :=
  (Some (received 0x10000 0x1000 3 128 0x600 WRITE, dest), demo_clock [], demo_clock [])
    :: replicate 10 (None, demo_clock [], demo_clock []).

Lemma ddr_role_channels_witness :
  channel_role true (ddr_run (demo_ddr_ins 1) (demo_ddr_role, (fnil, fnil))).1 =
    (dma_run (channel_in true <$> demo_ddr_ins 1) (channel_role true demo_ddr_role, fnil)).1 /\
  bench_execution_cycles (ddr_regs (ddr_run (demo_ddr_ins 3) (demo_ddr_role, (fnil, fnil))).1) = 0.
Proof.
  destruct (ddr_role_channels demo_ddr_role (fnil, fnil)) as [H1 H2]. split.
  - destruct (H1 true (demo_ddr_ins 1)) as (E & _); [vm_compute; tauto | by repeat constructor |].
    apply (f_equal fst) in E. exact E.
  - apply H2; [lia | done | done | vm_compute; tauto | vm_compute; tauto | by repeat constructor].
Defined.
