(* ===== verification/XdmaIoctl.v ===== *)
(** [src/driver/xdma_driver.c], [src/driver/xdma_ioctl.h]: the ioctl operations
    that pin the huge pages of a process and tell it their physical
    addresses. *)
From stdpp Require Import gmap gmultiset.
From S2P Require Import Prelude Mmio.

(** ** Data *)

Record xdma_huge := XdmaHuge { huge_addr : Z; huge_bytes : Z }.

(** [dma_addr] points to an array of the process. *)
Record xdma_huge_mapping := XdmaMapping { map_npages : Z; map_dma_addr : list Z }.

(** The array [huge_pages] of pointers to pages: the null pointer, the
    allocated array up to the last entry written, or an array that has been
    freed. *)
Inductive page_array := Null | Pages (l : list Z) | Freed.

(** The fields of [struct dev_inst] for the DMA memory, and what the kernel
    keeps per page: how often it is pinned, and the flags PG_reserved and
    PG_dirty. *)
Record driver := Driver {
  huge_user_addr : Z;
  huge_size : Z;
  huge_npages : Z;
  huge_hnpages : Z;
  huge_pages : page_array;
  pinned : gmultiset Z;
  reserved : gset Z;
  dirty : gset Z }.

(** The kernel: the results of its functions as far as they depend on the
    arguments.  [kmalloc n] is the initial content of [n] words. *)
Record kernel := Kernel {
  PAGE_SIZE : Z;
  page_to_phys : Z -> Z;
  vmalloc : Z -> bool;
  get_user_pages : Z -> Z -> Z * list Z;
  kmalloc : Z -> option (list Z) }.

(** The accesses to the memory of the process in one call: how many bytes
    [copy_from_user] left over, and the content of the destination when a
    [copy_to_user] fails. *)
Record uaccess := Uaccess { from_user : Z; struct_fails : option Z; array_fails : option (list Z) }.

Definition uaccess_ok : uaccess := Uaccess 0 None None.

Definition EFAULT : Z := 14.
Definition EACCES : Z := 13.

Definition int32 (x : Z) : Z := wrap 32 (x + 2 ^ 31) - 2 ^ 31.

Definition entries (a : page_array) : list Z := match a with Pages l => l | _ => [] end.

(** ** Operations *)

Section operations.
Variable k : kernel.

Definition set_huge_pages (a : page_array) (s : driver) : driver :=
  Driver (huge_user_addr s) (huge_size s) (huge_npages s) (huge_hnpages s) a (pinned s) (reserved s) (dirty s).

Definition set_sizes (addr sz npages hnpages : Z) (s : driver) : driver :=
  Driver addr sz npages hnpages (huge_pages s) (pinned s) (reserved s) (dirty s).

Definition pin (pgs : list Z) (s : driver) : driver :=
  Driver (huge_user_addr s) (huge_size s) (huge_npages s) (huge_hnpages s) (huge_pages s)
    (pinned s ⊎ list_to_set_disj pgs) (reserved s) (dirty s).

Definition SetPageReserved (pg : Z) (s : driver) : driver :=
  Driver (huge_user_addr s) (huge_size s) (huge_npages s) (huge_hnpages s) (huge_pages s)
    (pinned s) ({[pg]} ∪ reserved s) (dirty s).

Definition SetPageDirty (pg : Z) (s : driver) : driver :=
  Driver (huge_user_addr s) (huge_size s) (huge_npages s) (huge_hnpages s) (huge_pages s)
    (pinned s) (reserved s) ({[pg]} ∪ dirty s).

Definition put_page (pg : Z) (s : driver) : driver :=
  Driver (huge_user_addr s) (huge_size s) (huge_npages s) (huge_hnpages s) (huge_pages s)
    (pinned s ∖ {[+ pg +]}) (reserved s) (dirty s).

(** [for (i; i < npages; i++)] over the entries from [i] on; reading an entry
    that does not exist is undefined. *)
Fixpoint reserve_loop (pages : list Z) (i npages j : Z) : M driver Z :=
  if i <? npages then
    match pages with
    | [] => undefined
    | pg :: pages => modify (SetPageReserved pg);; reserve_loop pages (i + 1) npages (if i mod 512 =? 0 then j + 1 else j)
    end
  else mret j.

Definition ioctl_do_buffer_set (u : uaccess) (huge : xdma_huge) : M driver Z :=
  if negb (from_user u =? 0) then mret (from_user u)
  else
    let npages := wrap 64 (1 + wrap 64 (huge_bytes huge - 1) / PAGE_SIZE k) in
    let '(rc, pgs) := get_user_pages k (huge_addr huge) npages in
    (if vmalloc k (wrap 64 (npages * 8)) then modify (set_huge_pages (Pages pgs));; modify (pin pgs)
     else modify (set_huge_pages Null));;
    if rc =? 0 then mret (-1)
    else
      let npages := wrap 64 rc in
      pages ← gets huge_pages;
      j ← reserve_loop (entries pages) 0 npages 0;
      modify (set_sizes (huge_addr huge) (wrap 64 (npages * 4096)) npages j);; mret 0.

(** The second loop, which fills the array [dma_addr]. *)
Fixpoint fill_loop (pages : list Z) (i npages j : Z) (dma_addr : list Z) : M driver (list Z) :=
  if i <? npages then
    match pages with
    | [] => undefined
    | pg :: pages =>
        if i mod 512 =? 0 then
          if j <? Z.of_nat (length dma_addr) then
            fill_loop pages (i + 1) npages (j + 1) (<[Z.to_nat j := page_to_phys k pg]> dma_addr)
          else undefined
        else fill_loop pages (i + 1) npages j dma_addr
    end
  else mret dma_addr.

(** The result and the structure of the process afterwards. *)
Definition ioctl_do_mapping_get (u : uaccess) (map : xdma_huge_mapping) : M driver (Z * xdma_huge_mapping) :=
  if negb (from_user u =? 0) then mret (from_user u, map)
  else
    hnpages ← gets huge_hnpages;
    if map_npages map <? hnpages then mret (- EFAULT, map)
    else
      npages ← gets (int32 ∘ huge_npages);
      pages ← gets huge_pages;
      dma_addr ← fill_loop (entries pages) 0 npages 0 (default [] (kmalloc k hnpages));
      match struct_fails u with
      | Some n => mret (- EACCES, XdmaMapping n (map_dma_addr map))
      | None =>
          match array_fails u with
          | Some l => mret (- EACCES, XdmaMapping hnpages l)
          | None => mret (0, XdmaMapping hnpages (dma_addr ++ drop (length dma_addr) (map_dma_addr map)))
          end
      end.

Fixpoint release_loop (pages : list Z) (i npages : Z) : M driver unit :=
  if i <? npages then
    match pages with
    | [] => undefined
    | pg :: pages =>
        is_reserved ← gets (fun s => bool_decide (pg ∈ reserved s));
        (if negb is_reserved then modify (SetPageDirty pg) else mret tt);;
        modify (put_page pg);; release_loop pages (i + 1) npages
    end
  else mret tt.

(** [vfree] accepts the null pointer and must not be called twice. *)
Definition vfree_pages : M driver unit :=
  a ← gets huge_pages;
  match a with Null => mret tt | Pages _ => modify (set_huge_pages Freed) | Freed => undefined end.

Definition ioctl_release_mapping : M driver Z :=
  npages ← gets (int32 ∘ huge_npages);
  pages ← gets huge_pages;
  release_loop (entries pages) 0 npages;;
  vfree_pages;; mret 0.

(** A call with its argument; the result and the argument afterwards. *)
Inductive ioctl_call :=
  | IOCTL_XDMA_BUFFER_SET (arg : xdma_huge)
  | IOCTL_XDMA_MAPPING_GET (arg : xdma_huge_mapping)
  | IOCTL_XDMA_RELEASE
  | IOCTL_OTHER (cmd : Z).

Definition char_xdma_ioctl (u : uaccess) (c : ioctl_call) : M driver (Z * ioctl_call) :=
  match c with
  | IOCTL_XDMA_BUFFER_SET arg => rc ← ioctl_do_buffer_set u arg; mret (rc, c)
  | IOCTL_XDMA_MAPPING_GET arg => '(rc, arg) ← ioctl_do_mapping_get u arg; mret (rc, IOCTL_XDMA_MAPPING_GET arg)
  | IOCTL_XDMA_RELEASE => rc ← ioctl_release_mapping; mret (rc, c)
  | IOCTL_OTHER _ => mret (0, c)
  end.
End operations.

(** [alloc_dev_instance] zeroes the structure. *)
Definition driver_init : driver := Driver 0 0 0 0 Null ∅ ∅ ∅.

(** ** The loops *)

Definition hpages (n : Z) : Z := (n + 511) / 512.

Lemma hpages_step i : 0 <= i -> hpages (i + 1) = if i mod 512 =? 0 then hpages i + 1 else hpages i.
Proof. intros Hi. unfold hpages. destruct (Z.eqb_spec (i mod 512) 0); Z.to_euclidean_division_equations; lia. Qed.

Lemma hpages_mono a b : a <= b -> hpages a <= hpages b.
Proof. intros. unfold hpages. apply Z.div_le_mono; lia. Qed.

Lemma hpages_at i : 0 <= i -> i mod 512 = 0 -> hpages i = i / 512 /\ i = 512 * hpages i.
Proof. intros. unfold hpages. Z.to_euclidean_division_equations; lia. Qed.

Definition reserve_all (l : list Z) (s : driver) : driver :=
  Driver (huge_user_addr s) (huge_size s) (huge_npages s) (huge_hnpages s) (huge_pages s)
    (pinned s) (list_to_set l ∪ reserved s) (dirty s).

Lemma reserve_loop_all l : forall i j s, 0 <= i -> j = hpages i ->
  reserve_loop l i (i + Z.of_nat (length l)) j s = Returns (hpages (i + Z.of_nat (length l)), reserve_all l s).
Proof.
  induction l as [|pg l IH]; intros i j s Hi ->; cbn [reserve_loop length].
  - rewrite Z.add_0_r, Z.ltb_irrefl. unfold mret, M_ret, reserve_all. f_equal. f_equal.
    destruct s. cbn. by rewrite (left_id_L ∅ (∪)).
  - rewrite (proj2 (Z.ltb_lt _ _)) by lia. unfold mbind, M_bind. cbn [modify].
    replace (i + Z.of_nat (S (length l))) with ((i + 1) + Z.of_nat (length l)) by lia.
    rewrite IH by (lia || by rewrite hpages_step by lia). f_equal. f_equal.
    unfold reserve_all. cbn. f_equal. by rewrite (assoc_L (∪)), (comm_L (∪) (list_to_set l)).
Qed.

Lemma reserve_loop_short l : forall i n j s, i + Z.of_nat (length l) < n -> reserve_loop l i n j s = Undefined.
Proof.
  induction l as [|pg l IH]; intros i n j s Hn; cbn [reserve_loop length] in *;
    rewrite (proj2 (Z.ltb_lt _ _)) by lia; [done|]. unfold mbind, M_bind. cbn [modify]. apply IH. lia.
Qed.

Section fill.
Variable k : kernel.

Lemma fill_loop_all l : forall i j arr s, 0 <= i -> j = hpages i ->
  hpages (i + Z.of_nat (length l)) <= Z.of_nat (length arr) ->
  exists arr', fill_loop k l i (i + Z.of_nat (length l)) j arr s = Returns (arr', s) /\ length arr' = length arr /\
    forall m, arr' !! m =
      if (hpages i <=? Z.of_nat m) && (Z.of_nat m <? hpages (i + Z.of_nat (length l)))
      then page_to_phys k <$> l !! Z.to_nat (512 * Z.of_nat m - i) else arr !! m.
Proof.
  induction l as [|pg l IH]; intros i j arr s Hi -> Hb; cbn [fill_loop length] in *.
  - exists arr. rewrite Z.add_0_r, Z.ltb_irrefl. split_and!; [done | done |]. intros m. by bool_cases.
  - rewrite (proj2 (Z.ltb_lt _ _)) by lia.
    replace (i + Z.of_nat (S (length l))) with ((i + 1) + Z.of_nat (length l)) in * by lia.
    pose proof (hpages_mono (i + 1) (i + 1 + Z.of_nat (length l)) ltac:(lia)).
    pose proof (hpages_step i Hi) as Hs.
    destruct (Z.eqb_spec (i mod 512) 0) as [H0 | H0].
    + destruct (hpages_at i Hi H0) as [_ Hat].
      rewrite (proj2 (Z.ltb_lt _ _)) by lia.
      destruct (IH (i + 1) (hpages i + 1) (<[Z.to_nat (hpages i) := page_to_phys k pg]> arr) s) as (arr' & -> & Hl & Ha);
        [lia | lia | by rewrite length_insert |].
      exists arr'. rewrite length_insert in Hl. split_and!; [done | done |]. intros m. rewrite Ha, Hs.
      destruct (Z.eqb_spec (Z.of_nat m) (hpages i)) as [Em | Em].
      * replace (Z.to_nat (hpages i)) with m by lia. rewrite list_lookup_insert_eq by lia.
        replace (Z.to_nat (512 * Z.of_nat m - i)) with 0%nat by lia. by bool_cases.
      * rewrite list_lookup_insert_ne by lia. bool_cases; try done.
        by replace (Z.to_nat (512 * Z.of_nat m - i)) with (S (Z.to_nat (512 * Z.of_nat m - (i + 1)))) by lia.
    + destruct (IH (i + 1) (hpages i) arr s) as (arr' & -> & Hl & Ha); [lia | lia | done |].
      exists arr'. split_and!; [done | done |]. intros m. rewrite Ha, Hs. bool_cases; try done.
      assert (i < 512 * Z.of_nat m) by (unfold hpages in *; Z.to_euclidean_division_equations; lia).
      by replace (Z.to_nat (512 * Z.of_nat m - i)) with (S (Z.to_nat (512 * Z.of_nat m - (i + 1)))) by lia.
Qed.
End fill.

Definition unpin (l : list Z) (s : driver) : driver :=
  Driver (huge_user_addr s) (huge_size s) (huge_npages s) (huge_hnpages s) (huge_pages s)
    (pinned s ∖ list_to_set_disj l) (reserved s) (dirty s ∪ (list_to_set l ∖ reserved s)).

Lemma put_pages pg (X Y : gmultiset Z) : X ∖ {[+ pg +]} ∖ Y = X ∖ ({[+ pg +]} ⊎ Y).
Proof. apply gmultiset_eq. intros x. rewrite !multiplicity_difference, multiplicity_disj_union. lia. Qed.

Lemma release_loop_all l : forall i s, 0 <= i ->
  release_loop l i (i + Z.of_nat (length l)) s = Returns (tt, unpin l s).
Proof.
  induction l as [|pg l IH]; intros i s Hi; cbn [release_loop length].
  - rewrite Z.add_0_r, Z.ltb_irrefl. unfold mret, M_ret, unpin. f_equal. f_equal. destruct s. cbn. f_equal.
    + apply gmultiset_eq. intros x. rewrite multiplicity_difference, multiplicity_empty. lia.
    + apply set_eq. set_solver.
  - rewrite (proj2 (Z.ltb_lt _ _)) by lia. unfold mbind, M_bind. cbn [gets].
    replace (i + Z.of_nat (S (length l))) with ((i + 1) + Z.of_nat (length l)) by lia.
    destruct (decide (pg ∈ reserved s)) as [Hr | Hr].
    + rewrite (bool_decide_eq_true_2 _ Hr). cbn [negb mret M_ret modify]. rewrite IH by lia.
      f_equal. f_equal. unfold unpin. cbn. rewrite put_pages. f_equal. apply set_eq. set_solver.
    + rewrite (bool_decide_eq_false_2 _ Hr). cbn [negb modify]. rewrite IH by lia.
      f_equal. f_equal. unfold unpin. cbn. rewrite put_pages. f_equal. apply set_eq. set_solver.
Qed.

(** ** What the kernel functions promise, and the invariant *)

Record kernel_ok (k : kernel) : Prop := KernelOk {
  ok_pages : forall a n rc pgs, get_user_pages k a n = (rc, pgs) ->
    - 2 ^ 31 <= rc < 2 ^ 31 /\ length pgs = Z.to_nat rc;
  ok_kmalloc : forall n l, 0 <= n -> kmalloc k n = Some l -> Z.of_nat (length l) = n }.

Record driver_wf (s : driver) : Prop := DriverWf {
  wf_npages : 0 <= huge_npages s < 2 ^ 31;
  wf_hnpages : huge_hnpages s = hpages (huge_npages s);
  wf_pages : match huge_pages s with
    | Null => huge_npages s = 0
    | Pages l => Z.of_nat (length l) = huge_npages s
    | Freed => True
    end }.

Lemma int32_small x : 0 <= x < 2 ^ 31 -> int32 x = x.
Proof. intros. unfold int32. rewrite wrap_small by lia. lia. Qed.

(** The number of pages [IOCTL_XDMA_BUFFER_SET] asks for. *)
Definition requested (k : kernel) (huge : xdma_huge) : Z := wrap 64 (1 + wrap 64 (huge_bytes huge - 1) / PAGE_SIZE k).

Definition buffer_set_result (huge : xdma_huge) (pgs : list Z) (s : driver) : driver :=
  let n := Z.of_nat (length pgs) in
  Driver (huge_addr huge) (n * 4096) n (hpages n) (Pages pgs)
    (pinned s ⊎ list_to_set_disj pgs) (list_to_set pgs ∪ reserved s) (dirty s).

Lemma buffer_set_pages k u huge rc pgs s : kernel_ok k -> from_user u = 0 ->
  vmalloc k (wrap 64 (requested k huge * 8)) = true ->
  get_user_pages k (huge_addr huge) (requested k huge) = (rc, pgs) -> 0 < rc ->
  ioctl_do_buffer_set k u huge s = Returns (0, buffer_set_result huge pgs s).
Proof.
  intros Hk Hu Hv Hg Hrc. destruct (ok_pages k Hk _ _ _ _ Hg) as [Hb Hl].
  unfold ioctl_do_buffer_set. rewrite Hu. cbn [negb Z.eqb]. fold (requested k huge). rewrite Hg, Hv.
  rewrite (proj2 (Z.eqb_neq _ _)) by lia. rewrite (wrap_small 64 rc) by lia.
  unfold mbind, M_bind. cbn [modify gets]. cbn [huge_pages set_huge_pages pin entries].
  replace rc with (0 + Z.of_nat (length pgs)) by lia. rewrite reserve_loop_all by done.
  cbn. unfold reserve_all, set_sizes, pin, set_huge_pages, buffer_set_result. cbn.
  rewrite Z.add_0_l. rewrite wrap_small by lia. done.
Qed.

Lemma buffer_set_error k u huge rc pgs s : kernel_ok k -> from_user u = 0 ->
  get_user_pages k (huge_addr huge) (requested k huge) = (rc, pgs) -> rc < 0 ->
  ioctl_do_buffer_set k u huge s = Undefined.
Proof.
  intros Hk Hu Hg Hrc. destruct (ok_pages k Hk _ _ _ _ Hg) as [Hb Hl].
  assert (pgs = []) as -> by (apply nil_length_inv; lia).
  unfold ioctl_do_buffer_set. rewrite Hu. cbn [negb Z.eqb]. fold (requested k huge). rewrite Hg.
  rewrite (proj2 (Z.eqb_neq _ _)) by lia. assert (Hw : wrap 64 rc = rc + 2 ^ 64).
  { unfold wrap. rewrite <- (Z.mod_add _ 1), Z.mod_small by lia. lia. }
  rewrite Hw. unfold mbind, M_bind. destruct (vmalloc k _); cbn [modify gets entries set_huge_pages pin huge_pages];
    rewrite reserve_loop_short by (cbn; lia); done.
Qed.

(** The mapping the process gets: the address of every 512th page. *)
Definition mapped (k : kernel) (pgs arr : list Z) : Prop :=
  forall m, arr !! m = page_to_phys k <$> pgs !! (512 * m)%nat.

Lemma mapping_get_pages k u map pgs buf s : kernel_ok k -> from_user u = 0 -> driver_wf s ->
  huge_pages s = Pages pgs -> kmalloc k (huge_hnpages s) = Some buf -> huge_hnpages s <= map_npages map ->
  struct_fails u = None -> array_fails u = None ->
  exists arr, ioctl_do_mapping_get k u map s =
      Returns (0, XdmaMapping (huge_hnpages s) (arr ++ drop (length arr) (map_dma_addr map)), s) /\
    Z.of_nat (length arr) = huge_hnpages s /\ mapped k pgs arr.
Proof.
  intros Hk Hu [Hn Hh Hp] Hpg Hbuf Hle Hs Ha. rewrite Hpg in Hp.
  assert (Hnn : 0 <= huge_hnpages s) by (rewrite Hh; unfold hpages; apply Z.div_pos; lia).
  pose proof (ok_kmalloc k Hk _ _ Hnn Hbuf) as Hlen.
  unfold ioctl_do_mapping_get. rewrite Hu. cbn [negb Z.eqb]. unfold mbind, M_bind. cbn [gets].
  rewrite (proj2 (Z.ltb_ge _ _)) by lia. unfold compose. rewrite int32_small by lia. rewrite Hpg, Hbuf.
  cbn [entries default]. rewrite <- Hp.
  destruct (fill_loop_all k pgs 0 0 buf s) as (arr & Hf & Hl & Harr); [lia | done | rewrite Z.add_0_l, Hp; lia |].
  rewrite Z.add_0_l in Hf, Harr. change (id buf) with buf. rewrite Hf, Hs, Ha.
  exists arr. split_and!; [done | lia |]. intros m. rewrite Harr. change (hpages 0) with 0.
  replace (Z.to_nat (512 * Z.of_nat m - 0)) with (512 * m)%nat by lia. rewrite <- Hp in Hh. unfold hpages in *. bool_cases; try done.
  rewrite (lookup_ge_None_2 pgs) by (Z.to_euclidean_division_equations; lia).
  apply lookup_ge_None_2. lia.
Qed.

(** The pages of a buffer of huge pages: page [m] of 512 starts where its first
    page does, and the others follow. *)
Definition huge_contiguous (k : kernel) (pgs : list Z) : Prop :=
  forall i pg, pgs !! i = Some pg -> exists h, pgs !! (512 * (i / 512))%nat = Some h /\
    page_to_phys k pg = page_to_phys k h + 4096 * (Z.of_nat i mod 512).

(** The physical address of the byte [o] of the buffer. *)
Definition phys (k : kernel) (pgs : list Z) (o : Z) : option Z :=
  (fun pg => page_to_phys k pg + o mod 4096) <$> pgs !! Z.to_nat (o / 4096).

Lemma mapped_phys k pgs arr o : huge_contiguous k pgs -> mapped k pgs arr ->
  0 <= o < 4096 * Z.of_nat (length pgs) ->
  exists p, arr !! Z.to_nat (o / (2 * 1024 * 1024)) = Some p /\
    phys k pgs o = Some (p + o mod (2 * 1024 * 1024)).
Proof.
  intros Hc Hm Ho. unfold phys.
  destruct (lookup_lt_is_Some_2 pgs (Z.to_nat (o / 4096))) as [pg Hpg].
  { apply Nat2Z.inj_lt. rewrite Z2Nat.id by (apply Z.div_pos; lia). apply Z.div_lt_upper_bound; lia. }
  destruct (Hc _ _ Hpg) as (h & Hh & Hp). exists (page_to_phys k h). rewrite Hm, Hpg. cbn [fmap option_fmap option_map].
  assert (E : (512 * (Z.to_nat (o / 4096) / 512) = 512 * Z.to_nat (o / (2 * 1024 * 1024)))%nat).
  { f_equal. apply Nat2Z.inj. rewrite Nat2Z.inj_div, !Z2Nat.id by (apply Z.div_pos; lia). rewrite Z.div_div by lia. done. }
  rewrite <- E, Hh. split; [done|]. f_equal. rewrite Hp, Z2Nat.id by (apply Z.div_pos; lia).
  change (2 * 1024 * 1024) with (4096 * 512). rewrite (Z.rem_mul_r o 4096 512) by lia. lia.
Qed.

(** C23: [IOCTL_XDMA_BUFFER_SET] followed by [IOCTL_XDMA_MAPPING_GET] gives the
    process, for a buffer of huge pages, one physical address per 2 MiB from
    which the physical address of every byte of the buffer follows by adding
    the offset in the 2 MiB, and the other entries of its array are as
    before. *)
Theorem buffer_set_then_get k huge map pgs buf s : kernel_ok k ->
  vmalloc k (wrap 64 (requested k huge * 8)) = true ->
  get_user_pages k (huge_addr huge) (requested k huge) = (Z.of_nat (length pgs), pgs) -> pgs <> [] ->
  huge_contiguous k pgs ->
  kmalloc k (hpages (Z.of_nat (length pgs))) = Some buf -> hpages (Z.of_nat (length pgs)) <= map_npages map ->
  exists s' arr,
    (char_xdma_ioctl k uaccess_ok (IOCTL_XDMA_BUFFER_SET huge);;
     char_xdma_ioctl k uaccess_ok (IOCTL_XDMA_MAPPING_GET map)) s =
      Returns (0, IOCTL_XDMA_MAPPING_GET (XdmaMapping (hpages (Z.of_nat (length pgs)))
        (arr ++ drop (length arr) (map_dma_addr map))), s') /\
    Z.of_nat (length arr) = hpages (Z.of_nat (length pgs)) /\
    forall o, 0 <= o < 4096 * Z.of_nat (length pgs) ->
      exists p, arr !! Z.to_nat (o / (2 * 1024 * 1024)) = Some p /\
        phys k pgs o = Some (p + o mod (2 * 1024 * 1024)).
Proof.
  intros Hk Hv Hg Hne Hc Hbuf Hle. destruct (ok_pages k Hk _ _ _ _ Hg) as [Hb _].
  assert (0 < Z.of_nat (length pgs)) by (destruct pgs; [done | cbn; lia]).
  set (s' := buffer_set_result huge pgs s).
  assert (Hwf : driver_wf s') by (by constructor; cbn; [lia | |]).
  destruct (mapping_get_pages k uaccess_ok map pgs buf s') as (arr & R & L & A); try done.
  exists s', arr. split_and!; [| done | intros o Ho; by apply mapped_phys].
  cbn [char_xdma_ioctl]. unfold mbind at 1, M_bind at 1. unfold mbind at 1, M_bind at 1.
  rewrite (buffer_set_pages k uaccess_ok huge _ pgs) by done. cbn [mret M_ret]. fold s'.
  unfold mbind, M_bind. by rewrite R.
Qed.

(** [IOCTL_XDMA_RELEASE] unpins exactly the pages that
    [IOCTL_XDMA_BUFFER_SET] pinned and frees the array; the pages keep the
    flag PG_reserved, so none of them is marked dirty. *)
Theorem release_unpins k huge pgs s : kernel_ok k ->
  vmalloc k (wrap 64 (requested k huge * 8)) = true ->
  get_user_pages k (huge_addr huge) (requested k huge) = (Z.of_nat (length pgs), pgs) -> pgs <> [] ->
  exists s', (char_xdma_ioctl k uaccess_ok (IOCTL_XDMA_BUFFER_SET huge);;
      char_xdma_ioctl k uaccess_ok IOCTL_XDMA_RELEASE) s = Returns (0, IOCTL_XDMA_RELEASE, s') /\
    pinned s' = pinned s /\ dirty s' = dirty s /\ huge_pages s' = Freed /\ reserved s' = list_to_set pgs ∪ reserved s.
Proof.
  intros Hk Hv Hg Hne. destruct (ok_pages k Hk _ _ _ _ Hg) as [Hb _].
  assert (0 < Z.of_nat (length pgs)) by (destruct pgs; [done | cbn; lia]).
  cbn [char_xdma_ioctl]. unfold mbind at 1, M_bind at 1. unfold mbind at 1, M_bind at 1.
  rewrite (buffer_set_pages k uaccess_ok huge _ pgs) by done. cbn [mret M_ret].
  unfold ioctl_release_mapping, vfree_pages, mbind, M_bind, compose. cbn [gets buffer_set_result huge_npages huge_pages entries].
  rewrite int32_small by lia. replace (Z.of_nat (length pgs)) with (0 + Z.of_nat (length pgs)) at 1 by lia.
  rewrite release_loop_all by done. cbn. eexists. split; [reflexivity|]. cbn. split_and!; [| | done | done].
  - apply gmultiset_eq. intros x. rewrite multiplicity_difference, multiplicity_disj_union. lia.
  - apply set_eq. set_solver.
Qed.

(** a second [IOCTL_XDMA_RELEASE] of the same buffer uses the freed array
    of pages. *)
Theorem release_twice_undefined k u s s' r : driver_wf s -> 0 < huge_npages s ->
  char_xdma_ioctl k u IOCTL_XDMA_RELEASE s = Returns (r, s') -> char_xdma_ioctl k u IOCTL_XDMA_RELEASE s' = Undefined.
Proof.
  intros [Hn _ Hp] Hpos. cbn [char_xdma_ioctl].
  unfold ioctl_release_mapping, vfree_pages, mbind, M_bind, compose. cbn [gets].
  rewrite int32_small by lia. destruct (huge_pages s) as [|l|] eqn:E; [lia | |].
  - cbn [entries]. replace (huge_npages s) with (0 + Z.of_nat (length l)) at 1 by lia.
    rewrite release_loop_all by done. cbn [gets unpin huge_pages]. rewrite E.
    cbn [modify mret M_ret]. intros [= _ <-]. cbn [set_huge_pages unpin huge_npages huge_pages entries].
    rewrite int32_small by lia. by destruct (huge_npages s); try lia.
  - cbn [entries release_loop]. rewrite (proj2 (Z.ltb_lt _ _)) by lia. done.
Qed.

(** when the pages of the buffer cannot be pinned, [get_user_pages]
    returns a negative number, but [ioctl_do_buffer_set] tests for zero only:
    it goes on with a number of pages near 2^64 and reads beyond the array. *)
Theorem buffer_set_error_undefined k u huge rc pgs s : kernel_ok k -> from_user u = 0 ->
  get_user_pages k (huge_addr huge) (requested k huge) = (rc, pgs) -> rc < 0 ->
  ioctl_do_buffer_set k u huge s = Undefined.
Proof. apply buffer_set_error. Qed.

(** ** All sequences of calls *)

Lemma fill_loop_state k l : forall i n j arr s arr' s', fill_loop k l i n j arr s = Returns (arr', s') -> s' = s.
Proof.
  induction l as [|pg l IH]; intros i n j arr s arr' s'; cbn [fill_loop];
    (destruct (i <? n); [|by intros [= _ <-]]); [done|].
  destruct (i mod 512 =? 0); [destruct (j <? _); [|done]|]; apply IH.
Qed.

Lemma mapping_get_state k u map s r s' : ioctl_do_mapping_get k u map s = Returns (r, s') -> s' = s.
Proof.
  unfold ioctl_do_mapping_get. destruct (negb _); [by intros [= _ <-]|]. unfold mbind, M_bind. cbn [gets].
  destruct (_ <? _); [by intros [= _ <-]|]. destruct (fill_loop _ _ _ _ _ _ _) as [[arr s1] | | |] eqn:E; try done.
  apply fill_loop_state in E as ->. destruct (struct_fails u), (array_fails u); by intros [= _ <-].
Qed.

Lemma buffer_set_wf k u huge s r s' : kernel_ok k -> driver_wf s ->
  ioctl_do_buffer_set k u huge s = Returns (r, s') -> r <> -1 -> driver_wf s'.
Proof.
  intros Hk Hwf HR Hr. destruct (Z.eq_dec (from_user u) 0) as [Hu | Hu].
  2: { unfold ioctl_do_buffer_set in HR. rewrite (proj2 (Z.eqb_neq _ _) Hu) in HR. by injection HR as _ <-. }
  destruct (get_user_pages k (huge_addr huge) (requested k huge)) as [rc pgs] eqn:Hg.
  destruct (ok_pages k Hk _ _ _ _ Hg) as [Hb Hl].
  destruct (Z.lt_trichotomy rc 0) as [Hrc | [-> | Hrc]].
  - rewrite (buffer_set_error k u huge rc pgs) in HR by done. done.
  - unfold ioctl_do_buffer_set in HR. rewrite Hu in HR. cbn [negb Z.eqb] in HR. fold (requested k huge) in HR.
    rewrite Hg in HR. unfold mbind, M_bind in HR. by destruct (vmalloc k _); injection HR as <- _.
  - destruct (vmalloc k (wrap 64 (requested k huge * 8))) eqn:Hv.
    + rewrite (buffer_set_pages k u huge rc pgs) in HR by done. injection HR as _ <-. by constructor; cbn; [lia | |].
    + unfold ioctl_do_buffer_set in HR. rewrite Hu in HR. cbn [negb Z.eqb] in HR. fold (requested k huge) in HR.
      rewrite Hg, Hv, (proj2 (Z.eqb_neq _ _)), (wrap_small 64 rc) in HR by lia. unfold mbind, M_bind in HR.
      cbn [modify gets set_huge_pages huge_pages entries] in HR. by rewrite reserve_loop_short in HR by (cbn; lia).
Qed.

Lemma release_wf s r s' : driver_wf s -> ioctl_release_mapping s = Returns (r, s') -> driver_wf s'.
Proof.
  intros Hwf. pose proof Hwf as [Hn Hh Hp].
  unfold ioctl_release_mapping, vfree_pages, mbind, M_bind, compose. cbn [gets]. rewrite int32_small by lia.
  destruct (huge_pages s) as [|l|] eqn:E.
  - rewrite Hp. cbn [entries release_loop Z.ltb Z.compare mret M_ret gets]. rewrite E. by intros [= _ <-].
  - cbn [entries]. replace (huge_npages s) with (0 + Z.of_nat (length l)) at 1 by lia.
    rewrite release_loop_all by done. cbn [gets unpin huge_pages]. rewrite E.
    cbn [modify mret M_ret]. intros [= _ <-]. by constructor.
  - cbn [entries release_loop]. destruct (0 <? huge_npages s); [done|]. cbn [mret M_ret gets]. by rewrite E.
Qed.

(** The calls of a process that does not go on after a failed
    [IOCTL_XDMA_BUFFER_SET]. *)
Inductive ioctl_step (k : kernel) (s s' : driver) : Prop :=
  | ioctl_returns u c r : char_xdma_ioctl k u c s = Returns (r, s') ->
      (forall arg, c = IOCTL_XDMA_BUFFER_SET arg -> r.1 <> -1) -> ioctl_step k s s'.

Lemma ioctl_step_wf k s s' : kernel_ok k -> driver_wf s -> ioctl_step k s s' -> driver_wf s'.
Proof.
  intros Hk Hwf [u c r HR Hr]. destruct c as [arg | arg | | cmd]; cbn [char_xdma_ioctl] in HR.
  - destruct (bind_inv _ _ _ _ _ HR) as (rc & s1 & H1 & [= <- <-]). eapply buffer_set_wf; [done | done | exact H1 |].
    by apply (Hr arg).
  - destruct (bind_inv _ _ _ _ _ HR) as ([rc m] & s1 & H1 & [= _ <-]). by apply mapping_get_state in H1 as ->.
  - destruct (bind_inv _ _ _ _ _ HR) as (rc & s1 & H1 & [= _ <-]). by eapply release_wf.
  - by injection HR as _ <-.
Qed.

(** C31: after any sequence of ioctl calls from the initialisation of the
    driver on, as long as the process stops after a failed
    [IOCTL_XDMA_BUFFER_SET], the number of huge pages is the number of pages
    divided by 512 and rounded up and the array holds as many pages as the
    driver believes.  Therefore, before a release and when [kmalloc] succeeds,
    [IOCTL_XDMA_MAPPING_GET] never accesses an
    array out of bounds, whatever the process passes and
    whichever accesses to its memory fail; when [kmalloc] fails, which the driver does not
    check, it writes through the null pointer for every process that has pages and passes a
    large enough array. *)
Theorem ioctl_reachable_wf k s u map : kernel_ok k -> rtc (ioctl_step k) driver_init s ->
  driver_wf s /\
  (huge_pages s <> Freed ->
   match kmalloc k (huge_hnpages s) with
   | Some _ => exists r, ioctl_do_mapping_get k u map s = Returns (r, s)
   | None => from_user u = 0 -> huge_hnpages s <= map_npages map -> 0 < huge_npages s ->
       ioctl_do_mapping_get k u map s = Undefined
   end).
Proof.
  intros Hk Hreach. assert (Hwf : driver_wf s).
  { remember driver_init as s0 eqn:E0. assert (driver_wf s0) as H0 by (subst; by constructor).
    clear E0. induction Hreach as [|s1 s2 s3 H12 _ IH]; [done|]. apply IH. by eapply ioctl_step_wf. }
  split; [done|]. intros Hf. pose proof Hwf as [Hn Hh Hp].
  assert (Hnn : 0 <= huge_hnpages s) by (rewrite Hh; unfold hpages; apply Z.div_pos; lia).
  assert (Hl : Z.of_nat (length (entries (huge_pages s))) = huge_npages s) by (destruct (huge_pages s); done).
  destruct (kmalloc k (huge_hnpages s)) as [buf|] eqn:Hbuf; unfold ioctl_do_mapping_get.
  - pose proof (ok_kmalloc k Hk _ _ Hnn Hbuf) as Hlen.
    destruct (negb _); [by eexists|]. unfold mbind, M_bind. cbn [gets].
    destruct (_ <? _); [by eexists|]. unfold compose. rewrite int32_small by lia. rewrite Hbuf. change (default [] (Some buf)) with buf.
    destruct (fill_loop_all k (entries (huge_pages s)) 0 0 buf s) as (arr & HR & _); [lia | done | rewrite Z.add_0_l, Hl; lia |].
    rewrite Z.add_0_l, Hl in HR. rewrite HR. destruct (struct_fails u), (array_fails u); by eexists.
  - intros -> Hle Hpos. cbn [negb Z.eqb]. unfold mbind, M_bind. cbn [gets].
    rewrite (proj2 (Z.ltb_ge _ _)) by lia. unfold compose. rewrite int32_small, Hbuf by lia. change (default [] None) with (@nil Z).
    destruct (entries (huge_pages s)) as [|pg l]; cbn [fill_loop]; rewrite (proj2 (Z.ltb_lt _ _)) by lia; done.
Qed.

(** ** Instances: a kernel with two huge pages at 1 GiB and 3 GiB for a buffer
    of 4 MiB, and no pages elsewhere *)

Definition demo_pages : list Z := seqZ 0x40000 512 ++ seqZ 0xC0000 512.

Definition demo_kernel : kernel := Kernel 4096 (fun pg => pg * 4096) (fun _ => true)
  (fun a n => if (a =? 0x7F0000000000) && (n =? 1024) then (1024, demo_pages) else (-14, []))
  (fun n => Some (replicate (Z.to_nat n) 0xA5A5)).

Definition demo_huge : xdma_huge := XdmaHuge 0x7F0000000000 0x400000.

Lemma demo_kernel_ok : kernel_ok demo_kernel.
Proof.
  constructor.
  - intros a n rc pgs. cbn [get_user_pages demo_kernel].
    destruct ((a =? 0x7F0000000000) && (n =? 1024)); intros [= <- <-]; done.
  - intros n l Hn [= <-]. rewrite length_replicate. lia.
Qed.

Lemma demo_contiguous : huge_contiguous demo_kernel demo_pages.
Proof.
  intros i pg H. unfold demo_pages in *. cbn [page_to_phys demo_kernel].
  assert (Hi : (i < 1024)%nat).
  { apply lookup_lt_Some in H. revert H. rewrite length_app, !length_seqZ. done. }
  destruct (Nat.lt_ge_cases i 512) as [Hlt | Hge].
  - rewrite lookup_app_l in H by (rewrite length_seqZ; lia). rewrite lookup_seqZ in H. destruct H as [-> _].
    rewrite Nat.div_small by lia. eexists. split; [reflexivity|]. rewrite Z.mod_small by lia. lia.
  - rewrite lookup_app_r in H by (rewrite length_seqZ; lia). rewrite length_seqZ, lookup_seqZ in H. destruct H as [-> _].
    replace (i / 512)%nat with 1%nat by (apply Nat.div_unique with (i - 512)%nat; lia).
    eexists. split; [reflexivity|]. replace (Z.of_nat i mod 512) with (Z.of_nat i - 512); [|].
    2: { apply Z.mod_unique with 1; lia. }
    change (Z.to_nat 512) with 512%nat. lia.
Qed.

Lemma buffer_set_then_get_witness : exists s',
  (char_xdma_ioctl demo_kernel uaccess_ok (IOCTL_XDMA_BUFFER_SET demo_huge);;
   char_xdma_ioctl demo_kernel uaccess_ok (IOCTL_XDMA_MAPPING_GET (XdmaMapping 2 [0; 0]))) driver_init =
    Returns (0, IOCTL_XDMA_MAPPING_GET (XdmaMapping 2 [0x40000000; 0xC0000000]), s').
Proof.
  destruct (buffer_set_then_get demo_kernel demo_huge (XdmaMapping 2 [0; 0]) demo_pages (replicate 2 0xA5A5) driver_init)
    as (s' & arr & R & L & A);
    [exact demo_kernel_ok | done | by vm_compute | done | exact demo_contiguous | by vm_compute | by vm_compute |].
  exists s'. rewrite R. change (hpages (Z.of_nat (length demo_pages))) with 2 in *.
  assert (E : Z.of_nat (length demo_pages) = 1024) by (vm_compute; reflexivity). rewrite E in A.
  destruct (A 0 ltac:(lia)) as (p & H0 & P0). destruct (A 0x200000 ltac:(lia)) as (q & H1 & P1).
  destruct arr as [|p' [|q' [|]]]; try (cbn in L; lia). cbn in H0, H1. injection H0 as ->. injection H1 as ->.
  assert (Q0 : phys demo_kernel demo_pages 0 = Some 0x40000000) by (vm_compute; reflexivity).
  assert (Q1 : phys demo_kernel demo_pages 0x200000 = Some 0xC0000000) by (vm_compute; reflexivity).
  rewrite P0 in Q0. rewrite P1 in Q1. injection Q0 as Q0. injection Q1 as Q1.
  rewrite Z.mod_small in Q0 by lia. rewrite Z.mod_same in Q1 by lia. rewrite Z.add_0_r in Q0, Q1. by rewrite Q0, Q1.
Defined.

Lemma release_unpins_witness : exists s',
  (char_xdma_ioctl demo_kernel uaccess_ok (IOCTL_XDMA_BUFFER_SET demo_huge);;
   char_xdma_ioctl demo_kernel uaccess_ok IOCTL_XDMA_RELEASE) driver_init = Returns (0, IOCTL_XDMA_RELEASE, s') /\
  pinned s' = ∅.
Proof.
  destruct (release_unpins demo_kernel demo_huge demo_pages driver_init) as (s' & R & P & _);
    [exact demo_kernel_ok | done | by vm_compute | done |]. exists s'. split; [exact R | exact P].
Defined.

Lemma buffer_set_error_witness :
  ioctl_do_buffer_set demo_kernel uaccess_ok (XdmaHuge 0x1000 0x400000) driver_init = Undefined.
Proof.
  apply (buffer_set_error_undefined demo_kernel uaccess_ok (XdmaHuge 0x1000 0x400000) (-14) []);
    [exact demo_kernel_ok | done | by vm_compute | done].
Defined.

Definition demo_driver : driver := buffer_set_result demo_huge [7] driver_init.

Lemma release_twice_witness : exists s', char_xdma_ioctl demo_kernel uaccess_ok IOCTL_XDMA_RELEASE demo_driver =
  Returns (0, IOCTL_XDMA_RELEASE, s') /\ char_xdma_ioctl demo_kernel uaccess_ok IOCTL_XDMA_RELEASE s' = Undefined.
Proof.
  eexists. split; [reflexivity|].
  eapply (release_twice_undefined demo_kernel uaccess_ok demo_driver); [by constructor | done | reflexivity].
Defined.

(** After a buffer of 1024 pages has been set. *)
Definition demo_set : driver := buffer_set_result demo_huge demo_pages driver_init.

Lemma demo_set_reachable : rtc (ioctl_step demo_kernel) driver_init demo_set.
Proof.
  apply rtc_once, (ioctl_returns demo_kernel driver_init demo_set uaccess_ok (IOCTL_XDMA_BUFFER_SET demo_huge)
    (0, IOCTL_XDMA_BUFFER_SET demo_huge)); [|done]. cbn [char_xdma_ioctl]. unfold mbind, M_bind.
  by rewrite (buffer_set_pages demo_kernel uaccess_ok demo_huge 1024 demo_pages) by (exact demo_kernel_ok || reflexivity).
Qed.

Lemma ioctl_reachable_witness : huge_npages demo_set = 1024 /\
  exists r, ioctl_do_mapping_get demo_kernel uaccess_ok (XdmaMapping 2 [0; 0]) demo_set = Returns (r, demo_set).
Proof.
  split; [vm_compute; reflexivity|].
  destruct (ioctl_reachable_wf demo_kernel demo_set uaccess_ok (XdmaMapping 2 [0; 0]) demo_kernel_ok demo_set_reachable)
    as [_ H]. exact (H ltac:(discriminate)).
Defined.
