(* ===== verification/XdmaProbe.v ===== *)
(** [src/driver/xdma_driver.c]: how the kernel driver brings up the device
    ([probe]), finds its register blocks and engines, maps the user registers
    for a process ([xdma_mmap]) and takes everything down ([remove]). *)
From stdpp Require Import gmap strings.
From S2P Require Import Prelude.

(** ** Register layout *)

(** A packed struct of 32-bit words: the fields with their number of words. *)
Definition struct : Type := list (string * Z).

Definition engine_regs : struct :=
  [("identifier", 1); ("control", 1); ("control_w1s", 1); ("control_w1c", 1); ("reserved_1", 12);
   ("status", 1); ("status_rc", 1); ("completed_desc_count", 1); ("alignments", 1); ("reserved_2", 14);
   ("poll_mode_wb_lo", 1); ("poll_mode_wb_hi", 1); ("interrupt_enable_mask", 1);
   ("interrupt_enable_mask_w1s", 1); ("interrupt_enable_mask_w1c", 1); ("reserved_3", 9);
   ("perf_ctrl", 1); ("perf_cyc_lo", 1); ("perf_cyc_hi", 1); ("perf_dat_lo", 1); ("perf_dat_hi", 1);
   ("perf_pnd_lo", 1); ("perf_pnd_hi", 1)]%string.

Definition engine_sgdma_regs : struct :=
  [("identifier", 1); ("reserved_1", 31); ("first_desc_lo", 1); ("first_desc_hi", 1);
   ("first_desc_adjacent", 1); ("credits", 1)]%string.

Definition interrupt_regs : struct :=
  [("identifier", 1); ("user_int_enable", 1); ("user_int_enable_w1s", 1); ("user_int_enable_w1c", 1);
   ("channel_int_enable", 1); ("channel_int_enable_w1s", 1); ("channel_int_enable_w1c", 1); ("reserved_1", 9);
   ("user_int_request", 1); ("channel_int_request", 1); ("user_int_pending", 1); ("channel_int_pending", 1);
   ("reserved_2", 12); ("user_msi_vector", 8); ("channel_msi_vector", 8)]%string.

Definition config_regs : struct := [("identifier", 1); ("reserved_1", 4); ("msi_enable", 1)]%string.

Definition xdma_desc : struct :=
  [("control", 1); ("bytes", 1); ("src_addr_lo", 1); ("src_addr_hi", 1); ("dst_addr_lo", 1); ("dst_addr_hi", 1);
   ("next_lo", 1); ("next_hi", 1)]%string.

Definition xdma_result : struct := [("status", 1); ("length", 1); ("reserved_1", 6)]%string.

Fixpoint sizeof (s : struct) : Z := match s with [] => 0 | (_, n) :: s => 4 * n + sizeof s end.

Fixpoint offset_of (f : string) (s : struct) : Z :=
  match s with [] => 0 | (g, n) :: s => if decide (f = g) then 0 else 4 * n + offset_of f s end.

Definition XDMA_CHANNEL_NUM_MAX : Z := 4.
Definition MAX_NUM_ENGINES : Z := XDMA_CHANNEL_NUM_MAX * 2.
Definition C2H_CHANNEL_OFFSET : Z := 0x0000.
Definition H2C_CHANNEL_OFFSET : Z := 0x1000.
Definition SGDMA_OFFSET_FROM_CHANNEL : Z := 0x4000.
Definition CHANNEL_SPACING : Z := 0x100.
Definition MAX_USER_IRQ : Z := 16.
Definition XDMA_BAR_NUM : Z := 6.
Definition XDMA_BAR_SIZE : Z := 0x8000.
Definition IRQ_BLOCK_ID : Z := 0x1fc20000.
Definition CONFIG_BLOCK_ID : Z := 0x1fc30000.
Definition XDMA_ID_H2C : Z := 0x1fc0.
Definition XDMA_ID_C2H : Z := 0x1fc1.
Definition XDMA_OFS_INT_CTRL : Z := 0x2000.
Definition XDMA_OFS_CONFIG : Z := 0x3000.
Definition ENODEV : Z := 19.
Definition EINVAL : Z := 22.
Definition EAGAIN : Z := 11.

(** ** Utilities *)

Definition build_u32 (hi lo : Z) : Z := wrap 32 (Z.lor (Z.shiftl (Z.land hi 0xFFFF) 16) (Z.land lo 0xFFFF)).

Definition build_u64 (hi lo : Z) : Z := wrap 64 (Z.lor (Z.shiftl (Z.land hi 0xFFFFFFF) 32) (Z.land lo 0xFFFFFFFF)).

Definition PCI_DMA_H (addr : Z) : Z := Z.shiftr (Z.shiftr addr 16) 16.
Definition PCI_DMA_L (addr : Z) : Z := Z.land addr 0xffffffff.

Definition build_vector_reg (a b c d : Z) : Z :=
  Z.lor (Z.lor (Z.lor (Z.shiftl (Z.land a 0x1f) 0) (Z.shiftl (Z.land b 0x1f) 8)) (Z.shiftl (Z.land c 0x1f) 16))
    (Z.shiftl (Z.land d 0x1f) 24).

(** ** The device and the kernel functions *)

Inductive msi_type := PCI_CAP_ID_MSI | PCI_CAP_ID_MSIX.

#[export] Instance msi_type_eq_dec : EqDecision msi_type.
Proof. solve_decision. Defined.

(** The results of the kernel functions for one device, and the values of its
    identification registers by kernel address. *)
Record pci_dev := PciDev {
  kzalloc_ok : bool;
  pci_enable_device : Z;
  no_msi : bool;
  bus_no_msi : list bool;
  pci_find_capability : msi_type -> bool;
  pci_enable_msix_exact : Z;
  pci_enable_msi : Z;
  pci_request_regions : Z;
  pci_resource_start : Z -> Z;
  pci_resource_len : Z -> Z;
  pci_iomap : Z -> Z -> option Z;
  ioread32 : Z -> Z;
  dma_set_mask_and_coherent : Z;
  misc_register : Z }.

(** What the driver acquires, releases and writes. *)
Inductive resource := Instance | Device | Msi | Msix | Regions | Bar (i : Z) | MiscNode | Irq (line : Z).

#[export] Instance resource_eq_dec : EqDecision resource.
Proof. solve_decision. Defined.

Inductive event := Acquire (r : resource) | Release (r : resource) | Iowrite (v addr : Z) | SetMaster.

(** The BARs in [struct dev_inst]; a missing entry of [bar] is a null pointer. *)
Record bars := Bars { bar : gmap Z Z; user_bar_idx : Z; config_bar_idx : Z; bypass_bar_idx : Z }.

Record engines := Engines {
  h2c_count : Z; c2h_count : Z; h2c_engine : Z; c2h_engine : Z; h2c_regs : Z; c2h_regs : Z; desc_bypass_enabled : bool }.

Record dev_inst := DevInst {
  inst_bars : bars;
  inst_engines : engines;
  regions_in_use : bool;
  got_regions : bool;
  irq_line : Z;
  msi_enabled : bool;
  msix_enabled : bool }.

(** [alloc_dev_instance]: zeroed, then the indices are set to -1. *)
Definition alloc_dev_instance : dev_inst :=
  DevInst (Bars ∅ (-1) (-1) (-1)) (Engines 0 0 0 0 0 0 false) false false (-1) false false.

(** ** BARs *)

Section probe.
Variable dev : pci_dev.

Definition INT_MAX : Z := 2 ^ 31 - 1.

(** [bus] and its parents. *)
Definition msi_msix_capable (type : msi_type) : bool :=
  negb (no_msi dev) && negb (existsb id (bus_no_msi dev)) && pci_find_capability dev type.

Definition map_single_bar (b : bars) (idx : Z) : Z * bars * list event :=
  let bar_len := pci_resource_len dev idx in
  let set a := Bars a (user_bar_idx b) (config_bar_idx b) (bypass_bar_idx b) in
  if bar_len =? 0 then (0, set (delete idx (bar b)), [])
  else
    let map_len := if bar_len >? INT_MAX then INT_MAX else bar_len in
    match pci_iomap dev idx map_len with
    | None => (-1, set (delete idx (bar b)), [])
    | Some a => (map_len, set (<[idx := a]> (bar b)), [Acquire (Bar idx)])
    end.

Definition bar_at (b : bars) (idx : Z) : Z := default 0 (bar b !! idx).

Definition is_config_bar (b : bars) (idx : Z) : bool :=
  let irq_id := ioread32 dev (bar_at b idx + XDMA_OFS_INT_CTRL + offset_of "identifier" interrupt_regs) in
  let cfg_id := ioread32 dev (bar_at b idx + XDMA_OFS_CONFIG + offset_of "identifier" config_regs) in
  (Z.land irq_id 0xffff0000 =? IRQ_BLOCK_ID) && (Z.land cfg_id 0xffff0000 =? CONFIG_BLOCK_ID).

Definition identify_bars (b : bars) (bar_id_list : list Z) (num_bars config_bar_pos : Z) : bars :=
  let id i := default 0 (bar_id_list !! i) in
  match num_bars with
  | 2 =>
      if config_bar_pos =? 0 then Bars (bar b) (user_bar_idx b) (config_bar_idx b) (id 1%nat)
      else if config_bar_pos =? 1 then Bars (bar b) (id 0%nat) (config_bar_idx b) (bypass_bar_idx b)
      else b
  | 3 =>
      if config_bar_pos =? 1 then Bars (bar b) (id 0%nat) (config_bar_idx b) (id 2%nat)
      else b
  | _ => b
  end.

(** The loop over the BARs that are left, [i] of which have been visited. *)
Fixpoint unmap_loop (idxs : list Z) (b : bars) : bars * list event :=
  match idxs with
  | [] => (b, [])
  | i :: idxs =>
      match bar b !! i with
      | Some _ =>
          let '(b, ev) := unmap_loop idxs (Bars (delete i (bar b)) (user_bar_idx b) (config_bar_idx b) (bypass_bar_idx b)) in
          (b, Release (Bar i) :: ev)
      | None => unmap_loop idxs b
      end
  end.

Definition unmap_bars (b : bars) : bars * list event := unmap_loop (seqZ 0 XDMA_BAR_NUM) b.

(** The loop of [map_bars]: [None] is the jump to [fail]; the ids found so far
    are in [bar_id_list], whose length is [bar_id_idx]. *)
Fixpoint map_loop (idxs : list Z) (b : bars) (bar_id_list : list Z) (config_bar_pos : Z) :
    option (list Z * Z) * bars * list event :=
  match idxs with
  | [] => (Some (bar_id_list, config_bar_pos), b, [])
  | i :: idxs =>
      let '(bar_len, b, ev) := map_single_bar b i in
      if bar_len =? 0 then let '(r, b, ev') := map_loop idxs b bar_id_list config_bar_pos in (r, b, ev ++ ev')
      else if bar_len <? 0 then (None, b, ev)
      else
        let found := (XDMA_BAR_SIZE <=? bar_len) && (config_bar_idx b <? 0) && is_config_bar b i in
        let b := if found then Bars (bar b) (user_bar_idx b) i (bypass_bar_idx b) else b in
        let pos := if found then Z.of_nat (length bar_id_list) else config_bar_pos in
        let '(r, b, ev') := map_loop idxs b (bar_id_list ++ [i]) pos in (r, b, ev ++ ev')
  end.

Definition map_bars (b : bars) : Z * bars * list event :=
  let '(r, b, ev) := map_loop (seqZ 0 XDMA_BAR_NUM) b [] 0 in
  match r with
  | Some (bar_id_list, config_bar_pos) =>
      if config_bar_idx b <? 0 then let '(b, ev') := unmap_bars b in (-1, b, ev ++ ev')
      else (0, identify_bars b bar_id_list (Z.of_nat (length bar_id_list)) config_bar_pos, ev)
  | None => let '(b, ev') := unmap_bars b in (-1, b, ev ++ ev')
  end.

(** ** Engines *)

Definition get_engine_channel_id (regs : Z) : Z :=
  Z.shiftr (Z.land (ioread32 dev (regs + offset_of "identifier" engine_regs)) 0xf00) 8.

Definition get_engine_id (regs : Z) : Z :=
  Z.shiftr (Z.land (ioread32 dev (regs + offset_of "identifier" engine_regs)) 0xffff0000) 16.

Definition probe_for_engine (base : Z) (dir_to_dev : bool) (channel : Z) (e : engines) : engines :=
  let dir_from_dev := if dir_to_dev then 0 else 1 in
  let offset := dir_from_dev * H2C_CHANNEL_OFFSET + channel * CHANNEL_SPACING in
  let regs := base + offset in
  let engine_id_expected := if dir_to_dev then XDMA_ID_H2C else XDMA_ID_C2H in
  if negb (get_engine_id regs =? engine_id_expected) then e
  else if negb (get_engine_channel_id regs =? channel) then e
  else
    if dir_to_dev then
      Engines (h2c_count e + 1) (c2h_count e) (if h2c_engine e =? -1 then channel else h2c_engine e) (c2h_engine e)
        (h2c_regs e) (c2h_regs e) (desc_bypass_enabled e)
    else
      Engines (h2c_count e) (c2h_count e + 1) (h2c_engine e) (if c2h_engine e =? -1 then channel else c2h_engine e)
        (h2c_regs e) (c2h_regs e) (desc_bypass_enabled e).

Definition probe_engines (base : Z) (e : engines) : Z * engines * list event :=
  let e := Engines 0 0 (-1) (-1) (h2c_regs e) (c2h_regs e) (desc_bypass_enabled e) in
  let e := foldl (fun e channel => probe_for_engine base false channel (probe_for_engine base true channel e)) e
    (seqZ 0 XDMA_CHANNEL_NUM_MAX) in
  if (h2c_engine e =? -1) || (c2h_engine e =? -1) then (- ENODEV, e, [])
  else
    let h2c := base + (H2C_CHANNEL_OFFSET + h2c_engine e * CHANNEL_SPACING) in
    let c2h := base + (C2H_CHANNEL_OFFSET + c2h_engine e * CHANNEL_SPACING) in
    (0, Engines (h2c_count e) (c2h_count e) (h2c_engine e) (c2h_engine e) h2c c2h true,
     [Iowrite 1 (h2c + offset_of "control" engine_regs); Iowrite 1 (c2h + offset_of "control" engine_regs)]).

(** ** [probe] and [remove] *)

(** The vectors that are requested: [entry[i].entry = i], in an array of 32. *)
Definition msix_entries : list Z := seqZ 0 (MAX_NUM_ENGINES + MAX_USER_IRQ).

Lemma msix_entries_fit : (length msix_entries <= 32)%nat.
Proof. apply Nat.leb_le. reflexivity. Qed.

(** The result with the flags [msi_enabled] and [msix_enabled]. *)
Definition probe_scan_for_msi : Z * bool * bool * list event :=
  if msi_msix_capable PCI_CAP_ID_MSIX then
    let rc := pci_enable_msix_exact dev in (rc, false, true, if rc <? 0 then [] else [Acquire Msix])
  else if msi_msix_capable PCI_CAP_ID_MSI then
    let rc := pci_enable_msi dev in (rc, true, false, if rc <? 0 then [] else [Acquire Msi])
  else (0, false, false, []).

(** The result with the flags [regions_in_use] and [got_regions]. *)
Definition request_regions : Z * bool * bool * list event :=
  let rc := pci_request_regions dev in
  if negb (rc =? 0) then (rc, true, false, []) else (rc, false, true, [Acquire Regions]).

(** The 64-bit DMA mask. *)
Definition set_dma_mask : Z := dma_set_mask_and_coherent dev.

Definition irq_teardown (i : dev_inst) : list event :=
  if msix_enabled i then [] else if negb (irq_line i =? -1) then [Release (Irq (irq_line i))] else [].

(** The labels at the end of [probe], each of which falls through to the next
    one. *)
Definition err_enable : list event := [Release Instance].
Definition err_scan_msi (i : dev_inst) : list event := (if regions_in_use i then [] else [Release Device]) ++ err_enable.
Definition err_regions (i : dev_inst) : list event := (if msi_enabled i then [Release Msi] else []) ++ err_scan_msi i.
Definition err_map (i : dev_inst) : list event := (if got_regions i then [Release Regions] else []) ++ err_regions i.
Definition err_mask (i : dev_inst) : list event := (unmap_bars (inst_bars i)).2 ++ err_map i.
Definition err_engines (i : dev_inst) : list event := irq_teardown i ++ err_mask i.

(** The result, the instance that is left, and what happened. *)
Definition probe : Z * option dev_inst * list event :=
  if negb (kzalloc_ok dev) then (0, None, [])
  else
    let ev := [Acquire Instance] in
    let i := alloc_dev_instance in
    let rc := pci_enable_device dev in
    if negb (rc =? 0) then (rc, None, ev ++ err_enable)
    else
    let ev := ev ++ [Acquire Device; SetMaster] in
    let '(rc, msi, msix, ev') := probe_scan_for_msi in
    let ev := ev ++ ev' in
    let i := DevInst (inst_bars i) (inst_engines i) false false (irq_line i) msi msix in
    if rc <? 0 then (rc, None, ev ++ err_scan_msi i)
    else
    let '(rc, in_use, got, ev') := request_regions in
    let ev := ev ++ ev' in
    let i := DevInst (inst_bars i) (inst_engines i) in_use got (irq_line i) msi msix in
    if negb (rc =? 0) then (rc, None, ev ++ err_regions i)
    else
    let '(rc, b, ev') := map_bars (inst_bars i) in
    let ev := ev ++ ev' in
    let i := DevInst b (inst_engines i) in_use got (irq_line i) msi msix in
    if negb (rc =? 0) then (rc, None, ev ++ err_map i)
    else
    let rc := set_dma_mask in
    if negb (rc =? 0) then (rc, None, ev ++ err_mask i)
    else
    let '(rc, e, ev') := probe_engines (bar_at b (config_bar_idx b)) (inst_engines i) in
    let ev := ev ++ ev' in
    let i := DevInst b e in_use got (irq_line i) msi msix in
    if negb (rc =? 0) then (rc, None, ev ++ err_engines i)
    else
    let ev := ev ++ [Iowrite 0xFFFFFFFF (h2c_regs e + offset_of "status" engine_regs);
                     Iowrite 0xFFFFFFFF (c2h_regs e + offset_of "status" engine_regs)] in
    let rc := misc_register dev in
    if rc <? 0 then (rc, None, ev ++ err_engines i)
    else
    let ev := ev ++ [Acquire MiscNode] in
    if rc =? 0 then (rc, Some i, ev) else (rc, None, ev ++ err_engines i).

Definition remove (i : dev_inst) : list event :=
  [Release MiscNode] ++ (unmap_bars (inst_bars i)).2 ++
  (if got_regions i then [Release Regions] else []) ++
  (if msix_enabled i then [Release Msix] else if msi_enabled i then [Release Msi] else []) ++
  (if regions_in_use i then [] else [Release Device]) ++ [Release Instance].

(** [xdma_mmap] for the area from [vm_start] to [vm_end]: the error, or the
    first address, the first page frame and the size of the mapping.
    [io_remap_pfn_range] is true when it fails. *)
Definition xdma_mmap (io_remap_fails : bool) (i : dev_inst) (vm_start vm_end vm_pgoff : Z) : Z + (Z * Z * Z) :=
  let vsize := vm_end - vm_start in
  let phys := pci_resource_start dev (user_bar_idx (inst_bars i)) in
  let psize := pci_resource_len dev (user_bar_idx (inst_bars i)) in
  if vsize >? psize then inl (- EINVAL)
  else if io_remap_fails then inl (- EAGAIN)
  else inr (vm_start, Z.shiftr phys 12, vsize).

(** ** Interrupt vectors, which the current [probe] does not set up *)

Definition int_regs_at (b : bars) (f : string) : Z :=
  bar_at b (config_bar_idx b) + XDMA_OFS_INT_CTRL + offset_of f interrupt_regs.

Definition write_msix_vectors (b : bars) : list event :=
  [Iowrite (build_vector_reg 0 1 2 3) (int_regs_at b "user_msi_vector");
   Iowrite (build_vector_reg 4 5 6 7) (int_regs_at b "user_msi_vector" + 4);
   Iowrite (build_vector_reg 8 9 10 11) (int_regs_at b "user_msi_vector" + 8);
   Iowrite (build_vector_reg 12 13 14 15) (int_regs_at b "user_msi_vector" + 12);
   Iowrite (build_vector_reg 16 17 18 19) (int_regs_at b "channel_msi_vector");
   Iowrite (build_vector_reg 20 21 22 23) (int_regs_at b "channel_msi_vector" + 4)].

Definition msix_irq_setup (b : bars) : Z * list event := (0, write_msix_vectors b).

Definition channel_interrupts_enable (b : bars) (mask : Z) : list event :=
  [Iowrite mask (int_regs_at b "channel_int_enable_w1s")].

Definition channel_interrupts_disable (b : bars) (mask : Z) : list event :=
  [Iowrite mask (int_regs_at b "channel_int_enable_w1c")].

Definition read_interrupts (b : bars) : Z :=
  build_u32 (ioread32 dev (int_regs_at b "user_int_request")) (ioread32 dev (int_regs_at b "channel_int_request")).
End probe.

(** ** Registers *)

(** the register blocks of the engines, of the interrupt controller and of
    the configuration fit into the smallest BAR the driver accepts and do not
    overlap, with the control and status registers at the offsets that the
    hardware documents. *)
Theorem register_layout :
  offset_of "control" engine_regs = 0x04 /\ offset_of "status" engine_regs = 0x40 /\
  offset_of "user_msi_vector" interrupt_regs = 0x80 /\ offset_of "channel_msi_vector" interrupt_regs = 0xA0 /\
  sizeof xdma_desc = 32 /\ sizeof xdma_result = 32 /\
  (forall c c' o o', 0 <= c < XDMA_CHANNEL_NUM_MAX -> 0 <= c' < XDMA_CHANNEL_NUM_MAX ->
     o ∈ [C2H_CHANNEL_OFFSET; H2C_CHANNEL_OFFSET] -> o' ∈ [C2H_CHANNEL_OFFSET; H2C_CHANNEL_OFFSET] ->
     let a := o + c * CHANNEL_SPACING in
     let a' := o' + c' * CHANNEL_SPACING in
     (a <> a' -> a + sizeof engine_regs <= a' \/ a' + sizeof engine_regs <= a) /\
     0 <= a /\ a + sizeof engine_regs <= XDMA_OFS_INT_CTRL /\
     XDMA_OFS_CONFIG + sizeof config_regs <= a + SGDMA_OFFSET_FROM_CHANNEL /\
     a + SGDMA_OFFSET_FROM_CHANNEL + sizeof engine_sgdma_regs <= XDMA_BAR_SIZE) /\
  XDMA_OFS_INT_CTRL + sizeof interrupt_regs <= XDMA_OFS_CONFIG.
Proof.
  split_and!; try done. intros c c' o o' Hc Hc' Ho Ho'.
  change (sizeof engine_regs) with 0xDC. change (sizeof engine_sgdma_regs) with 0x90. change (sizeof config_regs) with 24.
  unfold XDMA_CHANNEL_NUM_MAX, C2H_CHANNEL_OFFSET, H2C_CHANNEL_OFFSET, CHANNEL_SPACING, XDMA_OFS_INT_CTRL, XDMA_OFS_CONFIG,
    SGDMA_OFFSET_FROM_CHANNEL, XDMA_BAR_SIZE in *.
  rewrite !elem_of_cons, elem_of_nil in Ho, Ho'. lia.
Qed.

Lemma land_low x n : 0 <= n -> Z.land x (Z.ones n) = wrap n x.
Proof. intros. by rewrite Z.land_ones. Qed.

(** [PCI_DMA_H] and [PCI_DMA_L] split a 64-bit address, but [build_u64]
    puts together only 28 bits of the upper half: it restores an address
    exactly when the address is below 2^60. *)
Theorem dma_address_halves a : 0 <= a < 2 ^ 64 ->
  build_u64 (PCI_DMA_H a) (PCI_DMA_L a) = a mod 2 ^ 60 /\
  (build_u64 (PCI_DMA_H a) (PCI_DMA_L a) = a <-> a < 2 ^ 60).
Proof.
  intros Ha. assert (E : build_u64 (PCI_DMA_H a) (PCI_DMA_L a) = wrap 60 a).
  { unfold build_u64, PCI_DMA_H, PCI_DMA_L. change 0xFFFFFFF with (Z.ones 28). change 0xFFFFFFFF with (Z.ones 32).
    change 0xffffffff with (Z.ones 32). rewrite !land_low by lia. bitwise. }
  split; [done|]. rewrite E. unfold wrap. split; intros H.
  - rewrite <- H. apply Z.mod_pos_bound. lia.
  - apply Z.mod_small. lia.
Qed.

(** [write_msix_vectors] gives each of the 16 user interrupts and 8 channel
    interrupts the MSI-X vector of its own number. *)
Theorem msix_vectors b n : 0 <= n < 24 ->
  exists v, Iowrite v (int_regs_at b (if n <? 16 then "user_msi_vector" else "channel_msi_vector") + 4 * (n mod 16 / 4))
      ∈ write_msix_vectors b /\
    range v (8 * (n mod 4) + 4) (8 * (n mod 4)) = n.
Proof.
  intros Hn. assert (Hc : In n (seqZ 0 24)) by (apply list_elem_of_In, elem_of_seqZ; lia).
  unfold write_msix_vectors. vm_compute in Hc.
  destruct_or? Hc; try done; subst n; cbn -[build_vector_reg range int_regs_at Z.add];
    rewrite ?Z.add_0_r; eexists; (split; [rewrite !elem_of_cons; eauto 8 | done]).
Qed.

(** ** What the driver holds *)

Record held := Held {
  h_instance : bool; h_device : bool; h_msi : bool; h_msix : bool; h_regions : bool; h_misc : bool; h_bars : gset Z }.

Definition nothing : held := Held false false false false false false ∅.

(** Acquire what is not held, release what is held, and let only an enabled device
    be bus master; anything else is [None].
    No function of the driver requests an interrupt line. *)
Definition acquire (r : resource) (h : held) : option held :=
  let '(Held a b c d e f g) := h in
  match r with
  | Instance => if a then None else Some (Held true b c d e f g)
  | Device => if b then None else Some (Held a true c d e f g)
  | Msi => if c then None else Some (Held a b true d e f g)
  | Msix => if d then None else Some (Held a b c true e f g)
  | Regions => if e then None else Some (Held a b c d true f g)
  | MiscNode => if f then None else Some (Held a b c d e true g)
  | Bar i => if decide (i ∈ g) then None else Some (Held a b c d e f ({[i]} ∪ g))
  | Irq _ => None
  end.

Definition release (r : resource) (h : held) : option held :=
  let '(Held a b c d e f g) := h in
  match r with
  | Instance => if a then Some (Held false b c d e f g) else None
  | Device => if b then Some (Held a false c d e f g) else None
  | Msi => if c then Some (Held a b false d e f g) else None
  | Msix => if d then Some (Held a b c false e f g) else None
  | Regions => if e then Some (Held a b c d false f g) else None
  | MiscNode => if f then Some (Held a b c d e false g) else None
  | Bar i => if decide (i ∈ g) then Some (Held a b c d e f (g ∖ {[i]})) else None
  | Irq _ => None
  end.

Fixpoint holds (ev : list event) (h : held) : option held :=
  match ev with
  | [] => Some h
  | Acquire r :: ev => acquire r h ≫= holds ev
  | Release r :: ev => release r h ≫= holds ev
  | Iowrite _ _ :: ev => holds ev h
  | SetMaster :: ev => if h_device h then holds ev h else None
  end.

Lemma holds_app ev1 ev2 h : holds (ev1 ++ ev2) h = holds ev1 h ≫= holds ev2.
Proof.
  revert h. induction ev1 as [|[r | r | v a |] ev1 IH]; intros h; cbn [holds app]; [done | | | apply IH | by destruct (h_device h)].
  - destruct (acquire r h); [apply IH | done].
  - destruct (release r h); [apply IH | done].
Qed.

Definition with_bars (g : gset Z) (h : held) : held :=
  Held (h_instance h) (h_device h) (h_msi h) (h_msix h) (h_regions h) (h_misc h) g.

Lemma unmap_loop_holds idxs : forall b h, let '(b', ev) := unmap_loop idxs b in
  holds ev (with_bars (dom (bar b)) h) = Some (with_bars (dom (bar b')) h) /\
  (forall i, bar b' !! i = if decide (i ∈ idxs) then None else bar b !! i).
Proof.
  induction idxs as [|i idxs IH]; intros b h; cbn [unmap_loop]; [done|].
  destruct (bar b !! i) as [a|] eqn:E.
  - specialize (IH (Bars (delete i (bar b)) (user_bar_idx b) (config_bar_idx b) (bypass_bar_idx b)) h).
    destruct (unmap_loop idxs _) as [b' ev]. destruct IH as [IH1 IH2]. split.
    + cbn [holds with_bars release]. rewrite decide_True by (apply elem_of_dom; eauto).
      cbn [mbind option_bind] in *. rewrite <- IH1. cbn [bar]. by rewrite dom_delete_L.
    + intros j. rewrite IH2. cbn [bar]. destruct (decide (j = i)) as [-> | Hne].
      * rewrite lookup_delete_eq, (decide_True (P := i ∈ i :: idxs)) by left. by case_decide.
      * rewrite lookup_delete_ne by done.
        destruct (decide (j ∈ idxs)) as [Hj | Hj]; [by rewrite decide_True by by right|].
        rewrite decide_False; [done|]. rewrite elem_of_cons. tauto.
  - specialize (IH b h). destruct (unmap_loop idxs b) as [b' ev]. destruct IH as [IH1 IH2]. split; [done|].
    intros j. rewrite IH2. destruct (decide (j = i)) as [-> | Hne].
    + rewrite (decide_True (P := i ∈ i :: idxs)) by left. by case_decide.
    + destruct (decide (j ∈ idxs)) as [Hj | Hj]; [by rewrite decide_True by by right|].
      rewrite decide_False; [done|]. rewrite elem_of_cons. tauto.
Qed.

Definition bars_wf (b : bars) : Prop := forall i a, bar b !! i = Some a -> 0 <= i < XDMA_BAR_NUM.

(** [unmap_bars] unmaps every mapped BAR, once. *)
Lemma unmap_bars_holds b h : bars_wf b ->
  bar (unmap_bars b).1 = ∅ /\ holds (unmap_bars b).2 (with_bars (dom (bar b)) h) = Some (with_bars ∅ h).
Proof.
  intros Hwf. unfold unmap_bars. pose proof (unmap_loop_holds (seqZ 0 XDMA_BAR_NUM) b h) as H.
  destruct (unmap_loop _ b) as [b' ev]. destruct H as [H1 H2]. cbn [fst snd].
  assert (E : bar b' = ∅).
  { apply map_empty. intros i. rewrite H2. case_decide as Hd; [done|]. destruct (bar b !! i) as [a|] eqn:Ea; [|done].
    destruct Hd. apply elem_of_seqZ. specialize (Hwf _ _ Ea). lia. }
  split; [done|]. by rewrite H1, E, dom_empty_L.
Qed.

(** What the kernel promises: lengths are not negative, and the functions that
    return an error code return zero or a negative number. *)
Record pci_ok (dev : pci_dev) : Prop := PciOk {
  ok_len : forall i, 0 <= pci_resource_len dev i;
  ok_misc : misc_register dev <= 0 }.

Section bars.
Variable dev : pci_dev.
Hypothesis dev_ok : pci_ok dev.

Lemma map_single_holds b i h : bar b !! i = None -> let '(len, b', ev) := map_single_bar dev b i in
  holds ev (with_bars (dom (bar b)) h) = Some (with_bars (dom (bar b')) h) /\
  (forall j, j <> i -> bar b' !! j = bar b !! j) /\ (len <= 0 -> bar b' !! i = None).
Proof.
  intros Hi. unfold map_single_bar. destruct (Z.eqb_spec (pci_resource_len dev i) 0) as [H0 | H0].
  { split_and!; cbn [holds bar]; [by rewrite delete_id | intros j Hj; by rewrite lookup_delete_ne | by rewrite lookup_delete_eq]. }
  destruct (pci_iomap dev i _) as [a|] eqn:Ea; split_and!; cbn [holds bar with_bars acquire].
  - rewrite decide_False by by apply not_elem_of_dom. cbn [mbind option_bind]. by rewrite dom_insert_L.
  - intros j Hj. by rewrite lookup_insert_ne.
  - intros Hle. exfalso. pose proof (ok_len dev dev_ok i). revert Hle. unfold INT_MAX. bool_cases.
  - by rewrite delete_id.
  - intros j Hj. by rewrite lookup_delete_ne.
  - by rewrite lookup_delete_eq.
Qed.
Lemma map_loop_holds idxs : forall b l p h, NoDup idxs -> (forall i, i ∈ idxs -> bar b !! i = None) ->
  let '(r, b', ev) := map_loop dev idxs b l p in
  holds ev (with_bars (dom (bar b)) h) = Some (with_bars (dom (bar b')) h) /\
  (forall j, j ∉ idxs -> bar b' !! j = bar b !! j).
Proof.
  induction idxs as [|i idxs IH]; intros b l p h Hnd Hnone; cbn [map_loop]; [done|].
  apply NoDup_cons in Hnd as [Hni Hnd].
  pose proof (map_single_holds b i h (Hnone i (list_elem_of_here _ _))) as Hs.
  destruct (map_single_bar dev b i) as [[len b1] ev1]. destruct Hs as (Hs1 & Hs2 & Hs3).
  assert (Hnone1 : forall j, j ∈ idxs -> bar b1 !! j = None).
  { intros j Hj. rewrite Hs2 by set_solver. apply Hnone. by right. }
  assert (Hrest : forall b2 l p, bar b2 = bar b1 -> let '(r, b', ev) := map_loop dev idxs b2 l p in
    holds (ev1 ++ ev) (with_bars (dom (bar b)) h) = Some (with_bars (dom (bar b')) h) /\
    (forall j, j ∉ i :: idxs -> bar b' !! j = bar b !! j)).
  { intros b2 l' p' Hb2. specialize (IH b2 l' p' h Hnd). rewrite Hb2 in IH. specialize (IH Hnone1).
    destruct (map_loop dev idxs b2 l' p') as [[r b'] ev]. destruct IH as [IH1 IH2]. split.
    - rewrite holds_app, Hs1. exact IH1.
    - intros j Hj. rewrite elem_of_cons in Hj. rewrite IH2, Hs2 by tauto. done. }
  destruct (len =? 0).
  { specialize (Hrest b1 l p eq_refl). by destruct (map_loop dev idxs b1 l p) as [[r b'] ev]. }
  destruct (len <? 0).
  { split; [done|]. intros j Hj. apply Hs2. set_solver. }
  set (found := _ && _). destruct found.
  - specialize (Hrest (Bars (bar b1) (user_bar_idx b1) i (bypass_bar_idx b1)) (l ++ [i]) (Z.of_nat (length l)) eq_refl).
    by destruct (map_loop dev idxs _ _ _) as [[r b'] ev].
  - specialize (Hrest b1 (l ++ [i]) p eq_refl). by destruct (map_loop dev idxs b1 _ p) as [[r b'] ev].
Qed.

(** [map_bars] starts from a device without mapped BARs; when it fails it has
    unmapped everything again. *)
Lemma map_bars_holds b h : bar b = ∅ -> let '(rc, b', ev) := map_bars dev b in
  bars_wf b' /\ holds ev (with_bars ∅ h) = Some (with_bars (dom (bar b')) h) /\ (rc <> 0 -> bar b' = ∅).
Proof.
  intros Hb. unfold map_bars.
  pose proof (map_loop_holds (seqZ 0 XDMA_BAR_NUM) b [] 0 h (NoDup_seqZ _ _)) as Hl.
  rewrite Hb in Hl. specialize (Hl (fun i _ => lookup_empty i)). rewrite dom_empty_L in Hl.
  destruct (map_loop dev _ b [] 0) as [[r b1] ev1]. destruct Hl as [Hl1 Hl2].
  assert (Hwf : bars_wf b1).
  { intros i a Hi. destruct (decide (i ∈ seqZ 0 XDMA_BAR_NUM)) as [Hin | Hin].
    - apply elem_of_seqZ in Hin. lia.
    - rewrite Hl2 in Hi by done. by rewrite lookup_empty in Hi. }
  pose proof (unmap_bars_holds b1 h Hwf) as [Hu1 Hu2].
  assert (Hfail : let '(b', ev') := unmap_bars b1 in
    bars_wf b' /\ holds (ev1 ++ ev') (with_bars ∅ h) = Some (with_bars (dom (bar b')) h) /\ ((-1) <> 0 -> bar b' = ∅)).
  { destruct (unmap_bars b1) as [b' ev']. cbn [fst snd] in *. rewrite holds_app, Hl1. split_and!; [| | done].
    - intros i a. by rewrite Hu1, lookup_empty.
    - rewrite Hu1, dom_empty_L. exact Hu2. }
  destruct r as [[l pos]|]; [|by destruct (unmap_bars b1)].
  destruct (config_bar_idx b1 <? 0); [by destruct (unmap_bars b1)|].
  assert (E : bar (identify_bars b1 l (Z.of_nat (length l)) pos) = bar b1).
  { unfold identify_bars. repeat case_match; done. }
  unfold bars_wf. rewrite E. done.
Qed.
End bars.

Section probe_holds.
Variable dev : pci_dev.
Hypothesis dev_ok : pci_ok dev.

Lemma scan_holds : let '(rc, msi, msix, ev) := probe_scan_for_msi dev in
  msix = msi_msix_capable dev PCI_CAP_ID_MSIX /\
  holds ev (Held true true false false false false ∅) =
    Some (Held true true (if rc <? 0 then false else msi) (if rc <? 0 then false else msix) false false ∅) /\
  (msi && msix) = false.
Proof.
  unfold probe_scan_for_msi. destruct (msi_msix_capable dev PCI_CAP_ID_MSIX); [by destruct (_ <? 0)|].
  destruct (msi_msix_capable dev PCI_CAP_ID_MSI); [by destruct (_ <? 0) | done].
Qed.

(** The steps of [probe] up to [request_regions] succeed. *)
Definition regions_requested : bool :=
  kzalloc_ok dev && (pci_enable_device dev =? 0) && negb ((probe_scan_for_msi dev).1.1.1 <? 0).

(** What a failed [probe] leaves behind. *)
Definition leaked : held :=
  Held false (regions_requested && negb (pci_request_regions dev =? 0)) false
    (regions_requested && msi_msix_capable dev PCI_CAP_ID_MSIX) false false ∅.

(** Everything [probe] acquires before it maps the BARs. *)
Definition before_bars (msi msix got : bool) : held := Held true true msi msix got false ∅.

Lemma err_mask_holds (i : dev_inst) msi msix : bars_wf (inst_bars i) ->
  regions_in_use i = false -> got_regions i = true -> msi_enabled i = msi -> msi && msix = false ->
  holds (err_mask i) (with_bars (dom (bar (inst_bars i))) (before_bars msi msix true)) =
    Some (Held false false false msix false false ∅).
Proof.
  intros Hwf Hu Hg Hm Hx. destruct (unmap_bars_holds _ (before_bars msi msix true) Hwf) as [_ Hr].
  unfold err_mask. rewrite holds_app, Hr. unfold err_map, err_regions, err_scan_msi. rewrite Hu, Hg, Hm.
  by destruct msi, msix.
Qed.

Lemma err_engines_no_irq i : irq_line i = -1 -> err_engines i = err_mask i.
Proof. intros Hi. unfold err_engines, irq_teardown. rewrite Hi. by destruct (msix_enabled i). Qed.

Lemma probe_holds : let '(rc, i, ev) := probe dev in
  match i with
  | Some i => rc = 0 /\ regions_in_use i = false /\ got_regions i = true /\ (msi_enabled i && msix_enabled i) = false /\
      bars_wf (inst_bars i) /\
      holds ev nothing = Some (Held true true (msi_enabled i) (msix_enabled i) true true (dom (bar (inst_bars i))))
  | None => holds ev nothing = Some leaked
  end.
Proof.
  unfold probe, leaked, regions_requested. destruct (kzalloc_ok dev); [|done]. cbn [negb].
  destruct (pci_enable_device dev =? 0) eqn:Een; [|done]. cbn [negb].
  pose proof scan_holds as Hscan. destruct (probe_scan_for_msi dev) as [[[rc msi] msix] ev1].
  destruct Hscan as (-> & Hs & Hx). cbn [fst].
  set (cap := msi_msix_capable dev PCI_CAP_ID_MSIX) in *.
  assert (H1 : holds (([Acquire Instance] ++ [Acquire Device; SetMaster]) ++ ev1) nothing =
    Some (Held true true (if rc <? 0 then false else msi) (if rc <? 0 then false else cap) false false ∅)).
  { rewrite holds_app. exact Hs. }
  revert H1. generalize (([Acquire Instance] ++ [Acquire Device; SetMaster]) ++ ev1) as pre. intros pre H1.
  destruct (rc <? 0) eqn:Erc; [by rewrite holds_app, H1|]. cbn [negb andb].
  unfold request_regions. destruct (pci_request_regions dev =? 0) eqn:Ereg; cbn [negb]; rewrite Ereg; cbn [negb].
  2: { rewrite app_nil_r, holds_app, H1. by destruct msi, cap. }
  set (i0 := alloc_dev_instance).
  assert (H2 : holds (pre ++ [Acquire Regions]) nothing = Some (with_bars ∅ (before_bars msi cap true))).
  { rewrite holds_app, H1. by destruct msi, cap. }
  pose proof (map_bars_holds dev dev_ok (inst_bars i0) (before_bars msi cap true) eq_refl) as Hb.
  destruct (map_bars dev _) as [[rc2 b] ev2]. destruct Hb as (Hwf & Hb1 & Hb2).
  assert (H3 : holds ((pre ++ [Acquire Regions]) ++ ev2) nothing = Some (with_bars (dom (bar b)) (before_bars msi cap true))).
  { rewrite holds_app, H2. exact Hb1. }
  revert H3. generalize ((pre ++ [Acquire Regions]) ++ ev2) as pre2. intros pre2 H3.
  destruct (Z.eqb_spec rc2 0) as [-> | Hrc2]; cbn [negb].
  2: { rewrite holds_app, H3, Hb2 by done. by destruct msi, cap. }
  cbv zeta. destruct (set_dma_mask dev =? 0); cbn [negb].
  2: { rewrite holds_app, H3. by apply err_mask_holds. }
  unfold probe_engines. set (e := foldl _ _ _). set (base := bar_at _ _).
  destruct ((h2c_engine e =? -1) || (c2h_engine e =? -1)).
  { change (- ENODEV =? 0) with false. cbn [negb]. rewrite app_nil_r, holds_app, H3, err_engines_no_irq by done. by apply err_mask_holds. }
  change (0 =? 0) with true. cbn [negb]. cbv zeta. rewrite <- !app_assoc. pose proof (ok_misc dev dev_ok).
  destruct (misc_register dev <? 0) eqn:Em.
  { rewrite holds_app, H3, err_engines_no_irq by done. cbn [mbind option_bind app holds]. by apply err_mask_holds. }
  assert (misc_register dev = 0) as -> by lia. split_and!; try done.
  rewrite holds_app, H3. done.
Qed.
End probe_holds.

(** What a bound device holds. *)
Definition held_by (i : dev_inst) : held :=
  Held true true (msi_enabled i) (msix_enabled i) true true (dom (bar (inst_bars i))).

(** [remove] releases it. *)
Lemma remove_holds i : regions_in_use i = false -> got_regions i = true -> (msi_enabled i && msix_enabled i) = false ->
  bars_wf (inst_bars i) -> holds (remove i) (held_by i) = Some nothing.
Proof.
  intros Hu Hg Hm Hwf. unfold remove, held_by. rewrite Hu, Hg. cbn [app mbind option_bind holds release].
  destruct (unmap_bars_holds _ (Held true true (msi_enabled i) (msix_enabled i) true false ∅) Hwf) as [_ Hr].
  rewrite holds_app. unfold with_bars in Hr. cbn in Hr. rewrite Hr.
  by destruct (msi_enabled i), (msix_enabled i).
Qed.

(** C25: a successful [probe] returns 0, and the following [remove] releases
    exactly what [probe] has acquired, each resource once and none that is
    not held. *)
Theorem probe_then_remove dev rc i ev : pci_ok dev -> probe dev = (rc, Some i, ev) ->
  rc = 0 /\ holds (ev ++ remove i) nothing = Some nothing.
Proof.
  intros Hok Hp. pose proof (probe_holds dev Hok) as H. rewrite Hp in H.
  destruct H as (-> & Hu & Hg & Hm & Hwf & Hh). split; [done|].
  rewrite holds_app, Hh. by apply remove_holds.
Qed.

(** C26: a failed [probe] releases in every case what it has acquired, except
    that MSI-X stays enabled when a later step fails, and that the device
    stays enabled when its regions cannot be requested. *)
Theorem failed_probe_leaks dev rc ev : pci_ok dev -> probe dev = (rc, None, ev) ->
  holds ev nothing = Some (leaked dev) /\
  (leaked dev = nothing <->
     (regions_requested dev = true -> msi_msix_capable dev PCI_CAP_ID_MSIX = false /\ pci_request_regions dev = 0)).
Proof.
  intros Hok Hp. pose proof (probe_holds dev Hok) as H. rewrite Hp in H. split; [done|]. unfold leaked, nothing.
  destruct (regions_requested dev); [|by split]. cbn [andb].
  destruct (Z.eqb_spec (pci_request_regions dev) 0) as [-> | Hr]; cbn [negb]; split.
  - by intros [= ->].
  - intros Hc. by destruct (Hc eq_refl) as [-> _].
  - done.
  - intros Hc. by destruct (Hc eq_refl) as [_ ?].
Qed.

(** ** Which BARs *)

Section identification.
Variable dev : pci_dev.
Hypothesis dev_ok : pci_ok dev.

Definition map_len (i : Z) : Z := Z.min (pci_resource_len dev i) INT_MAX.

Definition present (i : Z) : bool := negb (pci_resource_len dev i =? 0).

(** The BAR is large enough and has the identifiers of the XDMA registers. *)
Definition is_xdma (i : Z) : bool :=
  match pci_iomap dev i (map_len i) with
  | None => false
  | Some a =>
      (XDMA_BAR_SIZE <=? map_len i) &&
      ((Z.land (ioread32 dev (a + 0x2000)) 0xffff0000 =? 0x1fc20000) &&
       (Z.land (ioread32 dev (a + 0x3000)) 0xffff0000 =? 0x1fc30000))
  end.

Definition mappable (i : Z) : Prop := present i = true -> is_Some (pci_iomap dev i (map_len i)).

(** The first XDMA BAR of a list and its position. *)
Fixpoint first_xdma (l : list Z) : option (Z * nat) :=
  match l with
  | [] => None
  | i :: l => if is_xdma i then Some (i, O) else (fun '(c, n) => (c, S n)) <$> first_xdma l
  end.

Definition present_bars (idxs : list Z) : list Z := filter (fun i => present i = true) idxs.

Lemma present_bars_cons i l : present_bars (i :: l) = if present i then i :: present_bars l else present_bars l.
Proof. unfold present_bars. rewrite filter_cons. destruct (present i); by case_decide. Qed.

Lemma map_loop_identifies idxs : forall b l p, Forall mappable idxs ->
  user_bar_idx b = -1 -> bypass_bar_idx b = -1 -> Forall (fun i => 0 <= i) idxs ->
  exists b' ev, map_loop dev idxs b l p =
    (Some (l ++ present_bars idxs,
       if config_bar_idx b <? 0 then
         match first_xdma (present_bars idxs) with Some (_, n) => Z.of_nat (length l + n) | None => p end
       else p), b', ev) /\
    user_bar_idx b' = -1 /\ bypass_bar_idx b' = -1 /\
    config_bar_idx b' =
      if config_bar_idx b <? 0 then
        match first_xdma (present_bars idxs) with Some (c, _) => c | None => config_bar_idx b end
      else config_bar_idx b.
Proof.
  induction idxs as [|i idxs IH]; intros b l p Hm Hu Hy Hi; cbn [map_loop].
  { exists b, []. unfold present_bars. rewrite filter_nil, app_nil_r. cbn [first_xdma]. split_and!; try done; by destruct (_ <? 0). }
  apply Forall_cons in Hm as [Hmi Hm]. apply Forall_cons in Hi as [Hi0 Hi].
  rewrite present_bars_cons. unfold map_single_bar, mappable, present in *.
  pose proof (ok_len dev dev_ok i) as Hlen.
  destruct (Z.eqb_spec (pci_resource_len dev i) 0) as [H0 | H0].
  { cbn [Z.eqb negb].
    destruct (IH (Bars (delete i (bar b)) (user_bar_idx b) (config_bar_idx b) (bypass_bar_idx b)) l p Hm Hu Hy Hi)
      as (b' & ev & -> & ?). cbn [config_bar_idx] in *. by eexists _, _. }
  assert (Em : (if pci_resource_len dev i >? INT_MAX then INT_MAX else pci_resource_len dev i) = map_len i).
  { unfold map_len. bool_cases. }
  assert (0 < map_len i) by (unfold map_len, INT_MAX; lia).
  cbn [negb] in *. rewrite Em. destruct (Hmi eq_refl) as [a Ha]. rewrite Ha.
  rewrite (proj2 (Z.eqb_neq _ _)), (proj2 (Z.ltb_ge _ _)) by lia. cbn [config_bar_idx first_xdma].
  set (b1 := Bars (<[i:=a]> (bar b)) _ _ _).
  assert (Ex : (XDMA_BAR_SIZE <=? map_len i) && (config_bar_idx b <? 0) && is_config_bar dev b1 i =
    (config_bar_idx b <? 0) && is_xdma i).
  { unfold is_xdma, is_config_bar, bar_at, b1. cbn [bar]. rewrite Ha, lookup_insert_eq. cbn [default].
    change (offset_of "identifier" interrupt_regs) with 0. change (offset_of "identifier" config_regs) with 0.
    rewrite !Z.add_0_r. unfold XDMA_OFS_INT_CTRL, XDMA_OFS_CONFIG, IRQ_BLOCK_ID, CONFIG_BLOCK_ID, id.
    by destruct (_ <=? _), (_ <? _). }
  rewrite Ex. destruct (config_bar_idx b <? 0) eqn:Ec; cbn [andb].
  - destruct (is_xdma i) eqn:Exi.
    + destruct (IH (Bars (bar b1) (user_bar_idx b1) i (bypass_bar_idx b1)) (l ++ [i]) (Z.of_nat (length l)) Hm Hu Hy Hi)
        as (b' & ev & -> & Hu' & Hy' & Hc').
      cbn [config_bar_idx] in *. rewrite (proj2 (Z.ltb_ge _ _)) in * by lia.
      eexists _, _. rewrite Nat.add_0_r, <- app_assoc. by split_and!.
    + destruct (IH b1 (l ++ [i]) p Hm Hu Hy Hi) as (b' & ev & -> & Hu' & Hy' & Hc').
      cbn [b1 config_bar_idx] in *. rewrite Ec in *. eexists _, _. rewrite <- app_assoc.
      split_and!; [| done | done |].
      * destruct (first_xdma _) as [[c n]|]; cbn; [|done]. rewrite length_app. cbn. do 4 f_equal. lia.
      * rewrite Hc'. by destruct (first_xdma _) as [[c n]|].
  - destruct (IH b1 (l ++ [i]) p Hm Hu Hy Hi) as (b' & ev & -> & Hu' & Hy' & Hc').
    cbn [b1 config_bar_idx] in *. rewrite Ec in *. eexists _, _. rewrite <- app_assoc. by split_and!.
Qed.
Lemma first_xdma_split l1 c l2 : Forall (fun i => is_xdma i = false) l1 -> is_xdma c = true ->
  first_xdma (l1 ++ c :: l2) = Some (c, length l1).
Proof. intros H Hc. induction H as [|i l1 Hi _ IH]; cbn; [by rewrite Hc|]. by rewrite Hi, IH. Qed.

Lemma first_xdma_none l : Forall (fun i => is_xdma i = false) l -> first_xdma l = None.
Proof. induction 1 as [|i l Hi _ IH]; cbn; [done|]. by rewrite Hi, IH. Qed.

Lemma identify_other b l n pos : n <> 2 -> n <> 3 -> identify_bars b l n pos = b.
Proof. intros H2 H3. unfold identify_bars. repeat case_match; done. Qed.

(** The user and the bypass BAR, given the BARs before and after the XDMA BAR. *)
Definition user_bar (l1 l2 : list Z) : Z := match l1, l2 with [u], [] | [u], [_] => u | _, _ => -1 end.
Definition bypass_bar (l1 l2 : list Z) : Z := match l1, l2 with [], [y] | [_], [y] => y | _, _ => -1 end.

Lemma identify_split b l1 c l2 : user_bar_idx b = -1 -> bypass_bar_idx b = -1 ->
  let b' := identify_bars b (l1 ++ c :: l2) (Z.of_nat (length (l1 ++ c :: l2))) (Z.of_nat (length l1)) in
  config_bar_idx b' = config_bar_idx b /\ user_bar_idx b' = user_bar l1 l2 /\ bypass_bar_idx b' = bypass_bar l1 l2.
Proof.
  intros Hu Hy. destruct l1 as [|u [|u' [|u'' l1]]], l2 as [|y [|y' [|y'' l2]]]; try done;
    cbv zeta; rewrite identify_other; rewrite ?length_app; cbn [length]; (done || lia).
Qed.

Lemma probe_idxs : Forall (fun i => 0 <= i) (seqZ 0 XDMA_BAR_NUM).
Proof. apply Forall_forall. intros i Hi%elem_of_seqZ. lia. Qed.
End identification.

(** C28: when every BAR that is present can be mapped, [map_bars] takes the
    first one with the identifiers of the XDMA registers as the
    configuration BAR, the only one before it as the user BAR and the only
    one after it as the bypass BAR (neither when there are two or more on
    either side), and it fails exactly when no BAR has the identifiers. *)
Theorem map_bars_identifies dev : pci_ok dev -> Forall (mappable dev) (seqZ 0 XDMA_BAR_NUM) ->
  let l := present_bars dev (seqZ 0 XDMA_BAR_NUM) in
  let '(rc, b, _) := map_bars dev (inst_bars alloc_dev_instance) in
  (Forall (fun i => is_xdma dev i = false) l -> rc = -1) /\
  (forall l1 c l2, l = l1 ++ c :: l2 -> Forall (fun i => is_xdma dev i = false) l1 -> is_xdma dev c = true ->
     rc = 0 /\ config_bar_idx b = c /\ user_bar_idx b = user_bar l1 l2 /\ bypass_bar_idx b = bypass_bar l1 l2).
Proof.
  intros Hok Hm. cbv zeta. unfold map_bars.
  destruct (map_loop_identifies dev Hok (seqZ 0 XDMA_BAR_NUM) (inst_bars alloc_dev_instance) [] 0 Hm eq_refl eq_refl probe_idxs)
    as (b & ev & -> & Hu & Hy & Hc).
  cbn [inst_bars alloc_dev_instance config_bar_idx Z.ltb Z.compare app length Nat.add] in *.
  set (l := present_bars dev _) in *.
  destruct (config_bar_idx b <? 0) eqn:Eb.
  - destruct (unmap_bars b) as [b' ev']. split; [done|]. intros l1 c l2 El Hl1 Hc1.
    rewrite El, first_xdma_split in Hc by done. exfalso.
    assert (Hin : c ∈ l) by (rewrite El; set_solver). unfold l, present_bars in Hin.
    apply list_elem_of_filter in Hin as [_ Hin%elem_of_seqZ]. lia.
  - split.
    + intros Hn. rewrite first_xdma_none in Hc by done. by rewrite Hc in Eb.
    + intros l1 c l2 El Hl1 Hc1. rewrite El, first_xdma_split in * by done.
      destruct (identify_split b l1 c l2 Hu Hy) as (-> & -> & ->). by rewrite Hc.
Qed.

(** ** Engines *)

Section engines.
Variable dev : pci_dev.
Variable base : Z.

(** The engine of channel [c] answers with its identifier. *)
Definition engine_found (dir_to_dev : bool) (c : Z) : bool :=
  let id := ioread32 dev (base + ((if dir_to_dev then 0 else 0x1000) + c * 0x100)) in
  (Z.shiftr (Z.land id 0xffff0000) 16 =? (if dir_to_dev then 0x1fc0 else 0x1fc1)) && (Z.shiftr (Z.land id 0xf00) 8 =? c).

(** The first channel with an engine, or -1. *)
Definition first_engine (dir_to_dev : bool) : Z :=
  default (-1) (head (filter (fun c => engine_found dir_to_dev c = true) (seqZ 0 XDMA_CHANNEL_NUM_MAX))).

Definition count_engines (dir_to_dev : bool) : Z :=
  Z.of_nat (length (filter (fun c => engine_found dir_to_dev c = true) (seqZ 0 XDMA_CHANNEL_NUM_MAX))).

Lemma probe_for_engine_found dir c e : probe_for_engine dev base dir c e =
  if engine_found dir c then
    if dir then
      Engines (h2c_count e + 1) (c2h_count e) (if h2c_engine e =? -1 then c else h2c_engine e) (c2h_engine e)
        (h2c_regs e) (c2h_regs e) (desc_bypass_enabled e)
    else
      Engines (h2c_count e) (c2h_count e + 1) (h2c_engine e) (if c2h_engine e =? -1 then c else c2h_engine e)
        (h2c_regs e) (c2h_regs e) (desc_bypass_enabled e)
  else e.
Proof.
  unfold probe_for_engine, get_engine_id, get_engine_channel_id, engine_found.
  change (offset_of "identifier" engine_regs) with 0. rewrite Z.add_0_r.
  replace (base + ((if dir then 0 else 1) * H2C_CHANNEL_OFFSET + c * CHANNEL_SPACING)) with
    (base + ((if dir then 0 else 0x1000) + c * 0x100)) by (unfold H2C_CHANNEL_OFFSET, CHANNEL_SPACING; destruct dir; lia).
  unfold XDMA_ID_H2C, XDMA_ID_C2H. cbv zeta.
  destruct (Z.shiftr (Z.land _ 0xffff0000) 16 =? _); [|reflexivity]. cbn [negb andb].
  destruct (Z.shiftr (Z.land _ 0xf00) 8 =? c); reflexivity.
Qed.

Definition pick (old first : Z) : Z := if old =? -1 then first else old.

Lemma probe_channels idxs : forall hc cc he ce hr cr d, Forall (fun i => 0 <= i) idxs ->
  let found dir := filter (fun c => engine_found dir c = true) idxs in
  foldl (fun e channel => probe_for_engine dev base false channel (probe_for_engine dev base true channel e))
    (Engines hc cc he ce hr cr d) idxs =
  Engines (hc + Z.of_nat (length (found true))) (cc + Z.of_nat (length (found false)))
    (pick he (default (-1) (head (found true)))) (pick ce (default (-1) (head (found false)))) hr cr d.
Proof.
  cbv zeta. assert (Hpick : forall x y z, 0 <= x -> pick (if y =? -1 then x else y) z = pick y x).
  { intros x y z Hx. unfold pick. destruct (Z.eqb_spec y (-1)) as [-> | Hy].
    - by rewrite (proj2 (Z.eqb_neq x (-1))) by lia.
    - by rewrite (proj2 (Z.eqb_neq y (-1))). }
  induction idxs as [|i idxs IH]; intros hc cc he ce hr cr d Hi; cbn [foldl].
  { rewrite !filter_nil. cbn. unfold pick. f_equal; bool_cases. }
  apply Forall_cons in Hi as [Hi0 Hi]. rewrite !probe_for_engine_found, !filter_cons.
  destruct (engine_found true i), (engine_found false i); cbn [h2c_count c2h_count h2c_engine c2h_engine h2c_regs c2h_regs
    desc_bypass_enabled]; rewrite IH by done; repeat case_decide; try done; cbn [length head default];
    f_equal; try lia; apply Hpick; assumption.
Qed.

Lemma probe_all_channels hr cr d :
  foldl (fun e channel => probe_for_engine dev base false channel (probe_for_engine dev base true channel e))
    (Engines 0 0 (-1) (-1) hr cr d) (seqZ 0 XDMA_CHANNEL_NUM_MAX) =
  Engines (count_engines true) (count_engines false) (first_engine true) (first_engine false) hr cr d.
Proof.
  apply probe_channels, Forall_forall. intros i Hi%elem_of_seqZ. lia.
Qed.
End engines.

(** [probe_engines] uses the first host-to-card and the first card-to-host
    engine that answers at its documented place and fails exactly when there
    is none of one kind; but with the two channel offsets exchanged it
    writes the control registers of the opposite directions, so it starts
    the engines it has found exactly when both have the same number. *)
Theorem probe_engines_swaps dev base e : let '(rc, e', ev) := probe_engines dev base e in
  let h := first_engine dev base true in
  let c := first_engine dev base false in
  h2c_engine e' = h /\ c2h_engine e' = c /\
  h2c_count e' = count_engines dev base true /\ c2h_count e' = count_engines dev base false /\
  (rc <> 0 <-> h = -1 \/ c = -1) /\
  (rc = 0 -> ev = [Iowrite 1 (base + 0x1000 + h * 0x100 + 4); Iowrite 1 (base + c * 0x100 + 4)] /\
     (ev ≡ₚ [Iowrite 1 (base + h * 0x100 + 4); Iowrite 1 (base + 0x1000 + c * 0x100 + 4)] <-> h = c)).
Proof.
  unfold probe_engines. rewrite probe_all_channels. cbn [h2c_engine c2h_engine h2c_count c2h_count].
  set (h := first_engine dev base true). set (c := first_engine dev base false).
  assert (Hb : -1 <= h < 4 /\ -1 <= c < 4).
  { split; [unfold h | unfold c]; unfold first_engine; (destruct (head _) as [x|] eqn:E; [|done]);
      apply head_Some_elem_of, list_elem_of_filter in E as [_ E%elem_of_seqZ]; cbn; unfold XDMA_CHANNEL_NUM_MAX in E; lia. }
  destruct ((h =? -1) || (c =? -1)) eqn:E; split_and!; try done.
  - split; [intros _ | done]. apply orb_true_iff in E as [?%Z.eqb_eq | ?%Z.eqb_eq]; auto.
  - split; [done|]. apply orb_false_iff in E as [?%Z.eqb_neq ?%Z.eqb_neq]. tauto.
  - intros _. unfold H2C_CHANNEL_OFFSET, C2H_CHANNEL_OFFSET, CHANNEL_SPACING.
    change (offset_of "control" engine_regs) with 4. split.
    + by rewrite Z.add_assoc.
    + split.
      * intros Hp. assert (Hin : Iowrite 1 (base + (0x1000 + h * 0x100) + 4) ∈
          [Iowrite 1 (base + h * 0x100 + 4); Iowrite 1 (base + 0x1000 + c * 0x100 + 4)]) by (rewrite <- Hp; left).
        rewrite !elem_of_cons, elem_of_nil in Hin. 
        destruct Hin as [Hin | [Hin | []]];
          apply (f_equal (fun ev => match ev with Iowrite _ a => a | _ => 0 end)) in Hin; lia.
      * intros ->. rewrite Permutation_swap, (Z.add_assoc base 0x1000). done.
Qed.

(** [xdma_mmap] maps the registers of the user BAR from its start on, never
    beyond its end, and ignores the offset the process asks for; it refuses
    larger requests. *)
Theorem xdma_mmap_within_bar dev io_fails i vm_start vm_end vm_pgoff :
  let phys := pci_resource_start dev (user_bar_idx (inst_bars i)) in
  let psize := pci_resource_len dev (user_bar_idx (inst_bars i)) in
  phys mod 4096 = 0 ->
  match xdma_mmap dev io_fails i vm_start vm_end vm_pgoff with
  | inr (v, pfn, size) => v = vm_start /\ size = vm_end - vm_start /\ size <= psize /\ pfn * 4096 = phys
  | inl rc => (rc = - EINVAL /\ psize < vm_end - vm_start) \/ (rc = - EAGAIN /\ io_fails = true)
  end.
Proof.
  cbv zeta. intros Hp. unfold xdma_mmap. destruct (Z.gtb_spec (vm_end - vm_start) (pci_resource_len dev (user_bar_idx (inst_bars i)))).
  - by left.
  - destruct io_fails; [by right|]. split_and!; try done. rewrite Z.shiftr_div_pow2 by lia. change (2 ^ 12) with 4096.
    Z.to_euclidean_division_equations. lia.
Qed.

(** ** Instances: a device with a user BAR, the XDMA BAR and a bypass BAR and
    one engine in each direction *)

Definition demo_pci (misc : Z) : pci_dev := PciDev true 0 false [false] (fun _ => true) 0 0 0
  (fun i => 0xF0000000 + i * 0x100000)
  (fun i => if (i =? 0) || (i =? 1) || (i =? 2) then 0x8000 else 0)
  (fun i _ => Some (0x10000000 * (i + 1)))
  (fun a => match a with
    | 0x20002000 => 0x1fc20006
    | 0x20003000 => 0x1fc30006
    | 0x20000000 => 0x1fc00006
    | 0x20001000 => 0x1fc10006
    | _ => 0xFFFFFFFF end)
  0 misc.

Lemma demo_pci_ok misc : misc <= 0 -> pci_ok (demo_pci misc).
Proof.
  intros Hm. constructor; [|done]. intros i. cbn [pci_resource_len demo_pci]. by destruct (_ || _).
Qed.

Definition demo_inst : dev_inst := DevInst
  (Bars {[0 := 0x10000000; 1 := 0x20000000; 2 := 0x30000000]} 0 1 2)
  (Engines 1 1 0 0 0x20001000 0x20000000 true) false true (-1) false true.

Lemma probe_then_remove_witness : exists ev, probe (demo_pci 0) = (0, Some demo_inst, ev) /\
  holds (ev ++ remove demo_inst) nothing = Some nothing.
Proof.
  eexists. split; [vm_compute; reflexivity|].
  refine (proj2 (probe_then_remove (demo_pci 0) 0 demo_inst _ (demo_pci_ok 0 _) _)); [done | vm_compute; reflexivity].
Defined.

Lemma failed_probe_witness : exists ev, probe (demo_pci (-16)) = (-16, None, ev) /\
  holds ev nothing = Some (Held false false false true false false ∅).
Proof.
  eexists. split; [vm_compute; reflexivity|].
  refine (proj1 (failed_probe_leaks (demo_pci (-16)) (-16) _ (demo_pci_ok (-16) _) _)); [done | vm_compute; reflexivity].
Defined.

Lemma map_bars_identifies_witness : let '(rc, b, _) := map_bars (demo_pci 0) (inst_bars alloc_dev_instance) in
  rc = 0 /\ config_bar_idx b = 1 /\ user_bar_idx b = 0 /\ bypass_bar_idx b = 2.
Proof.
  pose proof (map_bars_identifies (demo_pci 0) (demo_pci_ok 0 (Z.le_refl 0))) as H.
  destruct (map_bars _ _) as [[rc b] ev].
  assert (Hm : Forall (mappable (demo_pci 0)) (seqZ 0 XDMA_BAR_NUM)) by (apply Forall_forall; by intros i _ _).
  apply (proj2 (H Hm) [0] 1 [2]); [vm_compute; reflexivity | by repeat constructor | done].
Defined.

Lemma dma_address_halves_witness : build_u64 (PCI_DMA_H 0x123456789A) (PCI_DMA_L 0x123456789A) = 0x123456789A.
Proof. by apply (dma_address_halves 0x123456789A). Defined.

Lemma msix_vectors_witness : exists v, Iowrite v (0x20000000 + 0x2000 + 0x80 + 8) ∈ write_msix_vectors (inst_bars demo_inst) /\
  range v 20 16 = 10.
Proof. apply (msix_vectors (inst_bars demo_inst) 10). lia. Defined.

Lemma xdma_mmap_witness :
  match xdma_mmap (demo_pci 0) false demo_inst 0x7F0000000000 0x7F0000008000 5 with
  | inr (v, pfn, size) => v = 0x7F0000000000 /\ pfn * 4096 = 0xF0000000 /\ size = 0x8000
  | inl _ => False
  end.
Proof.
  pose proof (xdma_mmap_within_bar (demo_pci 0) false demo_inst 0x7F0000000000 0x7F0000008000 5 eq_refl) as H.
  destruct (xdma_mmap _ _ _ _ _ _) as [rc | [[v pfn] size]] eqn:E; [by vm_compute in E|].
  destruct H as (-> & -> & _ & Hp). split_and!; [done | exact Hp | done].
Defined.
