(* ===== verification/XdmaFile.v ===== *)
(** [src/driver/xdma_driver.c]: the device file [/dev/xdma_control] as the
    processes use it - [xdma_fops] with [open], [release], [ioctl] and [mmap] - and
    what stays in the driver when a file is closed. *)
From stdpp Require Import gmap gmultiset.
From S2P Require Import Prelude Mmio XdmaIoctl XdmaProbe.

(** ** The file operations *)

(** [container_of(inode->i_cdev, struct dev_inst, cdev)], where [cdev] is at
    [offset_cdev]; the pointer goes to [file->private_data]. *)
Definition xdma_open (offset_cdev i_cdev : Z) : Z * Z := (0, i_cdev - offset_cdev).

Definition xdma_release : Z := 0.

(** The instances in the memory of the kernel, by their addresses, with their
    fields for the DMA memory, and the open files with their
    [private_data]. *)
Record kfiles := Kfiles { instances : gmap Z driver; private_data : gmap nat Z }.

(** A call of a process for one of its files. *)
Inductive file_call :=
  | Open (i_cdev : Z)
  | Release
  | UnlockedIoctl (u : uaccess) (c : ioctl_call)
  | Mmap (io_remap_fails : bool) (vm_start vm_end vm_pgoff : Z).

(** What the process gets: a number, and for an ioctl call the argument. *)
Definition answer : Type := Z * option ioctl_call.

Section fops.
Variable k : kernel.
Variable offset_cdev : Z.
(** The device and the instance that [misc_dev_node.parent] leads to. *)
Variable dev : pci_dev.
Variable parent : dev_inst.

(** A file that is not open cannot be used; [char_xdma_ioctl] follows the pointer
    in [private_data]. *)
Definition xdma_fops (f : nat) (c : file_call) : M kfiles answer := fun s =>
  match c, private_data s !! f with
  | Open i_cdev, None =>
      let '(rc, inst) := xdma_open offset_cdev i_cdev in
      Returns ((rc, None), Kfiles (instances s) (<[f := inst]> (private_data s)))
  | Release, Some _ => Returns ((xdma_release, None), Kfiles (instances s) (delete f (private_data s)))
  | UnlockedIoctl u c, Some inst =>
      match instances s !! inst with
      | Some d =>
          match char_xdma_ioctl k u c d with
          | Returns (rc, c, d) => Returns ((rc, Some c), Kfiles (<[inst := d]> (instances s)) (private_data s))
          | Exits => Exits
          | Undefined => Undefined
          | Running => Running
          end
      | None => Undefined
      end
  | Mmap fails vm_start vm_end vm_pgoff, Some _ =>
      Returns ((match xdma_mmap dev fails parent vm_start vm_end vm_pgoff with inl e => e | inr _ => 0 end, None), s)
  | _, _ => Exits
  end.

(** The calls of several processes, in the order the kernel handles them. *)
Fixpoint run_calls (l : list (nat * file_call)) : M kfiles unit :=
  match l with [] => mret tt | (f, c) :: l => xdma_fops f c;; run_calls l end.

(** ** Properties *)

(** The calls [IOCTL_XDMA_RELEASE]. *)
Definition is_release (c : file_call) : bool :=
  match c with UnlockedIoctl _ IOCTL_XDMA_RELEASE => true | _ => false end.

(** The driver keeps at least these pages pinned, and keeps them reserved. *)
Definition keeps_pins (d d' : driver) : Prop := pinned d ⊆ pinned d' /\ reserved d ⊆ reserved d'.

#[export] Instance keeps_pins_preorder : PreOrder keeps_pins.
Proof. split; [by intros d | intros a b c [H1 H2] [H3 H4]; split; by etrans]. Qed.

Lemma reserve_loop_pins l : forall i n j d x d', reserve_loop l i n j d = Returns (x, d') -> keeps_pins d d'.
Proof.
  induction l as [|pg l IH]; intros i n j d x d'; cbn [reserve_loop]; (destruct (i <? n); [|by intros [= _ <-]]); [done|].
  unfold mbind, M_bind. cbn [modify]. intros HR. etrans; [|exact (IH _ _ _ _ _ _ HR)].
  split; [done|]. apply union_subseteq_r.
Qed.

Lemma buffer_set_pins u huge d x d' : ioctl_do_buffer_set k u huge d = Returns (x, d') -> keeps_pins d d'.
Proof.
  unfold ioctl_do_buffer_set. destruct (negb _); [by intros [= _ <-]|]. destruct (get_user_pages _ _ _) as [rc pgs].
  intros (y & d1 & H1 & H2)%bind_inv. assert (Hd : keeps_pins d d1).
  { destruct (vmalloc _ _); injection H1 as _ <-; split; try done. apply gmultiset_disj_union_subseteq_l. }
  destruct (rc =? 0); [injection H2 as _ <-; exact Hd|].
  apply bind_inv in H2 as (pages & d2 & [= _ <-] & H2). apply bind_inv in H2 as (j & d3 & H3 & H4).
  apply reserve_loop_pins in H3. etrans; [exact Hd|]. etrans; [exact H3|]. by injection H4 as _ <-.
Qed.

Lemma ioctl_pins u c d x d' : c <> IOCTL_XDMA_RELEASE -> char_xdma_ioctl k u c d = Returns (x, d') -> keeps_pins d d'.
Proof.
  intros Hc HR. destruct c as [arg | arg | | cmd]; cbn [char_xdma_ioctl] in HR; [| | done | by injection HR as _ <-].
  - apply bind_inv in HR as (rc & d1 & H1 & [= _ <-]). exact (buffer_set_pins _ _ _ _ _ H1).
  - apply bind_inv in HR as ([rc m] & d1 & H1 & [= _ <-]). by apply mapping_get_state in H1 as ->.
Qed.

Lemma fops_pins f c s x s' a d : is_release c = false -> xdma_fops f c s = Returns (x, s') ->
  instances s !! a = Some d -> exists d', instances s' !! a = Some d' /\ keeps_pins d d'.
Proof.
  intros Hc HR Ha. unfold xdma_fops in HR. destruct c as [i | | u c | fails vs ve off], (private_data s !! f) as [p|]; try done.
  - injection HR as _ <-. by exists d.
  - injection HR as _ <-. by exists d.
  - destruct (instances s !! p) as [d0|] eqn:Ep; [|done].
    destruct (char_xdma_ioctl k u c d0) as [[[rc c'] d1] | | |] eqn:Ei; try done. injection HR as _ <-. cbn [instances].
    destruct (decide (a = p)) as [-> | Hne]; [|exists d; by rewrite lookup_insert_ne].
    exists d1. rewrite lookup_insert_eq. split; [done|]. rewrite Ep in Ha. injection Ha as ->.
    apply (ioctl_pins u c _ _ _) in Ei; [exact Ei|]. by intros ->.
  - injection HR as _ <-. by exists d.
Qed.

Lemma run_calls_pins l : forall s s' a d, Forall (fun c => is_release c.2 = false) l -> run_calls l s = Returns (tt, s') ->
  instances s !! a = Some d -> exists d', instances s' !! a = Some d' /\ keeps_pins d d'.
Proof.
  induction l as [|[f c] l IH]; intros s s' a d Hl HR Ha; cbn [run_calls] in HR.
  - injection HR as <-. by exists d.
  - apply Forall_cons in Hl as [Hc Hl]. apply bind_inv in HR as (x & s1 & H1 & H2).
    destruct (fops_pins _ _ _ _ _ _ _ Hc H1 Ha) as (d1 & Ha1 & Hd1).
    destruct (IH _ _ _ _ Hl H2 Ha1) as (d' & Ha' & Hd'). exists d'. split; [done | by etrans].
Qed.

Lemma open_unknown_inode f i u c s : private_data s !! f = None -> instances s !! (i - offset_cdev) = None ->
  (xdma_fops f (Open i);; xdma_fops f (UnlockedIoctl u c)) s = Undefined.
Proof.
  intros Hf Hi. unfold mbind, M_bind. cbn [xdma_fops]. rewrite Hf. cbn [xdma_open xdma_fops private_data instances].
  by rewrite lookup_insert_eq, Hi.
Qed.

Lemma open_ioctl f i u c s d d' r c' : private_data s !! f = None -> instances s !! (i - offset_cdev) = Some d ->
  char_xdma_ioctl k u c d = Returns (r, c', d') ->
  (xdma_fops f (Open i);; xdma_fops f (UnlockedIoctl u c)) s =
    Returns ((r, Some c'), Kfiles (<[i - offset_cdev := d']> (instances s)) (<[f := i - offset_cdev]> (private_data s))).
Proof.
  intros Hf Hi Hr. unfold mbind, M_bind. cbn [xdma_fops]. rewrite Hf. cbn [xdma_open xdma_fops private_data instances].
  by rewrite lookup_insert_eq, Hi, Hr.
Qed.

(** The calls of a process that pins a buffer and ends. *)
Definition pin_and_close (f : nat) (i : Z) (huge : xdma_huge) : list (nat * file_call) :=
  [(f, Open i); (f, UnlockedIoctl uaccess_ok (IOCTL_XDMA_BUFFER_SET huge)); (f, Release)].

Lemma pin_and_close_run f i huge pgs s d : kernel_ok k -> private_data s !! f = None ->
  instances s !! (i - offset_cdev) = Some d ->
  vmalloc k (wrap 64 (requested k huge * 8)) = true ->
  get_user_pages k (huge_addr huge) (requested k huge) = (Z.of_nat (length pgs), pgs) -> pgs <> [] ->
  run_calls (pin_and_close f i huge) s =
    Returns (tt, Kfiles (<[i - offset_cdev := buffer_set_result huge pgs d]> (instances s)) (private_data s)).
Proof.
  intros Hk Hf Hi Hv Hg Hne. assert (0 < Z.of_nat (length pgs)) by (destruct pgs; [done | cbn; lia]).
  unfold pin_and_close. cbn [run_calls]. unfold mbind, M_bind. cbn [xdma_fops]. rewrite Hf.
  cbn [xdma_open xdma_fops private_data instances]. rewrite lookup_insert_eq, Hi. cbn [char_xdma_ioctl].
  unfold mbind, M_bind. rewrite (buffer_set_pages k uaccess_ok huge _ pgs) by done. cbn [mret M_ret private_data instances].
  rewrite lookup_insert_eq. cbn [mret M_ret]. by rewrite delete_insert_id.
Qed.

(** C24: what opening the device file leads to.  The instance is found through the [i_cdev] of the
    inode.  When that is not the [cdev] of an instance - as for the misc device that the
    driver registers ([misc_register]), whose inodes have the [cdev] of the misc major - every ioctl call
    on the file follows an invalid pointer.  For an inode with the [cdev] of an instance, which the
    structure has a field for but nothing registers, the pages outlive the
    file: when a process opens it, pins its buffer - the kernel can pin it and has memory for the arrays - and closes the file
    without [IOCTL_XDMA_RELEASE], the driver has the pages pinned in addition to
    those before; as long as no process calls [IOCTL_XDMA_RELEASE], no calls of any
    processes unpin them; and the next process that opens the file gets,
    for [IOCTL_XDMA_MAPPING_GET] alone, the physical addresses of the buffer of
    the first. *)
Theorem pins_outlive_files f g i huge pgs map buf s : kernel_ok k ->
  private_data s !! f = None -> private_data s !! g = None ->
  vmalloc k (wrap 64 (requested k huge * 8)) = true ->
  get_user_pages k (huge_addr huge) (requested k huge) = (Z.of_nat (length pgs), pgs) -> pgs <> [] ->
  huge_contiguous k pgs ->
  kmalloc k (hpages (Z.of_nat (length pgs))) = Some buf -> hpages (Z.of_nat (length pgs)) <= map_npages map ->
  match instances s !! (i - offset_cdev) with
  | None => forall u c, (xdma_fops f (Open i);; xdma_fops f (UnlockedIoctl u c)) s = Undefined
  | Some d => exists s1 d1, run_calls (pin_and_close f i huge) s = Returns (tt, s1) /\
      instances s1 !! (i - offset_cdev) = Some d1 /\ private_data s1 = private_data s /\
      pinned d1 = pinned d ⊎ list_to_set_disj pgs /\
      (forall l s2, Forall (fun c => is_release c.2 = false) l -> run_calls l s1 = Returns (tt, s2) ->
         exists d2, instances s2 !! (i - offset_cdev) = Some d2 /\ pinned d1 ⊆ pinned d2) /\
      exists s3 arr, (xdma_fops g (Open i);; xdma_fops g (UnlockedIoctl uaccess_ok (IOCTL_XDMA_MAPPING_GET map))) s1 =
          Returns ((0, Some (IOCTL_XDMA_MAPPING_GET (XdmaMapping (hpages (Z.of_nat (length pgs)))
            (arr ++ drop (length arr) (map_dma_addr map))))), s3) /\
        forall o, 0 <= o < 4096 * Z.of_nat (length pgs) ->
          exists p, arr !! Z.to_nat (o / (2 * 1024 * 1024)) = Some p /\ phys k pgs o = Some (p + o mod (2 * 1024 * 1024))
  end.
Proof.
  intros Hk Hf Hg Hv Hgup Hne Hc Hbuf Hle. destruct (instances s !! (i - offset_cdev)) as [d|] eqn:Hi.
  2: { intros u c. by apply open_unknown_inode. }
  destruct (ok_pages k Hk _ _ _ _ Hgup) as [Hb _].
  assert (0 < Z.of_nat (length pgs)) by (destruct pgs; [done | cbn; lia]).
  set (d1 := buffer_set_result huge pgs d). assert (Hwf : driver_wf d1) by (by constructor; cbn; [lia | |]).
  destruct (mapping_get_pages k uaccess_ok map pgs buf d1) as (arr & R & L & A); try done.
  eexists _, d1. split; [by apply (pin_and_close_run f i huge pgs s d)|]. cbn [instances private_data].
  rewrite lookup_insert_eq. split_and!; try done.
  - intros l s2 Hl HR. destruct (run_calls_pins _ _ _ (i - offset_cdev) d1 Hl HR) as (d2 & H2 & [Hp _]).
    { cbn [instances]. by rewrite lookup_insert_eq. }
    by exists d2.
  - eexists _, arr. split; [|intros o Ho; by apply mapped_phys]. apply (open_ioctl g i _ _ _ d1 d1); try done.
    + cbn [instances]. by rewrite lookup_insert_eq.
    + cbn [char_xdma_ioctl]. unfold mbind, M_bind. by rewrite R.
Qed.
End fops.

(** ** Instances: one instance, whose [cdev] is at offset 24 *)

Definition demo_files : kfiles := Kfiles {[0x1000 := driver_init]} ∅.

(** Both inodes: that of the instance, and one with another [cdev]. *)
Lemma pins_outlive_files_witness : (exists s1 d1,
  run_calls demo_kernel 24 (demo_pci 0) demo_inst (pin_and_close 3 0x1018 demo_huge) demo_files = Returns (tt, s1) /\
  instances s1 !! 0x1000 = Some d1 /\ pinned d1 = list_to_set_disj demo_pages) /\
  (xdma_fops demo_kernel 24 (demo_pci 0) demo_inst 3 (Open 0x5000);;
   xdma_fops demo_kernel 24 (demo_pci 0) demo_inst 3 (UnlockedIoctl uaccess_ok IOCTL_XDMA_RELEASE)) demo_files = Undefined.
Proof.
  split.
  - destruct (pins_outlive_files demo_kernel 24 (demo_pci 0) demo_inst 3 4 0x1018 demo_huge demo_pages (XdmaMapping 2 [0; 0])
      (replicate 2 0xA5A5) demo_files) as (s1 & d1 & R & H1 & _ & Hp & _);
      [exact demo_kernel_ok | reflexivity | reflexivity | done | by vm_compute | done | exact demo_contiguous
       | by vm_compute | by vm_compute |].
    exists s1, d1. split; [exact R|]. split; [exact H1|]. rewrite Hp. apply (left_id_L ∅ (⊎)).
  - refine (pins_outlive_files demo_kernel 24 (demo_pci 0) demo_inst 3 4 0x5000 demo_huge demo_pages (XdmaMapping 2 [0; 0])
      (replicate 2 0xA5A5) demo_files _ _ _ _ _ _ _ _ _ uaccess_ok IOCTL_XDMA_RELEASE);
      [exact demo_kernel_ok | reflexivity | reflexivity | done | by vm_compute | done | exact demo_contiguous
       | by vm_compute | by vm_compute].
Defined.
