(* ===== verification/XdmaModule.v ===== *)
(** [src/driver/xdma_driver.c]: register bits, the table of
    supported devices and the life of the module: the PCI core calls [probe] and [remove] when the module is
    loaded and unloaded and when cards come and go.  All cards share one
    [misc_dev_node]. *)
From stdpp Require Import gmap.
From S2P Require Import Prelude XdmaProbe.

(** ** Register bits *)

Definition BIT (n : Z) : Z := Z.shiftl 1 n.

Definition TARGET_SPACING : Z := 0x1000.

Definition XDMA_DESC_MAGIC : Z := 0xAD4B0000.
Definition XDMA_DESC_STOPPED : Z := Z.shiftl 1 0.
Definition XDMA_DESC_COMPLETED : Z := Z.shiftl 1 1.
Definition XDMA_DESC_EOP : Z := Z.shiftl 1 4.

Definition XDMA_CTRL_RUN_STOP : Z := Z.shiftl 1 0.
Definition XDMA_CTRL_IE_DESC_STOPPED : Z := Z.shiftl 1 1.
Definition XDMA_CTRL_IE_DESC_COMPLETED : Z := Z.shiftl 1 2.
Definition XDMA_CTRL_IE_DESC_ALIGN_MISMATCH : Z := Z.shiftl 1 3.
Definition XDMA_CTRL_IE_MAGIC_STOPPED : Z := Z.shiftl 1 4.
Definition XDMA_CTRL_IE_IDLE_STOPPED : Z := Z.shiftl 1 6.
Definition XDMA_CTRL_IE_READ_ERROR : Z := Z.shiftl 0x1F 9.
Definition XDMA_CTRL_IE_DESC_ERROR : Z := Z.shiftl 0x1F 19.
Definition XDMA_CTRL_NON_INCR_ADDR : Z := Z.shiftl 1 25.
Definition XDMA_CTRL_POLL_MODE_WB : Z := Z.shiftl 1 26.

Definition XDMA_STAT_BUSY : Z := Z.shiftl 1 0.
Definition XDMA_STAT_DESC_STOPPED : Z := Z.shiftl 1 1.
Definition XDMA_STAT_DESC_COMPLETED : Z := Z.shiftl 1 2.
Definition XDMA_STAT_ALIGN_MISMATCH : Z := Z.shiftl 1 3.
Definition XDMA_STAT_MAGIC_STOPPED : Z := Z.shiftl 1 4.
Definition XDMA_STAT_FETCH_STOPPED : Z := Z.shiftl 1 5.
Definition XDMA_STAT_IDLE_STOPPED : Z := Z.shiftl 1 6.
Definition XDMA_STAT_READ_ERROR : Z := Z.shiftl 0x1F 9.
Definition XDMA_STAT_DESC_ERROR : Z := Z.shiftl 0x1F 19.

(** [PAGE_SIZE] is that of the kernel. *)
Definition DESC_PER_PAGE (page_size : Z) : Z := page_size / sizeof xdma_desc.
Definition RESULTS_PER_PAGE (page_size : Z) : Z := page_size / sizeof xdma_result.

(** [readl] gives the 32-bit register at an address. *)
Definition read_bit (readl : Z -> Z) (base reg bit : Z) : bool := negb (Z.land (readl (base + reg)) (BIT bit) =? 0).

(** The fields of the control and status registers and of the descriptor. *)
Definition ctrl_fields : list Z := [XDMA_CTRL_RUN_STOP; XDMA_CTRL_IE_DESC_STOPPED; XDMA_CTRL_IE_DESC_COMPLETED;
  XDMA_CTRL_IE_DESC_ALIGN_MISMATCH; XDMA_CTRL_IE_MAGIC_STOPPED; XDMA_CTRL_IE_IDLE_STOPPED; XDMA_CTRL_IE_READ_ERROR;
  XDMA_CTRL_IE_DESC_ERROR; XDMA_CTRL_NON_INCR_ADDR; XDMA_CTRL_POLL_MODE_WB].
Definition stat_fields : list Z := [XDMA_STAT_BUSY; XDMA_STAT_DESC_STOPPED; XDMA_STAT_DESC_COMPLETED;
  XDMA_STAT_ALIGN_MISMATCH; XDMA_STAT_MAGIC_STOPPED; XDMA_STAT_FETCH_STOPPED; XDMA_STAT_IDLE_STOPPED;
  XDMA_STAT_READ_ERROR; XDMA_STAT_DESC_ERROR].
Definition desc_fields : list Z := [XDMA_DESC_MAGIC; XDMA_DESC_STOPPED; XDMA_DESC_COMPLETED; XDMA_DESC_EOP].

(** The fields of a register do not overlap and fit in 32 bits. *)
Fixpoint disjoint (l : list Z) : bool :=
  match l with [] => true | x :: l => forallb (fun y => Z.land x y =? 0) l && disjoint l end.

Lemma fields_disjoint : forallb (fun l => disjoint l && forallb (fun x => (0 <? x) && (x <? 2 ^ 32)) l)
  [ctrl_fields; stat_fields; desc_fields] = true.
Proof. reflexivity. Qed.

Lemma read_bit_testbit readl base reg bit : 0 <= bit -> read_bit readl base reg bit = Z.testbit (readl (base + reg)) bit.
Proof.
  intros Hb. unfold read_bit, BIT. set (v := readl _). destruct (Z.testbit v bit) eqn:E.
  - rewrite (proj2 (Z.eqb_neq _ _)); [done|]. intros H0. apply (f_equal (fun z => Z.testbit z bit)) in H0.
    rewrite Z.land_spec, Z.shiftl_spec, Z.sub_diag, E, Z.bits_0 in H0 by lia. discriminate H0.
  - rewrite (proj2 (Z.eqb_eq _ _)); [done|]. apply Z.bits_inj'. intros k Hk. rewrite Z.land_spec, Z.shiftl_spec, Z.bits_0 by lia.
    destruct (Z.eq_dec k bit) as [-> | Hne]; [by rewrite E|].
    destruct (Z.testbit v k); [|done]. cbn [andb]. destruct (Z.lt_ge_cases k bit); [apply Z.testbit_neg_r; lia|].
    change 1 with (2 ^ 0). apply Z.pow2_bits_false. lia.
Qed.

(** ** The module *)

(** The entries of [pci_ids] before the terminating one. *)
Definition pci_ids : list (Z * Z) := (fun d => (0x10ee, d)) <$>
  [0x9011; 0x9012; 0x9014; 0x9018; 0x901F; 0x9021; 0x9022; 0x9024; 0x9028; 0x902F; 0x9031; 0x9032; 0x9034; 0x9038; 0x903F;
   0x8011; 0x8012; 0x8014; 0x8018; 0x8021; 0x8022; 0x8024; 0x8028; 0x8031; 0x8032; 0x8034; 0x8038;
   0x7011; 0x7012; 0x7014; 0x7018; 0x7021; 0x7022; 0x7024; 0x7028; 0x7031; 0x7032; 0x7034; 0x7038].

(** A card, and what the kernel functions do for it. *)
Record card := Card { vendor : Z; device : Z; functions : pci_dev }.

Definition supported (c : card) : bool := bool_decide ((vendor c, device c) ∈ pci_ids).

(** [probe] comes to the call of [misc_register]: whether it would succeed if
    that call did. *)
Definition answer_misc (d : pci_dev) : pci_dev :=
  PciDev (kzalloc_ok d) (pci_enable_device d) (no_msi d) (bus_no_msi d) (pci_find_capability d) (pci_enable_msix_exact d)
    (pci_enable_msi d) (pci_request_regions d) (pci_resource_start d) (pci_resource_len d) (pci_iomap d) (ioread32 d)
    (dma_set_mask_and_coherent d) 0.

Definition registers_node (c : card) : bool :=
  supported c && match (probe (answer_misc (functions c))).1.2 with Some _ => true | None => false end.

(** The driver data of a bound device: null, an instance, or an instance that
    [probe] has freed. *)
Inductive drvdata := NullData | Data (i : dev_inst) | Dangling.

(** The module, the cards in the machine, those the driver is bound to, what it
    holds for each, and the card [misc_dev_node] is registered for. *)
Record kmod := Kmod { loaded : bool; plugged : gset nat; bound : gmap nat drvdata; res : gmap nat held; node : option nat }.

Section life.
(** The card that comes as number [n]. *)
Variable cards : nat -> card.

(** The PCI core probes a card; it keeps the driver bound unless [probe] returns
    a negative number.  [None]: a node that is registered may not be
    registered again. *)
Definition attach (n : nat) (s : kmod) : option kmod :=
  let c := cards n in
  if negb (supported c) then Some s
  else if registers_node c && bool_decide (is_Some (node s)) then None
  else
    let '(rc, i, ev) := probe (functions c) in
    h ← holds ev (default nothing (res s !! n));
    let data := match i with Some i => Data i | None => if kzalloc_ok (functions c) then Dangling else NullData end in
    Some (Kmod (loaded s) (plugged s) (if rc <? 0 then bound s else <[n := data]> (bound s)) (<[n := h]> (res s))
      (match i with Some _ => Some n | None => node s end)).

(** The core calls [remove], which returns at once for null driver data. *)
Definition detach (n : nat) (s : kmod) : option kmod :=
  match bound s !! n with
  | None => Some s
  | Some NullData => Some (Kmod (loaded s) (plugged s) (delete n (bound s)) (res s) (node s))
  | Some (Data i) =>
      h ← holds (remove i) (default nothing (res s !! n));
      Some (Kmod (loaded s) (plugged s) (delete n (bound s)) (<[n := h]> (res s)) None)
  | Some Dangling => None
  end.

Fixpoint each (f : nat -> kmod -> option kmod) (l : list nat) (s : kmod) : option kmod :=
  match l with [] => Some s | n :: l => s ← f n s; each f l s end.

Inductive op := Insmod | Rmmod | Plug (n : nat) | Unplug (n : nat).

(** [xdma_driver_init] and [xdma_driver_exit] register and unregister the driver
    with the core, which then probes or removes every card. *)
Definition life (o : op) (s : kmod) : option kmod :=
  match o with
  | Insmod => if loaded s then Some s else each attach (elements (plugged s)) (Kmod true (plugged s) (bound s) (res s) (node s))
  | Rmmod => s ← each detach (elements (dom (bound s))) s; Some (Kmod false (plugged s) (bound s) (res s) (node s))
  | Plug n =>
      if bool_decide (n ∈ plugged s) then Some s
      else
        let s := Kmod (loaded s) ({[n]} ∪ plugged s) (bound s) (res s) (node s) in
        if loaded s then attach n s else Some s
  | Unplug n => s ← detach n s; Some (Kmod (loaded s) (plugged s ∖ {[n]}) (bound s) (delete n (res s)) (node s))
  end.

Definition start : kmod := Kmod false ∅ ∅ ∅ None.

(** One card at a time that the driver brings up, and no module loaded again after a failed
    [probe] has left a card half enabled. *)
Definition allowed (o : op) (s : kmod) : Prop :=
  match o with
  | Plug n => registers_node (cards n) = true -> forall m, m ∈ plugged s -> registers_node (cards m) = true -> m = n
  | Insmod => loaded s = false -> forall n h, res s !! n = Some h -> h = nothing
  | _ => True
  end.

Inductive reachable : kmod -> Prop :=
  | reachable_start : reachable start
  | reachable_step o s s' : reachable s -> allowed o s -> life o s = Some s' -> reachable s'.

(** ** Invariant *)

(** What the kernel promises for a card: error codes are negative. *)
Definition card_ok (c : card) : Prop := pci_ok (functions c) /\
  forall rc ev, probe (functions c) = (rc, None, ev) -> kzalloc_ok (functions c) = true -> rc < 0.

Hypothesis cards_ok : forall n, card_ok (cards n).

(** A complete instance. *)
Definition inst_ok (i : dev_inst) : Prop :=
  regions_in_use i = false /\ got_regions i = true /\ (msi_enabled i && msix_enabled i) = false /\ bars_wf (inst_bars i).

(** What may be held for a card without an instance. *)
Definition unbound_held (n : nat) (h : held) : Prop := h = nothing \/ h = leaked (functions (cards n)).

Record life_ok (s : kmod) : Prop := LifeOk {
  ok_bound : forall n d, bound s !! n = Some d -> n ∈ plugged s /\
    match d with
    | Data i => node s = Some n /\ inst_ok i /\ res s !! n = Some (held_by i) /\ registers_node (cards n) = true
    | NullData => True
    | Dangling => False
    end;
  ok_node : forall n, node s = Some n -> exists i, bound s !! n = Some (Data i);
  ok_res : forall n h, res s !! n = Some h -> (exists i, bound s !! n = Some (Data i)) \/ unbound_held n h;
  ok_plugged : forall n, n ∉ plugged s -> res s !! n = None;
  ok_single : forall n m, n ∈ plugged s -> m ∈ plugged s -> registers_node (cards n) = true ->
    registers_node (cards m) = true -> n = m }.

(** A card whose [probe] succeeds is one that comes to the registration. *)
Lemma success_registers n rc i ev : supported (cards n) = true ->
  probe (functions (cards n)) = (rc, Some i, ev) -> registers_node (cards n) = true.
Proof.
  intros Hs Hp. unfold registers_node. rewrite Hs.
  assert (E : answer_misc (functions (cards n)) = functions (cards n)); [|by rewrite E, Hp].
  pose proof (ok_misc _ (proj1 (cards_ok n))) as Hm. revert Hp Hm. unfold probe.
  destruct (functions (cards n)) as [a1 a2 a3 a4 a5 a6 a7 a8 a9 a10 a11 a12 a13 misc]. cbn [misc_register].
  intros Hp Hm. unfold answer_misc. cbn. f_equal. revert Hp.
  repeat case_match; try done; try (intros; lia).
Qed.

(** A card that is bound with an instance. *)
Lemma life_ok_success n s i : life_ok s -> n ∈ plugged s -> node s = None -> inst_ok i -> registers_node (cards n) = true ->
  life_ok (Kmod (loaded s) (plugged s) (<[n := Data i]> (bound s)) (<[n := held_by i]> (res s)) (Some n)).
Proof.
  intros [Hb Hn Hr Hp Hs] Hin Hnode Hi Hreg. split; cbn [bound res node plugged].
  - intros m d. destruct (decide (m = n)) as [-> | Hne].
    + rewrite !lookup_insert_eq. intros [= <-]. done.
    + rewrite !lookup_insert_ne by done. intros Hd. destruct (Hb m d Hd) as [? H]. split; [done|].
      destruct d as [|j|]; [done | | done]. destruct H as [H _]. rewrite Hnode in H. discriminate H.
  - intros m [= <-]. exists i. by rewrite lookup_insert_eq.
  - intros m h. destruct (decide (m = n)) as [-> | Hne]; [rewrite !lookup_insert_eq; eauto|].
    rewrite !lookup_insert_ne by done. apply Hr.
  - intros m Hm. rewrite lookup_insert_ne by (by intros ->). by apply Hp.
  - done.
Qed.

(** A card that is bound without an instance or not at all. *)
Lemma life_ok_failure n s h (b : gmap nat drvdata) : life_ok s -> n ∈ plugged s -> bound s !! n = None -> unbound_held n h ->
  b = bound s \/ b = <[n := NullData]> (bound s) ->
  life_ok (Kmod (loaded s) (plugged s) b (<[n := h]> (res s)) (node s)).
Proof.
  intros [Hb Hn Hr Hp Hs] Hin Hub Hh Hcase.
  assert (Hd : forall m d, b !! m = Some d -> bound s !! m = Some d \/ (m = n /\ d = NullData)).
  { intros m d. destruct Hcase as [-> | ->]; [auto|]. destruct (decide (m = n)) as [-> | Hne].
    - rewrite lookup_insert_eq. intros [= <-]. auto.
    - rewrite lookup_insert_ne by done. auto. }
  assert (Hd' : forall m i, bound s !! m = Some (Data i) -> b !! m = Some (Data i)).
  { intros m i Hi. destruct Hcase as [-> | ->]; [done|]. rewrite lookup_insert_ne; [done|]. intros ->. by rewrite Hub in Hi. }
  split; cbn [bound res node plugged].
  - intros m d Hm. destruct (Hd m d Hm) as [H | [-> ->]]; [|done]. destruct (Hb m d H) as [? Hd2]. split; [done|].
    destruct d as [|j|]; [done | | done]. rewrite lookup_insert_ne; [exact Hd2|]. intros ->. by rewrite Hub in H.
  - intros m Hm. destruct (Hn m Hm) as [i Hi]. eauto.
  - intros m h'. destruct (decide (m = n)) as [-> | Hne].
    + rewrite lookup_insert_eq. intros [= <-]. by right.
    + rewrite lookup_insert_ne by done. intros Hm. destruct (Hr m h' Hm) as [[i Hi] | ?]; eauto.
  - intros m Hm. rewrite lookup_insert_ne by (by intros ->). by apply Hp.
  - done.
Qed.

Lemma attach_ok n s : life_ok s -> n ∈ plugged s -> bound s !! n = None -> default nothing (res s !! n) = nothing ->
  exists s', attach n s = Some s' /\ life_ok s' /\ loaded s' = loaded s /\ plugged s' = plugged s /\
    (forall m, m <> n -> bound s' !! m = bound s !! m /\ res s' !! m = res s !! m).
Proof.
  intros Hlife Hin Hub Hclean. pose proof Hlife as [Hb Hn _ _ Hs]. unfold attach.
  destruct (supported (cards n)) eqn:Esup; cbn [negb]; [|by exists s].
  assert (Hnode : registers_node (cards n) = true -> node s = None).
  { intros Hreg. destruct (node s) as [m|] eqn:En; [|done]. destruct (Hn m eq_refl) as [i Hi].
    destruct (Hb m _ Hi) as (Hm & _ & _ & _ & Hregm). rewrite (Hs n m Hin Hm Hreg Hregm), Hi in Hub. done. }
  assert (Hg : registers_node (cards n) && bool_decide (is_Some (node s)) = false).
  { destruct (registers_node (cards n)) eqn:E; [|done]. rewrite (Hnode eq_refl). apply bool_decide_eq_false. by intros [? ?]. }
  rewrite Hg, Hclean. destruct (cards_ok n) as [Hok Hneg]. pose proof (probe_holds _ Hok) as Hh.
  destruct (probe (functions (cards n))) as [[rc [i|]] ev] eqn:Ep.
  - destruct Hh as (-> & Hu & Hgr & Hm & Hwf & ->). pose proof (success_registers n _ _ _ Esup Ep) as Hreg.
    eexists. split; [reflexivity|]. split; [by apply (life_ok_success n s i); auto; split|].
    split_and!; [done | done|]. intros m Hne. cbn. by rewrite !lookup_insert_ne.
  - rewrite Hh. cbn [mbind option_bind]. eexists. split; [reflexivity|]. split.
    + apply life_ok_failure; try done; [by right|]. destruct (Z.ltb_spec rc 0); [by left|]. right.
      destruct (kzalloc_ok _) eqn:Ek; [|done]. specialize (Hneg rc ev eq_refl eq_refl). lia.
    + split_and!; [done | done|]. intros m Hne. cbn. rewrite lookup_insert_ne by done.
      destruct (rc <? 0); [done|]. by rewrite lookup_insert_ne.
Qed.

Lemma detach_ok n s : life_ok s -> exists s', detach n s = Some s' /\ life_ok s' /\ loaded s' = loaded s /\
  plugged s' = plugged s /\ bound s' = delete n (bound s).
Proof.
  intros Hlife. pose proof Hlife as [Hb Hn Hr Hp Hs]. unfold detach. destruct (bound s !! n) as [[|i|]|] eqn:E.
  - eexists. split; [reflexivity|]. split_and!; try done. split; cbn [bound res node plugged]; try done.
    + intros m d Hd. apply lookup_delete_Some in Hd as [_ Hd]. by apply Hb.
    + intros m Hm. destruct (Hn m Hm) as [i Hi]. exists i. rewrite lookup_delete_ne; [done|]. intros ->. by rewrite E in Hi.
    + intros m h Hm. destruct (Hr m h Hm) as [[i Hi] | ?]; [|by right]. left. exists i.
      rewrite lookup_delete_ne; [done|]. intros ->. by rewrite E in Hi.
  - destruct (Hb n _ E) as (Hin & Hnode & (Hu & Hg & Hm & Hwf) & Hres & Hreg). rewrite Hres. cbn [default].
    rewrite remove_holds by done. eexists. split; [reflexivity|]. split_and!; try done. split; cbn [bound res node plugged]; try done.
    + intros m d Hd. apply lookup_delete_Some in Hd as [Hne Hd]. destruct (Hb m d Hd) as [? H]. split; [done|].
      destruct d as [|j|]; [done | | done]. destruct H as [H _]. rewrite Hnode in H. by injection H as ->.
    + intros m h. destruct (decide (m = n)) as [-> | Hne].
      * rewrite lookup_insert_eq. intros [= <-]. right. by left.
      * rewrite lookup_insert_ne by done. intros Hh. destruct (Hr m h Hh) as [[j Hj] | ?]; [|by right].
        left. exists j. by rewrite lookup_delete_ne.
    + intros m Hm'. rewrite lookup_insert_ne by (by intros ->). by apply Hp.
  - by destruct (Hb n _ E) as [_ []].
  - exists s. split_and!; try done. by rewrite delete_id.
Qed.

Lemma each_detach l : forall s, life_ok s -> (forall n, n ∈ dom (bound s) -> n ∈ l) -> exists s',
  each detach l s = Some s' /\ life_ok s' /\ plugged s' = plugged s /\ bound s' = ∅.
Proof.
  induction l as [|n l IH]; intros s Hs Hall; cbn [each].
  - exists s. split_and!; try done. apply map_empty. intros n. destruct (bound s !! n) as [d|] eqn:E; [|done].
    destruct (not_elem_of_nil n). apply Hall, elem_of_dom. eauto.
  - destruct (detach_ok n s Hs) as (s1 & E1 & Hs1 & _ & Hp1 & Hb1). rewrite E1. cbn [mbind option_bind].
    destruct (IH s1 Hs1) as (s' & E' & Hs' & Hp' & Hb').
    { intros m. rewrite Hb1, dom_delete_L. intros [Hm Hne]%elem_of_difference. apply Hall, elem_of_cons in Hm.
      rewrite elem_of_singleton in Hne. tauto. }
    exists s'. split_and!; [done | done | congruence | done].
Qed.

Lemma each_attach l : forall s, life_ok s -> NoDup l -> (forall n, n ∈ l -> n ∈ plugged s /\ bound s !! n = None /\
    default nothing (res s !! n) = nothing) -> exists s',
  each attach l s = Some s' /\ life_ok s' /\ loaded s' = loaded s /\ plugged s' = plugged s.
Proof.
  induction l as [|n l IH]; intros s Hs Hnd Hall; cbn [each]; [by exists s|].
  apply NoDup_cons in Hnd as [Hni Hnd]. destruct (Hall n ltac:(left)) as (H1 & H2 & H3).
  destruct (attach_ok n s Hs H1 H2 H3) as (s1 & E1 & Hs1 & Hl1 & Hp1 & Hsame). rewrite E1. cbn [mbind option_bind].
  destruct (IH s1 Hs1 Hnd) as (s' & E' & Hs' & Hl' & Hp').
  { intros m Hm. destruct (Hall m ltac:(by right)) as (A & B & C).
    destruct (Hsame m) as [E2 E3]; [by intros ->|]. by rewrite Hp1, E2, E3. }
  exists s'. split_and!; [done | done | congruence | congruence].
Qed.

(** Nothing is bound while the module is not loaded. *)
Definition idle_ok (s : kmod) : Prop := loaded s = false -> bound s = ∅.

Lemma plug_ok n s : life_ok s -> allowed (Plug n) s ->
  life_ok (Kmod (loaded s) ({[n]} ∪ plugged s) (bound s) (res s) (node s)).
Proof.
  intros [Hb Hn Hr Hp Hsg] Hall. split; cbn [bound res node plugged]; [| done | done | |].
  - intros m d Hd. destruct (Hb m d Hd) as [? H]. split; [by apply elem_of_union_r | exact H].
  - intros m Hm. apply Hp. intros Hin. by apply Hm, elem_of_union_r.
  - intros a b Ha Hb' Ra Rb. apply elem_of_union in Ha as [Ha | Ha]; apply elem_of_union in Hb' as [Hb' | Hb'];
      rewrite ?elem_of_singleton in Ha; rewrite ?elem_of_singleton in Hb'; subst.
    + reflexivity.
    + symmetry. exact (Hall Ra b Hb' Rb).
    + exact (Hall Rb a Ha Ra).
    + exact (Hsg a b Ha Hb' Ra Rb).
Qed.

Lemma unplug_ok n s : life_ok s -> bound s !! n = None ->
  life_ok (Kmod (loaded s) (plugged s ∖ {[n]}) (bound s) (delete n (res s)) (node s)).
Proof.
  intros [Hb Hn Hr Hp Hsg] Hub. split; cbn [bound res node plugged].
  - intros m d Hd. assert (Hne : m <> n) by (intros ->; by rewrite Hub in Hd).
    destruct (Hb m d Hd) as [Hin H]. split; [by apply elem_of_difference; split; [|rewrite elem_of_singleton]|]. destruct d as [|j|]; [done | | done].
    rewrite lookup_delete_ne; [exact H | by intros ->].
  - exact Hn.
  - intros m h Hh. apply lookup_delete_Some in Hh as [_ Hh]. by apply Hr.
  - intros m Hm. destruct (decide (m = n)) as [-> | Hne]; [apply lookup_delete_eq|].
    rewrite lookup_delete_ne by (by intros ->). apply Hp. intros Hin. apply Hm, elem_of_difference.
    split; [exact Hin | by rewrite elem_of_singleton].
  - intros a b [Ha _]%elem_of_difference [Hb' _]%elem_of_difference. exact (Hsg a b Ha Hb').
Qed.

Lemma life_preserves o s : life_ok s -> idle_ok s -> allowed o s ->
  exists s', life o s = Some s' /\ life_ok s' /\ idle_ok s'.
Proof.
  intros Hs Hidle Hall. destruct o as [| |n|n]; cbn [life].
  - destruct (loaded s) eqn:El; [by exists s|]. specialize (Hidle El).
    destruct (each_attach (elements (plugged s)) (Kmod true (plugged s) (bound s) (res s) (node s)))
      as (s' & E & Hs' & Hl' & _); [by destruct Hs; split | apply NoDup_elements | |].
    { intros n Hin. apply elem_of_elements in Hin. cbn. rewrite Hidle, lookup_empty. split_and!; [done | done|].
      destruct (res s !! n) as [h|] eqn:Eh; [|done]. exact (Hall El n h Eh). }
    exists s'. split_and!; [done | done|]. unfold idle_ok. by rewrite Hl'.
  - destruct (each_detach (elements (dom (bound s))) s Hs) as (s' & E & Hs' & _ & Hb'); [intros n; apply elem_of_elements|].
    rewrite E. eexists. split; [reflexivity|]. split; [by destruct Hs'; split | intros _; exact Hb'].
  - destruct (bool_decide_reflect (n ∈ plugged s)) as [Hin | Hin]; [by exists s|].
    pose proof (plug_ok n s Hs Hall) as Hs1. set (s1 := Kmod _ _ _ _ _) in *.
    change (loaded s1) with (loaded s). destruct (loaded s) eqn:El.
    2: { exists s1. split; [reflexivity|]. split; [exact Hs1 | intros _; exact (Hidle El)]. }
    destruct (attach_ok n s1 Hs1) as (s' & E & Hs' & Hl' & _); cbn [s1 plugged bound res].
    + apply elem_of_union_l. by apply elem_of_singleton.
    + destruct (bound s !! n) as [d|] eqn:E; [|done]. by destruct (ok_bound _ Hs n d E).
    + by rewrite (ok_plugged _ Hs).
    + exists s'. split_and!; [done | done|]. unfold idle_ok. by rewrite Hl'.
  - destruct (detach_ok n s Hs) as (s1 & E & Hs1 & Hl1 & Hp1 & Hb1). rewrite E. cbn [mbind option_bind]. eexists.
    split; [reflexivity|]. split; [apply unplug_ok; [done | by rewrite Hb1, lookup_delete_eq]|].
    unfold idle_ok. cbn [loaded bound]. rewrite Hl1, Hb1. intros H. by rewrite (Hidle H), delete_empty.
Qed.

Lemma reachable_life s : reachable s -> life_ok s /\ idle_ok s.
Proof.
  induction 1 as [|o s s' _ [H1 H2] Hall Hstep].
  - split; [|done]. split; cbn; try done; intros n; try (intros d; by rewrite lookup_empty).
  - destruct (life_preserves o s H1 H2 Hall) as (s1 & E & H3 & H4). rewrite Hstep in E. by injection E as <-.
Qed.

(** C27: the life of the module under two conditions ([allowed]): there is one card at a time in the machine
    that the driver brings up, and the module is not loaded again while a failed [probe] has left
    something held for a card in the machine (the leaks of [failed_probe_leaks]; that case is
    not modelled).  Whatever else is loaded,
    unloaded, plugged and unplugged, no call of the driver uses freed memory,
    gives back what it does not hold or registers its device file twice; a card
    that is bound with an instance has exactly the resources of that instance
    and the device file; and after the module is gone nothing is bound, there
    is no device file, and a card can have kept only what a failed [probe] leaks.  A
    second card that the driver brings up is where this ends: its [probe]
    registers the one [misc_dev_node] again. *)
Theorem one_card_lifecycle s : reachable s ->
  (forall o, allowed o s -> exists s', life o s = Some s') /\
  (forall n i, bound s !! n = Some (Data i) -> res s !! n = Some (held_by i) /\ node s = Some n) /\
  (loaded s = false -> bound s = ∅ /\ node s = None /\ forall n h, res s !! n = Some h -> unbound_held n h) /\
  (forall n i m, loaded s = true -> bound s !! n = Some (Data i) -> m ∉ plugged s -> registers_node (cards m) = true ->
     life (Plug m) s = None).
Proof.
  intros Hr. destruct (reachable_life s Hr) as [Hs Hidle]. split_and!.
  - intros o Ho. destruct (life_preserves o s Hs Hidle Ho) as (s' & E & _). eauto.
  - intros n i Hn. destruct (ok_bound _ Hs n _ Hn) as (_ & Hnode & _ & Hres & _). split; [exact Hres | exact Hnode].
  - intros Hl. specialize (Hidle Hl). split; [exact Hidle|]. split.
    + destruct (node s) as [n|] eqn:E; [|reflexivity]. destruct (ok_node _ Hs n E) as [i Hi].
      rewrite Hidle, lookup_empty in Hi. discriminate Hi.
    + intros n h Hh. destruct (ok_res _ Hs n h Hh) as [[i Hi] | H]; [|exact H].
      rewrite Hidle, lookup_empty in Hi. discriminate Hi.
  - intros n i m Hl Hn Hm Hreg. destruct (ok_bound _ Hs n _ Hn) as (_ & Hnode & _). cbn [life].
    rewrite bool_decide_eq_false_2 by exact Hm. rewrite Hl. unfold attach. cbn [node]. rewrite Hreg, Hnode.
    unfold registers_node in Hreg. apply andb_prop in Hreg as [-> _]. reflexivity.
Qed.
End life.

(** ** Instances *)

(** Cards 0 and 1 are complete devices, the others are not for this driver. *)
Definition demo_cards (n : nat) : card := Card 0x10ee (if bool_decide (n < 2)%nat then 0x9038 else 0x1234) (demo_pci 0).

Lemma demo_cards_ok n : card_ok (demo_cards n).
Proof.
  split; [by apply demo_pci_ok|]. cbn [functions demo_cards]. intros rc ev. assert (E : (probe (demo_pci 0)).1.2 = Some demo_inst) by (vm_compute; reflexivity).
  intros H. rewrite H in E. discriminate E.
Qed.

Fixpoint run_life (l : list op) (s : kmod) : option kmod :=
  match l with [] => Some s | o :: l => s ← life demo_cards o s; run_life l s end.

(** The module is loaded twice and one card is exchanged for another. *)
Example demo_life : (fun s => (bound s !! 0%nat, bound s !! 1%nat, node s)) <$>
    run_life [Plug 0; Plug 5; Insmod; Rmmod; Insmod; Unplug 0; Plug 1] start =
  Some (None, Some (Data demo_inst), Some 1%nat).
Proof. vm_compute. reflexivity. Qed.

Definition one_card : kmod := Kmod true {[0%nat]} {[0%nat := Data demo_inst]} {[0%nat := held_by demo_inst]} (Some 0%nat).

Lemma one_card_reachable : reachable demo_cards one_card.
Proof.
  apply (reachable_step _ (Plug 0) (Kmod true ∅ ∅ ∅ None)); [|by intros _ m ?%not_elem_of_empty | vm_compute; reflexivity].
  apply (reachable_step _ Insmod start); [constructor | | vm_compute; reflexivity].
  intros _ n h. cbn. by rewrite lookup_empty.
Qed.

Lemma one_card_lifecycle_witness : res one_card !! 0%nat = Some (held_by demo_inst) /\ life demo_cards (Plug 1) one_card = None.
Proof.
  destruct (one_card_lifecycle demo_cards demo_cards_ok one_card one_card_reachable) as (_ & H1 & _ & H2). split.
  - exact (proj1 (H1 0%nat demo_inst eq_refl)).
  - assert (Hm : 1%nat ∉ ({[0%nat]} : gset nat)) by (intros H%elem_of_singleton; discriminate H).
    apply (H2 0%nat demo_inst 1%nat); [reflexivity | reflexivity | exact Hm | vm_compute; reflexivity].
Defined.
