(* ===== verification/DdrController.v ===== *)
(** [src/hdl/common/ddr_controller.sv] at the level of bus transactions: the
    read-only registers with the statistics of one DDR channel, and what the
    host prints of them. *)
From stdpp Require Import strings.
From S2P Require Import Prelude Mmio FpgaController.

(** ** Definitions *)

(** The inputs of the module. *)
Record ddr_stats := DdrStats {
  write_cmd_counter : Z; write_word_counter : Z; write_pkg_counter : Z; write_length_counter : Z;
  write_sts_counter : Z; write_sts_error_counter : Z;
  read_cmd_counter : Z; read_word_counter : Z; read_pkg_counter : Z; read_length_counter : Z;
  read_sts_counter : Z; read_sts_error_counter : Z; s2mm_error : bool; mm2s_error : bool }.

Record ddr_ctrl := DdrCtrl {
  statsRegAddr : Z; read_length_upper : bool; write_length_upper : bool; ddr_counters : ddr_stats }.

(** A write is answered with an error and has no effect. *)
Definition ddr_ctrl_write (awaddr wdata : Z) (s : ddr_ctrl) : ddr_ctrl := s.

(** The case over [statsRegAddr]. *)
Definition stats_reg (t : ddr_stats) (i : Z) : Z :=
  match i with
  | 0x0 => write_cmd_counter t
  | 0x1 => write_word_counter t
  | 0x2 => write_pkg_counter t
  | 0x3 => range (write_length_counter t) 31 0
  | 0x4 => write_sts_counter t
  | 0x5 => write_sts_error_counter t
  | 0x6 => read_cmd_counter t
  | 0x7 => read_word_counter t
  | 0x8 => read_pkg_counter t
  | 0x9 => range (read_length_counter t) 31 0
  | 0xA => read_sts_counter t
  | 0xB => read_sts_error_counter t
  | 0xC => Z.b2z (s2mm_error t) + 2 * Z.b2z (mm2s_error t)
  | _ => 0
  end.

(** The states READ_IDLE and READ_RESPONSE: the data and effect of one read. *)
Definition ddr_ctrl_read (araddr : Z) (s : ddr_ctrl) : Z * ddr_ctrl :=
  let i := if statsRegAddr s =? 13 then 0 else statsRegAddr s in
  let ru := read_length_upper s in
  let wu := write_length_upper s in
  let t := ddr_counters s in
  match Z.shiftr (range araddr 11 0) 5 with
  | 0x01 => (stats_reg t i, DdrCtrl (wrap 8 (i + 1)) ru wu t)
  | 0x03 => (if negb ru then range (read_length_counter t) 31 0 else range (read_length_counter t) 47 32,
             DdrCtrl i (negb ru) wu t)
  | 0x04 => (if negb wu then range (write_length_counter t) 31 0 else range (write_length_counter t) 47 32,
             DdrCtrl i ru (negb wu) t)
  | _ => (0xdeadbeef, DdrCtrl i ru wu t)
  end.

(** What [printDdrStatsRegs] is meant to print. *)
Definition ddr_stats_report (t : ddr_stats) : list (string * Z) :=
  [("write cmd counter", write_cmd_counter t); ("write word counter", write_word_counter t);
   ("write pkg counter", write_pkg_counter t); ("write length counter", range (write_length_counter t) 31 0);
   ("write status counter", write_sts_counter t); ("write error counter", write_sts_error_counter t);
   ("read cmd counter", read_cmd_counter t); ("read word counter", read_word_counter t);
   ("read pkg counter", read_pkg_counter t); ("read length counter", range (read_length_counter t) 31 0);
   ("read status counter", read_sts_counter t); ("read error counter", read_sts_error_counter t);
   ("datamover errors", Z.b2z (s2mm_error t) + 2 * Z.b2z (mm2s_error t))]%string.

(** ** The host on a board that contains the controller of a channel *)

Section host.
Variable channel base : Z.
Hypothesis channel_base : ddrRegAddressOffset !! Z.to_nat channel = Some base.
Context {D : Type} `{Routed D ddr_ctrl base ddr_ctrl_write ddr_ctrl_read}.

Lemma ddr_base : base ∈ [8192; 12288; 16384; 20480].
Proof. by apply list_elem_of_lookup_2 in channel_base. Qed.

(** The accesses reach the register the block decodes. *)
Lemma readReg_ddr_block a d : exists d',
  readReg_ddr false a channel d = Returns ((ddr_ctrl_read (base + reg_shift (ddrCtrlAddr_value a)) (block d)).1, d') /\
  block d' = (ddr_ctrl_read (base + reg_shift (ddrCtrlAddr_value a)) (block d)).2.
Proof.
  assert (Hb : 0 <= base + reg_shift (ddrCtrlAddr_value a) /\ base + reg_shift (ddrCtrlAddr_value a) + 4 <= MAP_SIZE /\
    base <= base + reg_shift (ddrCtrlAddr_value a) < base + 4096).
  { pose proof ddr_base as Hb. rewrite !elem_of_cons, elem_of_nil in Hb.
    destruct Hb as [-> | [-> | [-> | [-> | []]]]]; by destruct a. }
  destruct Hb as (H1 & H2 & H3). unfold readReg_ddr. rewrite channel_base. unfold load.
  destruct (route_read (base + reg_shift (ddrCtrlAddr_value a)) d H3) as [R1 R2].
  unfold mbind, M_bind. rewrite (proj2 (Z.leb_le 0 _)), (proj2 (Z.leb_le _ MAP_SIZE)) by done. cbn [andb].
  destruct (mmio_read _ d) as [v d']. cbn in R1, R2. exists d'. split; [by rewrite R1 | done].
Qed.

Lemma ddr_reg_index a : Z.shiftr (range (base + reg_shift (ddrCtrlAddr_value a)) 11 0) 5 = ddrCtrlAddr_value a.
Proof.
  pose proof ddr_base as Hb. rewrite !elem_of_cons, elem_of_nil in Hb.
  destruct Hb as [-> | [-> | [-> | [-> | []]]]]; by destruct a.
Qed.

(** The cursor before the [i]-th read, with the counters [t]. *)
Definition ddr_stats_at (t : ddr_stats) (i : nat) (d : D) : Prop :=
  (statsRegAddr (block d) = Z.of_nat i \/ (i = 0%nat /\ statsRegAddr (block d) = 13)) /\ ddr_counters (block d) = t.

Lemma read_ddr_stats_at t i d : (i < length DdrRegNames)%nat -> ddr_stats_at t i d ->
  exists d', readReg_ddr false DDR_STATS channel d = Returns (stats_reg t (Z.of_nat i), d') /\ ddr_stats_at t (S i) d'.
Proof.
  intros Hi [Hd <-]. change (length DdrRegNames) with 13%nat in Hi.
  destruct (readReg_ddr_block DDR_STATS d) as (d' & R & E). exists d'. rewrite R. unfold ddr_stats_at. rewrite E.
  clear R E. generalize dependent (block d). intros s Hd. unfold ddr_ctrl_read. rewrite ddr_reg_index.
  cbn [ddrCtrlAddr_value fst snd statsRegAddr ddr_counters]. destruct Hd as [-> | [-> ->]]; [|by split; [|split; [left|]]].
  rewrite (proj2 (Z.eqb_neq _ _)) by lia. split_and!; [done | | done]. left. rewrite wrap_small; lia.
Qed.

(** [printDdrStatsRegs] prints every counter of the channel under its own
    name, the first time and every later time. *)
Theorem print_ddr_stats d : statsRegAddr (block d) = 0 \/ statsRegAddr (block d) = 13 ->
  exists d', printDdrStatsRegs false channel d = Returns (ddr_stats_report (ddr_counters (block d)), d') /\
    statsRegAddr (block d') = 13 /\ ddr_counters (block d') = ddr_counters (block d).
Proof.
  intros Hd. assert (Hat : ddr_stats_at (ddr_counters (block d)) 0 d) by (split; [destruct Hd; auto | done]).
  destruct (collect_cursor _ _ _ _ (read_ddr_stats_at (ddr_counters (block d))) 13 0 d ltac:(done) Hat)
    as (d' & R & [[E | [? _]] S]); [|done]. by exists d'.
Qed.

(** the registers [READS] and [WRITES] of the host library are not those
    the block decodes: [READS] reads no register, and [WRITES] reads the
    bytes that were read. *)
Theorem ddr_length_registers d : read_length_upper (block d) = false ->
  (exists d', readReg_ddr false DDR_READS channel d = Returns (0xdeadbeef, d')) /\
  (exists d', readReg_ddr false DDR_WRITES channel d = Returns (wrap 32 (read_length_counter (ddr_counters (block d))), d')).
Proof.
  intros Hu. split.
  - destruct (readReg_ddr_block DDR_READS d) as (d' & R & _). exists d'. rewrite R. unfold ddr_ctrl_read. by rewrite ddr_reg_index.
  - destruct (readReg_ddr_block DDR_WRITES d) as (d' & R & _). exists d'. rewrite R. clear R.
    revert Hu. generalize (block d). intros [i ru wu t] Hu. cbn in Hu. subst ru.
    unfold ddr_ctrl_read. rewrite ddr_reg_index. cbn. unfold range. by rewrite Z.shiftr_0_r.
Qed.
End host.

(** ** Instances: a board with nothing but the controller of channel 1 *)

#[export] Instance ddr_board : MmioDevice ddr_ctrl := {|
  mmio_write a v s := if (12288 <=? a) && (a <? 16384) then ddr_ctrl_write a v s else s;
  mmio_read a s := if (12288 <=? a) && (a <? 16384) then ddr_ctrl_read a s else (0, s);
  elapse s := s |}.

#[export] Instance ddr_board_routed : Routed ddr_ctrl ddr_ctrl 12288 ddr_ctrl_write ddr_ctrl_read.
Proof.
  refine {| block := fun s => s |}; intros; cbn;
    by rewrite (proj2 (Z.leb_le _ _)), (proj2 (Z.ltb_lt _ _)) by lia.
Defined.

Definition demo_ddr_ctrl : ddr_ctrl :=
  DdrCtrl 13 false false (DdrStats 1 2 3 (2 ^ 40 + 5) 4 5 6 7 8 (2 ^ 33 + 7) 9 10 true true).

Lemma print_ddr_stats_witness : exists d',
  printDdrStatsRegs false 1 demo_ddr_ctrl = Returns (ddr_stats_report (ddr_counters demo_ddr_ctrl), d').
Proof.
  destruct (print_ddr_stats 1 12288 eq_refl demo_ddr_ctrl) as (d' & R & _); [by right|]. exists d'. exact R.
Defined.

Lemma ddr_length_witness : exists d', readReg_ddr false DDR_WRITES 1 demo_ddr_ctrl = Returns (7, d').
Proof. exact (proj2 (ddr_length_registers 1 12288 eq_refl demo_ddr_ctrl eq_refl)). Defined.
