(* ===== verification/MemInf.v ===== *)
(** [src/hdl/common/mem_single_inf.sv]: the commands for the data mover of a memory
    channel and the statistics that the host reads ([DdrController]), clock
    by clock.  The data mover, the FIFOs and the clock converters are vendor
    IP. *)
From stdpp Require Import strings.
From S2P Require Import Prelude Mmio FpgaController DdrController.

(** ** Definitions *)

(** The concatenation of [x] with the lower [w] bits of [v]. *)
Definition cat (x w v : Z) : Z := x * 2 ^ w + wrap w v.

(** [axis_to_dm_mem_write_cmd_tdata] and [axis_to_dm_mem_read_cmd_tdata]: reserved and tag,
    address, drr, eof, dsa, type and bytes to transfer. *)
Definition datamover_cmd (address length : Z) : Z :=
  cat (cat (cat (cat (cat (cat 0 32 address) 1 1) 1 1) 6 0) 1 1) 23 length.

(** The counters of one direction in [user_clk]. *)
Record user_counters := UserCounters { user_cmd_counter : Z; user_sts_counter : Z; user_sts_error_counter : Z }.

(** A command that is accepted, and a status that is taken; in the branch for an
    error the counter is assigned its own value. *)
Definition user_clock (cmd : bool) (sts : option Z) (c : user_counters) : user_counters :=
  UserCounters
    (if cmd then wrap 32 (user_cmd_counter c + 1) else user_cmd_counter c)
    (match sts with Some _ => wrap 32 (user_sts_counter c + 1) | None => user_sts_counter c end)
    (match sts with
     | Some data => if negb (Z.testbit data 7) then user_sts_error_counter c else user_sts_error_counter c
     | None => user_sts_error_counter c
     end).

(** The counters of one direction in [mem_clk]. *)
Record mem_counters := MemCounters { word_counter : Z; pkg_counter : Z; length_counter : Z }.

(** The [case] over [tkeep]. *)
Definition keep_length (keep : Z) : Z :=
  if keep =? 0xFF then 8
  else if keep =? 0xFFFF then 16
  else if keep =? 0xFFFFFF then 24
  else if keep =? 0xFFFFFFFF then 32
  else if keep =? 0xFFFFFFFFFF then 40
  else if keep =? 0xFFFFFFFFFFFF then 48
  else if keep =? 0xFFFFFFFFFFFFFF then 56
  else if keep =? 0xFFFFFFFFFFFFFFFF then 64
  else 0.

(** A word that is transferred: its keep signal and whether it is the last. *)
Definition mem_clock (w : option (Z * bool)) (c : mem_counters) : mem_counters :=
  match w with
  | Some (keep, last) =>
      MemCounters (wrap 32 (word_counter c + 1)) (if last then wrap 32 (pkg_counter c + 1) else pkg_counter c)
        (wrap 48 (length_counter c + keep_length keep))
  | None => c
  end.

Definition user_zero : user_counters := UserCounters 0 0 0.
Definition mem_zero : mem_counters := MemCounters 0 0 0.

(** The ports of [controller_inst]; the two error signals are exchanged. *)
Definition channel_stats (uw ur : user_counters) (mw mr : mem_counters) (s2mm_error mm2s_error : bool) : ddr_stats :=
  DdrStats (user_cmd_counter uw) (word_counter mw) (pkg_counter mw) (length_counter mw) (user_sts_counter uw)
    (user_sts_error_counter uw) (user_cmd_counter ur) (word_counter mr) (pkg_counter mr) (length_counter mr)
    (user_sts_counter ur) (user_sts_error_counter ur) mm2s_error s2mm_error.

(** Several clocks after a reset. *)
Definition user_run (l : list (bool * option Z)) : user_counters := foldl (fun c i => user_clock i.1 i.2 c) user_zero l.
Definition mem_run (l : list (option (Z * bool))) : mem_counters := foldl (fun c w => mem_clock w c) mem_zero l.

(** ** Lemmas *)

(** The words that are transferred. *)
Definition transferred (l : list (option (Z * bool))) : list (Z * bool) := omap id l.

Definition total_keep (ws : list (Z * bool)) : Z := foldr (fun w n => keep_length w.1 + n) 0 ws.

Lemma user_run_counts l : user_run l =
  UserCounters (wrap 32 (Z.of_nat (length (List.filter fst l)))) (wrap 32 (Z.of_nat (length (omap snd l)))) 0.
Proof.
  unfold user_run. induction l as [|[cmd sts] l IH] using rev_ind; [done|].
  rewrite foldl_app, IH, List.filter_app, omap_app, !length_app. cbn [foldl user_clock fst snd user_cmd_counter user_sts_counter user_sts_error_counter].
  unfold user_clock. cbn [user_cmd_counter user_sts_counter user_sts_error_counter]. f_equal.
  - destruct cmd; cbn; [rewrite wrap_add_l by done; f_equal; lia | by rewrite Nat.add_0_r].
  - destruct sts; cbn; [rewrite wrap_add_l by done; f_equal; lia | by rewrite Nat.add_0_r].
  - destruct sts as [data|]; [by destruct (negb _) | done].
Qed.

Lemma total_keep_app a b : total_keep (a ++ b) = total_keep a + total_keep b.
Proof. unfold total_keep. induction a as [|w a IH]; cbn [foldr app]; lia. Qed.

Lemma mem_run_counts l : let ws := transferred l in mem_run l =
  MemCounters (wrap 32 (Z.of_nat (length ws))) (wrap 32 (Z.of_nat (length (List.filter snd ws)))) (wrap 48 (total_keep ws)).
Proof.
  unfold mem_run, transferred. induction l as [|w l IH] using rev_ind; [done|].
  cbv zeta in *. rewrite foldl_app, IH, omap_app, List.filter_app, !length_app. cbn [foldl].
  destruct w as [[keep last]|]; cbn [omap list_omap id mem_clock word_counter pkg_counter length_counter length];
    [|by rewrite !app_nil_r, !Nat.add_0_r].
  rewrite total_keep_app. f_equal.
  - rewrite wrap_add_l by done. f_equal. lia.
  - destruct last; cbn; [rewrite wrap_add_l by done; f_equal; lia | by rewrite Nat.add_0_r].
  - rewrite wrap_add_l by done. do 2 f_equal. cbn. lia.
Qed.

(** The keep signals that count: the lowest 8, 16, ... 64 bytes. *)
Lemma keep_length_spec keep : (exists n, 1 <= n <= 8 /\ keep = Z.ones (8 * n) /\ keep_length keep = 8 * n) \/
  ((forall n, 1 <= n <= 8 -> keep <> Z.ones (8 * n)) /\ keep_length keep = 0).
Proof.
  unfold keep_length.
  repeat (match goal with |- context [keep =? ?c] => destruct (Z.eqb_spec keep c) as [-> | ?] end;
    [left; first [by exists 1 | by exists 2 | by exists 3 | by exists 4 | by exists 5 | by exists 6 | by exists 7 | by exists 8] |]).
  right. split; [|done]. intros m Hm ->.
  assert (Hc : m = 1 \/ m = 2 \/ m = 3 \/ m = 4 \/ m = 5 \/ m = 6 \/ m = 7 \/ m = 8) by lia.
  destruct_or! Hc; subst m; done.
Qed.

(** ** Properties *)

(** the command for the data mover has the fields of its format: the address and the number of
    bytes of the request, marked as the end of a packet with an incrementing address - but
    cut to 32 and 23 bits: a longer request is shortened, and one of
    exactly 8 MiB asks for no byte at all. *)
Theorem datamover_command_fields address length :
  let c := datamover_cmd address length in
  range c 63 32 = wrap 32 address /\ range c 22 0 = wrap 23 length /\ range c 31 23 = 0x181 /\ range c 71 64 = 0.
Proof.
  intros c. assert (Ha : 0 <= wrap 32 address < 2 ^ 32) by (apply wrap_bound; lia).
  assert (Hl : 0 <= wrap 23 length < 2 ^ 23) by (apply wrap_bound; lia).
  assert (E : c = wrap 32 address * 2 ^ 32 + (0x181 * 2 ^ 23 + wrap 23 length)).
  { unfold c, datamover_cmd, cat. change (wrap 1 1) with 1. change (wrap 6 0) with 0. lia. }
  rewrite E. clear c E. revert Ha Hl. generalize (wrap 32 address) (wrap 23 length). intros a l Ha Hl.
  unfold range, wrap. rewrite !Z.shiftr_div_pow2 by lia. Z.to_euclidean_division_equations. lia.
Qed.

Section host.
Variable channel base : Z.
Hypothesis channel_base : ddrRegAddressOffset !! Z.to_nat channel = Some base.
Context {D : Type} `{Routed D ddr_ctrl base ddr_ctrl_write ddr_ctrl_read}.

(** What the host is told about one direction. *)
Definition direction_report (name : string) (u : list (bool * option Z)) (w : list (option (Z * bool))) : list (string * Z) :=
  [((name ++ " cmd counter")%string, wrap 32 (Z.of_nat (length (List.filter fst u))));
   ((name ++ " word counter")%string, wrap 32 (Z.of_nat (length (transferred w))));
   ((name ++ " pkg counter")%string, wrap 32 (Z.of_nat (length (List.filter snd (transferred w)))));
   ((name ++ " length counter")%string, wrap 32 (total_keep (transferred w)));
   ((name ++ " status counter")%string, wrap 32 (Z.of_nat (length (omap snd u))));
   ((name ++ " error counter")%string, 0)].

(** C20: the statistics of a memory channel, from the clocks to the host.  After a reset and any clocks
    [printDdrStatsRegs] prints, modulo 2^32, how many commands, words and packets there were,
    the bytes of the words whose keep signal covers 8, 16, ... 64 bytes from the start
    ([keep_length_spec]), and how many status words; but the number of errors is always 0,
    whatever the status words say, and the two error signals of the
    data mover are exchanged. *)
Theorem memory_statistics_count uw ur mw mr s2mm_error mm2s_error d :
  ddr_counters (block d) = channel_stats (user_run uw) (user_run ur) (mem_run mw) (mem_run mr) s2mm_error mm2s_error ->
  statsRegAddr (block d) = 0 \/ statsRegAddr (block d) = 13 ->
  exists d', printDdrStatsRegs false channel d =
    Returns (direction_report "write" uw mw ++ direction_report "read" ur mr ++
      [("datamover errors"%string, Z.b2z mm2s_error + 2 * Z.b2z s2mm_error)], d').
Proof.
  intros Hs Hd. destruct (print_ddr_stats channel base channel_base d Hd) as (d' & R & _). exists d'. rewrite R, Hs.
  unfold ddr_stats_report, channel_stats, direction_report. rewrite !user_run_counts, !mem_run_counts.
  cbn [app DdrController.write_cmd_counter write_word_counter write_pkg_counter write_length_counter write_sts_counter
    write_sts_error_counter read_cmd_counter read_word_counter read_pkg_counter read_length_counter read_sts_counter
    read_sts_error_counter DdrController.s2mm_error DdrController.mm2s_error user_cmd_counter user_sts_counter
    user_sts_error_counter word_counter pkg_counter length_counter].
  unfold range. rewrite !Z.shiftr_0_r, !(wrap_wrap 32 48) by lia. reflexivity.
Qed.
End host.

(** ** Instance: two words and two status words, one of which is an error *)

Lemma memory_statistics_count_witness : exists d' : ddr_ctrl,
  printDdrStatsRegs false 1 (DdrCtrl 0 false false (channel_stats (user_run [(true, None); (true, Some 0x80); (false, Some 0x40)])
    (user_run []) (mem_run [Some (Z.ones 64, false); None; Some (Z.ones 16, true)]) (mem_run []) true false)) =
  Returns ([("write cmd counter", 2); ("write word counter", 2); ("write pkg counter", 1); ("write length counter", 80);
     ("write status counter", 2); ("write error counter", 0); ("read cmd counter", 0); ("read word counter", 0);
     ("read pkg counter", 0); ("read length counter", 0); ("read status counter", 0); ("read error counter", 0);
     ("datamover errors", 2)]%string, d').
Proof.
  destruct (memory_statistics_count 1 12288 eq_refl (D := ddr_ctrl) [(true, None); (true, Some 0x80); (false, Some 0x40)] []
    [Some (Z.ones 64, false); None; Some (Z.ones 16, true)] [] true false (DdrCtrl 0 false false (channel_stats
      (user_run [(true, None); (true, Some 0x80); (false, Some 0x40)]) (user_run [])
      (mem_run [Some (Z.ones 64, false); None; Some (Z.ones 16, true)]) (mem_run []) true false)))
    as (d' & R); [reflexivity | by left |]. exists d'. exact R.
Defined.
