(* ===== verification/AxiLite.v ===== *)
(** The AXI-lite processes of the register blocks, clock by clock: the two
    [always] blocks that [src/hdl/common/dma_controller.sv],
    [benchmark_controller.sv] and [ddr_controller.sv] share, over what each of
    them does in the states of its own.

    A register block promises what the records [read_regs] and [write_regs]
    say; against them it is proved that, whatever the bus master does, the
    completed transfers have the effect of complete transactions in the order
    of their addresses ([reads_refine], [writes_refine]), and that they
    complete when the master waits for them. *)
From S2P Require Import Prelude.

(** ** The read process *)

Section read.
Context {Reg Env : Type}.

(** The address decoder, the assignments to the registers in [READ_IDLE], the
    data and response of [READ_RESPONSE], and the assignments to the registers
    when the data is accepted. *)
Record read_regs := ReadRegs {
  read_index : Z -> Z;
  read_idle : Reg -> Reg;
  read_data : Z -> Env -> Reg -> Z;
  read_resp : Z -> Reg -> Z;
  read_done : Z -> Reg -> Reg }.

Variable B : read_regs.

Inductive read_state := READ_IDLE | READ_RESPONSE.

Record read_vars := ReadVars {
  axil_arready : bool; axil_rvalid : bool; axil_rdata : Z; axil_rresp : Z;
  readState : read_state; readAddr : Z; read_state_regs : Reg }.

(** The inputs of one clock: the signals of the master, and the counters. *)
Record read_in := ReadIn { axil_arvalid : bool; axil_araddr : Z; axil_rready : bool; counters : Env }.

(** One clock of [always @(posedge clk)]; the right-hand sides see the values
    before the clock. *)
Definition read_clock (s : read_vars) (i : read_in) : read_vars :=
  match readState s with
  | READ_IDLE =>
      let accepted := axil_arready s && axil_arvalid i in
      ReadVars (negb accepted) (axil_rvalid s) (axil_rdata s) (axil_rresp s)
        (if accepted then READ_RESPONSE else READ_IDLE)
        (if accepted then read_index B (axil_araddr i) else readAddr s)
        (read_idle B (read_state_regs s))
  | READ_RESPONSE =>
      let accepted := axil_rvalid s && axil_rready i in
      ReadVars (axil_arready s) (negb accepted)
        (read_data B (readAddr s) (counters i) (read_state_regs s)) (read_resp B (readAddr s) (read_state_regs s))
        (if accepted then READ_IDLE else READ_RESPONSE)
        (readAddr s)
        (if accepted then read_done B (readAddr s) (read_state_regs s) else read_state_regs s)
  end.

(** After [~aresetn]; [rdata] and [addr] are not reset. *)
Definition read_reset (rdata addr : Z) (r : Reg) : read_vars := ReadVars false false rdata 0 READ_IDLE addr r.

(** What is seen on the bus: the addresses and data accepted, and for each
    data the counters one clock before, which [before] keeps. *)
Record read_log := ReadLog { ar_log : list Z; r_log : list Z; sampled : list Env; before : list Env }.

Definition read_cycle (c : read_vars * read_log) (i : read_in) : read_vars * read_log :=
  let '(s, l) := c in
  (read_clock s i,
   ReadLog (ar_log l ++ (if axil_arready s && axil_arvalid i then [axil_araddr i] else []))
     (r_log l ++ (if axil_rvalid s && axil_rready i then [axil_rdata s] else []))
     (sampled l ++ (if axil_rvalid s && axil_rready i then before l else []))
     [counters i]).

Definition read_run (ins : list read_in) (s : read_vars) : read_vars * read_log :=
  foldl read_cycle (s, ReadLog [] [] [] []) ins.

(** The transaction: one read as a whole. *)
Definition read_transaction (a : Z) (e : Env) (r : Reg) : Z * Reg :=
  let r := read_idle B r in
  (read_data B (read_index B a) e r, read_done B (read_index B a) r).

Definition read_step (acc : list Z * Reg) (op : Z * Env) : list Z * Reg :=
  let '(d, r) := read_transaction op.1 op.2 acc.2 in (acc.1 ++ [d], r).

Definition reads (ops : list (Z * Env)) (r : Reg) : list Z * Reg := foldl read_step ([], r) ops.

Hypothesis read_idle_idemp : forall r, read_idle B (read_idle B r) = read_idle B r.

(** The state between the bus and the transactions: [done] are the addresses
    answered, [rm] the registers of the transaction model. *)
Definition read_inv (r0 : Reg) (c : read_vars * read_log) : Prop :=
  let '(s, l) := c in
  exists done rm, reads (zip done (sampled l)) r0 = (r_log l, rm) /\ length done = length (sampled l) /\
  match readState s with
  | READ_IDLE => ar_log l = done /\ axil_rvalid s = false /\
      read_idle B (read_state_regs s) = read_idle B rm /\
      (axil_arready s = true -> read_state_regs s = read_idle B rm)
  | READ_RESPONSE => exists a, ar_log l = done ++ [a] /\ axil_arready s = false /\
      readAddr s = read_index B a /\ read_state_regs s = read_idle B rm /\
      (axil_rvalid s = true ->
       exists e, before l = [e] /\ axil_rdata s = read_data B (readAddr s) e (read_state_regs s))
  end.

Lemma read_inv_reset d a r : read_inv r (read_reset d a r, ReadLog [] [] [] []).
Proof. by exists [], r. Qed.

Lemma length_reads ops r : length (reads ops r).1 = length ops.
Proof.
  induction ops as [|op ops IH] using rev_ind; [done|]. unfold reads in *. rewrite foldl_snoc, length_app, <- IH.
  unfold read_step at 1. destruct (foldl _ _ _). cbn. by rewrite length_app.
Qed.

Lemma reads_snoc done a es e r0 ds rm : length done = length es ->
  reads (zip done es) r0 = (ds, rm) ->
  reads (zip (done ++ [a]) (es ++ [e])) r0 =
    (ds ++ [(read_transaction a e rm).1], (read_transaction a e rm).2).
Proof.
  intros Hl H. rewrite zip_with_app by done. change (zip [a] [e]) with [(a, e)]. unfold reads in *. by rewrite foldl_snoc, H.
Qed.

Lemma read_inv_cycle r0 c i : read_inv r0 c -> read_inv r0 (read_cycle c i).
Proof.
  destruct c as [s l]. intros (done & rm & Hr & Hl & H). unfold read_cycle, read_clock.
  destruct (readState s) eqn:Es; cbn [read_inv].
  - destruct H as (Har & Hv & Hi & Hrdy). rewrite Hv. cbn [andb]. rewrite !app_nil_r.
    exists done, rm. split; [done|]. split; [done|]. cbn [readState].
    destruct (axil_arready s && axil_arvalid i) eqn:E; cbn.
    + apply andb_true_iff in E as [E _]. exists (axil_araddr i). rewrite Har, (Hrdy E). by split_and!.
    + rewrite app_nil_r, read_idle_idemp. by split_and!.
  - destruct H as (a & Har & Hrdy & Haddr & Hregs & Hdata). rewrite Hrdy. cbn [andb]. rewrite app_nil_r.
    destruct (axil_rvalid s && axil_rready i) eqn:E; cbn [readState].
    + apply andb_true_iff in E as [E _]. destruct (Hdata E) as (e & Hb & Hd).
      exists (done ++ [a]), (read_transaction a e rm).2. cbn [sampled r_log ar_log axil_arready axil_rvalid read_state_regs].
      rewrite Hb, (reads_snoc _ _ _ _ _ _ _ Hl Hr), !length_app, Hl, Har, Hd, Haddr, Hregs.
      split_and!; cbn; rewrite ?Hrdy; done.
    + exists done, rm. cbn. rewrite !app_nil_r. split; [done|]. split; [done|]. exists a.
      split_and!; try done. intros _. by exists (counters i).
Qed.

Lemma read_inv_run d a r ins : read_inv r (read_run ins (read_reset d a r)).
Proof.
  induction ins as [|i ins IH] using rev_ind; [apply read_inv_reset|].
  unfold read_run in *. rewrite foldl_snoc. by apply read_inv_cycle.
Qed.

(** The data accepted on the bus are those of the transactions on the
    addresses accepted, in that order and each with the counters of the clock
    before; at most one read is unanswered. *)
Lemma reads_refine d a r ins s l : read_run ins (read_reset d a r) = (s, l) ->
  (length (r_log l) <= length (ar_log l) <= length (r_log l) + 1)%nat /\
  length (sampled l) = length (r_log l) /\
  exists rm, reads (zip (ar_log l) (sampled l)) r = (r_log l, rm) /\
    read_idle B (read_state_regs s) = read_idle B rm.
Proof.
  intros E. pose proof (read_inv_run d a r ins) as H. rewrite E in H.
  destruct H as (done & rm & Hr & Hl & H).
  assert (Hlen : length (r_log l) = length (sampled l)).
  { change (r_log l) with (r_log l, rm).1. rewrite <- Hr, length_reads, length_zip_with_r_eq; done. }
  split; [|split; [done | exists rm]]; destruct (readState s).
  - destruct H as (-> & _). lia.
  - destruct H as (b & -> & _). rewrite length_app. cbn. lia.
  - destruct H as (-> & _ & ? & _). done.
  - destruct H as (b & -> & _ & _ & -> & _).
    rewrite zip_with_app_l, Hl, take_ge, drop_ge, app_nil_r by lia. by rewrite read_idle_idemp.
Qed.

Definition read_waiting (i : read_in) : Prop := axil_arvalid i = true /\ axil_rready i = true.

(** A read completes within four clocks once the master holds its address and
    accepts data. *)
Lemma read_completes r0 c (ins : list read_in) : read_inv r0 c -> length ins = 4%nat -> Forall read_waiting ins ->
  (length (r_log c.2) < length (r_log (foldl read_cycle c ins).2))%nat.
Proof.
  destruct c as [s l]. intros Hinv Hl Hi.
  do 4 (destruct ins as [|[] ins]; [done|]; inversion_clear Hi as [|? ? [? ?] Hi']; rename Hi' into Hi; cbn in *; subst).
  destruct ins; [|done]. cbn [foldl read_cycle r_log].
  destruct s as [[] [] ? ? [] ? ?]; cbn; rewrite !length_app; cbn; try lia;
    destruct Hinv as (? & ? & _ & _ & H); cbn in H; naive_solver.
Qed.

Lemma read_progress d a r ins more : length more = 4%nat -> Forall read_waiting more ->
  (length (r_log (read_run ins (read_reset d a r)).2) <
   length (r_log (read_run (ins ++ more) (read_reset d a r)).2))%nat.
Proof.
  intros Hl Hw. unfold read_run. rewrite foldl_app. apply (read_completes r); [apply read_inv_run | done..].
Qed.
End read.

(** ** The write process *)

Section write.
Context {Reg Port Payload : Type} `{EqDecision Port}.

(** The address decoder, the assignments in [WRITE_IDLE], the response, the
    assignments in [WRITE_DATA] and the output port, if any, whose command has
    to be accepted before the response, the ports whose valid signal
    [WRITE_IDLE] clears, and what a port shows. *)
Record write_regs := WriteRegs {
  write_index : Z -> Z;
  write_idle : Reg -> Reg;
  write_resp : Z;
  write_data : Z -> Z -> Reg -> Reg * option Port;
  write_clears : Port -> bool;
  payload : Port -> Reg -> Payload }.

Variable B : write_regs.

Inductive write_state := WRITE_IDLE | WRITE_DATA | WRITE_RESPONSE | WRITE_CMD (p : Port).

Record write_vars := WriteVars {
  axil_awready : bool; axil_wready : bool; axil_bvalid : bool; axil_bresp : Z;
  writeState : write_state; writeAddr : Z; cmd_valid : Port -> bool; write_state_regs : Reg }.

Record write_in := WriteIn {
  axil_awvalid : bool; axil_awaddr : Z; axil_wvalid : bool; axil_wdata : Z; axil_bready : bool;
  cmd_ready : Port -> bool }.

Definition set_valid (p : Port) (b : bool) (f : Port -> bool) : Port -> bool :=
  fun q => if decide (q = p) then b else f q.

Definition write_clock (s : write_vars) (i : write_in) : write_vars :=
  match writeState s with
  | WRITE_IDLE =>
      let accepted := axil_awready s && axil_awvalid i in
      WriteVars (negb accepted) accepted false (axil_bresp s)
        (if accepted then WRITE_DATA else WRITE_IDLE) (write_index B (axil_awaddr i))
        (fun p => cmd_valid s p && negb (write_clears B p)) (write_idle B (write_state_regs s))
  | WRITE_DATA =>
      if axil_wready s && axil_wvalid i then
        let '(r, cmd) := write_data B (writeAddr s) (axil_wdata i) (write_state_regs s) in
        match cmd with
        | None => WriteVars (axil_awready s) false true (write_resp B) WRITE_RESPONSE (writeAddr s) (cmd_valid s) r
        | Some p => WriteVars (axil_awready s) false false (write_resp B) (WRITE_CMD p) (writeAddr s)
                      (set_valid p true (cmd_valid s)) r
        end
      else WriteVars (axil_awready s) true (axil_bvalid s) (axil_bresp s) WRITE_DATA (writeAddr s)
             (cmd_valid s) (write_state_regs s)
  | WRITE_RESPONSE =>
      let accepted := axil_bvalid s && axil_bready i in
      WriteVars (axil_awready s) (axil_wready s) (negb accepted) (axil_bresp s)
        (if accepted then WRITE_IDLE else WRITE_RESPONSE) (writeAddr s) (cmd_valid s) (write_state_regs s)
  | WRITE_CMD p =>
      let accepted := cmd_valid s p && cmd_ready i p in
      WriteVars (axil_awready s) (axil_wready s) (accepted || axil_bvalid s)
        (if accepted then write_resp B else axil_bresp s)
        (if accepted then WRITE_RESPONSE else WRITE_CMD p) (writeAddr s)
        (set_valid p (negb accepted) (cmd_valid s)) (write_state_regs s)
  end.

(** After [~aresetn]; [bresp] and [addr] are not reset. *)
Definition write_reset (bresp addr : Z) (r : Reg) : write_vars :=
  WriteVars false false false bresp WRITE_IDLE addr (fun _ => false) r.

(** What is seen on the bus and at the command ports: a port shows its command
    while its valid signal is set, and passes it on when the receiver is
    ready. *)
Record write_log := WriteLog { aw_log : list Z; w_log : list Z; b_log : list Z; cmd_log : list (Port * Payload) }.

Variable ports : list Port.

Definition passes (s : write_vars) (i : write_in) : list (Port * Payload) :=
  (fun p => (p, payload B p (write_state_regs s))) <$> filter (fun p => Is_true (cmd_valid s p && cmd_ready i p)) ports.

Definition write_cycle (c : write_vars * write_log) (i : write_in) : write_vars * write_log :=
  let '(s, l) := c in
  (write_clock s i,
   WriteLog (aw_log l ++ (if axil_awready s && axil_awvalid i then [axil_awaddr i] else []))
     (w_log l ++ (if axil_wready s && axil_wvalid i then [axil_wdata i] else []))
     (b_log l ++ (if axil_bvalid s && axil_bready i then [axil_bresp s] else []))
     (cmd_log l ++ passes s i)).

Definition write_run (ins : list write_in) (s : write_vars) : write_vars * write_log :=
  foldl write_cycle (s, WriteLog [] [] [] []) ins.

(** The transaction: one write as a whole, with the command it passes on. *)
Definition write_transaction (acc : Reg * list (Port * Payload)) (op : Z * Z) : Reg * list (Port * Payload) :=
  let '(r, cmd) := write_data B (write_index B op.1) op.2 (write_idle B acc.1) in
  (r, acc.2 ++ match cmd with Some p => [(p, payload B p r)] | None => [] end).

Definition writes (ops : list (Z * Z)) (r : Reg) : Reg * list (Port * Payload) := foldl write_transaction (r, []) ops.

Hypothesis write_idle_idemp : forall r, write_idle B (write_idle B r) = write_idle B r.
Hypothesis ports_nodup : NoDup ports.
Hypothesis ports_all : forall p, p ∈ ports.

Definition no_cmd (s : write_vars) : Prop := forall p, cmd_valid s p = false.

(** The signals in each state, and which transfers are complete: [n] of them
    are answered, [outs] are the commands of the transactions, [rm] their
    registers. *)
Definition write_at (s : write_vars) (l : write_log) (done : list Z) (rm : Reg) (outs : list (Port * Payload)) : Prop :=
  match writeState s with
  | WRITE_IDLE => aw_log l = done /\ axil_wready s = false /\ axil_bvalid s = false /\ no_cmd s /\
      cmd_log l = outs /\ length (b_log l) = length done /\
      write_idle B (write_state_regs s) = write_idle B rm /\
      (axil_awready s = true -> write_state_regs s = write_idle B rm)
  | WRITE_DATA => exists a, aw_log l = done ++ [a] /\ axil_awready s = false /\ axil_bvalid s = false /\ no_cmd s /\
      cmd_log l = outs /\ length (b_log l) = length done /\
      writeAddr s = write_index B a /\ write_state_regs s = write_idle B rm
  | WRITE_RESPONSE => aw_log l = done /\ axil_awready s = false /\ axil_wready s = false /\ no_cmd s /\
      cmd_log l = outs /\ S (length (b_log l)) = length done /\ write_state_regs s = rm /\
      axil_bresp s = write_resp B
  | WRITE_CMD p => aw_log l = done /\ axil_awready s = false /\ axil_wready s = false /\ axil_bvalid s = false /\
      (forall q, cmd_valid s q = bool_decide (q = p)) /\
      outs = cmd_log l ++ [(p, payload B p rm)] /\ S (length (b_log l)) = length done /\ write_state_regs s = rm
  end.

Definition write_inv (r0 : Reg) (c : write_vars * write_log) : Prop :=
  exists done rm outs, writes (zip done (w_log c.2)) r0 = (rm, outs) /\ length done = length (w_log c.2) /\
    Forall (fun r => r = write_resp B) (b_log c.2) /\ write_at c.1 c.2 done rm outs.

Lemma write_inv_reset b a r : write_inv r (write_reset b a r, WriteLog [] [] [] []).
Proof. exists [], r, []. by repeat split. Qed.

Lemma filter_none (P : Port -> bool) l : (forall q, q ∈ l -> P q = false) ->
  filter (fun q => Is_true (P q)) l = [].
Proof.
  induction l as [|q l IH]; intros H; [done|]. rewrite filter_cons, H by by left.
  rewrite decide_False by tauto. apply IH. intros. apply H. by right.
Qed.

Lemma passes_none s i : no_cmd s -> passes s i = [].
Proof.
  intros H. unfold passes. rewrite (filter_none (fun p => cmd_valid s p && cmd_ready i p)); [done|].
  intros p _. by rewrite H.
Qed.

Lemma filter_unique (p : Port) (b : bool) (P : Port -> bool) l : NoDup l -> p ∈ l ->
  (forall q, P q = bool_decide (q = p) && b) ->
  filter (fun q => Is_true (P q)) l = if b then [p] else [].
Proof.
  intros Hnd Hin HP. induction Hnd as [|q l Hq Hnd IH]; [by apply elem_of_nil in Hin|].
  rewrite filter_cons, HP. destruct (decide (q = p)) as [-> | Hne].
  - rewrite bool_decide_true by done.
    rewrite filter_none; [by destruct b|].
    intros q Hq'. rewrite HP, bool_decide_false; [done|]. by intros ->.
  - rewrite bool_decide_false by done. apply elem_of_cons in Hin as [-> | Hin]; [done|].
    rewrite decide_False by tauto. by apply IH.
Qed.

Lemma passes_one s i p : (forall q, cmd_valid s q = bool_decide (q = p)) ->
  passes s i = if cmd_ready i p then [(p, payload B p (write_state_regs s))] else [].
Proof.
  intros H. unfold passes.
  rewrite (filter_unique p (cmd_ready i p) (fun q => cmd_valid s q && cmd_ready i q)); [by destruct (cmd_ready i p) | done..|].
  intros q. rewrite H. case_bool_decide as E; [by subst | done].
Qed.

Lemma writes_snoc done a ws d r0 rm outs : length done = length ws -> writes (zip done ws) r0 = (rm, outs) ->
  writes (zip (done ++ [a]) (ws ++ [d])) r0 = write_transaction (rm, outs) (a, d).
Proof.
  intros Hl H. rewrite zip_with_app by done. change (zip [a] [d]) with [(a, d)]. unfold writes in *.
  by rewrite foldl_snoc, H.
Qed.
(** The four cases of [write_inv_cycle]. *)
Lemma write_inv_idle r0 s l i : writeState s = WRITE_IDLE -> write_inv r0 (s, l) -> write_inv r0 (write_cycle (s, l) i).
Proof.
  intros Es (done & rm & outs & Hw & Hl & Hb & H). cbn [fst snd] in *. unfold write_at in H. rewrite Es in H.
  destruct H as (Haw & Hwr & Hbv & Hno & Hcmd & Hlen & Hidle & Hrdy).
  unfold write_cycle, write_clock. rewrite Es, Hwr, Hbv, (passes_none s i Hno). cbn [andb]. rewrite !app_nil_r.
  assert (Hno' : forall p, cmd_valid s p && negb (write_clears B p) = false) by (intros p; by rewrite Hno).
  exists done, rm, outs. cbn [fst snd w_log b_log]. do 3 (split; [done|]). unfold write_at. cbn [writeState].
  destruct (axil_awready s && axil_awvalid i) eqn:E.
  - apply andb_true_iff in E as [E _]. exists (axil_awaddr i). rewrite Haw, (Hrdy E), write_idle_idemp. split_and!; done || exact Hno'.
  - rewrite app_nil_r. cbn. rewrite write_idle_idemp. split_and!; done || exact Hno'.
Qed.

Lemma write_inv_data r0 s l i : writeState s = WRITE_DATA -> write_inv r0 (s, l) -> write_inv r0 (write_cycle (s, l) i).
Proof.
  intros Es (done & rm & outs & Hw & Hl & Hb & H). cbn [fst snd] in *. unfold write_at in H. rewrite Es in H.
  destruct H as (a & Haw & Hrdy & Hbv & Hno & Hcmd & Hlen & Haddr & Hregs).
  unfold write_cycle, write_clock. rewrite Es, Hrdy, Hbv, (passes_none s i Hno), Haddr, Hregs. cbn [andb].
  destruct (axil_wready s && axil_wvalid i) eqn:E; rewrite !app_nil_r.
  - pose proof (writes_snoc _ a _ (axil_wdata i) _ _ _ Hl Hw) as Hs. unfold write_transaction in Hs. cbn [fst snd] in Hs.
    destruct (write_data B (write_index B a) (axil_wdata i) (write_idle B rm)) as [r cmd].
    exists (done ++ [a]), r. eexists. cbn [fst snd w_log b_log]. split; [exact Hs|].
    rewrite !length_app. cbn [length]. split; [lia|].
    destruct cmd as [p|]; cbn [fst]; (split; [done|]); unfold write_at; cbn.
    + split_and!; try done; [| by subst | rewrite length_app; cbn; lia].
      intros q. unfold set_valid. case_decide; case_bool_decide; (done || apply Hno).
    + rewrite app_nil_r. split_and!; try done. rewrite length_app. cbn. lia.
  - exists done, rm, outs. cbn [fst snd w_log b_log]. do 3 (split; [done|]). exists a. by split_and!.
Qed.

Lemma write_inv_response r0 s l i :
  writeState s = WRITE_RESPONSE -> write_inv r0 (s, l) -> write_inv r0 (write_cycle (s, l) i).
Proof.
  intros Es (done & rm & outs & Hw & Hl & Hb & H). cbn [fst snd] in *. unfold write_at in H. rewrite Es in H.
  destruct H as (Haw & Hrdy & Hwr & Hno & Hcmd & Hlen & Hregs & Hresp).
  unfold write_cycle, write_clock. rewrite Es, Hrdy, Hwr, (passes_none s i Hno), Hresp. cbn [andb]. rewrite !app_nil_r.
  exists done, rm, outs. cbn [fst snd w_log b_log]. do 2 (split; [done|]).
  destruct (axil_bvalid s && axil_bready i).
  - split; [apply Forall_app; by repeat constructor|]. unfold write_at. cbn. rewrite length_app, Hregs. cbn. split_and!; done || lia.
  - rewrite app_nil_r. split; [done|]. by unfold write_at.
Qed.

Lemma write_inv_cmd r0 s l i p :
  writeState s = WRITE_CMD p -> write_inv r0 (s, l) -> write_inv r0 (write_cycle (s, l) i).
Proof.
  intros Es (done & rm & outs & Hw & Hl & Hb & H). cbn [fst snd] in *. unfold write_at in H. rewrite Es in H.
  destruct H as (Haw & Hrdy & Hwr & Hbv & Hv & Hout & Hlen & Hregs).
  unfold write_cycle, write_clock. rewrite Es, Hrdy, Hwr, Hbv, (passes_one s i p Hv), Hv, Hregs.
  rewrite bool_decide_true by done. cbn [andb]. rewrite !app_nil_r.
  exists done, rm, outs. cbn [fst snd w_log b_log]. do 3 (split; [done|]). unfold write_at. cbn [writeState].
  destruct (cmd_ready i p); cbn.
  - split_and!; try done. intros q. cbn. unfold set_valid. case_decide; [done|]. rewrite Hv. by apply bool_decide_false.
  - rewrite app_nil_r. split_and!; try done. intros q. unfold set_valid. case_decide; case_bool_decide; try done.
    rewrite Hv. by apply bool_decide_false.
Qed.

Lemma write_inv_cycle r0 c i : write_inv r0 c -> write_inv r0 (write_cycle c i).
Proof.
  destruct c as [s l]. intros H. destruct (writeState s) eqn:E.
  - by apply write_inv_idle.
  - by apply write_inv_data.
  - by apply write_inv_response.
  - by eapply write_inv_cmd.
Qed.

Lemma write_inv_run b a r ins : write_inv r (write_run ins (write_reset b a r)).
Proof.
  induction ins as [|i ins IH] using rev_ind; [apply write_inv_reset|].
  unfold write_run in *. rewrite foldl_snoc. by apply write_inv_cycle.
Qed.

(** The writes accepted on the bus have the effect of the transactions on their
    addresses and data, in that order; each is answered with the response of
    the block, at most one is unanswered, and the commands passed on are
    those of the transactions, each once, the last one before its answer. *)
Lemma writes_refine b a r ins s l : write_run ins (write_reset b a r) = (s, l) ->
  (length (b_log l) <= length (w_log l) <= length (aw_log l))%nat /\ (length (aw_log l) <= length (b_log l) + 1)%nat /\
  Forall (fun x => x = write_resp B) (b_log l) /\
  exists rm rest, writes (zip (aw_log l) (w_log l)) r = (rm, cmd_log l ++ rest) /\ (length rest <= 1)%nat /\
    (length (b_log l) = length (w_log l) -> rest = [] /\ write_idle B (write_state_regs s) = write_idle B rm).
Proof.
  intros E. pose proof (write_inv_run b a r ins) as (done & rm & outs & Hw & Hl & Hb & H). rewrite E in *.
  cbn [fst snd] in *. unfold write_at in H. destruct (writeState s) as [| | |p].
  - destruct H as (-> & _ & _ & _ & <- & Hlen & Hidle & _). rewrite <- (app_nil_r (cmd_log l)) in Hw.
    split_and!; try lia; [done|]. exists rm, []. split_and!; [done | cbn; lia | done].
  - destruct H as (c & -> & _ & _ & _ & <- & Hlen & _ & ->). rewrite <- (app_nil_r (cmd_log l)) in Hw.
    rewrite length_app. cbn [length]. split_and!; try lia; [done|]. exists rm, [].
    rewrite zip_with_app_l, Hl, take_ge, drop_ge, app_nil_r, write_idle_idemp by lia.
    split_and!; [done | cbn; lia | done].
  - destruct H as (-> & _ & _ & _ & <- & Hlen & _). rewrite <- (app_nil_r (cmd_log l)) in Hw.
    split_and!; try lia; [done|]. exists rm, []. split_and!; [done | cbn; lia | lia].
  - destruct H as (-> & _ & _ & _ & _ & -> & Hlen & _). split_and!; try lia; [done|].
    exists rm. eexists. split_and!; [done | cbn; lia | lia].
Qed.

(** The number of clocks until the answer is accepted when nothing waits. *)
Definition write_rank (s : write_vars) : nat :=
  match writeState s with
  | WRITE_IDLE => if axil_awready s then 4 else 5
  | WRITE_DATA => if axil_wready s then 3 else 4
  | WRITE_CMD _ => 2
  | WRITE_RESPONSE => if axil_bvalid s then 1 else 2
  end.

Definition write_waiting (i : write_in) : Prop :=
  axil_awvalid i = true /\ axil_wvalid i = true /\ axil_bready i = true /\ forall p, cmd_ready i p = true.

Lemma write_rank_cycle r0 s l i : write_inv r0 (s, l) -> write_waiting i ->
  (length (b_log l) < length (b_log (write_cycle (s, l) i).2))%nat \/
  (b_log (write_cycle (s, l) i).2 = b_log l /\ (write_rank (write_clock s i) < write_rank s)%nat).
Proof.
  intros (done & rm & outs & _ & _ & _ & H) (Hav & Hwv & Hbr & Hcr). cbn [fst snd] in H. unfold write_at in H.
  unfold write_cycle, write_clock, write_rank. cbn [snd b_log]. rewrite Hav, Hwv, Hbr, !andb_true_r.
  destruct (writeState s) as [| | |p] eqn:Es.
  - destruct H as (_ & _ & -> & _). right. rewrite app_nil_r. split; [done|].
    destruct (axil_awready s); cbn; lia.
  - destruct H as (a & _ & _ & -> & _). right. rewrite app_nil_r. split; [done|].
    destruct (axil_wready s); cbn; [destruct (write_data _ _ _ _) as [? []]; cbn; lia | cbn; lia].
  - destruct (axil_bvalid s) eqn:Eb; [left; rewrite length_app; cbn; lia | right].
    rewrite app_nil_r. split; [done | cbn; lia].
  - destruct H as (_ & _ & _ & -> & Hv & _). right. rewrite app_nil_r, Hv, bool_decide_true, Hcr by done.
    split; [done | cbn; lia].
Qed.

Lemma b_log_cycle c i : (length (b_log c.2) <= length (b_log (write_cycle c i).2))%nat.
Proof. destruct c. cbn. rewrite length_app. lia. Qed.

Lemma b_log_run c ins : (length (b_log c.2) <= length (b_log (foldl write_cycle c ins).2))%nat.
Proof.
  revert c. induction ins as [|i ins IH]; intros c; [done|]. cbn [foldl].
  etrans; [apply (b_log_cycle c i) | apply IH].
Qed.

(** A write is answered within five clocks once the master holds its address
    and data and accepts the answer, and the receivers accept commands. *)
Lemma write_completes r0 c (ins : list write_in) : write_inv r0 c -> (write_rank c.1 <= length ins)%nat ->
  Forall write_waiting ins -> (length (b_log c.2) < length (b_log (foldl write_cycle c ins).2))%nat.
Proof.
  intros Hinv Hlen Hw. revert c Hinv Hlen. induction Hw as [|i ins Hi Hw IH]; intros [s l] Hinv Hlen.
  - exfalso. revert Hlen. cbn. unfold write_rank. repeat case_match; lia.
  - cbn [foldl]. change (b_log (s, l).2) with (b_log l). destruct (write_rank_cycle r0 s l i Hinv Hi) as [Hlt | [<- Hr]].
    + pose proof (b_log_run (write_cycle (s, l) i) ins). cbn [snd] in *. lia.
    + apply IH; [by apply write_inv_cycle | cbn in *; lia].
Qed.

Lemma write_rank_bound s : (write_rank s <= 5)%nat.
Proof. unfold write_rank. repeat case_match; lia. Qed.

Lemma write_progress b a r ins more : (5 <= length more)%nat -> Forall write_waiting more ->
  (length (b_log (write_run ins (write_reset b a r)).2) <
   length (b_log (write_run (ins ++ more) (write_reset b a r)).2))%nat.
Proof.
  intros Hl Hw. unfold write_run. rewrite foldl_app. apply (write_completes r); [apply write_inv_run | | done].
  pose proof (write_rank_bound (foldl write_cycle (write_reset b a r, WriteLog [] [] [] []) ins).1). lia.
Qed.

End write.

(** ** Transaction-level models

    A model of a register block that takes a whole read or write as one step
    is implemented by the processes when it follows their transactions. *)

Section read_inv.
Context {Reg Env : Type}.
Variable B : read_regs (Reg := Reg) (Env := Env).

(** [P] of the registers, at every clock. *)
Variable P : Reg -> Prop.

Lemma read_registers_inv d a r ins : (forall r, read_idle B (read_idle B r) = read_idle B r) ->
  P r -> (forall r, P r -> P (read_idle B r)) -> (forall i r, P (read_idle B r) -> P (read_done B i (read_idle B r))) ->
  P (read_state_regs (read_run B ins (read_reset d a r)).1).
Proof.
  intros Hidem Hr Hidle Hdone. induction ins as [|i ins IH] using rev_ind; [done|].
  pose proof (read_inv_run B Hidem d a r ins) as Hinv. unfold read_run in *. rewrite foldl_snoc.
  destruct (foldl (read_cycle B) _ ins) as [s l]. destruct Hinv as (done & rm & _ & _ & H). cbn [read_cycle fst] in *.
  unfold read_clock. destruct (readState s); cbn; [auto|].
  destruct H as (? & _ & _ & _ & Hregs & _). destruct (_ && _); [|done]. rewrite Hregs in *. auto.
Qed.

(** A response that the slave shows: the data and the response code are those for the registers in
    [READ_RESPONSE], which [READ_IDLE] has brought in order. *)
Lemma read_answer d a r ins s l : (forall r, read_idle B (read_idle B r) = read_idle B r) ->
  P r -> (forall r, P r -> P (read_idle B r)) -> (forall i r, P (read_idle B r) -> P (read_done B i (read_idle B r))) ->
  read_run B ins (read_reset d a r) = (s, l) -> axil_rvalid s = true ->
  exists e r', before l = [e] /\ P r' /\ read_state_regs s = read_idle B r' /\
    axil_rdata s = read_data B (readAddr s) e (read_idle B r') /\ axil_rresp s = read_resp B (readAddr s) (read_idle B r').
Proof.
  intros Hidem Hr Hidle Hdone E Hv. pose proof (read_inv_run B Hidem d a r ins) as Hinv.
  pose proof (read_registers_inv d a r ins Hidem Hr Hidle Hdone) as HP.
  assert (Hresp : axil_rvalid s = true -> axil_rresp s = read_resp B (readAddr s) (read_state_regs s)).
  { clear Hv HP. revert s l E Hinv. induction ins as [|i ins IH] using rev_ind; intros s l E Hinv; [by injection E as <- <-|].
    pose proof (read_inv_run B Hidem d a r ins) as Hi. unfold read_run in *. rewrite foldl_snoc in E.
    destruct (foldl (read_cycle B) _ ins) as [s0 l0]. specialize (IH s0 l0 eq_refl Hi).
    destruct Hi as (done & rm & _ & _ & Hi). injection E as <- _. unfold read_clock. destruct (readState s0).
    - destruct Hi as (_ & -> & _). done.
    - cbn. by destruct (_ && _). }
  rewrite E in Hinv, HP. destruct Hinv as (done & rm & _ & _ & H). destruct (readState s).
  - destruct H as (_ & Hf & _). congruence.
  - destruct H as (b & _ & _ & _ & Hregs & Hdata). destruct (Hdata Hv) as (e & He & Hd). cbn [fst] in HP.
    exists e, (read_state_regs s). assert (Hid : read_idle B (read_state_regs s) = read_state_regs s) by by rewrite Hregs, Hidem.
    rewrite Hid. split_and!; try done. by apply Hresp.
Qed.
End read_inv.

Section read_model.
Context {Reg Env St : Type}.
Variable B : read_regs (Reg := Reg) (Env := Env).
Variable model : Z -> St -> Z * St.
(** The model with the counters at the time of the read. *)
Variable put : Env -> St -> St.
Variable R : Reg -> St -> Prop.

Definition model_read (acc : list Z * St) (op : Z * Env) : list Z * St :=
  let '(d, st) := model op.1 (put op.2 acc.2) in (acc.1 ++ [d], st).

Definition read_simulation : Prop := forall a e r st, R r st ->
  (read_transaction B a e r).1 = (model a (put e st)).1 /\ R (read_transaction B a e r).2 (model a (put e st)).2.
End read_model.

Section write_model.
Context {Reg Port Payload St : Type} `{EqDecision Port}.
Variable B : write_regs (Reg := Reg) (Port := Port) (Payload := Payload).
Variable model : Z -> Z -> St -> St.
Variable R : Reg * list (Port * Payload) -> St -> Prop.

Definition write_simulation : Prop := forall op acc st, R acc st -> R (write_transaction B acc op) (model op.1 op.2 st).

(** ** Strobes

    An output that a write raises and [WRITE_IDLE] lowers rises once for every
    transaction that raises it. *)
Variable strobe : Reg -> bool.
Variable ports : list Port.

Definition rises_at (s : write_vars) (i : write_in) : bool :=
  strobe (write_state_regs (write_clock B s i)) && negb (strobe (write_state_regs s)).

Definition count_step (acc : nat * (write_vars * write_log)) (i : write_in) : nat * (write_vars * write_log) :=
  ((acc.1 + Nat.b2n (rises_at acc.2.1 i))%nat, write_cycle B ports acc.2 i).

(** The rising edges during a run. *)
Definition rises (ins : list write_in) (s : write_vars) : nat :=
  (foldl count_step (0%nat, (s, WriteLog [] [] [] [])) ins).1.

Definition strobe_step (acc : nat * Reg) (op : Z * Z) : nat * Reg :=
  let r := (write_transaction B (acc.2, []) op).1 in ((acc.1 + Nat.b2n (strobe r))%nat, r).

Definition strobes (ops : list (Z * Z)) (r : Reg) : nat := (foldl strobe_step (0%nat, r) ops).1.

Hypothesis write_idle_idemp : forall r, write_idle B (write_idle B r) = write_idle B r.
Hypothesis ports_nodup : NoDup ports.
Hypothesis ports_all : forall p, p ∈ ports.
Hypothesis idle_lowers : forall r, strobe (write_idle B r) = false.

Lemma count_run ins s : (foldl count_step (0%nat, (s, WriteLog [] [] [] [])) ins).2 = write_run B ports ins s.
Proof.
  induction ins as [|i ins IH] using rev_ind; [done|]. unfold write_run in *. by rewrite !foldl_snoc, <- IH.
Qed.

Lemma rises_snoc ins i s : rises (ins ++ [i]) s = (rises ins s + Nat.b2n (rises_at (write_run B ports ins s).1 i))%nat.
Proof. unfold rises. rewrite foldl_snoc. unfold count_step at 1. by rewrite count_run. Qed.

Lemma write_transaction_reg acc op : (write_transaction B (acc.1, []) op).1 = (write_transaction B acc op).1.
Proof. unfold write_transaction. by destruct (write_data _ _ _ _). Qed.

Lemma strobe_run ops r : (foldl strobe_step (0%nat, r) ops).2 = (writes B ops r).1.
Proof.
  induction ops as [|op ops IH] using rev_ind; [done|]. unfold writes in *. rewrite !foldl_snoc.
  unfold strobe_step at 1. cbn [snd]. by rewrite IH, write_transaction_reg.
Qed.

Lemma strobes_snoc ops op r : strobes (ops ++ [op]) r =
  (strobes ops r + Nat.b2n (strobe (write_transaction B (writes B ops r) op).1))%nat.
Proof.
  unfold strobes. rewrite foldl_snoc. unfold strobe_step at 1. cbn [fst].
  by rewrite strobe_run, write_transaction_reg.
Qed.

Lemma zip_unmatched (aws x ws : list Z) : (length ws <= length aws)%nat -> zip (aws ++ x) ws = zip aws ws.
Proof. intros H. by rewrite zip_with_app_l, take_ge, drop_ge, zip_with_nil_r, app_nil_r. Qed.

(** [P] of the registers, at every clock. *)
Lemma write_registers_inv (P : Reg -> Prop) b a r ins : P r -> (forall r, P r -> P (write_idle B r)) ->
  (forall i d r, P (write_idle B r) -> P (write_data B i d (write_idle B r)).1) ->
  P (write_state_regs (write_run B ports ins (write_reset b a r)).1).
Proof using write_idle_idemp ports_nodup ports_all.
  intros Hr Hidle Hdata. induction ins as [|i ins IH] using rev_ind; [done|].
  pose proof (write_inv_run B ports write_idle_idemp ports_nodup ports_all b a r ins) as Hinv.
  unfold write_run in *. rewrite foldl_snoc. destruct (foldl (write_cycle B ports) _ ins) as [s l].
  destruct Hinv as (done & rm & outs & _ & _ & _ & H). cbn [write_cycle fst snd] in *.
  unfold write_clock. unfold write_at in H. destruct (writeState s); cbn; auto.
  destruct H as (? & _ & _ & _ & _ & _ & _ & _ & Hregs). destruct (_ && _); [|done]. rewrite Hregs in *.
  pose proof (Hdata (writeAddr s) (axil_wdata i) rm IH). by destruct (write_data _ _ _ _) as [? []].
Qed.

Lemma rises_strobes b a r ins s l : write_run B ports ins (write_reset b a r) = (s, l) ->
  rises ins (write_reset b a r) = strobes (zip (aw_log l) (w_log l)) r.
Proof.
  revert s l. induction ins as [|i ins IH] using rev_ind; intros s l E.
  { unfold write_run in E. injection E as <- <-. done. }
  pose proof (write_inv_run B ports write_idle_idemp ports_nodup ports_all b a r ins) as Hinv.
  rewrite rises_snoc. unfold write_run in *. rewrite foldl_snoc in E.
  destruct (foldl (write_cycle B ports) _ ins) as [s' l'] eqn:E'. specialize (IH s' l' eq_refl). rewrite IH. clear IH E'.
  injection E as _ <-. destruct Hinv as (done & rm & outs & Hw & Hl & _ & H). cbn [fst snd] in *.
  unfold rises_at, write_clock. unfold write_at in H. destruct (writeState s') as [| | |p]; cbn [write_state_regs aw_log w_log].
  - destruct H as (Haw & -> & _). cbn [andb]. rewrite idle_lowers, app_nil_r, zip_unmatched by (rewrite Haw; lia).
    cbn. lia.
  - destruct H as (c & Haw & -> & _ & _ & _ & _ & Haddr & Hregs). cbn [andb]. rewrite app_nil_r, Haw, Hregs, Haddr.
    destruct (axil_wready s' && axil_wvalid i); cbn [write_state_regs].
    + rewrite zip_unmatched, zip_with_app by (done || lia). change (zip [?x] [?y]) with [(x, y)].
      rewrite strobes_snoc, Hw. unfold write_transaction. cbn [fst snd].
      destruct (write_data _ _ _ _) as [r' []]; cbn [write_state_regs fst]; rewrite idle_lowers, andb_true_r; done.
    + rewrite idle_lowers, app_nil_r. cbn. lia.
  - destruct H as (_ & -> & -> & _). cbn [andb]. rewrite !app_nil_r, andb_negb_r. cbn. lia.
  - destruct H as (_ & -> & -> & _). cbn [andb]. rewrite !app_nil_r, andb_negb_r. cbn. lia.
Qed.
End write_model.

(** ** Reads and writes interleaved

    The two processes share no registers.  A model that keeps the registers of
    both in one state gives the same data and passes on the same commands for
    every interleaving of the transactions of the two. *)
Section both.
Context {RReg Env WReg Port Payload St : Type}.
Variable RB : read_regs (Reg := RReg) (Env := Env).
Variable WB : write_regs (Reg := WReg) (Port := Port) (Payload := Payload).
Variable read_model : Z -> St -> Z * St.
Variable put : Env -> St -> St.
Variable write_model : Z -> Z -> St -> St.
Variable R : RReg -> St -> Prop.
Variable RW : WReg * list (Port * Payload) -> St -> Prop.

Inductive bus_op := ReadOp (a : Z) (e : Env) | WriteOp (a d : Z).

Definition reads_of (ops : list bus_op) : list (Z * Env) :=
  omap (fun op => match op with ReadOp a e => Some (a, e) | WriteOp _ _ => None end) ops.

Definition writes_of (ops : list bus_op) : list (Z * Z) :=
  omap (fun op => match op with ReadOp _ _ => None | WriteOp a d => Some (a, d) end) ops.

Definition bus_step (acc : list Z * St) (op : bus_op) : list Z * St :=
  match op with
  | ReadOp a e => model_read read_model put acc (a, e)
  | WriteOp a d => (acc.1, write_model a d acc.2)
  end.

Definition bus_run (ops : list bus_op) (st : St) : list Z * St := foldl bus_step ([], st) ops.

Hypothesis read_sim : read_simulation RB read_model put R.
Hypothesis write_sim : write_simulation WB write_model RW.
Hypothesis read_frame : forall a e acc st, RW acc st -> RW acc (read_model a (put e st)).2.
Hypothesis write_frame : forall a d r st, R r st -> R r (write_model a d st).

Lemma bus_run_refines ops r w st : R r st -> RW (w, []) st ->
  (bus_run ops st).1 = (reads RB (reads_of ops) r).1 /\
  R (reads RB (reads_of ops) r).2 (bus_run ops st).2 /\ RW (writes WB (writes_of ops) w) (bus_run ops st).2.
Proof.
  intros HR HW. induction ops as [|op ops (IH1 & IH2 & IH3)] using rev_ind; [done|].
  unfold bus_run, reads_of, writes_of, reads, writes in *. rewrite foldl_snoc, !omap_app.
  destruct (foldl bus_step _ ops) as [ds st']. cbn [fst snd] in *. destruct op as [a e|a d]; cbn [omap list_omap].
  - rewrite foldl_snoc, app_nil_r. destruct (foldl (read_step RB) _ _) as [ds' r']. cbn [fst snd] in *. subst ds'.
    cbn [bus_step]. unfold model_read, read_step. cbn [fst snd]. specialize (read_sim a e r' st' IH2).
    specialize (read_frame a e _ st' IH3). destruct (read_transaction RB a e r'), (read_model a (put e st')).
    cbn [fst snd] in *. by destruct read_sim as [-> ?].
  - rewrite foldl_snoc, app_nil_r. cbn [bus_step fst snd]. split_and!; [done | by apply write_frame|].
    by apply (write_sim (a, d)).
Qed.
End both.
