(* ===== verification/RegisterBus.v ===== *)
(** The register blocks clock by clock: what [dma_controller.sv],
    [benchmark_controller.sv] and [ddr_controller.sv] in [src/hdl/common] do in
    the states of the processes of [AxiLite], and that they implement the
    transaction-level models of [DmaController], [BenchmarkController] and
    [DdrController], on which the theorems about the host software rest. *)
From S2P Require Import Prelude Tlb Mmio FpgaController DmaController BenchmarkController DdrController AxiLite.

(** [AXI_RESP_OK] and [AXI_RESP_SLVERR] *)
Definition AXI_RESP_OK : Z := 0.
Definition AXI_RESP_SLVERR : Z := 2.

(** ** The DDR controller *)
Module Ddr.

(** The registers of the read process. *)
Record regs := Regs { statsRegAddr : Z; read_length_upper : bool; write_length_upper : bool }.

Definition reset : regs := Regs 0 false false.

Definition idle (r : regs) : regs :=
  Regs (if statsRegAddr r =? 13 then 0 else statsRegAddr r) (read_length_upper r) (write_length_upper r).

(** A 48-bit counter is read in two halves. *)
Definition half (upper : bool) (c : Z) : Z := if negb upper then range c 31 0 else range c 47 32.

Definition data (i : Z) (t : ddr_stats) (r : regs) : Z :=
  match i with
  | 0x01 => stats_reg t (statsRegAddr r)
  | 0x03 => half (read_length_upper r) (read_length_counter t)
  | 0x04 => half (write_length_upper r) (write_length_counter t)
  | _ => 0xdeadbeef
  end.

Definition resp (i : Z) (r : regs) : Z :=
  match i with
  | 0x01 => if statsRegAddr r <? 13 then AXI_RESP_OK else AXI_RESP_SLVERR
  | 0x03 | 0x04 => AXI_RESP_OK
  | _ => AXI_RESP_SLVERR
  end.

Definition accepted (i : Z) (r : regs) : regs :=
  Regs (if i =? 0x01 then wrap 8 (statsRegAddr r + 1) else statsRegAddr r)
    (if i =? 0x03 then negb (read_length_upper r) else read_length_upper r)
    (if i =? 0x04 then negb (write_length_upper r) else write_length_upper r).

Definition read_process : read_regs :=
  ReadRegs (fun a => Z.shiftr (range a 11 0) 5) idle data resp accepted.

(** The write process answers every write with an error and has no command
    port. *)
Definition write_process : write_regs (Reg := unit) (Port := Empty_set) (Payload := unit) :=
  WriteRegs (fun _ => 0) (fun r => r) AXI_RESP_SLVERR (fun _ _ r => (r, None)) (fun _ => false) (fun _ _ => tt).

Definition related (r : regs) (s : ddr_ctrl) : Prop :=
  statsRegAddr r = DdrController.statsRegAddr s /\ read_length_upper r = DdrController.read_length_upper s /\
  write_length_upper r = DdrController.write_length_upper s.

Definition put (t : ddr_stats) (s : ddr_ctrl) : ddr_ctrl :=
  DdrCtrl (DdrController.statsRegAddr s) (DdrController.read_length_upper s) (DdrController.write_length_upper s) t.

Lemma ddr_idle_idemp r : idle (idle r) = idle r.
Proof. destruct r as [i u v]. unfold idle. cbn. destruct (i =? 13) eqn:E; [done | by rewrite E]. Qed.

Lemma ddr_simulates : read_simulation read_process ddr_ctrl_read put related.
Proof.
  intros a t [i u v] [i' u' v' t'] (E1 & E2 & E3). cbn in E1, E2, E3. subst i' u' v'.
  unfold read_transaction, ddr_ctrl_read, put, related. cbn -[range wrap].
  generalize (Z.shiftr (range a 11 0) 5). intros j.
  destruct j as [|[[[]|[]|]|[[]|[]|]|]|]; cbn -[range wrap]; unfold half; split; try done; by destruct (i =? 13).
Qed.

Definition in_range (r : regs) : Prop := 0 <= statsRegAddr r <= 13.

Lemma ddr_in_range_idle r : in_range r -> in_range (idle r) /\ statsRegAddr (idle r) < 13.
Proof. destruct r as [i u v]. unfold in_range. cbn. destruct (Z.eqb_spec i 13); cbn; lia. Qed.

Lemma ddr_in_range_accepted j r : in_range (idle r) -> in_range (accepted j (idle r)).
Proof.
  destruct r as [i u v]. unfold in_range. cbn -[wrap]. destruct (Z.eqb_spec i 13); cbn -[wrap]; intros ?;
    (destruct (j =? 1); [rewrite wrap_small by lia|]; lia).
Qed.

Lemma ddr_cursor_range d a ins : in_range (read_state_regs (read_run read_process ins (read_reset d a reset)).1).
Proof.
  apply (read_registers_inv read_process in_range); [apply ddr_idle_idemp | done | | apply ddr_in_range_accepted].
  intros r Hr. by apply ddr_in_range_idle.
Qed.

(** An answer to a read of the statistics. *)
Lemma ddr_stats_answer d a ins s l : read_run read_process ins (read_reset d a reset) = (s, l) ->
  axil_rvalid s = true -> readAddr s = 0x01 -> exists e, before l = [e] /\
    0 <= statsRegAddr (read_state_regs s) < 13 /\ axil_rdata s = stats_reg e (statsRegAddr (read_state_regs s)) /\
    axil_rresp s = AXI_RESP_OK.
Proof.
  intros E Hv Ha. destruct (read_answer read_process in_range d a reset ins s l) as (e & r & He & Hr & -> & Hd & Hresp); try done.
  - apply ddr_idle_idemp.
  - intros r Hr. by apply ddr_in_range_idle.
  - apply ddr_in_range_accepted.
  - destruct (ddr_in_range_idle r Hr) as [[H1 _] H2]. exists e. rewrite Hd, Hresp, Ha. cbn [read_data read_resp read_process read_idle data resp] in *.
    rewrite (proj2 (Z.ltb_lt _ _)) by done. done.
Qed.

(** Reads are all that changes the model. *)
Definition run (ops : list (Z * ddr_stats)) (s : ddr_ctrl) : list Z * ddr_ctrl :=
  foldl (model_read ddr_ctrl_read put) ([], s) ops.

Lemma run_reads ops s : related reset s -> (run ops s).1 = (reads read_process ops reset).1.
Proof.
  intros HR.
  assert (H : (run ops s).1 = (reads read_process ops reset).1 /\ related (reads read_process ops reset).2 (run ops s).2).
  { induction ops as [|[a e] ops [IH1 IH2]] using rev_ind; [done|].
    unfold run, reads in *. rewrite !foldl_snoc.
    destruct (foldl (read_step _) _ _) as [ds r'], (foldl (model_read _ _) _ _) as [ds' s']. cbn [fst snd] in *. subst ds'.
    unfold read_step, model_read. cbn [fst snd]. specialize (ddr_simulates a e r' s' IH2).
    destruct (read_transaction read_process a e r'), (ddr_ctrl_read a (put e s')). cbn [fst snd]. by intros [-> ?]. }
  apply H.
Qed.
End Ddr.

(** ** The DMA controller *)
Module Dma.

(** The registers of the read process; the counters, and whether the reads
    have been flushed, are inputs. *)
Record regs := Regs { debugRegAddr : Z; dma_read_length_upper : bool; dma_write_length_upper : bool }.

Record inputs := Inputs { dma_counters : dma_stats; dma_reads_flushed : bool }.

Definition reset : regs := Regs 0 false false.

Definition idle (r : regs) : regs :=
  Regs (if debugRegAddr r =? 10 then 0 else debugRegAddr r) (dma_read_length_upper r) (dma_write_length_upper r).

Definition data (i : Z) (e : inputs) (r : regs) : Z :=
  match i with
  | 0x0A =>
      if dma_reads_flushed e then Ddr.half (dma_read_length_upper r) (dma_read_length_counter (dma_counters e))
      else 0
  | 0x0B => Ddr.half (dma_write_length_upper r) (dma_write_length_counter (dma_counters e))
  | 0x0D => debug_reg (dma_counters e) (debugRegAddr r)
  | _ => 0xdeadbeef
  end.

Definition resp (i : Z) (r : regs) : Z :=
  match i with
  | 0x0D => if debugRegAddr r <? 10 then AXI_RESP_OK else AXI_RESP_SLVERR
  | 0x0A | 0x0B => AXI_RESP_OK
  | _ => AXI_RESP_SLVERR
  end.

Definition accepted (i : Z) (r : regs) : regs :=
  Regs (if i =? 0x0D then wrap 8 (debugRegAddr r + 1) else debugRegAddr r)
    (if i =? 0x0A then negb (dma_read_length_upper r) else dma_read_length_upper r)
    (if i =? 0x0B then negb (dma_write_length_upper r) else dma_write_length_upper r).

Definition read_process : read_regs := ReadRegs reg_index idle data resp accepted.

(** The registers of the write process: the words of the TLB command received
    so far, and the signals that reset the counters of transferred bytes. *)
Record wregs := WRegs {
  word_counter : Z; m_axis_tlb_interface_data : Z;
  reset_dma_write_length_counter : bool; reset_dma_read_length_counter : bool }.

Definition widle (r : wregs) : wregs := WRegs (word_counter r) (m_axis_tlb_interface_data r) false false.

(** The case of [GPIO_REG_TLB] over [word_counter]. *)
Definition tlb_word (wdata : Z) (r : wregs) : wregs * option unit :=
  let d := m_axis_tlb_interface_data r in
  let next := wrap 8 (word_counter r + 1) in
  let update wc d := WRegs wc d (reset_dma_write_length_counter r) (reset_dma_read_length_counter r) in
  match word_counter r with
  | 0 => (update next (set_range d 31 0 wdata), None)
  | 1 => (update next (set_range d 63 32 wdata), None)
  | 2 => (update next (set_range d 95 64 wdata), None)
  | 3 => (update next (set_range d 127 96 wdata), None)
  | 4 => (update 0 (set_range d 128 128 wdata), Some tt)
  | _ => (update next d, None)
  end.

Definition write_word (i wdata : Z) (r : wregs) : wregs * option unit :=
  match i with
  | 0x02 => tlb_word wdata r
  | 0x0A => (WRegs (word_counter r) (m_axis_tlb_interface_data r) (reset_dma_write_length_counter r) true, None)
  | 0x0B => (WRegs (word_counter r) (m_axis_tlb_interface_data r) true (reset_dma_read_length_counter r), None)
  | _ => (r, None)
  end.

(** The only port is that of the TLB. *)
Definition write_process : write_regs :=
  WriteRegs reg_index widle AXI_RESP_OK write_word (fun _ => true) (fun _ => m_axis_tlb_interface_data).

Definition related (r : regs) (s : dma_ctrl) : Prop :=
  debugRegAddr r = DmaController.debugRegAddr s /\
  dma_read_length_upper r = DmaController.dma_read_length_upper s /\
  dma_write_length_upper r = DmaController.dma_write_length_upper s.

Definition put (e : inputs) (s : dma_ctrl) : dma_ctrl :=
  DmaCtrl (DmaController.word_counter s) (DmaController.m_axis_tlb_interface_data s) (tlb_interface s)
    (write_resets s) (read_resets s) (DmaController.debugRegAddr s) (DmaController.dma_read_length_upper s)
    (DmaController.dma_write_length_upper s) (dma_reads_flushed e) (dma_counters e).

Lemma dma_idle_idemp r : idle (idle r) = idle r.
Proof. destruct r as [i u v]. unfold idle. cbn. destruct (i =? 10) eqn:E; [done | by rewrite E]. Qed.

Lemma widle_idemp r : widle (widle r) = widle r.
Proof. done. Qed.

Lemma dma_simulates : read_simulation read_process dma_ctrl_read put related.
Proof.
  intros a [t f] [i u v] s (E1 & E2 & E3). cbn in E1, E2, E3.
  unfold read_transaction, dma_ctrl_read, put, related. cbn -[range wrap reg_index].
  rewrite <- E1, <- E2, <- E3. generalize (reg_index a). intros j.
  destruct j as [|[[[[]|[]|]|[[]|[]|]|]|[[[]|[]|]|[[]|[]|]|]|]|]; cbn -[range wrap]; unfold Ddr.half; split; try done;
    by destruct (i =? 10).
Qed.

(** The registers, the commands passed on and the model after the same writes;
    the model counts the pulses. *)
Definition wrelated (tlb0 : list Z) (acc : wregs * list (unit * Z)) (s : dma_ctrl) : Prop :=
  word_counter acc.1 = DmaController.word_counter s /\
  m_axis_tlb_interface_data acc.1 = DmaController.m_axis_tlb_interface_data s /\
  tlb_interface s = tlb0 ++ acc.2.*2.

Lemma dma_wsimulates tlb0 : write_simulation write_process dma_ctrl_write (wrelated tlb0).
Proof.
  intros [a d] [[wc w pw pr] outs] s (E1 & E2 & E3). cbn in E1, E2, E3. subst wc w.
  unfold write_transaction, dma_ctrl_write. cbn -[set_range wrap reg_index].
  generalize (reg_index a). intros j. unfold write_word, tlb_word. cbn -[set_range wrap].
  destruct j as [|[[[[]|[]|]|[[]|[]|]|]|[[[]|[]|]|[[]|[]|]|]|]|];
    try (unfold wrelated; cbn; by rewrite ?app_nil_r).
  destruct (DmaController.word_counter s) as [|[[]|[[]|[]|]|]|] eqn:Ew;
    unfold wrelated; cbn -[set_range wrap]; rewrite ?app_nil_r; split_and!; try done.
  by rewrite E3, fmap_app, app_assoc.
Qed.

Lemma dma_read_frame tlb0 a e acc s : wrelated tlb0 acc s -> wrelated tlb0 acc (dma_ctrl_read a (put e s)).2.
Proof. unfold wrelated, dma_ctrl_read. intros H. by repeat case_match. Qed.

Lemma dma_write_frame a d r s : related r s -> related r (dma_ctrl_write a d s).
Proof. unfold related, dma_ctrl_write. intros H. by repeat case_match. Qed.

(** Every transaction that resets a counter of the model raises the signal. *)
Lemma write_raises r a d s :
  write_resets (dma_ctrl_write a d s) = (write_resets s +
    Nat.b2n (reset_dma_write_length_counter (write_transaction write_process (r, []) (a, d)).1))%nat /\
  read_resets (dma_ctrl_write a d s) = (read_resets s +
    Nat.b2n (reset_dma_read_length_counter (write_transaction write_process (r, []) (a, d)).1))%nat.
Proof.
  unfold write_transaction, dma_ctrl_write. destruct r as [wc w pw pr]. cbn -[set_range wrap reg_index].
  generalize (reg_index a). intros j. unfold write_word, tlb_word. cbn -[set_range wrap].
  destruct j as [|[[[[]|[]|]|[[]|[]|]|]|[[[]|[]|]|[[]|[]|]|]|]|]; cbn -[set_range wrap]; try lia.
  destruct (DmaController.word_counter s) as [|[[]|[[]|[]|]|]|], wc as [|[[]|[[]|[]|]|]|]; cbn; lia.
Qed.

(** The model after the reset. *)
Definition model_reset (d : Z) (f : bool) (t : dma_stats) : dma_ctrl := DmaCtrl 0 d [] 0 0 0 false false f t.

Definition run (ops : list (bus_op (Env := inputs))) (s : dma_ctrl) : list Z * dma_ctrl :=
  bus_run dma_ctrl_read put dma_ctrl_write ops s.

Lemma resets_run ops w s :
  write_resets (run ops s).2 =
    (write_resets s + strobes write_process reset_dma_write_length_counter (writes_of ops) w)%nat /\
  read_resets (run ops s).2 =
    (read_resets s + strobes write_process reset_dma_read_length_counter (writes_of ops) w)%nat.
Proof.
  induction ops as [|op ops [IH1 IH2]] using rev_ind; [unfold strobes; cbn; lia|].
  unfold run, bus_run, writes_of in *. rewrite foldl_snoc, omap_app.
  destruct (foldl _ _ ops) as [ds s']. cbn [snd] in *. destruct op as [a e|a d]; cbn [omap list_omap bus_step].
  - rewrite app_nil_r. unfold model_read. cbn [fst snd].
    assert (write_resets (dma_ctrl_read a (put e s')).2 = write_resets s' /\
            read_resets (dma_ctrl_read a (put e s')).2 = read_resets s') as [E1 E2]
      by (unfold dma_ctrl_read; by repeat case_match).
    destruct (dma_ctrl_read a (put e s')). cbn [snd] in *. by rewrite E1, E2.
  - rewrite !strobes_snoc. cbn [snd]. destruct (writes write_process _ w) as [w' outs].
    destruct (write_raises w' a d s') as [-> ->]. rewrite IH1, IH2, <- (write_transaction_reg _ (w', outs) (a, d)). cbn [fst]. lia.
Qed.

Definition in_range (r : regs) : Prop := 0 <= debugRegAddr r <= 10.

Lemma dma_in_range_idle r : in_range r -> in_range (idle r) /\ debugRegAddr (idle r) < 10.
Proof. destruct r as [i u v]. unfold in_range. cbn. destruct (Z.eqb_spec i 10); cbn; lia. Qed.

Lemma dma_in_range_accepted j r : in_range (idle r) -> in_range (accepted j (idle r)).
Proof.
  destruct r as [i u v]. unfold in_range. cbn -[wrap]. destruct (Z.eqb_spec i 10); cbn -[wrap]; intros ?;
    (destruct (j =? 13); [rewrite wrap_small by lia|]; lia).
Qed.

Lemma dma_cursor_range d a ins : in_range (read_state_regs (read_run read_process ins (read_reset d a reset)).1).
Proof.
  apply (read_registers_inv read_process in_range); [apply dma_idle_idemp | done | | apply dma_in_range_accepted].
  intros r Hr. by apply dma_in_range_idle.
Qed.

(** An answer to a read of the statistics. *)
Lemma dma_stats_answer d a ins s l : read_run read_process ins (read_reset d a reset) = (s, l) ->
  axil_rvalid s = true -> readAddr s = 0x0D -> exists e, before l = [e] /\
    0 <= debugRegAddr (read_state_regs s) < 10 /\
    axil_rdata s = debug_reg (dma_counters e) (debugRegAddr (read_state_regs s)) /\ axil_rresp s = AXI_RESP_OK.
Proof.
  intros E Hv Ha. destruct (read_answer read_process in_range d a reset ins s l) as (e & r & He & Hr & -> & Hd & Hresp); try done.
  - apply dma_idle_idemp.
  - intros r Hr. by apply dma_in_range_idle.
  - apply dma_in_range_accepted.
  - destruct (dma_in_range_idle r Hr) as [[H1 _] H2]. exists e. rewrite Hd, Hresp, Ha. cbn [read_data read_resp read_process read_idle data resp] in *.
    rewrite (proj2 (Z.ltb_lt _ _)) by done. done.
Qed.

Lemma dma_words_range b a d w r ins : 0 <= word_counter (write_state_regs
  (write_run write_process [tt] ins (write_reset b a (WRegs 0 d w r))).1) <= 4.
Proof.
  apply (write_registers_inv write_process [tt] widle_idemp) with (P := fun r => 0 <= word_counter r <= 4).
  - apply NoDup_singleton.
  - intros []. by left.
  - done.
  - done.
  - intros i v [wc x pw pr]. cbn. intros Hwc. unfold write_word, tlb_word. cbn -[set_range wrap].
    destruct i as [|[[[[]|[]|]|[[]|[]|]|]|[[[]|[]|]|[[]|[]|]|]|]|]; cbn; try lia.
    destruct wc as [|[[[]|[]|]|[[]|[]|]|]|]; (exfalso; lia) || (vm_compute; split; discriminate).
Qed.
End Dma.

(** ** The benchmark controller *)
Module Bench.

Record regs := Regs { ddr_bench_cycles_upper : bool; dma_bench_cycles_upper : bool }.

Record inputs := Inputs { ddr_bench_execution_cycles : Z; dma_bench_execution_cycles : Z }.

Definition reset : regs := Regs false false.

(** A 64-bit counter is read in two halves. *)
Definition half (upper : bool) (c : Z) : Z := if negb upper then range c 31 0 else range c 63 32.

Definition data (i : Z) (e : inputs) (r : regs) : Z :=
  match i with
  | 0x0D => half (ddr_bench_cycles_upper r) (ddr_bench_execution_cycles e)
  | 0x0E => half (dma_bench_cycles_upper r) (dma_bench_execution_cycles e)
  | _ => 0xdeadbeef
  end.

Definition resp (i : Z) (r : regs) : Z :=
  match i with 0x0D | 0x0E => AXI_RESP_OK | _ => AXI_RESP_SLVERR end.

Definition accepted (i : Z) (r : regs) : regs :=
  Regs (if i =? 0x0D then negb (ddr_bench_cycles_upper r) else ddr_bench_cycles_upper r)
    (if i =? 0x0E then negb (dma_bench_cycles_upper r) else dma_bench_cycles_upper r).

Definition read_process : read_regs := ReadRegs (fun a => Z.shiftr a 5) (fun r => r) data resp accepted.

Inductive port := DdrPort | DmaPort.

#[global] Instance port_eq_dec : EqDecision port.
Proof. solve_decision. Defined.

Record wregs := WRegs {
  word_counter : Z; ddr_bench_cmd_data : Z; ddr_bench_cmd_dest : Z; dma_bench_cmd_data : Z }.

(** The cases over [word_counter], of which there are two with the same fields. *)
Definition write_word (i wdata : Z) (r : wregs) : wregs * option port :=
  let next := wrap 8 (word_counter r + 1) in
  match i with
  | 0x02 =>
      if word_counter r =? 7 then
        (WRegs 0 (set_range (ddr_bench_cmd_data r) 192 192 (range wdata 0 0)) (range wdata 2 1) (dma_bench_cmd_data r),
         Some DdrPort)
      else (WRegs next (cmd_field (word_counter r) (ddr_bench_cmd_data r) wdata) (ddr_bench_cmd_dest r)
              (dma_bench_cmd_data r), None)
  | 0x03 =>
      if word_counter r =? 7 then
        (WRegs 0 (ddr_bench_cmd_data r) (ddr_bench_cmd_dest r) (set_range (dma_bench_cmd_data r) 192 192 (range wdata 0 0)),
         Some DmaPort)
      else (WRegs next (ddr_bench_cmd_data r) (ddr_bench_cmd_dest r)
              (cmd_field (word_counter r) (dma_bench_cmd_data r) wdata), None)
  | _ => (r, None)
  end.

(** [WRITE_IDLE] lowers the valid signal of one of the two ports only. *)
Definition write_process : write_regs :=
  WriteRegs (fun a => Z.shiftr a 5) (fun r => r) AXI_RESP_OK write_word
    (fun p => bool_decide (p = DmaPort))
    (fun p r => match p with
                | DdrPort => (ddr_bench_cmd_data r, ddr_bench_cmd_dest r)
                | DmaPort => (dma_bench_cmd_data r, 0)
                end).

Definition put (e : inputs) (s : bench_role) : bench_role :=
  BenchRole (BenchmarkController.word_counter s) (ddr_cmd_data s) (dma_cmd_data s) (ddr_cycles_upper s)
    (dma_cycles_upper s) (ddr_bench_execution_cycles e) (dma_bench_execution_cycles e) (ddr0_running s)
    (ddr1_running s) (dma_running s) (ddr_cmds s) (dma_cmds s).

Definition related (r : regs) (s : bench_role) : Prop :=
  ddr_bench_cycles_upper r = ddr_cycles_upper s /\ dma_bench_cycles_upper r = dma_cycles_upper s.

Definition ddr_commands (l : list (port * (Z * Z))) : list (bench_cmd * Z) :=
  omap (fun c => match c with (DdrPort, (d, dest)) => Some (cmd_of_word d, dest) | _ => None end) l.

Definition dma_commands (l : list (port * (Z * Z))) : list bench_cmd :=
  omap (fun c => match c with (DmaPort, (d, _)) => Some (cmd_of_word d) | _ => None end) l.

Definition wrelated (ddr0 : list (bench_cmd * Z)) (dma0 : list bench_cmd) (acc : wregs * list (port * (Z * Z)))
    (s : bench_role) : Prop :=
  word_counter acc.1 = BenchmarkController.word_counter s /\
  ddr_bench_cmd_data acc.1 = ddr_cmd_data s /\ dma_bench_cmd_data acc.1 = dma_cmd_data s /\
  ddr_cmds s = ddr0 ++ ddr_commands acc.2 /\ dma_cmds s = dma0 ++ dma_commands acc.2.

Lemma bench_simulates : read_simulation read_process bench_read put related.
Proof.
  intros a [c m] [u v] s (E1 & E2). cbn in E1, E2. subst u v.
  unfold read_transaction, bench_read, put, related. cbn -[range wrap].
  generalize (Z.shiftr a 5). intros j.
  destruct j as [|[[[[]|[]|]|[[]|[]|]|]|[[[]|[]|]|[[]|[]|]|]|]|]; by cbn -[range wrap].
Qed.

Section engines.
Variable dma_engine : progress -> bench_cmd -> progress.
Variable ddr_engine : Z -> progress -> bench_cmd -> progress.

Lemma bench_wsimulates ddr0 dma0 :
  write_simulation write_process (bench_write dma_engine ddr_engine) (wrelated ddr0 dma0).
Proof.
  intros [a d] [[wc w dest m] outs] s (E1 & E2 & E3 & E4 & E5). cbn in E1, E2, E3, E4, E5. subst wc w m.
  unfold write_transaction, bench_write. cbn -[set_range range wrap]. generalize (Z.shiftr a 5). intros j.
  assert (Hsame : wrelated ddr0 dma0 (WRegs (BenchmarkController.word_counter s) (ddr_cmd_data s) dest (dma_cmd_data s),
    outs ++ []) s) by (unfold wrelated; cbn; rewrite app_nil_r; done).
  unfold write_word. cbn -[set_range range wrap].
  destruct j as [|[[|[]|]|[|[]|]|]|]; try exact Hsame;
    destruct (BenchmarkController.word_counter s =? 7); unfold wrelated, ddr_commands, dma_commands in *;
    cbn -[set_range range wrap] in *; rewrite ?omap_app, ?app_nil_r, ?app_assoc; cbn -[set_range range wrap];
    rewrite ?app_nil_r; split_and!; try done; by rewrite ?E4, ?E5.
Qed.

Lemma bench_write_frame a d r s : related r s -> related r (bench_write dma_engine ddr_engine a d s).
Proof. unfold related, bench_write. intros H. by repeat case_match. Qed.
End engines.

Lemma bench_read_frame ddr0 dma0 a e acc s : wrelated ddr0 dma0 acc s -> wrelated ddr0 dma0 acc (bench_read a (put e s)).2.
Proof. unfold wrelated, bench_read. intros H. by repeat case_match. Qed.

Definition ports : list port := [DdrPort; DmaPort].

Lemma ports_nodup : NoDup ports.
Proof. by apply (bool_decide_unpack _). Qed.

Lemma ports_all p : p ∈ ports.
Proof. destruct p; by apply (bool_decide_unpack _). Qed.

Definition run (dma_engine : progress -> bench_cmd -> progress) (ddr_engine : Z -> progress -> bench_cmd -> progress)
    (ops : list (bus_op (Env := inputs))) (s : bench_role) : list Z * bench_role :=
  bus_run bench_read put (bench_write dma_engine ddr_engine) ops s.

Lemma bench_words_range b a x y z ins : 0 <= word_counter (write_state_regs
  (write_run write_process ports ins (write_reset b a (WRegs 0 x y z))).1) <= 7.
Proof.
  apply (write_registers_inv write_process ports (fun _ => eq_refl) ports_nodup ports_all)
    with (P := fun r => 0 <= word_counter r <= 7); [done..|].
  intros i v [wc d dest m]. cbn. intros Hwc. unfold write_word. cbn -[set_range range wrap cmd_field].
  destruct i as [|[[|[]|]|[|[]|]|]|]; cbn -[set_range range wrap cmd_field]; try lia;
    (destruct (Z.eqb_spec wc 7); cbn -[wrap]; [lia | rewrite wrap_small by lia; lia]).
Qed.
End Bench.

(** ** Properties *)

Lemma tt_nodup : NoDup [tt].
Proof. apply NoDup_singleton. Qed.

Lemma tt_all p : p ∈ [tt].
Proof. destruct p. by left. Qed.

(** C18: The DMA controller implements its transaction-level model at the level of
    clock cycles: for all signals of the bus master and of the TLB, from the
    reset on and whatever the registers without reset hold, the data returned
    are those of the model on the accepted addresses, each with the counters of
    the clock before the transfer; the TLB gets the mappings that the model
    gets, each once and in the same order, with at most one that it has not
    yet accepted, whose write is then unanswered; and each of the signals that
    reset the byte counters rises once for every write that asks for it.  This
    holds for every interleaving of the reads with the writes. *)
Theorem dma_registers_refine rdata raddr bresp waddr d w r f t ins sr lr sw lw ops :
  read_run Dma.read_process ins.*1 (read_reset rdata raddr Dma.reset) = (sr, lr) ->
  write_run Dma.write_process [tt] ins.*2 (write_reset bresp waddr (Dma.WRegs 0 d w r)) = (sw, lw) ->
  reads_of ops = zip (ar_log lr) (sampled lr) -> writes_of ops = zip (aw_log lw) (w_log lw) ->
  let s := (Dma.run ops (Dma.model_reset d f t)).2 in
  r_log lr = (Dma.run ops (Dma.model_reset d f t)).1 /\
  (length (r_log lr) <= length (ar_log lr) <= length (r_log lr) + 1)%nat /\
  Forall (fun x => x = AXI_RESP_OK) (b_log lw) /\
  (length (b_log lw) <= length (w_log lw) <= length (aw_log lw))%nat /\ (length (aw_log lw) <= length (b_log lw) + 1)%nat /\
  (exists rest, tlb_interface s = (cmd_log lw).*2 ++ rest /\ (length rest <= 1)%nat /\
     (length (b_log lw) = length (w_log lw) -> rest = [])) /\
  rises Dma.write_process Dma.reset_dma_write_length_counter [tt] ins.*2 (write_reset bresp waddr (Dma.WRegs 0 d w r))
    = write_resets s /\
  rises Dma.write_process Dma.reset_dma_read_length_counter [tt] ins.*2 (write_reset bresp waddr (Dma.WRegs 0 d w r))
    = read_resets s.
Proof.
  intros Er Ew Ho Hw s.
  destruct (reads_refine Dma.read_process Dma.dma_idle_idemp _ _ _ _ _ _ Er) as (Hlr & _ & rm & Hreads & _).
  destruct (writes_refine Dma.write_process _ Dma.widle_idemp tt_nodup tt_all _ _ _ _ _ _ Ew)
    as (Hlw & Hla & Hb & wm & rest & Hwrites & Hl1 & Hall).
  destruct (Dma.resets_run ops (Dma.WRegs 0 d w r) (Dma.model_reset d f t)) as [Hrw Hrr].
  rewrite !(rises_strobes Dma.write_process _ _ Dma.widle_idemp tt_nodup tt_all (fun _ => eq_refl) _ _ _ _ _ _ Ew), <- Hw.
  destruct (bus_run_refines _ _ _ _ _ _ _ Dma.dma_simulates (Dma.dma_wsimulates []) (Dma.dma_read_frame []) Dma.dma_write_frame
    ops Dma.reset (Dma.WRegs 0 d w r) (Dma.model_reset d f t)) as (H1 & _ & _ & _ & H3); [done..|].
  unfold Dma.run in *. fold s in Hrw, Hrr, H3. rewrite Ho, Hreads in H1. rewrite Hw, Hwrites in H3. cbn [fst snd app] in *.
  split_and!; [done | lia.. | done | lia | lia | lia | | done | done].
  exists (rest.*2). rewrite H3, fmap_app, length_fmap. split_and!; [done..|].
  intros H. by destruct (Hall H) as [-> _].
Qed.

(** The benchmark controller implements its transaction-level model in the
    same sense: the cycle counts returned are those of the model, and the
    commands that the two benchmark ports pass on are those of the model,
    each once and in order, with at most one that is not yet accepted. *)
Theorem bench_registers_refine dma_engine ddr_engine rdata raddr bresp waddr w s0 ins sr lr sw lw ops :
  Bench.related Bench.reset s0 -> Bench.wrelated [] [] (w, []) s0 ->
  read_run Bench.read_process ins.*1 (read_reset rdata raddr Bench.reset) = (sr, lr) ->
  write_run Bench.write_process Bench.ports ins.*2 (write_reset bresp waddr w) = (sw, lw) ->
  reads_of ops = zip (ar_log lr) (sampled lr) -> writes_of ops = zip (aw_log lw) (w_log lw) ->
  let s := (Bench.run dma_engine ddr_engine ops s0).2 in
  r_log lr = (Bench.run dma_engine ddr_engine ops s0).1 /\
  (length (r_log lr) <= length (ar_log lr) <= length (r_log lr) + 1)%nat /\
  Forall (fun x => x = AXI_RESP_OK) (b_log lw) /\
  (length (b_log lw) <= length (w_log lw) <= length (aw_log lw))%nat /\
  (length (aw_log lw) <= length (b_log lw) + 1)%nat /\
  exists rest, ddr_cmds s = Bench.ddr_commands (cmd_log lw ++ rest) /\
    dma_cmds s = Bench.dma_commands (cmd_log lw ++ rest) /\ (length rest <= 1)%nat /\
    (length (b_log lw) = length (w_log lw) -> rest = []).
Proof.
  intros HR HW Er Ew Ho Hw s.
  destruct (reads_refine Bench.read_process (fun _ => eq_refl) _ _ _ _ _ _ Er) as (Hlr & _ & rm & Hreads & _).
  destruct (writes_refine Bench.write_process _ (fun _ => eq_refl) Bench.ports_nodup Bench.ports_all _ _ _ _ _ _ Ew)
    as (Hlw & Hla & Hb & wm & rest & Hwrites & Hl1 & Hall).
  destruct (bus_run_refines _ _ _ _ _ _ _ Bench.bench_simulates (Bench.bench_wsimulates dma_engine ddr_engine [] [])
    (Bench.bench_read_frame [] []) (Bench.bench_write_frame dma_engine ddr_engine) ops Bench.reset w s0 HR HW) as (H1 & _ & H2).
  unfold Bench.run in *. fold s in H2. rewrite Ho, Hreads in H1. rewrite Hw, Hwrites in H2.
  destruct H2 as (_ & _ & _ & H3 & H4). split_and!; [done | lia.. | done | lia | lia | lia |].
  exists rest. split_and!; [done.. |]. intros H. by destruct (Hall H).
Qed.

(** The DDR controller implements its transaction-level model in the same
    sense, and answers every write with an error. *)
Theorem ddr_registers_refine rdata raddr bresp waddr t ins sr lr sw lw :
  read_run Ddr.read_process ins.*1 (read_reset rdata raddr Ddr.reset) = (sr, lr) ->
  write_run Ddr.write_process [] ins.*2 (write_reset bresp waddr tt) = (sw, lw) ->
  r_log lr = (Ddr.run (zip (ar_log lr) (sampled lr)) (DdrCtrl 0 false false t)).1 /\
  (length (r_log lr) <= length (ar_log lr) <= length (r_log lr) + 1)%nat /\
  Forall (fun x => x = AXI_RESP_SLVERR) (b_log lw) /\
  (length (b_log lw) <= length (w_log lw) <= length (aw_log lw))%nat /\
  (length (aw_log lw) <= length (b_log lw) + 1)%nat.
Proof.
  intros Er Ew.
  destruct (reads_refine Ddr.read_process Ddr.ddr_idle_idemp _ _ _ _ _ _ Er) as (Hlr & _ & rm & Hreads & _).
  destruct (writes_refine Ddr.write_process [] (fun _ => eq_refl) (NoDup_nil_2) (fun p => match p with end)
    _ _ _ _ _ _ Ew) as (Hlw & Hla & Hb & _).
  split_and!; [| lia.. | done | lia | lia | lia].
  rewrite Ddr.run_reads by done. by rewrite Hreads.
Qed.

(** Every access completes: whatever has happened since the reset, four clocks
    after the master presents an address and accepts data a read has
    returned its data, and a write has been answered after five clocks if the
    receivers of the commands are ready. *)
Theorem register_accesses_complete rdata raddr bresp waddr w rins wins rmore wmore :
  length rmore = 4%nat -> Forall read_waiting rmore -> (5 <= length wmore)%nat -> Forall write_waiting wmore ->
  (length (r_log (read_run Dma.read_process rins (read_reset rdata raddr Dma.reset)).2) <
   length (r_log (read_run Dma.read_process (rins ++ rmore) (read_reset rdata raddr Dma.reset)).2))%nat /\
  (length (b_log (write_run Dma.write_process [tt] wins (write_reset bresp waddr w)).2) <
   length (b_log (write_run Dma.write_process [tt] (wins ++ wmore) (write_reset bresp waddr w)).2))%nat.
Proof.
  intros Hr Hrw Hl Hww. split.
  - by apply (read_progress Dma.read_process Dma.dma_idle_idemp).
  - by apply (write_progress Dma.write_process [tt] Dma.widle_idemp tt_nodup tt_all).
Qed.

(** C34: The registers stay in their ranges.  At every clock after the reset the
    cursors of the statistics are at most the number of counters, and whenever the DMA or the DDR controller shows the
    answer to a read of the statistics, its cursor is the index of a counter, the data is this
    counter as it was one clock before and the response is OK (the
    cursor after the last counter goes back to the first before it is used); and the word counters of
    the commands are at most the index of their last word, so that no word
    of a command is dropped. *)
Theorem register_ranges rdata raddr bresp waddr d w r b0 b1 b2 wins dins bins eins :
  let '(ds, dl) := read_run Dma.read_process dins (read_reset rdata raddr Dma.reset) in
  let dw := write_state_regs (write_run Dma.write_process [tt] wins (write_reset bresp waddr (Dma.WRegs 0 d w r))).1 in
  let bw := write_state_regs (write_run Bench.write_process Bench.ports bins
    (write_reset bresp waddr (Bench.WRegs 0 b0 b1 b2))).1 in
  let '(es, el) := read_run Ddr.read_process eins (read_reset rdata raddr Ddr.reset) in
  let dcursor := Dma.debugRegAddr (read_state_regs ds) in
  let ecursor := Ddr.statsRegAddr (read_state_regs es) in
  0 <= dcursor <= 10 /\ 0 <= ecursor <= 13 /\
  (axil_rvalid ds = true -> readAddr ds = 0x0D -> exists e, before dl = [e] /\ 0 <= dcursor < 10 /\
     axil_rdata ds = debug_reg (Dma.dma_counters e) dcursor /\ axil_rresp ds = AXI_RESP_OK) /\
  (axil_rvalid es = true -> readAddr es = 0x01 -> exists e, before el = [e] /\ 0 <= ecursor < 13 /\
     axil_rdata es = stats_reg e ecursor /\ axil_rresp es = AXI_RESP_OK) /\
  0 <= Dma.word_counter dw <= 4 /\ 0 <= Bench.word_counter bw <= 7.
Proof.
  pose proof (Dma.dma_cursor_range rdata raddr dins) as H1. pose proof (Ddr.ddr_cursor_range rdata raddr eins) as H2.
  destruct (read_run Dma.read_process _ _) as [ds dl] eqn:Ed. destruct (read_run Ddr.read_process _ _) as [es el] eqn:Ee.
  split_and!; try apply H1; try apply H2; try apply Dma.dma_words_range; try apply Bench.bench_words_range.
  - exact (Dma.dma_stats_answer _ _ _ _ _ Ed).
  - exact (Ddr.ddr_stats_answer _ _ _ _ _ Ee).
Qed.

(** ** Findings *)

(** The data of a read changes while [RVALID] is set and [RREADY] is not, when the
    counter changes: the protocol asks a slave to keep it. *)
Lemma read_data_unstable : exists ins1 i,
  let s := (read_run Ddr.read_process ins1 (read_reset 0 0 Ddr.reset)).1 in
  axil_rvalid s = true /\ axil_rready i = false /\ axil_rvalid (read_clock Ddr.read_process s i) = true /\
  axil_rdata (read_clock Ddr.read_process s i) <> axil_rdata s.
Proof.
  set (t n := DdrStats n 0 0 0 0 0 0 0 0 0 0 0 false false).
  exists (ReadIn true 32 false <$> [t 0; t 0; t 0]), (ReadIn true 32 false (t 1)). by vm_compute.
Qed.

(** ** Witnesses *)


(** The clocks of one access by a master that waits for it. *)
Definition example_read {Env} (a : Z) (e : Env) : list read_in := replicate 4 (ReadIn true a true e).
Definition example_write {Port} (a d : Z) : list (write_in (Port := Port)) :=
  replicate 4 (WriteIn true a true d true (fun _ => true)).

Definition example_counters : Dma.inputs := Dma.Inputs (DmaStats 1 2 3 4 5 6 7 8 9 10) true.

(** A mapping is written while the statistics are read. *)
Definition dma_example : list (read_in (Env := Dma.inputs) * write_in (Port := unit)) :=
  zip (concat (replicate 7 (example_read (4096 + 13 * 32) example_counters)) : list read_in)
      (example_write 4160 1 ++ example_write 4160 2 ++ example_write 4160 3 ++ example_write 4160 4 ++
       example_write 4160 1 ++ replicate 4 (WriteIn false 0 false 0 true (fun _ => true))).

Definition example_ops {Env} (lr : read_log) {Port Payload} (lw : write_log (Port := Port) (Payload := Payload)) :
    list (bus_op (Env := Env)) :=
  ((fun x => ReadOp x.1 x.2) <$> zip (ar_log lr) (sampled lr)) ++ ((fun x => WriteOp x.1 x.2) <$> zip (aw_log lw) (w_log lw)).

Definition dma_example_r : read_log := (read_run Dma.read_process dma_example.*1 (read_reset 0 0 Dma.reset)).2.
Definition dma_example_w : write_log :=
  (write_run Dma.write_process [tt] dma_example.*2 (write_reset 0 0 (Dma.WRegs 0 0 true true))).2.


(** The run passes one mapping on and returns six counters. *)
Example dma_example_logs :
  cmd_log dma_example_w = [(tt, 2 ^ 128 + 4 * 2 ^ 96 + 3 * 2 ^ 64 + 2 * 2 ^ 32 + 1)] /\
  r_log dma_example_r = [1; 2; 3; 4; 5; 6].
Proof. by vm_compute. Qed.

Lemma dma_registers_refine_witness :
  r_log dma_example_r =
    (Dma.run (example_ops dma_example_r dma_example_w)
      (Dma.model_reset 0 true (Dma.dma_counters example_counters))).1 /\
  tlb_interface (Dma.run (example_ops dma_example_r dma_example_w)
    (Dma.model_reset 0 true (Dma.dma_counters example_counters))).2 = (cmd_log dma_example_w).*2.
Proof.
  pose proof (dma_registers_refine 0 0 0 0 0 true true true (Dma.dma_counters example_counters) dma_example
    (read_run Dma.read_process dma_example.*1 (read_reset 0 0 Dma.reset)).1 dma_example_r
    (write_run Dma.write_process [tt] dma_example.*2 (write_reset 0 0 (Dma.WRegs 0 0 true true))).1 dma_example_w
    (example_ops dma_example_r dma_example_w) (surjective_pairing _) (surjective_pairing _)
    ltac:(by vm_compute) ltac:(by vm_compute)) as (H & _ & _ & _ & _ & (rest & Ht & _ & Hr) & _).
  assert (rest = []) as -> by (apply Hr; by vm_compute).
  rewrite app_nil_r in Ht. exact (conj H Ht).
Defined.

(** The answer to the first read of the statistics is shown after three clocks. *)
Definition example_shown : read_vars * read_log :=
  read_run Dma.read_process (replicate 3 (ReadIn true (4096 + 13 * 32) true example_counters)) (read_reset 0 0 Dma.reset).

Lemma register_ranges_witness : axil_rvalid example_shown.1 = true /\
  exists e, before example_shown.2 = [e] /\ axil_rdata example_shown.1 = debug_reg (Dma.dma_counters e) 0 /\
    axil_rresp example_shown.1 = AXI_RESP_OK.
Proof.
  split; [vm_compute; reflexivity|].
  destruct (register_ranges 0 0 0 0 0 true true 0 0 0 [] (replicate 3 (ReadIn true (4096 + 13 * 32) true example_counters)) [] [])
    as (_ & _ & H & _). destruct (H ltac:(by vm_compute) ltac:(by vm_compute)) as (e & H1 & _ & H2 & H3).
  exists e. split; [exact H1|]. split; [exact H2 | exact H3].
Defined.

(** A DDR benchmark is started while its cycles are read; the board is the one
    on which no engine reacts. *)
Definition bench_example : list (read_in (Env := Bench.inputs) * write_in (Port := Bench.port)) :=
  zip (concat (replicate 9 (example_read (13 * 32) (Bench.Inputs (7 * 2 ^ 32 + 5) 0))))
      (concat ((fun k => example_write 64 k) <$> [1; 2; 3; 4; 5; 6; 7; 3]) ++
       replicate 4 (WriteIn false 0 false 0 true (fun _ => true))).

Definition bench_example_r : read_log :=
  (read_run Bench.read_process bench_example.*1 (read_reset 0 0 Bench.reset)).2.
Definition bench_example_w : write_log :=
  (write_run Bench.write_process Bench.ports bench_example.*2 (write_reset 0 0 (Bench.WRegs 0 0 0 0))).2.

Example bench_example_logs :
  Bench.ddr_commands (cmd_log bench_example_w) = [(BenchCmd (2 * 2 ^ 32 + 1) (4 * 2 ^ 32 + 3) 5 6 7 true, 1)] /\
  r_log bench_example_r = [5; 7; 5; 7; 5; 7; 5; 7; 5].
Proof. by vm_compute. Qed.

Definition bench_example_ops : list bus_op := example_ops bench_example_r bench_example_w.
Definition bench_example_model : bench_role := BenchRole 0 0 0 false false 0 0 None None None [] [].

Lemma bench_registers_refine_witness :
  r_log bench_example_r = (Bench.run (fun p _ => p) (fun _ p _ => p) bench_example_ops bench_example_model).1 /\
  Forall (fun x => x = AXI_RESP_OK) (b_log bench_example_w).
Proof.
  pose proof (bench_registers_refine (fun p _ => p) (fun _ p _ => p) 0 0 0 0 (Bench.WRegs 0 0 0 0)
    bench_example_model bench_example
    (read_run Bench.read_process bench_example.*1 (read_reset 0 0 Bench.reset)).1 bench_example_r
    (write_run Bench.write_process Bench.ports bench_example.*2 (write_reset 0 0 (Bench.WRegs 0 0 0 0))).1
    bench_example_w bench_example_ops (conj eq_refl eq_refl) ltac:(by vm_compute)
    (surjective_pairing _) (surjective_pairing _) ltac:(by vm_compute) ltac:(by vm_compute)) as (H & _ & Hb & _).
  exact (conj H Hb).
Defined.

(** The statistics of a channel are read while a write is answered with an
    error. *)
Definition ddr_example : list (read_in (Env := ddr_stats) * write_in (Port := Empty_set)) :=
  zip (concat (replicate 2 (example_read (8192 + 32) (DdrStats 8 9 0 0 0 0 0 0 0 0 0 0 false false))))
      (example_write 8192 1 ++ example_write 8192 1).

Definition ddr_example_r : read_log :=
  (read_run Ddr.read_process ddr_example.*1 (read_reset 0 0 Ddr.reset)).2.

Lemma ddr_registers_refine_witness : r_log ddr_example_r =
  (Ddr.run (zip (ar_log ddr_example_r) (sampled ddr_example_r))
    (DdrCtrl 0 false false (DdrStats 0 0 0 0 0 0 0 0 0 0 0 0 false false))).1 /\
  r_log ddr_example_r = [8; 9].
Proof.
  pose proof (ddr_registers_refine 0 0 0 0 (DdrStats 0 0 0 0 0 0 0 0 0 0 0 0 false false) ddr_example
    (read_run Ddr.read_process ddr_example.*1 (read_reset 0 0 Ddr.reset)).1 ddr_example_r
    (write_run Ddr.write_process [] ddr_example.*2 (write_reset 0 0 tt)).1
    (write_run Ddr.write_process [] ddr_example.*2 (write_reset 0 0 tt)).2
    (surjective_pairing _) (surjective_pairing _)) as (H & _).
  split; [exact H | by vm_compute].
Defined.

Lemma register_accesses_complete_witness :
  (0 < length (r_log (read_run Dma.read_process (example_read 4512 example_counters) (read_reset 0 0 Dma.reset)).2))%nat.
Proof.
  exact (proj1 (register_accesses_complete 0 0 0 0 (Dma.WRegs 0 0 true true) [] []
    (example_read 4512 example_counters) (replicate 5 (WriteIn true 4160 true 1 true (fun _ => true)))
    eq_refl ltac:(by repeat constructor) ltac:(cbn; lia) ltac:(by repeat constructor))).
Defined.
