(* ===== verification/Fpga.v ===== *)
(** [src/sw/src/fpga/Fpga.h], [src/sw/src/fpga/Fpga.cpp],
    [src/sw/src/fpga/Configuration.h]: the initialisation of the host library
    on top of the kernel driver ([XdmaIoctl]), the registers
    ([FpgaController], [DmaController]) and the allocator ([MemoryManager]),
    and that after it the TLB ([Tlb]) translates every address of the DMA
    buffer to the physical address the kernel gave it. *)
From stdpp Require Import gmap gmultiset.
From S2P Require Import Prelude AxiUtils Tlb Mmio FpgaController DmaController MemoryManager XdmaIoctl.

(** ** Data *)

Definition HUGE_PAGE_SIZE : Z := 2 * 1024 * 1024.
Definition NUM_HUGE_PAGES : Z := 1024.
Definition DMA_SIZE : Z := NUM_HUGE_PAGES * HUGE_PAGE_SIZE.

(** A pointer to an object of its own: null, valid, or dangling after
    [delete]. *)
Inductive ptr (A : Type) := Nullptr | Live (a : A) | Deleted.
Arguments Nullptr {A}.
Arguments Live {A}.
Arguments Deleted {A}.

(** The static members of [Fpga].  The [FpgaController] object has no state
    besides the mapping of the registers. *)
Record fpga_state := FpgaState {
  controller : ptr unit;
  mm : ptr mm_state;
  nodeId : Z;
  fd : Z;
  hfd : Z;
  huge_base : Z }.

Definition fpga_init : fpga_state := FpgaState Nullptr Nullptr 0 0 0 0.

(** The world of the host program: the device behind the mapped registers, the
    static members and the driver. *)
Record world (D : Type) := World { device : D; statics : fpga_state; drv : driver }.
Arguments World {D}.
Arguments device {D}.
Arguments statics {D}.
Arguments drv {D}.

#[export] Instance world_mmio D `{MmioDevice D} : MmioDevice (world D) := {|
  mmio_write a v w := World (mmio_write a v (device w)) (statics w) (drv w);
  mmio_read a w := let '(v, d) := mmio_read a (device w) in (v, World d (statics w) (drv w));
  elapse w := World (elapse (device w)) (statics w) (drv w) |}.

(** The results of the system calls: [open] and [mmap] give -1 on failure, and
    [memory] is what the mapped buffer and the rest of the process contain. *)
Record os := Os { open_huge : Z; mmap_huge : Z; open_control : Z; memory : Z -> Z }.

(** ** Operations *)

Section fpga.
Context {D : Type} `{MmioDevice D}.
Variable big_endian : bool.
Variable k : kernel.

Definition with_statics (f : fpga_state -> fpga_state) : M (world D) unit :=
  modify (fun w => World (device w) (f (statics w)) (drv w)).

(** A system call handled by the driver: the C library returns -1 for a
    negative result. *)
Definition ioctl (u : uaccess) (c : ioctl_call) : M (world D) (Z * ioctl_call) := fun w =>
  match char_xdma_ioctl k u c (drv w) with
  | Returns (r, c, s) => Returns ((if r <? 0 then -1 else r), c, World (device w) (statics w) s)
  | Exits => Exits
  | Undefined => Undefined
  | Running => Running
  end.

(** The loop [for (int i = 0; i < map.npages; i++)]; [dma_addr] are the entries
    of the array from [i] on. *)
Fixpoint insert_tlb_entries (dma_addr : list Z) (i npages vaddr : Z) : M (world D) unit :=
  if i <? npages then
    match dma_addr with
    | [] => undefined
    | p :: dma_addr =>
        writeTlb big_endian vaddr p (i =? 0);;
        insert_tlb_entries dma_addr (i + 1) npages (wrap 64 (vaddr + 2 * 1024 * 1024))
    end
  else mret tt.

Definition setNodeId (id : Z) : M (world D) unit :=
  with_statics (fun s => FpgaState (controller s) (mm s) id (fd s) (hfd s) (huge_base s)).

Definition initializeMemory (o : os) (u1 u2 : uaccess) : M (world D) unit :=
  with_statics (fun s => FpgaState (controller s) (mm s) (nodeId s) (fd s) (open_huge o) (huge_base s));;
  if open_huge o =? -1 then exits else
  with_statics (fun s => FpgaState (controller s) (mm s) (nodeId s) (fd s) (hfd s) (wrap 64 (mmap_huge o)));;
  if mmap_huge o =? -1 then exits else
  with_statics (fun s => FpgaState (controller s) (mm s) (nodeId s) (open_control o) (hfd s) (huge_base s));;
  if open_control o =? -1 then exits else
  with_statics (fun s => FpgaState (match controller s with Nullptr => Live tt | c => c end)
    (mm s) (nodeId s) (fd s) (hfd s) (huge_base s));;
  base ← gets (huge_base ∘ statics);
  (* a failure is printed and ignored *)
  ioctl u1 (IOCTL_XDMA_BUFFER_SET (XdmaHuge base DMA_SIZE));;
  let npages := DMA_SIZE / (2 * 1024 * 1024) in
  (* [calloc] *)
  let map := XdmaMapping npages (replicate (Z.to_nat npages) 0) in
  '(_, c) ← ioctl u2 (IOCTL_XDMA_MAPPING_GET map);
  let map := match c with IOCTL_XDMA_MAPPING_GET map => map | _ => map end in
  ctl ← gets (controller ∘ statics);
  match ctl with
  | Live _ =>
      insert_tlb_entries (map_dma_addr map) 0 (map_npages map) base;;
      with_statics (fun s => FpgaState (controller s) (Live (MemoryManager (memory o) base DMA_SIZE))
        (nodeId s) (fd s) (hfd s) (huge_base s))
  | _ => undefined
  end.

(** [delete] of a pointer, which keeps its value. *)
Definition delete_ptr {A} (p : ptr A) : M (world D) (ptr A) :=
  match p with Nullptr => mret Nullptr | Live _ => mret Deleted | Deleted => undefined end.

Definition clear : M (world D) unit :=
  s ← gets statics;
  c ← delete_ptr (controller s);
  m ← delete_ptr (mm s);
  with_statics (fun s => FpgaState c m (nodeId s) (fd s) (hfd s) (huge_base s)).

(** The allocation takes place, then the function ends without [return]. *)
Definition allocate (spurious : list bool) (size : Z) : M (world D) Z :=
  s ← gets statics;
  match mm s with
  | Live m =>
      let '(_, m) := MemoryManager.allocate spurious size m in
      with_statics (fun s => FpgaState (controller s) (Live m) (nodeId s) (fd s) (hfd s) (huge_base s));;
      flows_off_end
  | _ => undefined
  end.

Definition free (p : Z) : M (world D) unit :=
  s ← gets statics;
  match mm s with
  | Live m =>
      with_statics (fun s => FpgaState (controller s) (Live (mm_free p m)) (nodeId s) (fd s) (hfd s) (huge_base s))
  | _ => undefined
  end.
End fpga.

(** ** The blocks of the device, seen from the host program *)

Section blocks.
Context {D C : Type} {base : Z} {cwrite : Z -> Z -> C -> C} {cread : Z -> C -> Z * C} `{!MmioDevice D}.

#[export] Instance world_routed `{!Routed D C base cwrite cread} : Routed (world D) C base cwrite cread.
Proof.
  refine {| block := fun w => block (device w) |}.
  - intros a v w Ha. by apply route_write.
  - intros a w Ha. cbn. destruct (route_read a (device w) Ha) as [H1 H2].
    by destruct (mmio_read a (device w)) as [v d].
Defined.

#[export] Instance world_apart `{!Routed D C base cwrite cread} `{!Apart D C} : Apart (world D) C.
Proof.
  constructor.
  - intros a v w Ha. by apply (apart_write (D := D)).
  - intros a w Ha. cbn. pose proof (apart_read (D := D) a (device w) Ha) as Hr.
    by destruct (mmio_read a (device w)) as [v d].
Qed.
End blocks.

Lemma keeps_writeTlb {W X} `{MmioDevice W} (f : W -> X) v p b :
  (forall a x w, 4096 <= a < 8192 -> f (mmio_write a x w) = f w) -> keeps f (writeTlb false v p b).
Proof.
  intros Hf. assert (Hr : forall x, keeps f (writeReg_dma false TLB x)).
  { intros x. apply keeps_store. intros w. by apply Hf. }
  unfold writeTlb. auto 10 with keeps.
Qed.

Section host_keeps.
Context {D X : Type} `{MmioDevice D} (f : world D -> X).

Lemma keeps_insert_tlb_entries arr : (forall a x w, 4096 <= a < 8192 -> f (mmio_write a x w) = f w) ->
  forall i n v, keeps f (insert_tlb_entries false arr i n v).
Proof.
  intros Hf. pose proof (fun v p b => keeps_writeTlb f v p b Hf).
  induction arr as [|p arr IH]; intros i n v; cbn [insert_tlb_entries]; auto 10 with keeps.
Qed.

(** A part of the device that the TLB registers do not belong to. *)
Lemma keeps_initializeMemory k o u1 u2 : (forall a x w, 4096 <= a < 8192 -> f (mmio_write a x w) = f w) ->
  (forall d s s' v v', f (World d s v) = f (World d s' v')) -> keeps f (initializeMemory false k o u1 u2).
Proof.
  intros Hf Hd. pose proof (fun arr => keeps_insert_tlb_entries arr Hf).
  assert (Hs : forall g, keeps f (with_statics (D := D) g)) by (intros g; apply keeps_modify; intros [d s v]; apply Hd).
  assert (Hi : forall u c, keeps f (ioctl (D := D) k u c)).
  { intros u c [d s v] x w'. unfold ioctl. destruct (char_xdma_ioctl k u c _) as [[[r c'] v'] | | |]; [|done..].
    intros [= _ <-]. apply Hd. }
  unfold initializeMemory. auto 20 with keeps.
Qed.
End host_keeps.

(** ** The TLB entries *)

Section routed.
Context {D : Type} `{Routed D dma_ctrl 4096 dma_ctrl_write dma_ctrl_read}.
Variable k : kernel.

(** What the register accesses leave alone. *)
Definition same_host (w w' : world D) : Prop := statics w' = statics w /\ drv w' = drv w.

(** What the programming of the TLB leaves alone in the register block. *)
Definition same_stats (w w' : world D) : Prop :=
  stats (block w') = stats (block w) /\ debugRegAddr (block w') = debugRegAddr (block w).

Lemma writeTlb_same_host v p b w x w' : writeTlb false v p b w = Returns (x, w') -> same_host w w'.
Proof.
  intros HR. split; [by apply (keeps_writeTlb statics v p b) in HR | by apply (keeps_writeTlb drv v p b) in HR].
Qed.

Lemma insert_tlb_entries_all arr : forall rest i v w,
  word_counter (block w) = 0 -> 0 <= i -> 0 <= v -> v + Z.of_nat (length arr) * PAGE < 2 ^ 64 ->
  Forall (fun p => 0 <= p < 2 ^ 64) arr ->
  exists w', insert_tlb_entries false (arr ++ rest) i (i + Z.of_nat (length arr)) v w = Returns (tt, w') /\
    same_host w w' /\ same_stats w w' /\ word_counter (block w') = 0 /\
    mappings (block w') = mappings (block w) ++ page_mappings v (i =? 0) arr.
Proof.
  induction arr as [|p arr IH]; intros rest i v w Hwc Hi Hv Hb Hp.
  - exists w. rewrite Z.add_0_r. cbn [page_mappings]. rewrite app_nil_r.
    split; [|done]. destruct rest; cbn [insert_tlb_entries app]; by rewrite Z.ltb_irrefl.
  - apply Forall_cons in Hp as [Hp0 Hp]. cbn [length] in Hb. unfold PAGE in *.
    destruct (writeTlb_block v p (i =? 0) w Hwc) as (w1 & R1 & Hwc1 & M1 & Ht1 & Hd1'); [lia | done |].
    pose proof (writeTlb_same_host _ _ _ _ _ _ R1) as [Hs1 Hd1].
    destruct (IH rest (i + 1) (v + 0x200000) w1 Hwc1) as (w2 & R2 & [Hs2 Hd2] & [Ht2 Hd2'] & Hwc2 & M2); [lia | lia | lia | done |].
    exists w2. split_and!; [| split; congruence | split; congruence | done |].
    + cbn [insert_tlb_entries app length]. rewrite (proj2 (Z.ltb_lt _ _)) by lia.
      rewrite (bind_returns _ _ _ _ _ R1), (wrap_small 64) by lia.
      by replace (i + Z.of_nat (S (length arr))) with (i + 1 + Z.of_nat (length arr)) by lia.
    + rewrite M2, M1, <- app_assoc. cbn [page_mappings app]. by rewrite (proj2 (Z.eqb_neq (i + 1) 0)) by lia.
Qed.

(** ** Initialisation *)

(** The kernel pins the whole buffer at [base] as the pages [pgs], which are
    huge pages below 2^48. *)
Record buffer_pinned (base : Z) (pgs : list Z) : Prop := BufferPinned {
  bp_kernel : kernel_ok k;
  bp_pages : get_user_pages k base (requested k (XdmaHuge base DMA_SIZE)) = (Z.of_nat (length pgs), pgs);
  bp_length : Z.of_nat (length pgs) * 4096 = DMA_SIZE;
  bp_huge : huge_contiguous k pgs;
  bp_phys : Forall (fun pg => 0 <= page_to_phys k pg < 2 ^ 48) pgs;
  bp_vmalloc : vmalloc k (wrap 64 (requested k (XdmaHuge base DMA_SIZE) * 8)) = true;
  bp_kmalloc : is_Some (kmalloc k NUM_HUGE_PAGES) }.

(** The host program when [initializeMemory] turns to the driver. *)
Definition before_ioctls (o : os) (w : world D) : world D :=
  World (device w) (FpgaState (Live tt) (mm (statics w)) (nodeId (statics w)) (open_control o) (open_huge o) (mmap_huge o))
    (drv w).

Definition initial_map : xdma_huge_mapping := XdmaMapping NUM_HUGE_PAGES (replicate (Z.to_nat NUM_HUGE_PAGES) 0).

(** The two ioctl calls leave the array [arr] in the structure of the process. *)
Definition ioctls_give (u1 u2 : uaccess) (base : Z) (w : world D) (arr : list Z) : Prop :=
  exists r s, forall A (f : Z * ioctl_call -> M (world D) A),
    (ioctl k u1 (IOCTL_XDMA_BUFFER_SET (XdmaHuge base DMA_SIZE));;
     x ← ioctl k u2 (IOCTL_XDMA_MAPPING_GET initial_map); f x) w =
    f (r, IOCTL_XDMA_MAPPING_GET (XdmaMapping NUM_HUGE_PAGES arr)) (World (device w) (statics w) s).

Lemma ioctls_pinned base pgs (w : world D) : buffer_pinned base pgs ->
  exists arr, ioctls_give uaccess_ok uaccess_ok base w arr /\ Z.of_nat (length arr) = NUM_HUGE_PAGES /\ mapped k pgs arr.
Proof.
  intros [Hk Hg Hl Hc Hp Hv [buf Hbuf]]. unfold DMA_SIZE, NUM_HUGE_PAGES, HUGE_PAGE_SIZE in Hl.
  assert (Hn : Z.of_nat (length pgs) = 524288) by lia.
  set (s := buffer_set_result (XdmaHuge base DMA_SIZE) pgs (drv w)).
  assert (Hhp : huge_hnpages s = NUM_HUGE_PAGES) by (unfold s; cbn; by rewrite Hn).
  assert (Hwf : driver_wf s) by (by constructor; unfold s; cbn; [lia | |]).
  destruct (mapping_get_pages k uaccess_ok initial_map pgs buf s)
    as (arr & R & L & A); try done; [by rewrite Hhp | by rewrite Hhp |].
  rewrite Hhp in R, L. exists arr. split_and!; [| done | done]. exists 0, s.
  intros B f. unfold mbind at 1, M_bind at 1. unfold ioctl at 1. cbn [char_xdma_ioctl]. unfold mbind at 1, M_bind at 1.
  rewrite (buffer_set_pages k uaccess_ok (XdmaHuge base DMA_SIZE) _ pgs) by (done || lia). cbn [mret M_ret]. fold s.
  unfold mbind at 1, M_bind at 1. unfold ioctl. cbn [char_xdma_ioctl drv]. unfold mbind at 1, M_bind at 1. rewrite R.
  cbn [mret M_ret Z.ltb Z.compare map_dma_addr initial_map device statics].
  rewrite drop_ge by (rewrite length_replicate; lia). by rewrite app_nil_r.
Qed.

(** The process cannot be read in either call. *)
Lemma ioctls_fault u1 u2 base w : 0 < from_user u1 -> 0 < from_user u2 ->
  ioctls_give u1 u2 base w (replicate (Z.to_nat NUM_HUGE_PAGES) 0).
Proof.
  intros H1 H2. exists (from_user u2), (drv w). intros A f.
  unfold mbind, M_bind, ioctl. cbn [char_xdma_ioctl]. unfold mbind, M_bind, ioctl_do_buffer_set, ioctl_do_mapping_get.
  rewrite (proj2 (Z.eqb_neq (from_user u1) 0)), (proj2 (Z.eqb_neq (from_user u2) 0)) by lia. cbn [negb mret M_ret drv].
  by rewrite (proj2 (Z.ltb_ge _ _)) by lia.
Qed.

(** The entries the process reads are those the driver wrote. *)
Lemma mapped_phys_bound pgs arr : mapped k pgs arr -> Forall (fun pg => 0 <= page_to_phys k pg < 2 ^ 48) pgs ->
  Forall (fun p => 0 <= p < 2 ^ 48) arr.
Proof.
  intros Hm Hp. apply Forall_lookup. intros i p Hi. rewrite Hm in Hi.
  destruct (pgs !! (512 * i)%nat) as [pg|] eqn:E; [|done]. injection Hi as <-. by apply (Forall_lookup_1 _ _ _ _ Hp E).
Qed.

Lemma initializeMemory_run o u1 u2 arr (w : world D) :
  ioctls_give u1 u2 (mmap_huge o) (before_ioctls o w) arr -> Z.of_nat (length arr) = NUM_HUGE_PAGES ->
  Forall (fun p => 0 <= p < 2 ^ 48) arr ->
  word_counter (block w) = 0 -> controller (statics w) <> Deleted ->
  open_huge o <> -1 -> open_control o <> -1 -> 0 <= mmap_huge o -> mmap_huge o + DMA_SIZE < 2 ^ 64 ->
  exists w', initializeMemory false k o u1 u2 w = Returns (tt, w') /\
    statics w' = FpgaState (Live tt) (Live (MemoryManager (memory o) (mmap_huge o) DMA_SIZE)) (nodeId (statics w))
      (open_control o) (open_huge o) (mmap_huge o) /\ same_stats w w' /\
    mappings (block w') = mappings (block w) ++ page_mappings (mmap_huge o) true arr /\ word_counter (block w') = 0.
Proof.
  intros (r & s & R1) Hl Hpb Hwc Hctl Ho Hc Hm0 Hm. unfold DMA_SIZE, NUM_HUGE_PAGES, HUGE_PAGE_SIZE in Hm.
  set (w1 := World (device w) (statics (before_ioctls o w)) s) in *.
  destruct (insert_tlb_entries_all arr [] 0 (mmap_huge o) w1) as (w2 & R2 & [Hs2 _] & Ht2 & Hwc2 & M2); [done | done | done | | |].
  { unfold PAGE, NUM_HUGE_PAGES in *. lia. }
  { eapply Forall_impl; [exact Hpb|]. cbv beta. lia. }
  set (w3 := World (device w2) (FpgaState (Live tt) (Live (MemoryManager (memory o) (mmap_huge o) DMA_SIZE))
    (nodeId (statics w)) (open_control o) (open_huge o) (mmap_huge o)) (drv w2)).
  exists w3. split_and!; [| done | exact Ht2 | | exact Hwc2].
  - unfold initializeMemory. rewrite (bind_returns _ _ _ tt _ eq_refl), (proj2 (Z.eqb_neq _ _) Ho).
    rewrite (bind_returns _ _ _ tt _ eq_refl), (proj2 (Z.eqb_neq (mmap_huge o) (-1))) by lia.
    rewrite (bind_returns _ _ _ tt _ eq_refl), (proj2 (Z.eqb_neq _ _) Hc).
    rewrite (bind_returns _ _ _ tt _ eq_refl). rewrite (bind_returns _ _ _ (mmap_huge o) (before_ioctls o w)).
    + change (XdmaMapping (DMA_SIZE / (2 * 1024 * 1024)) _) with initial_map.
      rewrite R1, (bind_returns _ _ _ (Live tt) w1) by done.
      cbn [map_dma_addr map_npages]. rewrite app_nil_r, Z.add_0_l, Hl in R2. rewrite (bind_returns _ _ _ _ _ R2).
      unfold with_statics, modify, w3. by rewrite Hs2.
    + unfold gets, compose, before_ioctls. cbn [statics huge_base controller mm nodeId fd hfd device drv].
      rewrite wrap_small by lia. by destruct (controller (statics w)) as [|[]|].
  - change (block w3) with (block w2). by rewrite M2.
Qed.

(** C4: for a buffer of huge pages that the kernel can pin,
    [Fpga::initializeMemory] returns with an allocator for the whole buffer,
    and the mappings it has sent make the TLB, in whatever state it was
    before, translate every address of the buffer to the physical address
    that the kernel has given to this byte, for reads and for writes. *)
Theorem initializeMemory_maps_buffer o pgs (w : world D) t : buffer_pinned (mmap_huge o) pgs ->
  word_counter (block w) = 0 -> controller (statics w) <> Deleted ->
  open_huge o <> -1 -> open_control o <> -1 -> 0 <= mmap_huge o -> mmap_huge o + DMA_SIZE < 2 ^ 64 -> tlb_wf t ->
  exists w' sent t', initializeMemory false k o uaccess_ok uaccess_ok w = Returns (tt, w') /\
    mm (statics w') = Live (MemoryManager (memory o) (mmap_huge o) DMA_SIZE) /\
    mappings (block w') = mappings (block w) ++ sent /\
    tlb_cycles (length sent) t (TlbInputs [] [] sent) = Some (t', TlbInputs [] [] [], ([], [])) /\
    forall x len, 0 <= x < DMA_SIZE -> exists p t'', phys k pgs x = Some p /\
      tlb t' (TlbInputs [MemCmd (mmap_huge o + x) len] [] []) =
        Some (t'', TlbInputs [] [] [], ([DmaCmd p (wrap 28 len)], [])) /\
      tlb t' (TlbInputs [] [MemCmd (mmap_huge o + x) len] []) =
        Some (t'', TlbInputs [] [] [], ([], [DmaCmd p (wrap 28 len)])).
Proof.
  intros Hbp Hwc Hctl Ho Hc Hm0 Hm Ht.
  destruct (ioctls_pinned _ _ (before_ioctls o w) Hbp) as (arr & Hio & Hl & Ha).
  pose proof (mapped_phys_bound _ _ Ha (bp_phys _ _ Hbp)) as Hpb.
  destruct (initializeMemory_run o uaccess_ok uaccess_ok arr w) as (w' & R & Hs & _ & M & _); try done. pose proof (bp_length _ _ Hbp) as Hlen.
  unfold DMA_SIZE, NUM_HUGE_PAGES, HUGE_PAGE_SIZE in Hm, Hl, Hlen.
  destruct (tlb_program_correct t (mmap_huge o) arr) as (t' & Rt & Hwf & Hmaps); try done.
  { intros ->. done. }
  { unfold PAGE. lia. }
  { unfold TLB_ENTRIES. lia. }
  exists w', (page_mappings (mmap_huge o) true arr), t'. rewrite length_page_mappings. split_and!; try done; [by rewrite Hs|].
  intros x len Hx. unfold DMA_SIZE, NUM_HUGE_PAGES, HUGE_PAGE_SIZE in Hx.
  destruct (tlb_command_mapped t' (mmap_huge o) arr (mmap_huge o + x) len Hwf Hmaps) as (p & t'' & Hv & Hcmd & _).
  { unfold PAGE. lia. }
  exists p, t''. cbn [tlb]. rewrite Hcmd. split_and!; try done.
  destruct (mapped_phys k pgs arr x (bp_huge _ _ Hbp) Ha) as (q & Hq & ->); [lia|].
  rewrite <- Hv. unfold virt_to_phys. rewrite Z.add_simpl_l. unfold PAGE. change (2 * 1024 * 1024) with 0x200000 in *.
  by rewrite Hq.
Qed.

(** when the driver cannot read the structures of the process, both ioctl
    calls fail and [Fpga::initializeMemory] goes on: it maps every page of the
    buffer to physical address 0 and returns as after a success. *)
Theorem initializeMemory_ignores_failure o u1 u2 (w : world D) : 0 < from_user u1 -> 0 < from_user u2 ->
  word_counter (block w) = 0 -> controller (statics w) <> Deleted ->
  open_huge o <> -1 -> open_control o <> -1 -> 0 <= mmap_huge o -> mmap_huge o + DMA_SIZE < 2 ^ 64 ->
  exists w', initializeMemory false k o u1 u2 w = Returns (tt, w') /\
    mm (statics w') = Live (MemoryManager (memory o) (mmap_huge o) DMA_SIZE) /\
    mappings (block w') = mappings (block w) ++ page_mappings (mmap_huge o) true (replicate (Z.to_nat NUM_HUGE_PAGES) 0).
Proof.
  intros H1 H2 Hwc Hctl Ho Hc Hm0 Hm.
  destruct (initializeMemory_run o u1 u2 (replicate (Z.to_nat NUM_HUGE_PAGES) 0) w) as (w' & R & Hs & _ & M & _); try done.
  - by apply ioctls_fault.
  - apply Forall_replicate. lia.
  - exists w'. by rewrite Hs.
Qed.

Lemma ioctl_same_statics u c (w : world D) x w' : ioctl k u c w = Returns (x, w') -> statics w' = statics w.
Proof. unfold ioctl. destruct (char_xdma_ioctl k u c (drv w)) as [[[r c'] s] | | |]; [by intros [= _ <-] | done..]. Qed.

(** after [Fpga::clear] the static pointers dangle: a second [clear],
    [allocate] and [free] are undefined, and [initializeMemory] does not
    return either, since it keeps the deleted controller. *)
Theorem clear_dangles (w w' : world D) m : mm (statics w) = Live m -> controller (statics w) = Live tt ->
  clear w = Returns (tt, w') ->
  clear w' = Undefined /\ (forall sp n, allocate sp n w' = Undefined) /\ (forall p, free p w' = Undefined) /\
  forall o u1 u2 x, initializeMemory false k o u1 u2 w' <> Returns x.
Proof.
  intros Hm Hc. unfold clear, allocate, free, delete_ptr, mbind, M_bind. cbn [gets]. rewrite Hm, Hc. cbn [mret M_ret].
  intros [= <-]. split_and!; try done. intros o u1 u2 x. unfold initializeMemory.
  rewrite (bind_returns _ _ _ tt _ eq_refl). destruct (open_huge o =? -1); [done|].
  rewrite (bind_returns _ _ _ tt _ eq_refl). destruct (mmap_huge o =? -1); [done|].
  rewrite (bind_returns _ _ _ tt _ eq_refl). destruct (open_control o =? -1); [done|].
  rewrite (bind_returns _ _ _ tt _ eq_refl). cbn [statics controller]. intros HR. destruct x as [x w1].
  apply bind_inv in HR as (base & w2 & [= <- <-] & HR).
  apply bind_inv in HR as (y & w3 & H3 & HR). apply ioctl_same_statics in H3.
  apply bind_inv in HR as ([z c] & w4 & H4 & HR). apply ioctl_same_statics in H4.
  apply bind_inv in HR as (ctl & w5 & [= <- <-] & HR). unfold compose in HR. by rewrite H4, H3 in HR.
Qed.
End routed.

(** ** Witnesses *)

(** A kernel that has the 2 GiB from [0x40000000] free for the buffer. *)
Definition demo_base : Z := 0x7F0000000000.

Definition demo_fpga_kernel : kernel := Kernel 4096 (fun pg => 4096 * pg) (fun _ => true)
  (fun a n => if (a =? demo_base) && (n <? 2 ^ 31) then (Z.of_nat (Z.to_nat n), seqZ 0x40000 n) else (-14, []))
  (fun n => Some (replicate (Z.to_nat n) 0xA5)).

Definition demo_os : os := Os 3 demo_base 4 (fun _ => 0xFF).

Definition demo_world : world dma_ctrl := World demo_dma_ctrl fpga_init driver_init.

Lemma demo_fpga_kernel_ok : kernel_ok demo_fpga_kernel.
Proof.
  split.
  - intros a n rc pgs. cbn [get_user_pages demo_fpga_kernel].
    destruct (Z.eqb_spec a demo_base); cbn [andb]; [|intros [= <- <-]; by split; [lia|]].
    destruct (Z.ltb_spec n (2 ^ 31)); intros [= <- <-]; [|by split; [lia|]]. rewrite length_seqZ. lia.
  - intros n l Hn [= <-]. rewrite length_replicate. lia.
Qed.

Lemma seqZ_lookup m n i pg : seqZ m n !! i = Some pg -> pg = m + Z.of_nat i /\ Z.of_nat i < n.
Proof. by rewrite lookup_seqZ. Qed.

Lemma demo_requested : requested demo_fpga_kernel (XdmaHuge demo_base DMA_SIZE) = 524288.
Proof. by vm_compute. Qed.

Lemma demo_pinned : buffer_pinned demo_fpga_kernel demo_base (seqZ 0x40000 524288).
Proof.
  constructor.
  - exact demo_fpga_kernel_ok.
  - rewrite demo_requested, length_seqZ. reflexivity.
  - by rewrite length_seqZ, Z2Nat.id.
  - intros i pg Hi. apply seqZ_lookup in Hi as [-> Hi]. exists (0x40000 + 512 * (Z.of_nat i / 512)).
    rewrite lookup_seqZ, Nat2Z.inj_mul, Nat2Z.inj_div. cbn [page_to_phys demo_fpga_kernel].
    change (Z.of_nat 512) with 512. Z.to_euclidean_division_equations; lia.
  - apply Forall_lookup. intros i pg Hi. apply seqZ_lookup in Hi as [-> Hi]. cbn [page_to_phys demo_fpga_kernel]. lia.
  - done.
  - by eexists.
Qed.

Lemma initializeMemory_witness : exists w' sent t' t'',
  initializeMemory false demo_fpga_kernel demo_os uaccess_ok uaccess_ok demo_world = Returns (tt, w') /\
  mappings (device w') = sent /\ tlb_cycles (length sent) demo_tlb (TlbInputs [] [] sent) = Some (t', TlbInputs [] [] [], ([], [])) /\
  tlb t' (TlbInputs [MemCmd (demo_base + 0x200010) 64] [] []) =
    Some (t'', TlbInputs [] [] [], ([DmaCmd 0x40200010 64], [])).
Proof.
  destruct (initializeMemory_maps_buffer (D := dma_ctrl) demo_fpga_kernel demo_os (seqZ 0x40000 524288) demo_world demo_tlb)
    as (w' & sent & t' & R & _ & M & Rt & T);
    [exact demo_pinned | reflexivity | discriminate | discriminate | discriminate | discriminate | reflexivity
    | exact demo_tlb_wf |].
  destruct (T 0x200010 64) as (p & t'' & Hp & T1 & _); [by split|].
  exists w', sent, t', t''. split_and!; [exact R | exact M | exact Rt |].
  unfold phys in Hp. destruct (seqZ 0x40000 524288 !! Z.to_nat (0x200010 / 4096)) as [pg|] eqn:E; [|discriminate Hp].
  apply seqZ_lookup in E as [-> _]. injection Hp as <-. exact T1.
Defined.

(** The process passes addresses that the driver cannot read. *)
Lemma initializeMemory_failure_witness : exists w',
  initializeMemory false demo_fpga_kernel demo_os (Uaccess 16 None None) (Uaccess 16 None None) demo_world = Returns (tt, w') /\
  mappings (device w') = page_mappings demo_base true (replicate (Z.to_nat NUM_HUGE_PAGES) 0).
Proof.
  destruct (initializeMemory_ignores_failure (D := dma_ctrl) demo_fpga_kernel demo_os (Uaccess 16 None None)
    (Uaccess 16 None None) demo_world) as (w' & R & _ & M);
    [reflexivity | reflexivity | reflexivity | discriminate | discriminate | discriminate | discriminate | reflexivity |].
  exists w'. split; [exact R | exact M].
Defined.

Definition demo_cleared : world dma_ctrl :=
  World demo_dma_ctrl (FpgaState (Live tt) (Live (MemoryManager (memory demo_os) demo_base DMA_SIZE)) 0 4 3 demo_base) driver_init.

Lemma clear_dangles_witness : exists w', clear demo_cleared = Returns (tt, w') /\ clear w' = Undefined /\
  forall p, free p w' = Undefined.
Proof.
  eexists. split; [reflexivity|].
  destruct (clear_dangles (D := dma_ctrl) demo_fpga_kernel demo_cleared
    (World demo_dma_ctrl (FpgaState Deleted Deleted 0 4 3 demo_base) driver_init) _ eq_refl eq_refl eq_refl)
    as (H1 & _ & H2 & _). split; [exact H1 | exact H2].
Defined.
