(* ===== verification/DmaPath.v ===== *)
(** [src/hdl/common/dma_inf.sv]: how the write commands of the hardware reach
    the memory of the host.  They pass the page boundary check
    ([PageBoundary]), which splits them relative to a base address register,
    and then the TLB ([Tlb]).  Together with the initialisation by the host
    ([Fpga]) this gives the end-to-end statement: a write to the buffer
    arrives at the physical pages that the kernel has pinned for it. *)
From stdpp Require Import gmap.
From S2P Require Import Prelude Streams AxiUtils DmaBench Mmio FpgaController DmaController MemoryManager.
From S2P Require Import XdmaIoctl Tlb Fpga PageBoundary.

(** ** Definitions *)

(** The registers that pick up the base address from the TLB interface. *)
Record base_regs := BaseRegs { regBaseVaddr : Z; regBaseVaddrBoundCheck : Z }.

(** One transfer on the TLB interface.  The assignments are non-blocking, so
    [regBaseVaddrBoundCheck] gets the base before this one. *)
Definition base_regs_step (r : base_regs) (m : tlbMapping) : base_regs :=
  if isBase m then BaseRegs (wrap 48 (vaddr m)) (regBaseVaddr r) else r.

(** The boundary check on the write commands with the register as its base. *)
Definition write_commands (r : base_regs) := split_commands (regBaseVaddrBoundCheck r).

(** ** Bytes *)

Definition cmd_bytes (c : memCmd) : list Z := seqZ (cmd_addr c) (cmd_len c).
Definition dma_bytes (c : dmaCmd) : list Z := seqZ (dma_addr c) (dma_len c).

(** The command lies in the buffer of [n] pages at [base]. *)
Definition in_buffer (base n : Z) (c : memCmd) : Prop :=
  base <= cmd_addr c /\ 0 < cmd_len c /\ cmd_addr c + cmd_len c <= base + n * PAGE.

Lemma split_cmd_bytes b c : 0 <= cmd_len c -> concat (cmd_bytes <$> split_cmd b c) = cmd_bytes c.
Proof.
  intros Hl. unfold split_cmd. destruct (crosses b c) eqn:E; cbn [fmap list_fmap concat]; [|apply app_nil_r].
  unfold crosses in E. apply Z.ltb_lt in E. pose proof (to_page_end_bound b (cmd_addr c)).
  unfold cmd_bytes. cbn [cmd_addr cmd_len]. rewrite app_nil_r, <- seqZ_app by lia. f_equal. lia.
Qed.

Lemma split_cmd_in_buffer b base n c : in_buffer base n c -> Forall (in_buffer base n) (split_cmd b c).
Proof.
  unfold split_cmd, in_buffer. intros (H1 & H2 & H3). destruct (crosses b c) eqn:E; repeat constructor; cbn [cmd_addr cmd_len];
    try done; unfold crosses in E; apply Z.ltb_lt in E; pose proof (to_page_end_bound b (cmd_addr c)); lia.
Qed.

(** Only the position of the base within a page matters for the split. *)
Lemma to_page_end_base b b' a : b mod PAGE_SIZE = b' mod PAGE_SIZE -> to_page_end b a = to_page_end b' a.
Proof. intros H. unfold to_page_end. by rewrite <- (Zminus_mod_idemp_r a b), H, Zminus_mod_idemp_r. Qed.

Lemma split_cmd_base b b' c : b mod PAGE_SIZE = b' mod PAGE_SIZE -> split_cmd b c = split_cmd b' c.
Proof. intros H. unfold split_cmd, crosses. by rewrite (to_page_end_base b b'). Qed.

(** ** The TLB on commands that stay within their page *)

Lemma in_page_bytes base pages a len phys : 0 <= a - base -> 0 < len -> in_page base (MemCmd a len) ->
  virt_to_phys base pages a = Some phys ->
  Some <$> dma_bytes (DmaCmd phys (wrap 28 len)) = virt_to_phys base pages <$> cmd_bytes (MemCmd a len).
Proof.
  unfold in_page, to_page_end, cmd_bytes, dma_bytes. cbn [cmd_addr cmd_len dma_addr dma_len]. intros Ha Hl Hp Hv.
  change PAGE_SIZE with PAGE in Hp. pose proof (Z.mod_pos_bound (a - base) PAGE PAGE_pos) as Hm.
  rewrite wrap_small by (unfold PAGE in *; lia).
  apply list_eq. intros i. rewrite !list_lookup_fmap. destruct (decide (Z.of_nat i < len)) as [Hi | Hi].
  - assert (L : forall x, seqZ x len !! i = Some (x + Z.of_nat i)) by (intros; by apply lookup_seqZ).
    rewrite !L. cbn. f_equal. revert Hv. unfold virt_to_phys.
    assert (E : a + Z.of_nat i - base = (a - base) / PAGE * PAGE + ((a - base) mod PAGE + Z.of_nat i)).
    { pose proof (Z.div_mod (a - base) PAGE). pose proof PAGE_pos. lia. }
    rewrite E, Z.div_add_l, (Z.div_small (_ mod _ + _)), Z.add_0_r by (unfold PAGE in *; lia).
    rewrite (Z.add_comm (_ * PAGE)), Z_mod_plus_full, (Z.mod_small (_ mod _ + _)) by lia.
    destruct (pages !! _) as [p|]; cbn; [|done]. intros [= <-]. f_equal. lia.
  - assert (L : forall x, seqZ x len !! i = None) by (intros; apply lookup_seqZ_ge; lia). by rewrite !L.
Qed.

(** The commands on one of the two inputs of the TLB, and the answers. *)
Definition port (rd : bool) (cs : list memCmd) : tlb_inputs := if rd then TlbInputs [] cs [] else TlbInputs cs [] [].
Definition answers (rd : bool) (out : list dmaCmd) : list dmaCmd * list dmaCmd := if rd then ([], out) else (out, []).

(** Every command is answered in one cycle; nothing is missed, no page is
    crossed, and the physical bytes are those of the virtual ones. *)
Lemma tlb_in_page_port rd base pages : 0 <= base -> forall cs t, tlb_wf t -> maps_pages t base pages ->
  Forall (fun c => in_buffer base (Z.of_nat (length pages)) c /\ in_page base c) cs ->
  exists t' out, tlb_cycles (length cs) t (port rd cs) = Some (t', TlbInputs [] [] [], answers rd out) /\
    tlb_wf t' /\ maps_pages t' base pages /\ tlbMissCounter t' = tlbMissCounter t /\
    tlbPageCrossingCounter t' = tlbPageCrossingCounter t /\
    Some <$> concat (dma_bytes <$> out) = virt_to_phys base pages <$> concat (cmd_bytes <$> cs).
Proof.
  intros Hb. induction cs as [|[a len] cs IH]; intros t Hwf Hm Hcs; [by exists t, []; destruct rd|].
  apply Forall_cons in Hcs as [[(H1 & H2 & H3) Hpg] Hcs]. cbn [cmd_addr cmd_len] in *.
  destruct (tlb_command_mapped t base pages a len Hwf Hm) as (phys & t1 & Hv & Hc & Ht & Hb1 & Htop & Hmi & Hcr); [lia|].
  assert (Hwf1 : tlb_wf t1) by (eapply tlb_command_wf; eauto).
  assert (Hm1 : maps_pages t1 base pages).
  { destruct Hm as (_ & Hl & He). split_and!; [done | by rewrite Htop|]. unfold tlb_entry. by rewrite Ht. }
  destruct (IH t1 Hwf1 Hm1 Hcs) as (t' & out & R & Hwf' & Hm' & Hmi' & Hcr' & B).
  exists t', (DmaCmd phys (wrap 28 len) :: out). split_and!; [| done | done | congruence | |].
  - change (length (MemCmd a len :: cs)) with (S (length cs)).
    destruct rd; [refine (tlb_cycles_S _ _ _ _ _ [] [_] _ _ _ _ _ R) | refine (tlb_cycles_S _ _ _ _ _ [_] [] _ _ _ _ _ R)];
      cbn [tlb port]; by rewrite Hc.
  - rewrite Hcr', Hcr. unfold in_page, to_page_end in Hpg. cbn [cmd_addr cmd_len] in Hpg.
    change PAGE_SIZE with PAGE in Hpg. rewrite decide_False by lia. rewrite Z.add_0_r. apply wrap_small.
    by destruct Hwf as (_ & _ & _ & _ & ?).
  - cbn [fmap list_fmap concat]. rewrite !fmap_app. f_equal; [|exact B]. apply in_page_bytes; [lia | done | done | done].
Qed.

Lemma tlb_in_page_commands base pages : 0 <= base -> forall cs t, tlb_wf t -> maps_pages t base pages ->
  Forall (fun c => in_buffer base (Z.of_nat (length pages)) c /\ in_page base c) cs ->
  exists t' out, tlb_cycles (length cs) t (TlbInputs cs [] []) = Some (t', TlbInputs [] [] [], (out, [])) /\
    tlb_wf t' /\ maps_pages t' base pages /\ tlbMissCounter t' = tlbMissCounter t /\
    tlbPageCrossingCounter t' = tlbPageCrossingCounter t /\
    Some <$> concat (dma_bytes <$> out) = virt_to_phys base pages <$> concat (cmd_bytes <$> cs).
Proof. exact (tlb_in_page_port false base pages). Qed.

(** At most one page boundary lies inside the command. *)
Definition crosses_once (base : Z) (c : memCmd) : Prop := cmd_len c <= to_page_end base (cmd_addr c) + PAGE_SIZE.

(** Boundary check and TLB, with a base register that is right up to whole
    pages. *)
Lemma write_commands_translated r t base pages cmds : tlb_wf t -> maps_pages t base pages -> 0 <= base ->
  base + Z.of_nat (length pages) * PAGE <= 2 ^ 64 -> regBaseVaddrBoundCheck r mod PAGE_SIZE = base mod PAGE_SIZE ->
  Forall (fun c => in_buffer base (Z.of_nat (length pages)) c /\ crosses_once base c) cmds ->
  settles (write_commands r) (tt, bc_init, []) cmds (3 * length cmds) (fun _ o => exists t' out,
    tlb_cycles (length o.1) t (TlbInputs o.1 [] []) = Some (t', TlbInputs [] [] [], (out, [])) /\
    tlbMissCounter t' = tlbMissCounter t /\ tlbPageCrossingCounter t' = tlbPageCrossingCounter t /\
    Some <$> concat (dma_bytes <$> out) = virt_to_phys base pages <$> concat (cmd_bytes <$> cmds)).
Proof.
  intros Hwf Hm Hb Hbl Hr Hc. unfold write_commands.
  destruct (split_commands_computes (regBaseVaddrBoundCheck r) cmds) as (sf & _ & H).
  { eapply Forall_impl; [exact Hc|]. intros c [(H1 & H2 & H3) H4]. unfold crosses_once in H4.
    pose proof (to_page_end_bound base (cmd_addr c)). unfold memCmd_wf, PAGE_SIZE in *. lia. }
  eapply computes_settles; [exact H|]. cbn [fst].
  assert (E : split_cmd (regBaseVaddrBoundCheck r) <$> cmds = split_cmd base <$> cmds).
  { apply list_fmap_ext. intros _ c _. by apply split_cmd_base. }
  rewrite E. destruct (tlb_in_page_commands base pages Hb (concat (split_cmd base <$> cmds)) t Hwf Hm)
    as (t' & out & R & _ & _ & Hmi & Hcr & B).
  { apply Forall_concat, Forall_fmap. eapply Forall_impl; [exact Hc|]. intros c [Hin Hx]. cbn.
    apply Forall_and. split; [by apply split_cmd_in_buffer | by apply split_cmd_in_page]. }
  exists t', out. split_and!; try done. rewrite B. f_equal. clear -Hc.
  induction Hc as [|c cmds [(_ & Hl & _) _] _ IH]; [done|]. cbn [fmap list_fmap concat].
  by rewrite fmap_app, concat_app, split_cmd_bytes, IH by lia.
Qed.

Lemma base_regs_programmed r base pages : pages <> [] ->
  foldl base_regs_step r (page_mappings base true pages) = BaseRegs (wrap 48 base) (regBaseVaddr r).
Proof.
  destruct pages as [|p pages]; [done|]. intros _. cbn [page_mappings foldl base_regs_step isBase vaddr].
  generalize (base + PAGE) as v. generalize (BaseRegs (wrap 48 base) (regBaseVaddr r)) as r'.
  induction pages as [|q pages IH]; intros r' v; [done|]. cbn [page_mappings foldl]. apply IH.
Qed.

(** ** From the host to its memory *)

Section buffer.
Context {D : Type} `{Routed D dma_ctrl 4096 dma_ctrl_write dma_ctrl_read}.
Variable k : kernel.

(** The addresses of the TLB are those of the kernel. *)
Lemma virt_to_phys_pinned base pgs arr a : huge_contiguous k pgs -> mapped k pgs arr ->
  0 <= a - base < 4096 * Z.of_nat (length pgs) -> virt_to_phys base arr a = phys k pgs (a - base).
Proof.
  intros Hc Ha Hx. destruct (mapped_phys k pgs arr _ Hc Ha Hx) as (q & Hq & ->).
  unfold virt_to_phys. change (2 * 1024 * 1024) with PAGE in Hq. by rewrite Hq.
Qed.

(** What the initialisation leaves behind: the board has been sent the mappings
    of the buffer, with which the TLB translates it, and the base registers
    hold the bases of this and of the previous initialisation. *)
Lemma initialised o pgs (w : world D) t r : buffer_pinned k (mmap_huge o) pgs ->
  word_counter (block w) = 0 -> controller (statics w) <> Deleted ->
  open_huge o <> -1 -> open_control o <> -1 -> 0 <= mmap_huge o -> mmap_huge o + DMA_SIZE < 2 ^ 64 -> tlb_wf t ->
  exists w' sent t1 arr, initializeMemory false k o uaccess_ok uaccess_ok w = Returns (tt, w') /\
    mappings (block w') = mappings (block w) ++ sent /\
    tlb_cycles (length sent) t (TlbInputs [] [] sent) = Some (t1, TlbInputs [] [] [], ([], [])) /\
    foldl base_regs_step r sent = BaseRegs (wrap 48 (mmap_huge o)) (regBaseVaddr r) /\
    tlb_wf t1 /\ maps_pages t1 (mmap_huge o) arr /\ mapped k pgs arr /\ Z.of_nat (length arr) = NUM_HUGE_PAGES.
Proof.
  intros Hbp Hwc Hctl Ho Hc Hm0 Hm Ht.
  destruct (ioctls_pinned k _ _ (before_ioctls o w) Hbp) as (arr & Hio & Hl & Ha).
  pose proof (mapped_phys_bound k _ _ Ha (bp_phys _ _ _ Hbp)) as Hpb.
  destruct (initializeMemory_run k o uaccess_ok uaccess_ok arr w) as (w' & R & _ & _ & M & _); try done.
  pose proof (bp_length _ _ _ Hbp) as Hlen. unfold DMA_SIZE in Hm, Hlen.
  assert (Hne : arr <> []) by (by intros ->).
  destruct (tlb_program_correct t (mmap_huge o) arr) as (t1 & Rt & Hwf & Hmaps); try done.
  { rewrite Hl. unfold PAGE, NUM_HUGE_PAGES, HUGE_PAGE_SIZE in *. lia. }
  { rewrite Hl. done. }
  exists w', (page_mappings (mmap_huge o) true arr), t1, arr. rewrite length_page_mappings.
  split_and!; try done. by apply base_regs_programmed.
Qed.

(** The bytes of commands to the buffer, as the TLB translates them. *)
Lemma buffer_bytes_pinned o pgs arr cmds : buffer_pinned k (mmap_huge o) pgs -> mapped k pgs arr ->
  Forall (in_buffer (mmap_huge o) NUM_HUGE_PAGES) cmds ->
  virt_to_phys (mmap_huge o) arr <$> concat (cmd_bytes <$> cmds) =
  (fun a => phys k pgs (a - mmap_huge o)) <$> concat (cmd_bytes <$> cmds).
Proof.
  intros Hbp Ha Hcmds. pose proof (bp_length _ _ _ Hbp) as Hlen. unfold DMA_SIZE in Hlen.
  apply list_fmap_ext. intros i a Hi. apply list_elem_of_lookup_2, list_elem_of_In, in_concat in Hi.
  destruct Hi as (bs & Hin & Hbs). apply list_elem_of_In in Hbs. apply list_elem_of_In, list_elem_of_fmap in Hin as (c & -> & Hin).
  rewrite Forall_forall in Hcmds. destruct (Hcmds c Hin) as (B1 & B2 & B3). apply elem_of_seqZ in Hbs.
  apply virt_to_phys_pinned; [exact (bp_huge _ _ _ Hbp) | done |].
  unfold PAGE, NUM_HUGE_PAGES, HUGE_PAGE_SIZE in *. lia.
Qed.

(** Writes to a buffer whose pages the TLB holds. *)
Lemma pinned_translated o pgs arr t r cmds : buffer_pinned k (mmap_huge o) pgs ->
  0 <= mmap_huge o -> mmap_huge o + DMA_SIZE < 2 ^ 64 -> mmap_huge o mod PAGE_SIZE = 0 ->
  regBaseVaddrBoundCheck r mod PAGE_SIZE = 0 ->
  tlb_wf t -> maps_pages t (mmap_huge o) arr -> mapped k pgs arr -> Z.of_nat (length arr) = NUM_HUGE_PAGES ->
  Forall (fun c => in_buffer (mmap_huge o) NUM_HUGE_PAGES c /\ crosses_once (mmap_huge o) c) cmds ->
  settles (write_commands r) (tt, bc_init, []) cmds (3 * length cmds) (fun _ d =>
    exists t2 out, tlb_cycles (length d.1) t (TlbInputs d.1 [] []) = Some (t2, TlbInputs [] [] [], (out, [])) /\
      tlbMissCounter t2 = tlbMissCounter t /\ tlbPageCrossingCounter t2 = tlbPageCrossingCounter t /\
      Some <$> concat (dma_bytes <$> out) = (fun a => phys k pgs (a - mmap_huge o)) <$> concat (cmd_bytes <$> cmds)).
Proof.
  intros Hbp Hm0 Hm Hal Hr Hwf Hmaps Ha Hl Hcmds. pose proof (bp_length _ _ _ Hbp) as Hlen. unfold DMA_SIZE in Hm, Hlen.
  eapply settles_weaken; [apply (write_commands_translated _ t (mmap_huge o) arr cmds) | done |]; try done.
  - rewrite Hl. unfold PAGE, NUM_HUGE_PAGES, HUGE_PAGE_SIZE in *. lia.
  - by rewrite Hal.
  - by rewrite Hl.
  - intros s d (t2 & out & H1 & H2 & H3 & H4). exists t2, out. split_and!; try done. rewrite H4.
    apply buffer_bytes_pinned; [done | done |]. eapply Forall_impl; [exact Hcmds|]. by intros c [? _].
Qed.

(** Reads of a buffer whose pages the TLB holds, within the pages. *)
Lemma pinned_reads o pgs arr t cmds : buffer_pinned k (mmap_huge o) pgs -> 0 <= mmap_huge o ->
  tlb_wf t -> maps_pages t (mmap_huge o) arr -> mapped k pgs arr -> Z.of_nat (length arr) = NUM_HUGE_PAGES ->
  Forall (fun c => in_buffer (mmap_huge o) NUM_HUGE_PAGES c /\ in_page (mmap_huge o) c) cmds ->
  exists t2 out, tlb_cycles (length cmds) t (TlbInputs [] cmds []) = Some (t2, TlbInputs [] [] [], ([], out)) /\
    tlbMissCounter t2 = tlbMissCounter t /\ tlbPageCrossingCounter t2 = tlbPageCrossingCounter t /\
    Some <$> concat (dma_bytes <$> out) = (fun a => phys k pgs (a - mmap_huge o)) <$> concat (cmd_bytes <$> cmds).
Proof.
  intros Hbp Hm0 Hwf Hmaps Ha Hl Hcmds.
  destruct (tlb_in_page_port true (mmap_huge o) arr Hm0 cmds t Hwf Hmaps) as (t2 & out & R & _ & _ & Hmi & Hcr & B); [by rewrite Hl|].
  exists t2, out. split_and!; [exact R | done | done |]. rewrite B. apply buffer_bytes_pinned; [done | done |].
  eapply Forall_impl; [exact Hcmds|]. by intros c [? _].
Qed.

(** C5: after [Fpga::initializeMemory], every write the hardware sends to the
    buffer with at most one page boundary inside it goes to exactly the
    physical bytes that the kernel has pinned for its virtual addresses, in
    the same order, whatever the TLB held before and however the commands
    arrive; no miss and no page crossing is counted.  The boundary check works
    with the base of the previous initialisation, which is enough because
    buffers start at page boundaries. *)
Theorem buffer_writes_reach_pinned_pages o pgs (w : world D) t r : buffer_pinned k (mmap_huge o) pgs ->
  word_counter (block w) = 0 -> controller (statics w) <> Deleted ->
  open_huge o <> -1 -> open_control o <> -1 -> 0 <= mmap_huge o -> mmap_huge o + DMA_SIZE < 2 ^ 64 -> tlb_wf t ->
  mmap_huge o mod PAGE_SIZE = 0 -> regBaseVaddr r mod PAGE_SIZE = 0 ->
  exists w' sent t1, initializeMemory false k o uaccess_ok uaccess_ok w = Returns (tt, w') /\
    mappings (block w') = mappings (block w) ++ sent /\
    tlb_cycles (length sent) t (TlbInputs [] [] sent) = Some (t1, TlbInputs [] [] [], ([], [])) /\
    forall cmds, Forall (fun c => in_buffer (mmap_huge o) NUM_HUGE_PAGES c /\ crosses_once (mmap_huge o) c) cmds ->
      settles (write_commands (foldl base_regs_step r sent)) (tt, bc_init, []) cmds (3 * length cmds) (fun _ d =>
        exists t2 out, tlb_cycles (length d.1) t1 (TlbInputs d.1 [] []) = Some (t2, TlbInputs [] [] [], (out, [])) /\
          tlbMissCounter t2 = tlbMissCounter t1 /\ tlbPageCrossingCounter t2 = tlbPageCrossingCounter t1 /\
          Some <$> concat (dma_bytes <$> out) = (fun a => phys k pgs (a - mmap_huge o)) <$> concat (cmd_bytes <$> cmds)).
Proof.
  intros Hbp Hwc Hctl Ho Hc Hm0 Hm Ht Hal Hr.
  destruct (initialised o pgs w t r) as (w' & sent & t1 & arr & R & M & Rt & Hregs & Hwf & Hmaps & Ha & Hl); try done.
  exists w', sent, t1. split_and!; try done. intros cmds Hcmds. rewrite Hregs. by apply (pinned_translated o pgs arr).
Qed.
End buffer.

(** Two writes, of which the first crosses from page 0 to page 1. *)
Definition demo_writes : list memCmd := [MemCmd (demo_base + 0x1FFFF0) 64; MemCmd (demo_base + 0x400000) 4096].

Lemma buffer_writes_witness : exists sent t1, settles (write_commands (foldl base_regs_step (BaseRegs 0 0) sent))
  (tt, bc_init, []) demo_writes 6 (fun _ d =>
    exists t2 out, tlb_cycles (length d.1) t1 (TlbInputs d.1 [] []) = Some (t2, TlbInputs [] [] [], (out, [])) /\
      tlbPageCrossingCounter t2 = tlbPageCrossingCounter t1 /\
      Some <$> concat (dma_bytes <$> out) =
        (fun a => phys demo_fpga_kernel (seqZ 0x40000 524288) (a - demo_base)) <$> concat (cmd_bytes <$> demo_writes)).
Proof.
  destruct (buffer_writes_reach_pinned_pages (D := dma_ctrl) demo_fpga_kernel demo_os (seqZ 0x40000 524288) demo_world
    demo_tlb (BaseRegs 0 0)) as (w' & sent & t1 & _ & _ & _ & T);
    [exact demo_pinned | reflexivity | discriminate | discriminate | discriminate | discriminate | reflexivity
    | exact demo_tlb_wf | reflexivity | reflexivity |].
  exists sent, t1. eapply settles_weaken; [apply (T demo_writes) | apply le_n |].
  - repeat constructor; discriminate.
  - intros s d (t2 & out & H1 & _ & H2 & H3). exists t2, out. split; [exact H1|]. split; [exact H2 | exact H3].
Defined.
