(* ===== verification/Traffic.v ===== *)
(** [src/hdl/common/dma_inf.sv]: the reads of the hardware, which go to the TLB without
    a boundary check, and the traffic that the host reads back from
    the statistics ([DmaInf]). *)
From stdpp Require Import gmap.
From S2P Require Import Prelude Streams AxiUtils Mmio FpgaController DmaController DmaInf XdmaIoctl Tlb PageBoundary Fpga DmaPath.

(** ** Reads *)

(** [axis_dma_read_cmd_to_tlb] is [s_axis_dma_read_cmd]. *)
Definition read_commands (cmds : list memCmd) : tlb_inputs := TlbInputs [] cmds [].

Lemma cmd_bytes_split a n len : 0 <= n <= len -> cmd_bytes (MemCmd a len) = cmd_bytes (MemCmd a n) ++ cmd_bytes (MemCmd (a + n) (len - n)).
Proof. intros. unfold cmd_bytes. cbn [cmd_addr cmd_len]. rewrite <- seqZ_app by lia. f_equal. lia. Qed.

Lemma dma_bytes_wrap p len : 0 <= len < 2 ^ 28 -> dma_bytes (DmaCmd p (wrap 28 len)) = seqZ p len.
Proof. intros. unfold dma_bytes. cbn [dma_addr dma_len]. by rewrite wrap_small. Qed.

Lemma seqZ_same_start a b n : 0 < n -> Some <$> seqZ a n = Some <$> seqZ b n -> a = b.
Proof.
  intros Hn H. apply (f_equal (fun l => l !! 0%nat)) in H. rewrite !list_lookup_fmap in H.
  assert (E : forall x, seqZ x n !! 0%nat = Some x) by (intros x; apply lookup_seqZ; lia). rewrite !E in H. by injection H.
Qed.

(** The two pages of a command that crosses a boundary. *)
Lemma crossing_bytes base pages a len phys (n := to_page_end base a) : 0 <= a - base -> n < len <= n + PAGE ->
  virt_to_phys base pages a = Some phys ->
  (Some <$> seqZ phys len = virt_to_phys base pages <$> cmd_bytes (MemCmd a len) <->
   virt_to_phys base pages (a + n) = Some (phys + n)).
Proof.
  intros Ha Hlen Hv. pose proof (to_page_end_bound base a) as Hn. fold n in Hn. change PAGE_SIZE with PAGE in Hn.
  rewrite (cmd_bytes_split a n) by lia.
  replace (seqZ phys len) with (seqZ phys n ++ seqZ (phys + n) (len - n)) by (rewrite <- seqZ_app by lia; f_equal; lia).
  rewrite !fmap_app, <- (in_page_bytes base pages a n phys Ha), dma_bytes_wrap by (unfold in_page, PAGE in *; cbn; (done || lia)).
  assert (Hend : to_page_end base (a + n) = PAGE).
  { unfold n, to_page_end in *. change PAGE_SIZE with PAGE in *. replace (a + (PAGE - (a - base) mod PAGE) - base) with
      (((a - base) / PAGE + 1) * PAGE) by (pose proof (Z.div_mod (a - base) PAGE); unfold PAGE in *; lia).
    rewrite Z_mod_mult. lia. }
  split.
  - intros H. apply app_inv_head in H. destruct (virt_to_phys base pages (a + n)) as [q|] eqn:Eq.
    + rewrite <- (in_page_bytes base pages (a + n) (len - n) q), dma_bytes_wrap in H by (unfold in_page, PAGE in *; cbn; (done || lia)).
      f_equal. symmetry. apply (seqZ_same_start _ _ (len - n)); [lia | done].
    + apply (f_equal (fun l => l !! 0%nat)) in H. rewrite !list_lookup_fmap in H. unfold cmd_bytes in H. cbn [cmd_addr cmd_len] in H.
      assert (E : forall x, seqZ x (len - n) !! 0%nat = Some x) by (intros x; apply lookup_seqZ; lia).
      rewrite !E in H. cbn in H. by rewrite Eq in H.
  - intros Hq. f_equal.
    rewrite <- (in_page_bytes base pages (a + n) (len - n) (phys + n)), dma_bytes_wrap by (unfold in_page, PAGE in *; cbn; (done || lia)).
    done.
Qed.

(** C21: a read of the buffer with at most one page boundary inside is sent to the engine as one command, and
    its bytes are those of the buffer exactly if it stays within its page
    or the physical page of the next one happens to follow: reads, unlike writes,
    are not split.  The TLB counts it as crossing a page. *)
Theorem reads_not_split base pages t c : tlb_wf t -> maps_pages t base pages -> 0 <= base ->
  in_buffer base (Z.of_nat (length pages)) c -> crosses_once base c ->
  exists t' x, tlb t (read_commands [c]) = Some (t', read_commands [], ([], [x])) /\
    tlbMissCounter t' = tlbMissCounter t /\
    (Some <$> dma_bytes x = virt_to_phys base pages <$> cmd_bytes c <->
     in_page base c \/ virt_to_phys base pages (cmd_addr c + to_page_end base (cmd_addr c)) =
       (fun p => p + to_page_end base (cmd_addr c)) <$> virt_to_phys base pages (cmd_addr c)) /\
    (tlbPageCrossingCounter t' = tlbPageCrossingCounter t <-> in_page base c).
Proof.
  intros Hwf Hm Hb (H1 & H2 & H3) Hx. destruct c as [a len]. unfold crosses_once in Hx. cbn [cmd_addr cmd_len] in *.
  destruct (tlb_command_mapped t base pages a len Hwf Hm) as (phys & t' & Hv & Hc & _ & _ & _ & Hmi & Hcr); [lia|].
  pose proof (to_page_end_bound base a) as Hn. change PAGE_SIZE with PAGE in *.
  assert (Hin : in_page base (MemCmd a len) <-> len <= to_page_end base a) by done.
  exists t', (DmaCmd phys (wrap 28 len)). split_and!; [| exact Hmi | |].
  - cbn [tlb read_commands]. by rewrite Hc.
  - rewrite dma_bytes_wrap by (unfold PAGE in *; lia). destruct (Z.le_gt_cases len (to_page_end base a)) as [Hl | Hl].
    + split; [by left|]. intros _. rewrite <- (in_page_bytes base pages a len phys), dma_bytes_wrap by (unfold PAGE in *; (done || lia)).
      done.
    + rewrite (crossing_bytes base pages a len phys) by (done || lia). rewrite Hv. cbn [fmap option_fmap option_map].
      split; [by right|]. intros [Hi | He]; [apply (proj1 Hin) in Hi; lia | done].
  - rewrite Hcr, Hin. destruct Hwf as (_ & _ & _ & _ & Hw). unfold to_page_end. change PAGE_SIZE with PAGE.
    destruct (decide _) as [Hd | Hd].
    + split; [|lia]. intros He. exfalso. revert He Hw. unfold wrap. generalize (tlbPageCrossingCounter t). intros z.
      Z.to_euclidean_division_equations. lia.
    + rewrite Z.add_0_r, wrap_small by done. split; [lia | done].
Qed.

(** ** Traffic *)

Definition total_bytes (cmds : list memCmd) : Z := foldr (fun c n => cmd_len c + n) 0 cmds.

Lemma length_dma_bytes out : Forall (fun c => 0 <= dma_len c) out ->
  Z.of_nat (length (concat (dma_bytes <$> out))) = total_length out.
Proof.
  induction 1 as [|c out Hc _ IH]; [done|]. cbn [fmap list_fmap concat total_length foldr] in *. rewrite length_app, Nat2Z.inj_add.
  unfold dma_bytes at 1. rewrite length_seqZ. unfold total_length in IH. lia.
Qed.

Lemma length_cmd_bytes cmds : Forall (fun c => 0 <= cmd_len c) cmds ->
  Z.of_nat (length (concat (cmd_bytes <$> cmds))) = total_bytes cmds.
Proof.
  induction 1 as [|c cmds Hc _ IH]; [done|]. cbn [fmap list_fmap concat total_bytes foldr] in *. rewrite length_app, Nat2Z.inj_add.
  unfold cmd_bytes at 1. rewrite length_seqZ. unfold total_bytes in IH. lia.
Qed.

(** The lengths the TLB writes are 28 bits wide. *)
Lemma Some_pair {A B} (a a' : A) (b b' : B) : Some (a, b) = Some (a', b') -> b = b'.
Proof. by intros [= _ ->]. Qed.

Lemma tlb_command_len t c t' x : tlb_command t c = Some (t', x) -> 0 <= dma_len x.
Proof.
  unfold tlb_command. destruct (_ <? TLB_ENTRIES); [|done]. intros H%Some_pair. rewrite <- H. cbn [mk_dmaCmd dma_len].
  apply (wrap_bound 28). lia.
Qed.

Lemma tlb_len t i t' i' ow rd : tlb t i = Some (t', i', (ow, rd)) -> Forall (fun c => 0 <= dma_len c) ow.
Proof.
  assert (Hnil : forall A (a a' : A) r, Some (a, ([], r)) = Some (a', (ow, rd)) -> Forall (fun c => 0 <= dma_len c) ow).
  { intros A a a' r HE. apply Some_pair in HE. injection HE as <- _. constructor. }
  destruct i as [[|c w] r m].
  - destruct r as [|c' r], m as [|m ms]; cbn [tlb]; [apply Hnil | | |];
      try (destruct (tlb_insert t m)); try (destruct (tlb_command t c') as [[t1 x]|]); try done; apply Hnil.
  - replace (tlb t (TlbInputs (c :: w) r m)) with
      ('(s', out) ← tlb_command t c; Some (s', TlbInputs w r m, ([out], @nil dmaCmd))) by by destruct r, m.
    destruct (tlb_command t c) as [[t1 x]|] eqn:E; [|done]. cbn [mbind option_bind]. intros HE. apply Some_pair in HE.
    injection HE as <- _. apply Forall_singleton. exact (tlb_command_len _ _ _ _ E).
Qed.

Lemma tlb_cycles_len n : forall t i t' i' ow rd, tlb_cycles n t i = Some (t', i', (ow, rd)) ->
  Forall (fun c => 0 <= dma_len c) ow.
Proof.
  induction n as [|n IH]; intros t i t' i' ow rd; cbn [tlb_cycles]; [intros [= _ _ <- _]; constructor|].
  destruct (tlb t i) as [[[t1 i1] [ow1 rd1]]|] eqn:E; [|done]. cbn [mbind option_bind].
  destruct (tlb_cycles n t1 i1) as [[[t2 i2] [ow2 rd2]]|] eqn:E2; [|done]. cbn [mbind option_bind]. intros [= _ _ <- _].
  apply Forall_app. split; [exact (tlb_len _ _ _ _ _ _ E) | exact (IH _ _ _ _ _ _ E2)].
Qed.

Section traffic.
Context {D : Type} `{Routed D dma_ctrl 4096 dma_ctrl_write dma_ctrl_read}.

(** C8: what the hardware writes is what the host reads: for write commands to the buffer that cross
    at most one page boundary ([crosses_once]; of a longer command the boundary check splits off
    only the first part, and the TLB cuts the length of the rest to 28 bits), split at the
    page boundary and translated, once the engine has taken them and as long as the host
    has not reset the counter, [getDmaWrites] returns the number of bytes the
    original commands ask for (modulo 2^48). *)
Theorem writes_are_counted r t base pages cmds : tlb_wf t -> maps_pages t base pages -> 0 <= base ->
  base + Z.of_nat (length pages) * PAGE <= 2 ^ 64 -> regBaseVaddrBoundCheck r mod PAGE_SIZE = base mod PAGE_SIZE ->
  Forall (fun c => in_buffer base (Z.of_nat (length pages)) c /\ crosses_once base c) cmds ->
  settles (write_commands r) (tt, bc_init, []) cmds (3 * length cmds) (fun _ o => exists t' out,
    tlb_cycles (length o.1) t (TlbInputs o.1 [] []) = Some (t', TlbInputs [] [] [], (out, [])) /\
    forall (d : D) s l miss crossing, commands fst l = out -> existsb (fun i => reset_length i.1) l = false ->
      reports d s l miss crossing -> exists d', getDmaWrites false d = Returns (wrap 48 (total_bytes cmds), d')).
Proof.
  intros Hwf Hm Hb Hbl Hr Hc.
  eapply settles_weaken; [by apply (write_commands_translated r t base pages cmds) | done |].
  intros s o (t' & out & R & _ & _ & B). exists t', out. split; [exact R|]. intros d s' l miss crossing Hl Hres Hrep.
  destruct (host_reads_lengths d s' l miss crossing Hrep) as [_ [d' Rd]].
  rewrite (since_reset_none fst l Hres), Hl in Rd. exists d'. rewrite Rd. do 3 f_equal.
  apply (f_equal length) in B. rewrite !length_fmap in B.
  rewrite <- length_dma_bytes by exact (tlb_cycles_len _ _ _ _ _ _ _ R). rewrite B. apply length_cmd_bytes.
  eapply Forall_impl; [exact Hc|]. intros c [(_ & ? & _) _]. lia.
Qed.
End traffic.

(** ** Instances: two pages that are not adjacent *)

(** The last 16 of 64 bytes are not those of the buffer. *)
Lemma reads_not_split_witness : exists t' x,
  tlb demo_tlb (read_commands [MemCmd 0x7F00001FFFD0 64]) = Some (t', read_commands [], ([], [x])) /\
  Some <$> dma_bytes x <> virt_to_phys 0x7F0000000000 [0x40000000; 0x80000000] <$> cmd_bytes (MemCmd 0x7F00001FFFD0 64) /\
  tlbPageCrossingCounter t' <> tlbPageCrossingCounter demo_tlb.
Proof.
  destruct (reads_not_split 0x7F0000000000 [0x40000000; 0x80000000] demo_tlb (MemCmd 0x7F00001FFFD0 64))
    as (t' & x & R & _ & B & C);
    [exact demo_tlb_wf | exact demo_tlb_maps | discriminate | split_and!; [discriminate | reflexivity | discriminate] | discriminate |].
  assert (Hn : ~ in_page 0x7F0000000000 (MemCmd 0x7F00001FFFD0 64)) by (intros Hp; by vm_compute in Hp).
  exists t', x. split; [exact R|]. split.
  - intros E. destruct (proj1 B E) as [Hp | Hp]; [exact (Hn Hp) | by vm_compute in Hp].
  - intros E. exact (Hn (proj1 C E)).
Defined.

Definition demo_cmds : list memCmd := [MemCmd 0x7F00001FFFF0 64; MemCmd 0x7F0000300000 4096].

Lemma writes_are_counted_witness :
  settles (write_commands (BaseRegs 0x7F0000000000 0)) (tt, bc_init, []) demo_cmds 6 (fun _ o => exists out,
    forall (d : dma_ctrl) s l miss crossing, commands fst l = out -> existsb (fun i => reset_length i.1) l = false ->
      reports d s l miss crossing -> exists d', getDmaWrites false d = Returns (4160, d')).
Proof.
  eapply settles_weaken; [apply (writes_are_counted (D := dma_ctrl) (BaseRegs 0x7F0000000000 0) demo_tlb 0x7F0000000000
    [0x40000000; 0x80000000] demo_cmds) | apply le_n |];
    [exact demo_tlb_wf | exact demo_tlb_maps | discriminate | discriminate | reflexivity | repeat constructor; discriminate |].
  intros s o (t' & out & _ & T). exists out. exact T.
Defined.
