(* ===== verification/Sessions.v ===== *)
(** [src/sw/src/fpga/Fpga.cpp], [FpgaController.cpp]: what a process that uses the
    host library takes from the operating system and what it gives back -
    descriptors, mapped areas and, in the driver, pinned pages - over the runs
    of several programs on the same machine. *)
From stdpp Require Import gmap gmultiset.
From S2P Require Import Prelude AxiUtils Tlb Mmio FpgaController DmaController MemoryManager XdmaIoctl Fpga DmaPath.

(** ** System calls *)

(** The descriptors and the mapped areas, by their addresses, of a process. *)
Record table := Table { fds : gset Z; areas : gset Z }.

(** The calls with their results, -1 for a failure, or their argument. *)
Inductive syscall := OpenFile (r : Z) | MapArea (r : Z) | CloseFile (n : Z) | UnmapArea (a : Z).

Definition sys (t : table) (c : syscall) : table :=
  match c with
  | OpenFile r => if r =? -1 then t else Table ({[r]} ∪ fds t) (areas t)
  | MapArea r => if r =? -1 then t else Table (fds t) ({[r]} ∪ areas t)
  | CloseFile n => Table (fds t ∖ {[n]}) (areas t)
  | UnmapArea a => Table (fds t) (areas t ∖ {[a]})
  end.

(** The calls of [initializeMemory]; [regs] is what [mmap] returns to the constructor of
    [FpgaController]. *)
Definition initializeMemory_calls (o : os) (regs : Z) (s : fpga_state) : list syscall :=
  OpenFile (open_huge o) ::
  if open_huge o =? -1 then [] else
  MapArea (mmap_huge o) ::
  if mmap_huge o =? -1 then [] else
  OpenFile (open_control o) ::
  if open_control o =? -1 then [] else
  match controller s with Nullptr => [MapArea regs] | _ => [] end.

(** The calls of [clear]; the destructor of [FpgaController] unmaps the registers. *)
Definition clear_calls (regs : Z) (s : fpga_state) : list syscall :=
  match controller s with Live _ => [UnmapArea regs] | _ => [] end ++
  [UnmapArea (huge_base s); CloseFile (fd s); CloseFile (hfd s)].

(** What the system promises: descriptors and areas that are new. *)
Record fresh (t : table) (o : os) : Prop := Fresh {
  fresh_huge : open_huge o ∉ fds t;
  fresh_control : open_control o ∉ fds t;
  fresh_differ : open_control o <> open_huge o;
  fresh_buffer : mmap_huge o ∉ areas t;
  fresh_address : 0 <= mmap_huge o < 2 ^ 64 }.

Record fresh_regs (t : table) (o : os) (regs : Z) : Prop := FreshRegs {
  regs_mapped : regs <> -1;
  regs_new : regs ∉ areas t;
  regs_apart : regs <> mmap_huge o }.

(** The calls of an initialisation that gets as far as the loop. *)
Lemma initializeMemory_all_calls o regs s t : open_huge o <> -1 -> mmap_huge o <> -1 -> open_control o <> -1 ->
  foldl sys t (initializeMemory_calls o regs s) =
  foldl sys (Table ({[open_control o; open_huge o]} ∪ fds t) ({[mmap_huge o]} ∪ areas t))
    match controller s with Nullptr => [MapArea regs] | _ => [] end.
Proof.
  intros H1 H2 H3. unfold initializeMemory_calls.
  rewrite (proj2 (Z.eqb_neq _ _) H1), (proj2 (Z.eqb_neq _ _) H2), (proj2 (Z.eqb_neq _ _) H3). cbn [foldl sys fds areas].
  rewrite (proj2 (Z.eqb_neq _ _) H1), (proj2 (Z.eqb_neq _ _) H2), (proj2 (Z.eqb_neq _ _) H3).
  by rewrite <- (assoc_L (∪)).
Qed.

Section sessions.
Context {D : Type} `{Routed D dma_ctrl 4096 dma_ctrl_write dma_ctrl_read}.
Variable k : kernel.

(** ** Static members *)

Lemma insert_tlb_entries_statics arr i n v : keeps (statics (D := D)) (insert_tlb_entries false arr i n v).
Proof. by apply keeps_insert_tlb_entries. Qed.

(** The static members when [initializeMemory] returns. *)
Lemma initializeMemory_statics o u1 u2 (w w' : world D) x : initializeMemory false k o u1 u2 w = Returns (x, w') ->
  open_huge o <> -1 /\ mmap_huge o <> -1 /\ open_control o <> -1 /\ controller (statics w) <> Deleted /\
  statics w' = FpgaState (Live tt) (Live (MemoryManager (memory o) (wrap 64 (mmap_huge o)) DMA_SIZE)) (nodeId (statics w))
    (open_control o) (open_huge o) (wrap 64 (mmap_huge o)).
Proof.
  unfold initializeMemory. rewrite (bind_returns _ _ _ tt _ eq_refl). destruct (Z.eqb_spec (open_huge o) (-1)); [done|].
  rewrite (bind_returns _ _ _ tt _ eq_refl). destruct (Z.eqb_spec (mmap_huge o) (-1)); [done|].
  rewrite (bind_returns _ _ _ tt _ eq_refl). destruct (Z.eqb_spec (open_control o) (-1)); [done|].
  rewrite (bind_returns _ _ _ tt _ eq_refl). cbn [statics controller mm nodeId fd hfd huge_base device drv]. intros HR.
  apply bind_inv in HR as (base & w2 & [= <- <-] & HR).
  apply bind_inv in HR as (y & w3 & H3 & HR). apply ioctl_same_statics in H3. cbn [statics] in H3.
  apply bind_inv in HR as ([z c] & w4 & H4 & HR). apply ioctl_same_statics in H4. rewrite H3 in H4.
  apply bind_inv in HR as (ctl & w5 & [= <- <-] & HR). unfold compose in HR. rewrite H4 in HR. cbn [controller] in HR.
  destruct (controller (statics w)) as [|[]|]; [| |done]; apply bind_inv in HR as ([] & w6 & H6 & HR);
    apply insert_tlb_entries_statics in H6; injection HR as _ <-; cbn [statics]; rewrite H6, H4; by split_and!.
Qed.

Lemma clear_run (w : world D) m : controller (statics w) = Live tt -> mm (statics w) = Live m ->
  clear w = Returns (tt, World (device w) (FpgaState Deleted Deleted (nodeId (statics w)) (Fpga.fd (statics w))
    (hfd (statics w)) (huge_base (statics w))) (drv w)).
Proof. intros Hc Hm. unfold clear, delete_ptr, mbind, M_bind. cbn [gets]. by rewrite Hm, Hc. Qed.

(** ** Pinned pages *)

Definition buffer_huge (o : os) : xdma_huge := XdmaHuge (mmap_huge o) DMA_SIZE.

Lemma initializeMemory_drv o pgs (w w' : world D) x : buffer_pinned k (mmap_huge o) pgs -> 0 <= mmap_huge o < 2 ^ 64 ->
  initializeMemory false k o uaccess_ok uaccess_ok w = Returns (x, w') ->
  drv w' = buffer_set_result (buffer_huge o) pgs (drv w).
Proof.
  intros Hbp Hm. destruct Hbp as [Hk Hg Hl _ _ Hv _]. unfold DMA_SIZE, NUM_HUGE_PAGES, HUGE_PAGE_SIZE in Hl.
  unfold initializeMemory. rewrite (bind_returns _ _ _ tt _ eq_refl). destruct (open_huge o =? -1); [done|].
  rewrite (bind_returns _ _ _ tt _ eq_refl). destruct (mmap_huge o =? -1); [done|].
  rewrite (bind_returns _ _ _ tt _ eq_refl). destruct (open_control o =? -1); [done|].
  rewrite (bind_returns _ _ _ tt _ eq_refl). intros HR.
  apply bind_inv in HR as (base & w2 & [= <- <-] & HR). unfold compose in HR. cbn [statics huge_base] in HR.
  rewrite wrap_small in HR by lia. apply bind_inv in HR as (y & w3 & H3 & HR).
  assert (E3 : drv w3 = buffer_set_result (buffer_huge o) pgs (drv w)).
  { revert H3. unfold ioctl. cbn [char_xdma_ioctl drv]. unfold mbind at 1, M_bind at 1.
    rewrite (buffer_set_pages k uaccess_ok (XdmaHuge (mmap_huge o) DMA_SIZE) _ pgs) by (done || lia). by intros [= _ <-]. }
  apply bind_inv in HR as ([z c] & w4 & H4 & HR). assert (E4 : drv w4 = drv w3).
  { revert H4. unfold ioctl. cbn [char_xdma_ioctl].
    destruct ((ioctl_do_mapping_get _ _ _ ≫= _) (drv w3)) as [[[r c'] d] | | |] eqn:E; try done. intros [= _ _ <-].
    apply bind_inv in E as ([rc m] & d1 & H1 & [= _ _ <-]). by apply mapping_get_state in H1. }
  apply bind_inv in HR as (ctl & w5 & [= <- <-] & HR).
  unfold compose in HR. destruct (controller (statics w4)) as [|[]|]; [done | | done].
  apply bind_inv in HR as ([] & w6 & H6 & HR). injection HR as _ <-. cbn [drv].
  rewrite (keeps_insert_tlb_entries drv _ (fun _ _ _ _ => eq_refl) _ _ _ _ _ _ H6). by rewrite E4.
Qed.

(** C30: what the library takes from the system it gives back: after
    [initializeMemory] has returned - whatever the driver said - and [clear], the process has
    the descriptors and areas it had before.  A second
    [initializeMemory] before [clear] overwrites the static members, and the two descriptors and
    the buffer of the first stay; and [clear] without [initializeMemory] closes the
    descriptor 0. *)
Theorem host_resources_balanced o u1 u2 regs t (w w' : world D) x : fresh t o -> fresh_regs t o regs ->
  controller (statics w) = Nullptr -> initializeMemory false k o u1 u2 w = Returns (x, w') ->
  let first := initializeMemory_calls o regs (statics w) in
  (exists w2, clear w' = Returns (tt, w2)) /\
  foldl sys t (first ++ clear_calls regs (statics w')) = t /\
  (forall o2 v1 v2 y w2, fresh (foldl sys t first) o2 -> initializeMemory false k o2 v1 v2 w' = Returns (y, w2) ->
     foldl sys t (first ++ initializeMemory_calls o2 regs (statics w') ++ clear_calls regs (statics w2)) =
     Table ({[open_control o; open_huge o]} ∪ fds t) ({[mmap_huge o]} ∪ areas t)) /\
  foldl sys t (clear_calls regs fpga_init) = Table (fds t ∖ {[0]}) (areas t ∖ {[0]}).
Proof.
  intros [F1 F2 F3 F4 F5] [G1 G2 G3] Hc HR first.
  destruct (initializeMemory_statics _ _ _ _ _ _ HR) as (H1 & H2 & H3 & _ & Hs). rewrite wrap_small in Hs by lia.
  assert (E : foldl sys t first = Table ({[open_control o; open_huge o]} ∪ fds t) ({[regs; mmap_huge o]} ∪ areas t)).
  { unfold first. rewrite initializeMemory_all_calls, Hc by done. cbn [foldl sys fds areas].
    rewrite (proj2 (Z.eqb_neq _ _) G1). by rewrite (assoc_L (∪)). }
  split_and!.
  - eexists. eapply clear_run; by rewrite Hs.
  - rewrite foldl_app, E, Hs. cbn. destruct t as [a b]; cbn in *. clear -F1 F2 F3 F4 G2 G3. f_equal; apply set_eq; set_solver.
  - intros o2 v1 v2 y w2 [K1 K2 K3 K4 K5] HR2.
    destruct (initializeMemory_statics _ _ _ _ _ _ HR2) as (I1 & I2 & I3 & _ & Hs2). rewrite wrap_small in Hs2 by lia.
    rewrite E in K1, K2, K4. cbn [fds areas] in K1, K2, K4.
    rewrite !foldl_app, E, initializeMemory_all_calls, Hs, Hs2 by done. cbn. clear -F1 F2 F3 F4 G2 G3 K1 K2 K3 K4.
    f_equal; apply set_eq; set_solver.
  - cbn. f_equal; apply set_eq; set_solver.
Qed.

(** ** Several programs, one after the other *)

(** A program that uses the buffer and ends; the next starts with its own static
    members on the same driver and board. *)
Definition session (o : os) : M (world D) unit :=
  with_statics (fun _ => fpga_init);;
  initializeMemory false k o uaccess_ok uaccess_ok;;
  clear.

Fixpoint sessions (l : list os) : M (world D) unit :=
  match l with [] => mret tt | o :: l => session o;; sessions l end.

(** A machine on which the buffer of a program can be pinned. *)
Definition session_ok (o : os) (pgs : list Z) : Prop :=
  buffer_pinned k (mmap_huge o) pgs /\ open_huge o <> -1 /\ open_control o <> -1 /\ 0 <= mmap_huge o /\
  mmap_huge o + DMA_SIZE < 2 ^ 64.

Lemma session_run o pgs (w : world D) : session_ok o pgs -> word_counter (block w) = 0 ->
  exists w' arr, session o w = Returns (tt, w') /\ word_counter (block w') = 0 /\
    drv w' = buffer_set_result (buffer_huge o) pgs (drv w) /\
    mappings (block w') = mappings (block w) ++ page_mappings (mmap_huge o) true arr /\
    mapped k pgs arr /\ Z.of_nat (length arr) = NUM_HUGE_PAGES /\ Forall (fun p => 0 <= p < 2 ^ 48) arr.
Proof.
  intros (Hbp & Ho & Hc & Hm0 & Hm) Hwc. set (w0 := World (device w) fpga_init (drv w)).
  destruct (ioctls_pinned k _ _ (before_ioctls o w0) Hbp) as (arr & Hio & Hl & Ha).
  pose proof (mapped_phys_bound k _ _ Ha (bp_phys _ _ _ Hbp)) as Hpb.
  destruct (initializeMemory_run k o uaccess_ok uaccess_ok arr w0) as (w1 & R & Hs & _ & M & Hwc1); try done.
  assert (0 <= mmap_huge o < 2 ^ 64) as Hr by (unfold DMA_SIZE, NUM_HUGE_PAGES, HUGE_PAGE_SIZE in Hm; lia).
  pose proof (initializeMemory_drv _ _ _ _ _ Hbp Hr R) as Hd.
  set (w2 := World (device w1) (FpgaState Deleted Deleted (nodeId (statics w1)) (Fpga.fd (statics w1)) (hfd (statics w1))
    (huge_base (statics w1))) (drv w1)).
  assert (Rc : clear w1 = Returns (tt, w2)) by (eapply clear_run; by rewrite Hs).
  exists w2, arr. split_and!; [| exact Hwc1 | exact Hd | exact M | done | done | done].
  unfold session. rewrite (bind_returns _ _ _ tt w0 eq_refl), (bind_returns _ _ _ _ _ R). exact Rc.
Qed.

(** The pages of the buffers of several programs, once for each. *)
Definition all_pages (l : list (os * list Z)) : gmultiset Z := foldr (fun s X => list_to_set_disj s.2 ⊎ X) ∅ l.

Lemma sessions_run l : forall w, Forall (fun s => session_ok s.1 s.2) l -> word_counter (block w) = 0 ->
  exists w' sent, sessions (fst <$> l) w = Returns (tt, w') /\ word_counter (block w') = 0 /\
    pinned (drv w') = pinned (drv w) ⊎ all_pages l /\ mappings (block w') = mappings (block w) ++ sent.
Proof.
  induction l as [|[o pgs] l IH]; intros w Hl Hwc.
  - exists w, []. cbn. by rewrite (right_id_L ∅ (⊎)), app_nil_r.
  - apply Forall_cons in Hl as [Ho Hl]. destruct (session_run o pgs w Ho Hwc) as (w1 & arr & R1 & Hwc1 & Hd & M1 & _).
    destruct (IH w1 Hl Hwc1) as (w' & sent & R & Hwc' & Hp & M). eexists w', _. split_and!; [| done | |].
    + cbn [fmap list_fmap sessions fst]. by rewrite (bind_returns _ _ _ _ _ R1).
    + rewrite Hp, Hd. cbn. by rewrite (assoc_L (⊎)).
    + rewrite M, M1. symmetry. apply app_assoc.
Qed.

Lemma sessions_app l1 l2 (w : world D) : sessions (l1 ++ l2) w = (sessions l1;; sessions l2) w.
Proof.
  revert w. induction l1 as [|o l1 IH]; intros w; [done|]. cbn [app sessions]. unfold mbind, M_bind.
  destruct (session o w) as [[[] w1] | | |]; [|done..]. apply IH.
Qed.

(** C9: programs that use the library one after the other, each with
    [initializeMemory] and [clear], where the calls of the operating system succeed and the
    kernel can pin each of the buffers ([session_ok]): each of them succeeds, and the last one finds
    its buffer translated as if it were the first; but no page is ever
    unpinned: the driver holds the pages of all the buffers, once for each
    program. *)
Theorem sessions_accumulate_pins l o pgs (w : world D) : Forall (fun s => session_ok s.1 s.2) l -> session_ok o pgs ->
  word_counter (block w) = 0 ->
  exists w' before sent, sessions ((fst <$> l) ++ [o]) w = Returns (tt, w') /\
    pinned (drv w') = pinned (drv w) ⊎ all_pages l ⊎ list_to_set_disj pgs /\
    mappings (block w') = mappings (block w) ++ before ++ sent /\
    forall t, tlb_wf t -> exists t', tlb_cycles (length sent) t (TlbInputs [] [] sent) = Some (t', TlbInputs [] [] [], ([], [])) /\
      forall x len, 0 <= x < DMA_SIZE -> exists p t'', phys k pgs x = Some p /\
        tlb_command t' (MemCmd (mmap_huge o + x) len) = Some (t'', DmaCmd p (wrap 28 len)).
Proof.
  intros Hl Ho Hwc. destruct (sessions_run l w Hl Hwc) as (w1 & before & R1 & Hwc1 & Hp1 & M1).
  destruct (session_run o pgs w1 Ho Hwc1) as (w2 & arr & R2 & _ & Hd & M2 & Ha & Hn & Hpb).
  destruct Ho as (Hbp & _ & _ & Hm0 & Hm). pose proof (bp_length _ _ _ Hbp) as Hlen.
  unfold DMA_SIZE, NUM_HUGE_PAGES, HUGE_PAGE_SIZE in Hm, Hlen, Hn.
  exists w2, before, (page_mappings (mmap_huge o) true arr). split_and!.
  - rewrite sessions_app, (bind_returns _ _ _ _ _ R1). cbn [sessions]. by rewrite (bind_returns _ _ _ _ _ R2).
  - rewrite Hd. cbn. by rewrite Hp1.
  - rewrite M2, M1. symmetry. apply app_assoc.
  - intros t Ht. rewrite length_page_mappings.
    destruct (tlb_program_correct t (mmap_huge o) arr) as (t' & Rt & Hwf & Hmaps); try done.
    { intros ->. done. }
    { unfold PAGE. lia. }
    { unfold TLB_ENTRIES. lia. }
    exists t'. split; [done|]. intros x len Hx. unfold DMA_SIZE, NUM_HUGE_PAGES, HUGE_PAGE_SIZE in Hx.
    destruct (tlb_command_mapped t' (mmap_huge o) arr (mmap_huge o + x) len Hwf Hmaps) as (p & t'' & Hv & Hcmd & _).
    { unfold PAGE. lia. }
    exists p, t''. split; [|done]. rewrite <- Hv. symmetry.
    rewrite (virt_to_phys_pinned k (mmap_huge o) pgs arr) by (exact (bp_huge _ _ _ Hbp) || done || lia).
    by rewrite Z.add_simpl_l.
Qed.
End sessions.

(** ** Instances: the machine of [Fpga] *)

Lemma demo_session_ok : session_ok demo_fpga_kernel demo_os (seqZ 0x40000 524288).
Proof. split_and!; [exact demo_pinned | discriminate | discriminate | discriminate | reflexivity]. Qed.

Lemma two_buffers (X Y : gmultiset Z) : ∅ ⊎ (X ⊎ ∅) ⊎ Y = X ⊎ Y.
Proof. by rewrite (left_id_L ∅ (⊎)), (right_id_L ∅ (⊎)). Qed.

Lemma sessions_accumulate_pins_witness : exists w', sessions demo_fpga_kernel [demo_os; demo_os] demo_world = Returns (tt, w') /\
  pinned (drv w') = list_to_set_disj (seqZ 0x40000 524288) ⊎ list_to_set_disj (seqZ 0x40000 524288).
Proof.
  pose proof demo_session_ok as Hok. revert Hok. generalize (seqZ 0x40000 524288). intros pgs Hok.
  destruct (sessions_accumulate_pins (D := dma_ctrl) demo_fpga_kernel [(demo_os, pgs)] demo_os pgs demo_world)
    as (w' & before & sent & R & Hp & _); [by apply Forall_singleton | exact Hok | reflexivity |].
  exists w'. split; [exact R|]. exact (eq_trans Hp (two_buffers _ _)).
Defined.

Definition demo_table : table := Table {[0; 1; 2]} {[0x400000]}.

Lemma host_resources_balanced_witness : exists w' w2,
  initializeMemory false demo_fpga_kernel demo_os uaccess_ok uaccess_ok demo_world = Returns (tt, w') /\
  clear w' = Returns (tt, w2) /\
  foldl sys demo_table (initializeMemory_calls demo_os 0x7E0000000000 fpga_init ++ clear_calls 0x7E0000000000 (statics w')) = demo_table.
Proof.
  destruct (initialised (D := dma_ctrl) demo_fpga_kernel demo_os (seqZ 0x40000 524288) demo_world demo_tlb (BaseRegs 0 0))
    as (w' & _ & _ & _ & R & _);
    [exact demo_pinned | reflexivity | discriminate | discriminate | discriminate | discriminate | reflexivity | exact demo_tlb_wf |].
  destruct (host_resources_balanced (D := dma_ctrl) demo_fpga_kernel demo_os uaccess_ok uaccess_ok 0x7E0000000000 demo_table
    demo_world w' tt) as ([w2 Rc] & E & _);
    [split; vm_compute; intuition discriminate | split; vm_compute; intuition discriminate | reflexivity | exact R |].
  exists w', w2. split; [exact R|]. split; [exact Rc | exact E].
Defined.
