(* ===== verification/System.v ===== *)
(** The whole way of a write benchmark: [Fpga::initializeMemory] pins the buffer
    and programs the TLB ([Fpga]), [FpgaController::runDmaBenchmark] starts the
    engine of [benchmark_role.sv] ([BenchmarkRole]), and the commands of the
    engine pass the boundary check and the TLB of [dma_inf.sv] ([DmaPath]). *)
From stdpp Require Import gmap.
From S2P Require Import Prelude Streams AxiUtils DmaBench Mmio FpgaController DmaController BenchmarkController BenchmarkRole MemoryManager.
From S2P Require Import XdmaIoctl Tlb Fpga PageBoundary DmaPath.






(** ** Properties *)

Section system.
(** The role when the program starts, and what happens in the clocks of the
    benchmark. *)
Variables (q : dma_role) (e : bench_event) (gs : list (list bench_event)).
Hypothesis Hidle : role_idle q.
Variable ddr_engine : Z -> progress -> bench_cmd -> progress.

(** A board with the DMA controller and the role. *)
Context {D : Type} `{MmioDevice D}.
Context {R : Routed D dma_ctrl 4096 dma_ctrl_write dma_ctrl_read}.
Context {RB : Routed D bench_role 0 (bench_write (role_engine q e gs) ddr_engine) bench_read} {AB : Apart D bench_role}.
Hypothesis bench_elapse : forall d, block (Routed := RB) (elapse d) = tick (block (Routed := RB) d).
Variable k : kernel.



End system.

(** ** Instance: a board with the two register blocks *)






Section board.
Variable eng : progress -> bench_cmd -> progress.



End board.



