(* ===== verification/Throughput.v ===== *)
(** [src/sw/src/main.cpp]: the transfer size and the throughput that the benchmark
    program computes from the number of cycles, in the double-precision
    arithmetic of IEEE 754, operation by operation. *)
From Stdlib Require Import SpecFloat.
From S2P Require Import Prelude.

(** ** Doubles *)

Definition double : Type := spec_float.

(** The conversion of an integer, rounded to the nearest double. *)
Definition double_of (n : Z) : double := binary_normalize 53 1024 n 0 false.

Definition dmul : double -> double -> double := SFmul 53 1024.
Definition ddiv : double -> double -> double := SFdiv 53 1024.

(** ** Operations *)

(** [accesses] and [chunkLength] are 32 bits wide. *)
Definition transferSize (accesses chunkLength : Z) : Z := wrap 64 (wrap 64 accesses * wrap 64 chunkLength).

Definition transferSizeGB (transferSize : Z) : double :=
  ddiv (ddiv (ddiv (double_of transferSize) (double_of 1024)) (double_of 1024)) (double_of 1024).

Definition tp (clockPeriod : double) (cycles transferSize : Z) : double :=
  ddiv (transferSizeGB transferSize)
    (ddiv (ddiv (ddiv (dmul clockPeriod (double_of cycles)) (double_of 1000)) (double_of 1000)) (double_of 1000)).

(** The default of [clockPeriod]. *)
Definition default_clockPeriod : double := double_of 4.

(** [a / b] rounded to the nearest integer, and to the even one of two. *)
Definition round_half_even (a b : Z) : Z :=
  let q := a / b in let r := a mod b in
  if (2 * r <? b) || ((2 * r =? b) && Z.even q) then q else q + 1.

(** What [std::fixed] prints of a double with the default precision of six digits, in
    millionths; infinite values and those that are no numbers are printed as text. *)
Definition millionths (x : double) : option Z :=
  match x with
  | S754_zero _ => Some 0
  | S754_finite s m e =>
      let n := Zpos m * 10 ^ 6 in
      let r := if 0 <=? e then n * 2 ^ e else round_half_even n (2 ^ (- e)) in
      Some (if s then - r else r)
  | _ => None
  end.

(** ** Exact operations *)

Lemma digits_iter n m : digits2_pos (Pos.iter xO m n) = (digits2_pos m + n)%positive.
Proof. induction n as [|n IH] using Pos.peano_ind; [cbn; lia|]. rewrite Pos.iter_succ. cbn. rewrite IH. lia. Qed.

Lemma iter_xO n m : Zpos (Pos.iter xO m n) = Zpos m * 2 ^ Zpos n.
Proof.
  induction n as [|n IH] using Pos.peano_ind; [change (2 ^ 1) with 2; cbn [Pos.iter]; lia|].
  rewrite Pos.iter_succ, Pos2Z.inj_xO, IH, Pos2Z.inj_succ, Z.pow_succ_r by lia. lia.
Qed.

Lemma digits_bound m : 2 ^ (Zpos (digits2_pos m) - 1) <= Zpos m.
Proof.
  induction m as [m H | m H |]; [| |done]; cbn [digits2_pos];
    (replace (Zpos (Pos.succ (digits2_pos m)) - 1) with (Z.succ (Zpos (digits2_pos m) - 1)) by lia);
    rewrite Z.pow_succ_r by lia; lia.
Qed.

Lemma fexp_normal x : -1021 <= x -> fexp 53 1024 x = x - 53.
Proof. intros. unfold fexp, emin. lia. Qed.

(** A mantissa of 53 bits is not shifted, one of 54 bits by one bit. *)
Lemma shr_53 m e : digits2_pos m = 53%positive -> -1074 <= e ->
  shr_fexp 53 1024 (Zpos m) e loc_Exact = (Build_shr_record (Zpos m) false false, e).
Proof.
  intros Hd He. unfold shr_fexp. cbn [Zdigits2]. rewrite Hd, fexp_normal by lia. by replace (53 + e - 53 - e) with 0 by lia.
Qed.

Lemma shr_54 m e : digits2_pos m = 53%positive -> -1074 <= e ->
  shr_fexp 53 1024 (Zpos m~0) e loc_Exact = (Build_shr_record (Zpos m) false false, e + 1).
Proof.
  intros Hd He. unfold shr_fexp. cbn [Zdigits2 digits2_pos]. rewrite Hd, fexp_normal by lia.
  by replace (Zpos (Pos.succ 53) + e - 53 - e) with 1 by lia.
Qed.

Lemma round_exact m e : digits2_pos m = 53%positive -> -1074 <= e <= 971 ->
  binary_round_aux 53 1024 false (Zpos m) e loc_Exact = S754_finite false m e.
Proof.
  intros Hd He. unfold binary_round_aux. do 2 (rewrite shr_53 by (done || lia); cbn [shr_m loc_of_shr_record round_nearest_even]).
  by rewrite (proj2 (Z.leb_le _ _)) by lia.
Qed.

Lemma round_even m e : digits2_pos m = 53%positive -> -1074 <= e <= 970 ->
  binary_round_aux 53 1024 false (Zpos m~0) e loc_Exact = S754_finite false m (e + 1).
Proof.
  intros Hd He. unfold binary_round_aux. rewrite shr_54 by (done || lia). cbn [shr_m loc_of_shr_record round_nearest_even].
  rewrite shr_53 by (done || lia). cbn [shr_m]. by rewrite (proj2 (Z.leb_le _ _)) by lia.
Qed.

Lemma div_eucl_mul a b : b <> 0 -> Z.div_eucl (a * b) b = (a, 0).
Proof.
  intros Hb. rewrite (surjective_pairing (Z.div_eucl _ _)). f_equal; [exact (Z.div_mul a b Hb) | exact (Z.mod_mul a b Hb)].
Qed.

Lemma ddiv_1024 m e : digits2_pos m = 53%positive -> -1000 <= e <= 900 ->
  ddiv (S754_finite false m e) (double_of 1024) = S754_finite false m (e - 10).
Proof.
  intros Hd He. change (double_of 1024) with (S754_finite false 4503599627370496 (-42)).
  unfold ddiv, SFdiv, SFdiv_core_binary. cbn [Zdigits2]. rewrite Hd. change (digits2_pos 4503599627370496) with 53%positive.
  rewrite fexp_normal by lia. replace (Z.min (53 + e - (53 + -42) - 53) (e - -42)) with (e - 11) by lia.
  replace (e - -42 - (e - 11)) with 53 by lia. rewrite Z.shiftl_mul_pow2 by lia.
  replace (Zpos m * 2 ^ 53) with (Zpos m~0 * 4503599627370496) by lia.
  rewrite div_eucl_mul by lia. change (new_location 4503599627370496 0) with loc_Exact. cbn [xorb].
  rewrite round_even by (done || lia). f_equal. lia.
Qed.

(** An integer of at most 53 bits is converted exactly. *)
Lemma double_of_exact n : 0 < n < 2 ^ 53 -> exists m e, double_of n = S754_finite false m e /\
  digits2_pos m = 53%positive /\ -52 <= e <= 0 /\ Zpos m = n * 2 ^ (- e).
Proof.
  intros Hn. destruct n as [|p|p]; [lia | | lia]. pose proof (digits_bound p) as Hb.
  assert (Hd : Zpos (digits2_pos p) <= 53).
  { destruct (Z.le_gt_cases (Zpos (digits2_pos p)) 53); [done|].
    pose proof (Z.pow_le_mono_r 2 53 (Zpos (digits2_pos p) - 1)). lia. }
  unfold double_of, binary_normalize, binary_round. rewrite fexp_normal, Z.add_0_r by lia. unfold shl_align.
  destruct (Z.eq_dec (Zpos (digits2_pos p)) 53) as [E | E].
  - exists p, 0. rewrite E. cbn [Z.sub Z.opp Z.add Z.pos_sub]. split_and!; try lia. apply round_exact; lia.
  - assert (Hk : exists d, Zpos (digits2_pos p) - 53 - 0 = Zneg d) by (exists (Z.to_pos (53 - Zpos (digits2_pos p))); lia).
    destruct Hk as [d Hk]. rewrite Hk. exists (Pos.iter xO p d), (Zneg d). rewrite digits_iter.
    replace (Zpos (digits2_pos p) - 53) with (Zneg d) by lia. split_and!; try lia.
    + apply round_exact; [rewrite digits_iter|]; lia.
    + by rewrite iter_xO.
Qed.

(** ** Properties *)

Lemma transferSizeGB_exact n : 0 < n < 2 ^ 53 -> exists m e, transferSizeGB n = S754_finite false m e /\
  e + 30 <= 0 /\ Zpos m = n * 2 ^ (- (e + 30)).
Proof.
  intros Hn. destruct (double_of_exact n Hn) as (m & e & E & Hd & He & Hm). exists m, (e - 10 - 10 - 10). unfold transferSizeGB.
  rewrite E, !ddiv_1024 by (done || lia). split; [done|]. split; [lia|]. rewrite Hm. do 2 f_equal. lia.
Qed.

Lemma round_half_even_scale a b c : 0 < b -> 0 < c -> round_half_even (a * c) (b * c) = round_half_even a b.
Proof.
  intros Hb Hc. unfold round_half_even. rewrite Z.div_mul_cancel_r, Z.mul_mod_distr_r by lia.
  replace (2 * (a mod b * c) <? b * c) with (2 * (a mod b) <? b) by (apply eq_iff_eq_true; rewrite !Z.ltb_lt; nia).
  by replace (2 * (a mod b * c) =? b * c) with (2 * (a mod b) =? b) by (apply eq_iff_eq_true; rewrite !Z.eqb_eq; nia).
Qed.

(** C36: the size of the transfer never overflows: it is the product of the number of
    accesses and their length.  Below 2^53 bytes, the double that [main] computes for the GiB is
    exactly size / 2^30, without any rounding, so that the six decimals that it prints are
    this number, rounded once.  When no
    cycles are reported, the throughput is infinite for a size from 1 to 2^53 - 1 bytes, and not a number if
    nothing was to be transferred. *)
Theorem throughput_exact accesses chunkLength m e :
  0 <= accesses < 2 ^ 32 -> 0 <= chunkLength < 2 ^ 32 ->
  let n := accesses * chunkLength in
  transferSize accesses chunkLength = n /\
  (0 < n < 2 ^ 53 ->
     (exists gm ge, transferSizeGB n = S754_finite false gm ge /\ ge + 30 <= 0 /\ Zpos gm = n * 2 ^ (- (ge + 30))) /\
     millionths (transferSizeGB n) = Some (round_half_even (n * 10 ^ 6) (2 ^ 30)) /\
     tp (S754_finite false m e) 0 n = S754_infinity false) /\
  (n = 0 -> transferSizeGB n = S754_zero false /\ tp (S754_finite false m e) 0 n = S754_nan).
Proof.
  intros Ha Hc n. assert (Hz : ddiv (ddiv (ddiv (dmul (S754_finite false m e) (double_of 0)) (double_of 1000)) (double_of 1000))
      (double_of 1000) = S754_zero false) by reflexivity.
  split_and!.
  - unfold transferSize. rewrite (wrap_small 64 accesses), (wrap_small 64 chunkLength) by lia. apply wrap_small. nia.
  - intros Hn. destruct (transferSizeGB_exact n Hn) as (gm & ge & E & H1 & H2). split_and!.
    + by exists gm, ge.
    + rewrite E. unfold millionths. rewrite (proj2 (Z.leb_gt _ _)) by lia. f_equal. rewrite H2.
      replace (- ge) with (30 + - (ge + 30)) by lia. rewrite Z.pow_add_r by lia.
      rewrite <- (round_half_even_scale (n * 10 ^ 6) (2 ^ 30) (2 ^ (- (ge + 30)))) by lia. f_equal. lia.
    + unfold tp. by rewrite Hz, E.
  - intros ->. split; [reflexivity|]. unfold tp. by rewrite Hz.
Qed.

(** ** Instances: the default options, and a benchmark of 1 GiB in 2^26 cycles of 4 ns *)

(** The 640 bytes of the default options are printed as 0.000001 GiB. *)
Lemma throughput_exact_witness : transferSize 10 64 = 640 /\ millionths (transferSizeGB 640) = Some 1 /\
  tp default_clockPeriod 0 640 = S754_infinity false.
Proof.
  destruct (throughput_exact 10 64 4503599627370496 (-50) ltac:(lia) ltac:(lia)) as (H1 & H2 & _).
  destruct (H2 ltac:(lia)) as (_ & H3 & H4). split; [exact H1|]. split; [exact H3 | exact H4].
Defined.

(** The exact value is 10^9 / 2^28 = 8388608000000000 / 2^51 GiB/s; the divisions by 1000 round,
    and the result is one unit in the last place above it. *)
Example tp_gib : tp default_clockPeriod (2 ^ 26) (2 ^ 30) = S754_finite false 8388608000000001 (-51).
Proof. vm_compute. reflexivity. Qed.
