(* ===== verification/Main.v ===== *)
(** [src/sw/src/main.cpp]: the benchmark program, from its options to the calls
    of the host library ([Fpga], [FpgaController]).  The option parser is a
    library; its result is an argument here. *)
From S2P Require Import Prelude Mmio FpgaController DmaController MemoryManager XdmaIoctl Fpga.

(** ** Data *)

(** The options given on the command line, with the types declared for them. *)
Record options := Options {
  opt_memorySize : option Z;
  opt_accesses : option Z;
  opt_chunkLength : option Z;
  opt_strideLength : option Z;
  opt_isWrite : option bool;
  opt_testDDR : option bool;
  opt_ddrChannel : option Z;
  opt_clockPeriod : option Z }.

(** The local variables of [main] that the options determine, except for
    [clockPeriod]. *)
Record settings := Settings {
  memorySize : Z;
  accesses : Z;
  chunkLength : Z;
  strideLength : Z;
  isWrite : bool;
  useDDR : bool;
  ddrChannel : Z }.

Definition no_options : options := Options None None None None None None None None.

(** ** Operations *)

(** [memorySize], [isWrite], ... are default values unless the option is given.
    [clockPeriod] is declared as [unsigned int] and read [as<double>], which
    throws an exception that nobody catches. *)
Definition get_settings {W} (o : options) : M W settings :=
  match opt_clockPeriod o with
  | Some _ => exits
  | None => mret (Settings (default 4096 (opt_memorySize o)) (default 10 (opt_accesses o)) (default 64 (opt_chunkLength o))
      (default 0 (opt_strideLength o)) (default true (opt_isWrite o)) (default false (opt_testDDR o))
      (wrap 8 (default 0 (opt_ddrChannel o))))
  end.

Section main.
Context {D : Type} `{MmioDevice D}.
Variable big_endian : bool.
Variable fuel : nat.

Definition isRandom (s : settings) : bool := negb (strideLength s =? 0).

(** The choice of the benchmark. *)
Definition run_benchmark (s : settings) (baseAddr : Z) : M D Z :=
  if negb (useDDR s) then
    if negb (isRandom s) then
      if isWrite s then runDmaSeqWriteBenchmark big_endian fuel baseAddr (memorySize s) (accesses s) (chunkLength s)
      else runDmaSeqReadBenchmark big_endian fuel baseAddr (memorySize s) (accesses s) (chunkLength s)
    else
      if isWrite s then
        runDmaRandomWriteBenchmark big_endian fuel baseAddr (memorySize s) (accesses s) (chunkLength s) (strideLength s)
      else runDmaRandomReadBenchmark big_endian fuel baseAddr (memorySize s) (accesses s) (chunkLength s) (strideLength s)
  else
    if negb (isRandom s) then
      if isWrite s then
        runDramSeqWriteBenchmark big_endian fuel baseAddr (memorySize s) (accesses s) (chunkLength s) (ddrChannel s)
      else runDramSeqReadBenchmark big_endian fuel baseAddr (memorySize s) (accesses s) (chunkLength s) (ddrChannel s)
    else
      if isWrite s then
        runDramRandomWriteBenchmark big_endian fuel baseAddr (memorySize s) (accesses s) (chunkLength s) (strideLength s)
          (ddrChannel s)
      else
        runDramRandomReadBenchmark big_endian fuel baseAddr (memorySize s) (accesses s) (chunkLength s) (strideLength s)
          (ddrChannel s).
End main.

Section process.
Context {D : Type} `{MmioDevice D}.
Variable big_endian : bool.
Variable fuel : nat.
Variable k : kernel.

(** A call of a method of [Fpga::getController()]. *)
Definition with_controller {A} (m : M (world D) A) : M (world D) A :=
  c ← gets (controller ∘ statics); match c with Live _ => m | _ => undefined end.

Definition main (os : os) (u1 u2 : uaccess) (spurious : list bool) (o : options) : M (world D) Z :=
  setNodeId 0;;
  initializeMemory big_endian k os u1 u2;;
  s ← get_settings o;
  baseAddr ← Fpga.allocate spurious (memorySize s);
  with_controller (run_benchmark big_endian fuel s baseAddr);;
  with_controller (printDebugRegs big_endian);;
  with_controller (printDmaStatsRegs big_endian);;
  with_controller (printDdrStatsRegs big_endian 0);;
  with_controller (printDdrStatsRegs big_endian 1);;
  Fpga.free baseAddr;;
  clear;;
  mret 0.
End process.

(** ** Properties *)

Section dispatch.
Context {D : Type} `{MmioDevice D}.
Variable big_endian : bool.
Variable fuel : nat.

(** whatever the settings, [main] runs the one benchmark they describe: the
    DDR or DMA benchmark for the given direction, with the given stride, where
    the sequential variants are those with stride 0; and the called function
    ends without the promised value. *)
Theorem run_benchmark_selects s baseAddr (d : D) :
  let op := if isWrite s then WRITE else READ in
  run_benchmark big_endian fuel s baseAddr d =
    ((if useDDR s then
        runDramBenchmark big_endian fuel baseAddr (memorySize s) (accesses s) (chunkLength s) (strideLength s) op (ddrChannel s)
      else runDmaBenchmark big_endian fuel baseAddr (memorySize s) (accesses s) (chunkLength s) (strideLength s) op);;
     flows_off_end) d.
Proof.
  cbv zeta. unfold run_benchmark, isRandom.
  destruct (Z.eqb_spec (strideLength s) 0) as [-> |]; by destruct (useDDR s), (isWrite s).
Qed.
End dispatch.

(** Computations without an unbounded loop. *)
Definition never_runs {W A} (m : M W A) : Prop := forall w, m w <> Running.

Lemma never_runs_ret {W A} (a : A) : never_runs (mret a : M W A).
Proof. done. Qed.

Lemma never_runs_bind {W A B} (m : M W A) (f : A -> M W B) :
  never_runs m -> (forall a, never_runs (f a)) -> never_runs (m ≫= f).
Proof. intros Hm Hf w. unfold mbind, M_bind. specialize (Hm w). destruct (m w) as [[a w'] | | |]; [apply Hf | done..]. Qed.

Create HintDb runs.
#[export] Hint Resolve never_runs_ret : runs.
#[export] Hint Extern 1 (never_runs (_ ≫= _)) => apply never_runs_bind; [|intros] : runs.
#[export] Hint Extern 1 (never_runs (modify _)) => done : runs.
#[export] Hint Extern 1 (never_runs (gets _)) => done : runs.
#[export] Hint Extern 1 (never_runs (with_statics _)) => done : runs.
#[export] Hint Extern 1 (never_runs undefined) => done : runs.
#[export] Hint Extern 1 (never_runs exits) => done : runs.
#[export] Hint Extern 1 (never_runs flows_off_end) => done : runs.
#[export] Hint Extern 2 (never_runs (if ?b then _ else _)) => destruct b : runs.
#[export] Hint Extern 2 (never_runs (match ?x with _ => _ end)) => destruct x : runs.

Ltac runs := intros; auto 20 with runs.

Lemma reserve_loop_runs l : forall i n j, never_runs (reserve_loop l i n j).
Proof. induction l; cbn [reserve_loop]; runs. Qed.

Lemma fill_loop_runs k l : forall i n j arr, never_runs (fill_loop k l i n j arr).
Proof. induction l; cbn [fill_loop]; runs. Qed.

Lemma release_loop_runs l : forall i n, never_runs (release_loop l i n).
Proof. induction l; cbn [release_loop]; runs. Qed.

#[export] Hint Resolve reserve_loop_runs fill_loop_runs release_loop_runs : runs.

Lemma char_xdma_ioctl_runs k u c : never_runs (char_xdma_ioctl k u c).
Proof.
  destruct c; cbn [char_xdma_ioctl]; [unfold ioctl_do_buffer_set | unfold ioctl_do_mapping_get
    | unfold ioctl_release_mapping, vfree_pages |]; runs.
Qed.

Section outcome.
Context {D : Type} `{MmioDevice D}.
Variable big_endian : bool.
Variable fuel : nat.
Variable k : kernel.

Lemma ioctl_runs u c : never_runs (ioctl (D := D) k u c).
Proof.
  intros w. unfold ioctl. pose proof (char_xdma_ioctl_runs k u c (drv w)) as Hr.
  by destruct (char_xdma_ioctl k u c (drv w)) as [[[r c'] s] | | |].
Qed.

Lemma store_runs {W} `{MmioDevice W} off v : never_runs (store (D := W) off v).
Proof. intros w. unfold store. by destruct (_ && _). Qed.

Lemma insert_tlb_entries_runs arr : forall i n v, never_runs (insert_tlb_entries (D := D) big_endian arr i n v).
Proof.
  pose proof (@store_runs (world D) _). induction arr; cbn [insert_tlb_entries]; [runs|].
  intros. unfold writeTlb, writeReg_dma. runs.
Qed.

Lemma initializeMemory_runs o u1 u2 : never_runs (initializeMemory (D := D) big_endian k o u1 u2).
Proof. pose proof ioctl_runs. pose proof insert_tlb_entries_runs. unfold initializeMemory. runs. Qed.

Lemma initializeMemory_allocator o u1 u2 w w' :
  initializeMemory (D := D) big_endian k o u1 u2 w = Returns (tt, w') -> exists m, mm (statics w') = Live m.
Proof.
  unfold initializeMemory. intros HR. apply bind_inv in HR as (? & w1 & _ & HR).
  destruct (open_huge o =? -1); [done|]. apply bind_inv in HR as (? & w2 & _ & HR).
  destruct (mmap_huge o =? -1); [done|]. apply bind_inv in HR as (? & w3 & _ & HR).
  destruct (open_control o =? -1); [done|]. apply bind_inv in HR as (? & w4 & _ & HR).
  apply bind_inv in HR as (base & w5 & _ & HR). apply bind_inv in HR as (? & w6 & _ & HR).
  apply bind_inv in HR as ([? c] & w7 & _ & HR). apply bind_inv in HR as (ctl & w8 & _ & HR).
  destruct ctl; [done | | done]. apply bind_inv in HR as (? & w9 & _ & HR).
  injection HR as <-. by eexists.
Qed.

(** [main] never returns and never loops: the process ends when a device
    cannot be opened or mapped, and when [clockPeriod] is given; otherwise its
    behaviour is undefined as soon as [Fpga::allocate] is called, before any
    benchmark. *)
Theorem main_never_returns os u1 u2 spurious o (w : world D) :
  let w0 := World (device w) (FpgaState (controller (statics w)) (mm (statics w)) 0 (fd (statics w)) (hfd (statics w))
    (huge_base (statics w))) (drv w) in
  main big_endian fuel k os u1 u2 spurious o w =
  match initializeMemory big_endian k os u1 u2 w0 with
  | Returns _ => match opt_clockPeriod o with Some _ => Exits | None => Undefined end
  | Exits => Exits
  | _ => Undefined
  end.
Proof.
  intros w0. unfold main. rewrite (bind_returns _ _ _ tt w0 eq_refl). unfold mbind at 1, M_bind at 1.
  pose proof (initializeMemory_runs os u1 u2 w0) as Hr. pose proof (initializeMemory_allocator os u1 u2 w0) as Ha.
  destruct (initializeMemory big_endian k os u1 u2 w0) as [[[] w1] | | |]; [| done..].
  destruct (Ha w1 eq_refl) as [m Hm]. unfold get_settings. destruct (opt_clockPeriod o) as [p|]; [done|].
  rewrite (bind_returns _ _ _ _ w1 eq_refl). unfold mbind at 1, M_bind at 1. unfold Fpga.allocate.
  rewrite (bind_returns _ _ _ _ w1 eq_refl), Hm. by destruct (MemoryManager.allocate _ _ m).
Qed.
End outcome.
