(* ===== verification/Debug.v ===== *)
(** [src/sw/src/debug.cpp]: the program that prints the counters of the
    hardware, on top of [Fpga] and the print functions of [FpgaController]. *)
From stdpp Require Import gmap strings.
From S2P Require Import Prelude Mmio FpgaController DmaController DdrController MemoryManager XdmaIoctl Fpga Main.

(** ** Operations *)

Section process.
Context {D : Type} `{MmioDevice D}.
Variable big_endian : bool.
Variable k : kernel.

(** The exit code and the lines that are printed. *)
Definition main (os : os) (u1 u2 : uaccess) : M (world D) (Z * list (string * Z)) :=
  setNodeId 0;;
  initializeMemory big_endian k os u1 u2;;
  user ← with_controller (printDebugRegs big_endian);
  dma ← with_controller (printDmaStatsRegs big_endian);
  ddr0 ← with_controller (printDdrStatsRegs big_endian 0);
  ddr1 ← with_controller (printDdrStatsRegs big_endian 1);
  clear;;
  mret (0, user ++ dma ++ ddr0 ++ ddr1).
End process.

(** ** What is printed *)

Lemma with_controller_live {D A} (m : M (world D) A) w : controller (statics w) = Live tt -> with_controller m w = m w.
Proof. intros Hc. unfold with_controller. rewrite (bind_returns _ _ _ (controller (statics w)) w eq_refl). by rewrite Hc. Qed.

Lemma clear_live {D} (w : world D) m : controller (statics w) = Live tt -> mm (statics w) = Live m ->
  clear w = Returns (tt, World (device w) (FpgaState Deleted Deleted (nodeId (statics w)) (fd (statics w)) (hfd (statics w))
    (huge_base (statics w))) (drv w)).
Proof. intros Hc Hm. unfold clear, mbind, M_bind, gets, delete_ptr. by rewrite Hc, Hm. Qed.

(** Printing changes nothing outside the register block it reads. *)
Section keeps.
Context {D X : Type} `{MmioDevice D} (f : world D -> X).

Lemma keeps_print_dma : (forall a w, 4096 <= a < 8192 -> f (mmio_read a w).2 = f w) ->
  keeps f (printDmaStatsRegs (D := world D) false).
Proof.
  intros Hf. apply keeps_collect, keeps_reg_line, keeps_bind; [|intros; apply keeps_ret].
  apply keeps_load. intros w. by apply Hf.
Qed.

Lemma keeps_print_ddr0 : (forall a w, 8192 <= a < 12288 -> f (mmio_read a w).2 = f w) ->
  keeps f (printDdrStatsRegs (D := world D) false 0).
Proof.
  intros Hf. apply keeps_collect, keeps_reg_line, keeps_bind; [|intros; apply keeps_ret].
  apply keeps_load. intros w. by apply Hf.
Qed.
End keeps.

Lemma keeps_print_statics {D} `{MmioDevice D} c : keeps statics (printDdrStatsRegs (D := world D) false c).
Proof.
  apply keeps_collect, keeps_reg_line. unfold readReg_ddr. destruct (_ !! _); [|done].
  apply keeps_bind; [|intros; apply keeps_ret]. apply keeps_load. intros w. cbn. by destruct (mmio_read _ (device w)).
Qed.

Section report.
Context {D : Type} `{MmioDevice D}.
Context {R : Routed D dma_ctrl 4096 dma_ctrl_write dma_ctrl_read}.
Context {R0 : Routed D ddr_ctrl 8192 ddr_ctrl_write ddr_ctrl_read} {A0 : Apart D ddr_ctrl (routed := R0)}.
Context {R1 : Routed D ddr_ctrl 12288 ddr_ctrl_write ddr_ctrl_read} {A1 : Apart D ddr_ctrl (routed := R1)}.
Variable k : kernel.

Definition dma_block (w : world D) : dma_ctrl := block (Routed := R) (device w).
Definition ddr0_block (w : world D) : ddr_ctrl := block (Routed := R0) (device w).
Definition ddr1_block (w : world D) : ddr_ctrl := block (Routed := R1) (device w).

(** The blocks are in different parts of the address space. *)
Ltac other_block := intros; first [apply (apart_write (D := D)) | apply (apart_read (D := D))]; lia.

(** The three reports of a program whose objects exist. *)
Lemma print_reports (w1 : world D) : debugRegAddr (dma_block w1) = 0 \/ debugRegAddr (dma_block w1) = 10 ->
  statsRegAddr (ddr0_block w1) = 0 \/ statsRegAddr (ddr0_block w1) = 13 ->
  statsRegAddr (ddr1_block w1) = 0 \/ statsRegAddr (ddr1_block w1) = 13 ->
  exists w2 w3 w4,
    printDmaStatsRegs false w1 = Returns (dma_stats_report (stats (dma_block w1)), w2) /\
    printDdrStatsRegs false 0 w2 = Returns (ddr_stats_report (ddr_counters (ddr0_block w1)), w3) /\
    printDdrStatsRegs false 1 w3 = Returns (ddr_stats_report (ddr_counters (ddr1_block w1)), w4) /\
    statics w2 = statics w1 /\ statics w3 = statics w1 /\ statics w4 = statics w1.
Proof.
  intros Hd Hd0 Hd1.
  assert (G0 : forall a w', ~ 8192 <= a < 8192 + 4096 -> ddr0_block (mmio_read a w').2 = ddr0_block w').
  { intros a w' Hna. exact (apart_read (D := world D) a w' Hna). }
  assert (G1 : forall a w', ~ 12288 <= a < 12288 + 4096 -> ddr1_block (mmio_read a w').2 = ddr1_block w').
  { intros a w' Hna. exact (apart_read (D := world D) a w' Hna). }
  destruct (@print_dma_stats (world D) _ (world_routed (Routed0 := R)) w1 Hd) as (w2 & R2 & _ & _).
  pose proof (keeps_print_dma statics ltac:(intros a w' _; cbn; by destruct (mmio_read a (device w'))) _ _ _ R2) as S2.
  pose proof (keeps_print_dma ddr0_block ltac:(intros; apply G0; lia) _ _ _ R2) as E2.
  pose proof (keeps_print_dma ddr1_block ltac:(intros; apply G1; lia) _ _ _ R2) as F2.
  rewrite <- E2 in Hd0 |- *.
  destruct (@print_ddr_stats 0 8192 eq_refl (world D) _ (world_routed (Routed0 := R0)) w2 Hd0) as (w3 & R3 & _ & _).
  pose proof (keeps_print_statics 0 _ _ _ R3) as S3.
  pose proof (keeps_print_ddr0 ddr1_block ltac:(intros; apply G1; lia) _ _ _ R3) as F3.
  rewrite F2 in F3. rewrite <- F3 in Hd1 |- *.
  destruct (@print_ddr_stats 1 12288 eq_refl (world D) _ (world_routed (Routed0 := R1)) w3 Hd1) as (w4 & R4 & _ & _).
  pose proof (keeps_print_statics 1 _ _ _ R4) as S4.
  exists w2, w3, w4. split_and!; [exact R2 | exact R3 | exact R4 | congruence..].
Qed.

(** on a machine where the buffer can be pinned, the debug program returns
    0 after printing every counter of the DMA and of the two DDR channels under
    its own name, with the values the hardware held when the program started;
    it deletes what it has created.  The debug registers are not printed. *)
Theorem debug_reports o pgs (w : world D) : buffer_pinned k (mmap_huge o) pgs ->
  word_counter (dma_block w) = 0 -> debugRegAddr (dma_block w) = 0 \/ debugRegAddr (dma_block w) = 10 ->
  statsRegAddr (ddr0_block w) = 0 \/ statsRegAddr (ddr0_block w) = 13 ->
  statsRegAddr (ddr1_block w) = 0 \/ statsRegAddr (ddr1_block w) = 13 ->
  controller (statics w) <> Deleted ->
  open_huge o <> -1 -> open_control o <> -1 -> 0 <= mmap_huge o -> mmap_huge o + DMA_SIZE < 2 ^ 64 ->
  exists w', main false k o uaccess_ok uaccess_ok w =
      Returns ((0, dma_stats_report (stats (dma_block w)) ++ ddr_stats_report (ddr_counters (ddr0_block w)) ++
        ddr_stats_report (ddr_counters (ddr1_block w))), w') /\
    controller (statics w') = Deleted /\ mm (statics w') = Deleted.
Proof.
  intros Hbp Hwc Hd Hd0 Hd1 Hctl Ho Hc Hm0 Hm.
  set (w0 := World (device w) (FpgaState (controller (statics w)) (mm (statics w)) 0 (fd (statics w)) (hfd (statics w))
    (huge_base (statics w))) (drv w)).
  destruct (ioctls_pinned k _ _ (before_ioctls o w0) Hbp) as (arr & Hio & Hl & Ha).
  destruct (initializeMemory_run k o uaccess_ok uaccess_ok arr w0) as (w1 & Ri & Hs1 & [Ht1 Hc1] & _); try done.
  { exact (mapped_phys_bound k _ _ Ha (bp_phys _ _ _ Hbp)). }
  assert (E1 : ddr0_block w1 = ddr0_block w).
  { refine (keeps_initializeMemory ddr0_block k o _ _ _ _ w0 _ _ Ri); [|done]. other_block. }
  assert (F1 : ddr1_block w1 = ddr1_block w).
  { refine (keeps_initializeMemory ddr1_block k o _ _ _ _ w0 _ _ Ri); [|done]. other_block. }
  change (debugRegAddr (block w0)) with (debugRegAddr (dma_block w)) in Hc1.
  change (stats (block w0)) with (stats (dma_block w)) in Ht1.
  rewrite <- Hc1 in Hd. rewrite <- E1 in Hd0 |- *. rewrite <- F1 in Hd1 |- *. rewrite <- Ht1.
  destruct (print_reports w1 Hd Hd0 Hd1) as (w2 & w3 & w4 & R2 & R3 & R4 & S2 & S3 & S4).
  exists (World (device w4) (FpgaState Deleted Deleted (nodeId (statics w4)) (fd (statics w4)) (hfd (statics w4))
    (huge_base (statics w4))) (drv w4)). split; [|done].
  unfold main. rewrite (bind_returns _ _ _ tt w0 eq_refl), (bind_returns _ _ _ _ _ Ri).
  rewrite (bind_returns _ _ w1 [] w1) by (by rewrite with_controller_live by by rewrite Hs1).
  rewrite (bind_returns _ _ w1 _ w2) by (rewrite with_controller_live by (by rewrite Hs1); exact R2).
  rewrite (bind_returns _ _ w2 _ w3) by (rewrite with_controller_live by (by rewrite S2, Hs1); exact R3).
  rewrite (bind_returns _ _ w3 _ w4) by (rewrite with_controller_live by (by rewrite S3, Hs1); exact R4).
  rewrite (bind_returns _ _ w4 _ _ (clear_live w4 (MemoryManager (memory o) (mmap_huge o) DMA_SIZE)
    ltac:(by rewrite S4, Hs1) ltac:(by rewrite S4, Hs1))). done.
Qed.
End report.

(** ** Instance: a board with the three register blocks *)

Record board := Board { b_dma : dma_ctrl; b_ddr0 : ddr_ctrl; b_ddr1 : ddr_ctrl }.

Definition within (base a : Z) : bool := (base <=? a) && (a <? base + 4096).

Lemma within_spec base a : reflect (base <= a < base + 4096) (within base a).
Proof. apply iff_reflect. unfold within. by rewrite andb_true_iff, Z.leb_le, Z.ltb_lt. Qed.

#[export] Instance board_mmio : MmioDevice board := {|
  mmio_write a v b := if within 4096 a then Board (dma_ctrl_write a v (b_dma b)) (b_ddr0 b) (b_ddr1 b) else b;
  mmio_read a b :=
    if within 4096 a then let '(x, s) := dma_ctrl_read a (b_dma b) in (x, Board s (b_ddr0 b) (b_ddr1 b))
    else if within 8192 a then let '(x, s) := ddr_ctrl_read a (b_ddr0 b) in (x, Board (b_dma b) s (b_ddr1 b))
    else if within 12288 a then let '(x, s) := ddr_ctrl_read a (b_ddr1 b) in (x, Board (b_dma b) (b_ddr0 b) s)
    else (0, b);
  elapse b := b |}.

Ltac board_cases := intros; cbn; repeat match goal with |- context [within ?b ?a] => destruct (within_spec b a) end;
  try lia; try done;
  repeat match goal with |- context [dma_ctrl_read ?a ?s] => destruct (dma_ctrl_read a s) end;
  repeat match goal with |- context [ddr_ctrl_read ?a ?s] => destruct (ddr_ctrl_read a s) end; done.

#[export] Instance board_dma : Routed board dma_ctrl 4096 dma_ctrl_write dma_ctrl_read.
Proof. refine {| block := b_dma |}; board_cases. Defined.
#[export] Instance board_ddr0 : Routed board ddr_ctrl 8192 ddr_ctrl_write ddr_ctrl_read.
Proof. refine {| block := b_ddr0 |}; board_cases. Defined.
#[export] Instance board_ddr1 : Routed board ddr_ctrl 12288 ddr_ctrl_write ddr_ctrl_read.
Proof. refine {| block := b_ddr1 |}; board_cases. Defined.
#[export] Instance board_apart0 : Apart board ddr_ctrl (routed := board_ddr0).
Proof. constructor; board_cases. Qed.
#[export] Instance board_apart1 : Apart board ddr_ctrl (routed := board_ddr1).
Proof. constructor; board_cases. Qed.

Definition demo_full_board : board :=
  Board demo_dma_ctrl (DdrCtrl 0 false false (ddr_counters demo_ddr_ctrl)) demo_ddr_ctrl.

Lemma debug_reports_witness : exists w',
  main false demo_fpga_kernel demo_os uaccess_ok uaccess_ok (World demo_full_board fpga_init driver_init) =
  Returns ((0, dma_stats_report (stats demo_dma_ctrl) ++ ddr_stats_report (ddr_counters demo_ddr_ctrl) ++
    ddr_stats_report (ddr_counters demo_ddr_ctrl)), w').
Proof.
  destruct (debug_reports (D := board) (R := board_dma) (R0 := board_ddr0) (R1 := board_ddr1) demo_fpga_kernel demo_os
    (seqZ 0x40000 524288) (World demo_full_board fpga_init driver_init)) as (w' & Hr & _);
    [exact demo_pinned | reflexivity | left; reflexivity | left; reflexivity | right; reflexivity
    | discriminate | discriminate | discriminate | discriminate | reflexivity |].
  exists w'. exact Hr.
Defined.
